(* ===== verification/_CoqProject ===== *)
-Q . S2P
Prelude.v
PyStr.v
PyNum.v
PyPath.v
PyRe.v
PyReSyntax.v
PyReTheory.v
PyDate.v
KdocRe.v
CLex.v
CLexTheory.v
CLexSpec.v
Xforms.v
KdocItem.v
KdocEntry.v
KdocParams.v
KdocStruct.v
KdocLoops.v
KdocParamsTheory.v
KdocDump.v
KdocDumpTheory.v
KdocProcess.v
KdocMachine.v
KdocSpec.v
KdocOutput.v
KdocOutputTheory.v
KdocOutputSpec.v
KdocText.v
KdocMan.v
KdocManSpec.v
KdocYaml.v
KdocYamlSpec.v
KdocFiles.v
KdocFilesSpec.v
ParseData.v
ParseDataSpec.v
AutoMarkup.v
AutoMarkupSpec.v
Argparse.v
ArgparseSpec.v
Commands.v
CommandsSpec.v
PyVersion.v
PyVersionSpec.v
TestDocBuild.v
TestDocBuildSpec.v
Directive.v
DirectiveSpec.v
KdocShared.v
Trans.v
TransSpec.v
Renames.v
RenamesSpec.v
KdocMain.v
KdocMainSpec.v
KdocCommandSpec.v
Tools.v
ToolsSpec.v
PreInstall.v
PreInstallSpec.v
Conf.v
ConfSpec.v
PyShlex.v
BuildWrapper.v
BuildWrapperSpec.v
KdocDiff.v
KdocDiffSpec.v
