(* ===== verification/Prelude.v ===== *)
(** * kernel-doc: a verification library for the documentation tooling

    The program is the Python part of the repository.  Its core, under
    [src/docs/kerneldoc-src/tools/lib/python/kdoc/] (file names below are
    relative to it), reads C sources, finds the documentation comments and
    the prototypes after them, and writes reStructuredText or man pages.  Around
    it are the command [kernel-doc] and other scripts in
    [src/docs/kerneldoc-src/tools/docs/] ([docs/] below), the extensions of
    sphinx in [src/docs/sphinx/] ([sphinx/] below), and [src/docs/generate_rst.py].

<<
    docs/kernel-doc: main()           sphinx/kerneldoc.py: the directive
                \____________________  ___________/
                                     \/
    kdoc_files.py   KernelFiles: which files, parsed once each, which symbols
         |   \____________________________
         v                                v
    kdoc_parser.py  KernelDoc        kdoc_output.py  OutputFormat
    one line at a time: a state         |  RestFormat, ManFormat
    machine fills a KernelEntry,        |  filters, then one method
    a prototype ends it -> KdocItem ----+  per kind of item
         |            \
         v             v
    xforms_lists.py   c_lex.py  CTokenizer, CMatch, CTokenArgs
    macros removed       |
         \_______________v
                      kdoc_re.py  KernRe: cached regular expressions

    parse_data_structs.py  ParseDataStructs: headers as literal blocks with
                           cross references, or a table of their symbols
    sphinx/automarkup.py   names in texts become references
    generate_rst.py        the pages that hold the directives
>>

    ** Files

    Foundations.
    - [Prelude]: results that may raise ([res], [exn]), the state-and-error
      monad [ST] with its reasoning principle [hoare], loops ([for_each],
      [for_acc]), Python's dictionaries ([dict], an association list in the
      order of insertion), sets and sorting.
    - [PyStr], [PyNum], [PyPath]: the methods of [str] that the sources call;
      [int] and [str] on integers; [os.path].
    - [Argparse]: [argparse], as the scripts use it: a parser is the list of its
      arguments, [parse_args] runs it as Python 3.11 does.  [ArgparseSpec]: it always
      ends, and the values of the namespace have their types.
    - [PyDate]: [datetime.strptime] and its result, for the directives the
      sources use; [PyShlex]: [shlex.split].
    - [PyRe], [PyReSyntax], [PyReTheory]: Python's [re].  [re_compile] parses
      the text of a pattern, so every pattern is quoted here as the source
      writes it; [m_run] is the backtracking matcher.  [PyReTheory] gives a
      relational reading of expressions, proves the matcher sound and complete
      for it, and relates groups to the languages of sub-expressions.

    Parsing; each line names the source of the definitions.
    - [KdocRe] ([kdoc_re.py]): [KernRe] and the dictionary [re_cache].
    - [CLex] ([c_lex.py]): Modules [CToken], [CTokenizer], [CTokenArgs],
      [CMatch]; theory in [CLexTheory], properties in [CLexSpec].
    - [Xforms] ([xforms_lists.py]): the lists of replacements and
      [CTransforms.apply].
    - [KdocItem] ([kdoc_item.py]): the record that the parser gives to the
      output, and [item_ok], what the output may rely on.
    - [KdocEntry], [KdocParams], [KdocStruct], [KdocDump], [KdocProcess]
      ([kdoc_parser.py]): in the order of the source, [KernelEntry]; parameter
      lists and checks; the bodies of structures; the object [KernelDoc] with
      its [dump_*] methods; and the state machine, one definition per
      [process_*] handler, up to [parse_kdoc].
    - Their theory: [KdocLoops] (the [while] loops end), [KdocParamsTheory],
      [KdocDumpTheory], [KdocMachine] (the invariant of each state); the
      properties are in [KdocSpec].

    Output.
    - [KdocOutput] and [KdocMan] ([kdoc_output.py]): [OutputFormat] with the
      filters, [RestFormat], [ManFormat].  An output class is a record
      [format_class] of its virtual methods; [FormatLaws] is the interface
      they promise (a method leaves the filters alone, and a hidden [DOC:]
      section leaves everything alone), with an instance for each class.  Theory in [KdocOutputTheory],
      properties in [KdocOutputSpec] and [KdocManSpec].  [KdocText] has the pieces
      of text that [RestFormat] writes for an item, and the proof that it does.
    - [KdocYaml] ([kdoc_yaml_file.py]): [KDocTestFile], which stores items
      and outputs as tests; properties in [KdocYamlSpec].
    - [KdocFiles] ([kdoc_files.py]): [GlobSourceFiles] and [KernelFiles];
      properties in [KdocFilesSpec].
    - [ParseData] ([parse_data_structs.py]); properties in [ParseDataSpec].

    Around the core; the properties of each file [X] are in [XSpec].
    - [KdocMain] ([docs/kernel-doc]): the arguments and [main].
    - [Directive] ([sphinx/kerneldoc.py]): [handle_args], [run_kdoc],
      [parse_msg] and [run].  [KdocShared]: the states of the one [KernelFiles]
      that all the directives of a build share, and what they have in common.
    - [KdocCommandSpec] has the theorems about the last two together.
    - [AutoMarkup] ([sphinx/automarkup.py]).
    - [PyVersion] ([python_version.py]): [PythonVersion].
    - [Trans] ([docs/checktransupdate.py]); [Renames] ([docs/gen-renames.py] and
      [docs/gen-redirects.py]).
    - [Commands] ([docs/parse-headers.py], [docs/get_feat.py],
      [docs/get_abi.py]).
    - [Tools]: Modules [LatexFonts] ([latex_fonts.py],
      [docs/check-variable-fonts.py]), [EnrichFormatter] ([enrich_formatter.py])
      and [GenerateRst] ([generate_rst.py]).
    - [TestDocBuild] ([docs/test_doc_build.py]), [BuildWrapper]
      ([docs/sphinx-build-wrapper]) and [KdocDiff] ([docs/kdoc_diff]): what they
      run is a parameter, what they have done is in the state.  The
      promises of git are the classes [CommitLaws] and [BranchLaws] of
      [KdocDiffSpec].
    - [PreInstall] ([docs/sphinx-pre-install]): [DepManager], the checks, the hints for
      each kind of system, the recommendations and [check_needs]; a [system] says what
      the machine has.  The proofs rest on the class [Steady] of [PreInstallSpec], the
      predicates that every check and every hint keeps.
    - [Conf] ([sphinx/conf.py], and [setup] of the two extensions): [ConfSpec] puts
      [Conf], [GenerateRst], [Directive], [KdocShared], [KdocFiles],
      [KdocProcess] and [KdocText] together.

    ** How state and errors are written

    A method of a Python class is an [ST S A], a function from the object to
    the object and a value or an exception, so the changes made before an
    exception are kept.  The objects are the records [KernelEntry],
    [KernelDoc], [OutputFormat], [KernelFiles] and [ParseDataStructs].  An
    attribute that [__init__] does not create is an [option]: reading it when
    it is [None] raises [AttributeError].  A subscript out of range raises
    [IndexError], a missing key [KeyError], a missing group of a template
    what Python raises for it.  The log is a list in the object, so how many
    messages there are, and in which order, is part of the statements.

    ** What is shown

    - Parser.  On any text [parse_kdoc] ends with a well-formed object or
      raises one of three exceptions, each tied to a state; handlers only go
      along the edges of the state diagram; items are only appended; the
      sections of an entry are merged; the [while] loops end on every text and
      what they leave behind is characterised; the members of an enum and the
      export table are those the text lists.
    - Tokenizer and macros.  Tokens concatenate to the source, have the form
      of their kind, and levels balance; [CMatch._search] finds exactly the
      invocations and [CMatch.sub] replaces them, with the arguments split at every
      comma, those between inner delimiters too; private regions are hidden.
    - Regular expressions.  [KernRe] refines compiling afresh while no text is
      used with two values of the flags, and only then.
    - Output.  The filters commute with dispatch for every class that obeys
      the laws; an item of the parser is output by [RestFormat] and
      [ManFormat] or raises one of the listed exceptions; the two
      [output_highlight] end, and lose no line; parsing then output composes: the
      text of a file holds the pieces of every item that the filters keep, in the
      order of the items.
    - Files.  The caches of [KernelFiles] stay coherent also after an
      exception; a file parsed once is not parsed again; a directory walk
      yields the files below it.
    - Headers.  [parse_file] keeps the text, and records words of the file;
      [parse-headers.py --toc] writes the table of them for any header.
    - Test files.  Whatever calls are made of [KernelFiles], the tests it writes have
      distinct names, and their items load as the items they were made from.
    - The directive and the command.  The command line that the directive logs,
      read by a shell and by the argument parser, prints what the directive
      has shown, in every state of the object that the directives share, unless
      an earlier directive has left there excluded names or a line prefix, or has
      had files with exported names read; the lines of the output are attributed to the lines of the
      source that the markers name; any command line of [kernel-doc] is read into
      values of the right types or ends the process.
    - Automatic markup keeps the text of a node, except that a mention of a
      document is shown as what sphinx makes of it, and that an overlap of two
      mentions is shown twice.
    - Scripts.  A printed command is read back by a shell as its words, and its lines
      are at most four characters wider than asked for, which is reached; the
      interpreter that replaces an old one is the newest, and the search for it
      raises only when a candidate cannot be run; the log of
      [checktransupdate.py] has one complete report for each translation and the
      walk through the history ends; redirects
      are those of the history, and their pages lead to the present ones; the
      generated pages name exactly the sources, and the directive on each shows
      what the parser makes of that file, whatever directives ran before
      ([documentation_built]).
    - Builds.  The versions of sphinx that are asked for are handled in order with the
      packages each needs, up to the first command that fails; [sphinx-build]
      is called once for each folder; a build of PDF files succeeds exactly
      when for every source LaTeX has ended with status 0 and the file is there,
      in whatever order the workers end; the man
      pages that [ManFormat] writes are split into one file each.
    - [sphinx-pre-install] says that nothing is missing only when what a build needs is
      there; the command it proposes installs exactly what is missing; the virtual
      environment it proposes is the first that works.
    - [kdoc_diff] restores the branch it was started on, also after a signal, and what it compares is
      the output at the two commits.

    Some theorems show what the code does where that is not what its comments
    say: they are stated as equalities or as exceptions reached by a concrete
    input.

    ** Bounds and fuel

    - A repetition in a regular expression runs with as much fuel as its
      minimum count and the characters left, plus two; as in Python a repetition does not start
      twice at one position, which is why it is enough: [m_run] is complete
      for the relational reading ([PyReTheory]).  [iter_fuel] bounds the
      matches of [finditer] by twice the length of the subject, plus two.
    - A [while] loop of the parser runs with a bound computed from its text,
      and each has a measure that decreases at every turn ([KdocLoops]); the
      theorems say the loop returns, not only what it returns.  When fuel is
      exhausted a definition raises [OutOfFuel], which no other code raises.
    - The search for a fresh name of a test tries at most one more name than there
      are tests; the walk back through the history of a file ([origin_loop]) takes
      the length of the history, given as a rank of its commits; the walk through
      folders ([list_loop]) takes the number of folders; [parse_loop] of [Argparse]
      takes the number of words.
    - Integers are Python's, without bound: [nat] where they are lengths,
      indices or line numbers, [Z] where they can be negative.

    ** What is not modelled

    - Characters above 255: the classification of characters in [PyStr] is
      Python's for the Latin-1 range.
    - The operating system: the texts of files, the directory tree and the
      environment are arguments; the clock, the names of the time zones and a
      terminal likewise.  [strptime] leaves out a fraction of a second in an
      offset from UTC.
    - The debug messages of the kdoc library, the level of the log of [get_abi.py],
      and the messages of [argparse].  The messages of [kernel-doc] are kept in the
      object that logs them, not merged into one stream.
    - What other programs and packages do: git, [fc-list], [uname], other
      interpreters, the YAML package, docutils and sphinx, and the classes for
      features and the ABI, which are not in the repository.  Their answers are
      parameters, with hypotheses where a theorem relies on them.
    - The date: [kernel-doc] as [kdoc_diff] runs it is a function of the tree, so the
      month of its man pages is the same in one run.
    - In the scripts that run others, what these do besides their answers: a
      build that writes files is a call with a status.
    - The C programs under [src/wisp/]. *)

From Stdlib Require Export Ascii String ZArith Lia Sorted.
From stdpp Require Export base tactics list strings pretty gmap.

(** Everything below is stated with Stdlib strings ([string]); [+:+] is the
    string concatenation of stdpp.  [py_scope] holds the notations of this
    development. *)
Declare Scope py_scope.
Delimit Scope py_scope with py.
#[global] Open Scope py_scope.

(** ** Automation *)

Create HintDb py discriminated.
Create Rewrite HintDb py_simpl.

(** Case analysis on the scrutinee of the first [match] / [if] in sight. *)
Ltac case_match_in H :=
  match type of H with
  | context [ match ?x with _ => _ end ] =>
      let E := fresh "E" in destruct x eqn:E
  end.
Ltac case_match_goal :=
  match goal with
  | |- context [ match ?x with _ => _ end ] =>
      let E := fresh "E" in destruct x eqn:E
  end.

(** Turns boolean equations in the context into propositions. *)
Ltac bool_facts :=
  repeat match goal with
  | H : (_ && _)%bool = true |- _ => apply andb_prop in H as [? ?]
  | H : (_ || _)%bool = false |- _ => apply orb_false_elim in H as [? ?]
  | H : negb _ = true |- _ => apply negb_true_iff in H
  | H : negb _ = false |- _ => apply negb_false_iff in H
  | H : (_ =? _)%nat = true |- _ => apply Nat.eqb_eq in H
  | H : (_ =? _)%nat = false |- _ => apply Nat.eqb_neq in H
  | H : (_ <? _)%nat = true |- _ => apply Nat.ltb_lt in H
  | H : (_ <? _)%nat = false |- _ => apply Nat.ltb_ge in H
  | H : (_ <=? _)%nat = true |- _ => apply Nat.leb_le in H
  | H : (_ <=? _)%nat = false |- _ => apply Nat.leb_gt in H
  | H : (_ =? _)%string = true |- _ => apply String.eqb_eq in H
  | H : (_ =? _)%string = false |- _ => apply String.eqb_neq in H
  | H : (_ =? _)%char = true |- _ => apply Ascii.eqb_eq in H
  | H : (_ =? _)%char = false |- _ => apply Ascii.eqb_neq in H
  | H : bool_decide _ = true |- _ => apply bool_decide_eq_true in H
  | H : bool_decide _ = false |- _ => apply bool_decide_eq_false in H
  end.

(** ** Strings: the algebra of [+:+] *)

#[global] Arguments String.append !s1 s2 : simpl nomatch.

Lemma sapp_nil_r (s : string) : s +:+ "" = s.
Proof. induction s as [|c s IH]; simpl; [done | by rewrite IH]. Qed.

Lemma sapp_assoc (a b c : string) : (a +:+ b) +:+ c = a +:+ (b +:+ c).
Proof. induction a as [|x a IH]; simpl; [done | by rewrite IH]. Qed.

Lemma slen_app (a b : string) :
  String.length (a +:+ b) = String.length a + String.length b.
Proof. induction a as [|x a IH]; simpl; [done | by rewrite IH]. Qed.

Lemma sapp_inv_l (p a b : string) : p +:+ a = p +:+ b → a = b.
Proof. induction p as [|c p IH]; simpl; [done | intros [= H]; auto]. Qed.

Lemma sapp_inv_len (a1 a2 b1 b2 : string) :
  a1 +:+ b1 = a2 +:+ b2 → String.length a1 = String.length a2 → a1 = a2 ∧ b1 = b2.
Proof.
  revert a2; induction a1 as [|c a1 IH]; intros [|d a2]; simpl; try done.
  intros [= -> H] [= L]. destruct (IH a2 H L) as [-> ->]. done.
Qed.

Lemma sapp_eq_nil (a b : string) : a +:+ b = "" → a = "" ∧ b = "".
Proof. destruct a; simpl; [done | discriminate]. Qed.

Lemma slen_0 (s : string) : String.length s = 0 → s = "".
Proof. by destruct s. Qed.

#[export] Hint Rewrite sapp_nil_r sapp_assoc slen_app : py_simpl.

(** Concatenation of a list of strings: ["".join(l)]. *)
Definition sconcat (l : list string) : string := foldr String.append "" l.

#[global] Arguments sconcat : simpl never.

Lemma sconcat_cons x l : sconcat (x :: l) = x +:+ sconcat l.
Proof. done. Qed.

Lemma sconcat_app l1 l2 : sconcat (l1 ++ l2) = sconcat l1 +:+ sconcat l2.
Proof.
  induction l1 as [|x l1 IH]; [done|].
  cbn [app]. rewrite !sconcat_cons, IH. by rewrite sapp_assoc.
Qed.
#[export] Hint Rewrite sconcat_app sconcat_cons : py_simpl.

(** All characters of a string satisfy [p]. *)
Fixpoint sall (p : ascii → bool) (s : string) : bool :=
  match s with
  | EmptyString => true
  | String c t => (p c && sall p t)%bool
  end.

Lemma sall_app p a b : sall p (a +:+ b) = (sall p a && sall p b)%bool.
Proof. induction a as [|c a IH]; simpl; [done | by rewrite IH, andb_assoc]. Qed.

Lemma sall_impl (p q : ascii → bool) s :
  (∀ c, p c = true → q c = true) → sall p s = true → sall q s = true.
Proof.
  intros Hpq. induction s as [|c s IH]; simpl; [done|].
  intros [H1 H2]%andb_prop. rewrite (Hpq _ H1). by apply IH.
Qed.

(** Number of characters satisfying [p]. *)
Fixpoint scount (p : ascii → bool) (s : string) : nat :=
  match s with
  | EmptyString => 0
  | String c t => (if p c then 1 else 0) + scount p t
  end.

Lemma scount_app p a b : scount p (a +:+ b) = scount p a + scount p b.
Proof. induction a as [|c a IH]; simpl; [done | rewrite IH; lia]. Qed.

Lemma scount_le_len p s : scount p s ≤ String.length s.
Proof. induction s as [|c s IH]; simpl; [done | destruct (p c); lia]. Qed.

Lemma scount_none p s : sall (λ c, negb (p c)) s = true → scount p s = 0.
Proof.
  induction s as [|c s IH]; simpl; [done|].
  intros [H1 H2]%andb_prop. apply negb_true_iff in H1. rewrite H1. by apply IH.
Qed.
#[export] Hint Rewrite sall_app scount_app : py_simpl.

(** Python slices of strings.  [str_take n s] is [s[:n]], [str_drop n s] is
    [s[n:]]; both truncate as Python does. *)
Fixpoint str_take (n : nat) (s : string) : string :=
  match n, s with
  | S n', String c t => String c (str_take n' t)
  | _, _ => ""
  end.
Fixpoint str_drop (n : nat) (s : string) : string :=
  match n, s with
  | S n', String _ t => str_drop n' t
  | O, _ => s
  | _, EmptyString => ""
  end.
(** [s[i:j]] for [0 <= i], [0 <= j]. *)
Definition str_slice (i j : nat) (s : string) : string :=
  str_take (j - i) (str_drop i s).

Lemma str_take_drop n s : str_take n s +:+ str_drop n s = s.
Proof. revert s; induction n as [|n IH]; intros [|c s]; simpl; try done. by rewrite IH. Qed.
Lemma str_take_app a b : str_take (String.length a) (a +:+ b) = a.
Proof. induction a as [|c a IH]; simpl; [by destruct b | by rewrite IH]. Qed.
Lemma str_drop_app a b : str_drop (String.length a) (a +:+ b) = b.
Proof. induction a as [|c a IH]; simpl; [by destruct b | done]. Qed.
Lemma str_slice_app a b c :
  str_slice (String.length a) (String.length a + String.length b) (a +:+ b +:+ c) = b.
Proof.
  unfold str_slice. rewrite str_drop_app.
  replace (_ + _ - _) with (String.length b) by lia. apply str_take_app.
Qed.
Lemma str_take_len n s : String.length (str_take n s) = min n (String.length s).
Proof. revert s; induction n as [|n IH]; intros [|c s]; simpl; try done. by rewrite IH. Qed.
Lemma str_drop_len n s : String.length (str_drop n s) = String.length s - n.
Proof. revert s; induction n as [|n IH]; intros [|c s]; simpl; try done. Qed.
Lemma str_take_all n s : String.length s ≤ n → str_take n s = s.
Proof.
  revert s; induction n as [|n IH]; intros [|c s] H; simpl in *; try done; [lia|].
  rewrite IH; [done | lia].
Qed.

(** ** Python dictionaries

    A [dict] keeps its keys in insertion order, so it is an association list:
    assignment to a present key keeps its place, to a new key appends it. *)

Abbreviation dict V := (list (string * V)).

Section Dict.
Context {V : Type}.
Implicit Types (d : dict V) (k : string) (v : V).

Fixpoint dget d k : option V :=
  match d with
  | [] => None
  | (k', v) :: d' => if (k' =? k)%string then Some v else dget d' k
  end.
Fixpoint dset d k v : dict V :=
  match d with
  | [] => [(k, v)]
  | (k', v') :: d' => if (k' =? k)%string then (k, v) :: d' else (k', v') :: dset d' k v
  end.
Fixpoint ddel d k : dict V :=
  match d with
  | [] => []
  | (k', v') :: d' => if (k' =? k)%string then d' else (k', v') :: ddel d' k
  end.
(** [k in d] *)
Definition dmem d k : bool := match dget d k with Some _ => true | None => false end.
(** [d.get(k, dflt)] *)
Definition dget_or d k v : V := default v (dget d k).
Definition dkeys d : list string := map fst d.

Lemma dget_dset_eq d k v : dget (dset d k v) k = Some v.
Proof.
  induction d as [|[k' v'] d IH]; simpl; [by rewrite String.eqb_refl|].
  destruct (k' =? k)%string eqn:E; simpl; [by rewrite String.eqb_refl | by rewrite E].
Qed.

Lemma dget_dset_ne d k k' v : k ≠ k' → dget (dset d k v) k' = dget d k'.
Proof.
  intros Hne. assert (E0 : (k =? k')%string = false) by by apply String.eqb_neq.
  induction d as [|[k1 v1] d IH]; simpl; [by rewrite E0|].
  destruct (k1 =? k)%string eqn:E; simpl.
  - apply String.eqb_eq in E; subst. by rewrite E0.
  - destruct (k1 =? k')%string; [done | apply IH].
Qed.

Lemma dmem_In d k : dmem d k = true ↔ k ∈ dkeys d.
Proof.
  unfold dmem, dkeys. induction d as [|[k' v'] d IH]; simpl.
  - split; [done | by intros ?%elem_of_nil].
  - rewrite elem_of_cons. destruct (String.eqb_spec k' k) as [->|Hne].
    + split; [by left | done].
    + rewrite IH. split; [by right | intros [->|]; done].
Qed.

Lemma dkeys_dset_mem d k v : dmem d k = true → dkeys (dset d k v) = dkeys d.
Proof.
  unfold dmem, dkeys. induction d as [|[k' v'] d IH]; simpl; [done|].
  destruct (String.eqb_spec k' k) as [->|Hne]; simpl; [done|].
  intros H. by rewrite IH.
Qed.

Lemma dkeys_dset_new d k v : dmem d k = false → dkeys (dset d k v) = dkeys d ++ [k].
Proof.
  unfold dmem, dkeys. induction d as [|[k' v'] d IH]; simpl; [done|].
  destruct (String.eqb_spec k' k) as [->|Hne]; simpl; [done|].
  intros H. by rewrite IH.
Qed.

Lemma dset_new d k v : dmem d k = false → dset d k v = d ++ [(k, v)].
Proof.
  unfold dmem. induction d as [|[k' v'] d IH]; simpl; [done|].
  destruct (k' =? k)%string eqn:E; simpl; [done|]. intros H. by rewrite IH.
Qed.

Lemma dmem_dset_eq d k v : dmem (dset d k v) k = true.
Proof. unfold dmem. by rewrite dget_dset_eq. Qed.

Lemma dmem_dset_mono d k k' v : dmem d k' = true → dmem (dset d k v) k' = true.
Proof.
  unfold dmem. destruct (decide (k = k')) as [->|Hne]; [by rewrite dget_dset_eq|].
  by rewrite dget_dset_ne.
Qed.

Lemma dkeys_nodup_dset d k v : NoDup (dkeys d) → NoDup (dkeys (dset d k v)).
Proof.
  intros Hd. destruct (dmem d k) eqn:E.
  - by rewrite dkeys_dset_mem.
  - rewrite dkeys_dset_new by done. apply NoDup_app. split; [done|]. split.
    + intros x Hx Hk. apply list_elem_of_singleton in Hk as ->.
      apply dmem_In in Hx. congruence.
    + apply NoDup_singleton.
Qed.

Lemma dget_ddel_ne d k k' : k ≠ k' → dget (ddel d k) k' = dget d k'.
Proof.
  intros Hne. induction d as [|[k1 v1] d IH]; simpl; [done|].
  destruct (String.eqb_spec k1 k) as [->|H1]; simpl.
  - by rewrite (proj2 (String.eqb_neq k k')).
  - destruct (k1 =? k')%string; [done | apply IH].
Qed.

Lemma dkeys_ddel_sub d k : dkeys (ddel d k) `sublist_of` dkeys d.
Proof.
  unfold dkeys. induction d as [|[k1 v1] d IH]; simpl; [done|].
  destruct (k1 =? k)%string; simpl; [by constructor | by constructor].
Qed.

Lemma dkeys_nodup_ddel d k : NoDup (dkeys d) → NoDup (dkeys (ddel d k)).
Proof. intros H. eapply sublist_NoDup; [done | apply dkeys_ddel_sub]. Qed.

Lemma dget_ddel_eq d k : NoDup (dkeys d) → dget (ddel d k) k = None.
Proof.
  unfold dkeys. induction d as [|[k1 v1] d IH]; simpl; [done|].
  intros [Hn Hd]%NoDup_cons. destruct (String.eqb_spec k1 k) as [->|H1]; simpl.
  - destruct (dget d k) eqn:E; [|done].
    exfalso. apply Hn, dmem_In. unfold dmem. by rewrite E.
  - rewrite (proj2 (String.eqb_neq k1 k)) by done. by apply IH.
Qed.
End Dict.

(** [x in l] for a Python list or set of strings. *)
Definition smem (x : string) (l : list string) : bool := bool_decide (x ∈ l).
(** [s.add(x)]: a set is a duplicate-free list. *)
Definition set_add (l : list string) (x : string) : list string :=
  if smem x l then l else l ++ [x].

Lemma smem_iff x l : smem x l = true ↔ x ∈ l.
Proof. apply bool_decide_eq_true. Qed.
Lemma set_add_in l x y : y ∈ set_add l x ↔ y = x ∨ y ∈ l.
Proof.
  unfold set_add. destruct (smem x l) eqn:E.
  - apply smem_iff in E. split; [by right | intros [->|]; done].
  - rewrite elem_of_app, list_elem_of_singleton. tauto.
Qed.
Lemma set_add_nodup l x : NoDup l → NoDup (set_add l x).
Proof.
  intros Hl. unfold set_add. destruct (smem x l) eqn:E; [done|].
  apply NoDup_app; split; [done|]; split; [|apply NoDup_singleton].
  intros y Hy ->%list_elem_of_singleton. apply smem_iff in Hy. congruence.
Qed.

(** ** Lists *)

Lemma Forall2_impl_in {A B} (P Q : A → B → Prop) l k :
  Forall2 P l k → (∀ x y, x ∈ l → y ∈ k → P x y → Q x y) → Forall2 Q l k.
Proof.
  induction 1 as [|x y l k Hxy _ IH]; intros HPQ; constructor.
  - apply HPQ; [by left | by left | done].
  - apply IH. intros x' y' Hx Hy. apply HPQ; by right.
Qed.

(** [sorted(l)] for an order given as a boolean test: stable insertion. *)
Section Sorting.
Context {A : Type} (leb : A → A → bool).
Fixpoint sort_insert (x : A) (l : list A) : list A :=
  match l with
  | [] => [x]
  | y :: l' => if leb x y then x :: l else y :: sort_insert x l'
  end.
Definition isort (l : list A) : list A := foldr sort_insert [] l.
Definition ordered (x y : A) : Prop := leb x y = true.

Lemma sort_insert_perm x l : sort_insert x l ≡ₚ x :: l.
Proof.
  induction l as [|y l IH]; [done|]. cbn. destruct (leb x y); [done|].
  rewrite IH. constructor.
Qed.
Lemma isort_perm l : isort l ≡ₚ l.
Proof. induction l as [|x l IH]; [done|]. cbn. by rewrite sort_insert_perm, IH. Qed.

Context (leb_total : ∀ x y, leb x y = false → leb y x = true).
Lemma sort_insert_sorted x l : Sorted ordered l → Sorted ordered (sort_insert x l).
Proof.
  induction 1 as [|y l Hl IH Hy]; cbn; [by repeat constructor|].
  destruct (leb x y) eqn:E; [by repeat constructor|].
  apply leb_total in E. constructor; [exact IH|].
  destruct l as [|z l]; cbn; [by constructor|].
  destruct (leb x z); constructor; [exact E|]. by inversion Hy.
Qed.
Lemma isort_sorted l : Sorted ordered (isort l).
Proof. induction l as [|x l IH]; cbn; [constructor | by apply sort_insert_sorted]. Qed.
End Sorting.

Lemma string_leb_total a b : (a <=? b)%string = false → (b <=? a)%string = true.
Proof.
  unfold String.leb. rewrite (String.compare_antisym b a).
  destruct (String.compare a b); done.
Qed.

(** [sorted(l)] by a string key. *)
Section SortBy.
Context {A : Type} (key : A → string).
Definition sort_by : list A → list A := isort (λ x y, (key x <=? key y)%string).
Definition key_le : A → A → Prop := ordered (λ x y, (key x <=? key y)%string).

Lemma sort_by_perm l : sort_by l ≡ₚ l.
Proof. apply isort_perm. Qed.
Lemma sort_by_sorted l : Sorted key_le (sort_by l).
Proof. apply isort_sorted. intros x y. apply string_leb_total. Qed.
End SortBy.

(** ** Exceptions and state

    Python code that can raise is a [res]; code that also mutates an object is
    a state transformer over it.  The state survives an exception, as it does
    in Python. *)

Inductive exn :=
| AttributeError (name : string)
| IndexError
| KeyError (key : string)
| ValueError (msg : string)
| TypeError (msg : string)
| UnboundLocalError (name : string)
| ReError (pat : string)
| NameError (name : string)
| SystemExit (msg : string)
(** [sys.exit(n)] for a number. *)
| Exit (status : nat)
| OSError (msg : string)
| AssertionError
| RuntimeError (msg : string)
| EOFError
(** [subprocess.CalledProcessError] of a command line and its status. *)
| CalledProcessError (status : Z) (cmd : string)
(** Not a Python exception: a loop ran out of the fuel the model gives it.
    Each such loop has a theorem that it does not happen. *)
| OutOfFuel (where_ : string).

Inductive res (A : Type) :=
| Ok (a : A)
| Raise (e : exn).
Arguments Ok {A} a.
Arguments Raise {A} e.

#[global] Instance exn_eq_dec : EqDecision exn.
Proof. solve_decision. Defined.

Definition ST (S A : Type) : Type := S → S * res A.

#[global] Instance ST_ret {S} : MRet (ST S) := λ A (a : A) s, (s, Ok a).
#[global] Instance ST_bind {S} : MBind (ST S) := λ A B (f : A → ST S B) (m : ST S A) s,
  match m s with
  | (s', Ok a) => f a s'
  | (s', Raise e) => (s', Raise e)
  end.

Section ST.
Context {S : Type}.
Definition raise {A} (e : exn) : ST S A := λ s, (s, Raise e).
Definition get : ST S S := λ s, (s, Ok s).
(** [gets f] reads a field of the object. *)
Definition gets {A} (f : S → A) : ST S A := λ s, (s, Ok (f s)).
Definition modify (f : S → S) : ST S unit := λ s, (f s, Ok tt).
Definition lift_res {A} (r : res A) : ST S A := λ s, (s, r).
Definition when (b : bool) (m : ST S unit) : ST S unit := if b then m else mret tt.
(** [for x in l: body(x)] *)
Fixpoint for_each {A} (l : list A) (body : A → ST S unit) : ST S unit :=
  match l with
  | [] => mret tt
  | x :: l' => body x ;; for_each l' body
  end.
(** [for x in l: a = body(a, x)] *)
Fixpoint for_acc {A B} (l : list B) (a : A) (body : A → B → ST S A) : ST S A :=
  match l with
  | [] => mret a
  | x :: l' => a' ← body a x ; for_acc l' a' body
  end.
End ST.

(** What a script prints. *)
Abbreviation Prints := (ST (list string)).
Definition print (line : string) : Prints unit := modify (λ out, out ++ [line]).

(** Runs the monadic combinators at the head of a computation. *)
Ltac run_ST := cbv beta iota delta [mbind ST_bind mret ST_ret raise get gets modify lift_res when].
Tactic Notation "run_ST" "in" hyp(H) :=
  cbv beta iota delta [mbind ST_bind mret ST_ret raise get gets modify lift_res when] in H.

(** An invariant [P] of a computation: a run from a state satisfying [P] ends,
    normally or with an exception, in a state satisfying [P]. *)
Definition keeps {S A} (P : S → Prop) (m : ST S A) : Prop := ∀ s, P s → P (fst (m s)).

Section Keeps.
Context {S : Type} (P : S → Prop).
Lemma keeps_ret {A} (a : A) : keeps P (mret a).
Proof. by intros s. Qed.
Lemma keeps_raise {A} e : keeps P (raise (A := A) e).
Proof. by intros s. Qed.
Lemma keeps_gets {A} (f : S → A) : keeps P (gets f).
Proof. by intros s. Qed.
Lemma keeps_lift {A} (r : res A) : keeps P (lift_res r).
Proof. by intros s. Qed.
Lemma keeps_modify f : (∀ s, P s → P (f s)) → keeps P (modify f).
Proof. by intros H s Hs; apply H. Qed.
Lemma keeps_bind {A B} (m : ST S A) (f : A → ST S B) :
  keeps P m → (∀ a, keeps P (f a)) → keeps P (m ≫= f).
Proof.
  intros Hm Hf s Hs. specialize (Hm s Hs). unfold mbind, ST_bind.
  destruct (m s) as [s' [a|e]]; simpl in *; [by apply Hf | done].
Qed.
Lemma keeps_when b m : keeps P m → keeps P (when b m).
Proof. by intros; destruct b; [|apply keeps_ret]. Qed.
Lemma keeps_for_each {A} (l : list A) body :
  (∀ x, keeps P (body x)) → keeps P (for_each l body).
Proof. intros H. induction l; simpl; [apply keeps_ret | by apply keeps_bind]. Qed.
Lemma keeps_for_acc {A B} (l : list B) (a : A) body :
  (∀ a x, keeps P (body a x)) → keeps P (for_acc l a body).
Proof. intros H. revert a. induction l; intros a'; simpl; [apply keeps_ret | by apply keeps_bind]. Qed.
End Keeps.
#[export] Hint Resolve keeps_ret keeps_raise keeps_gets keeps_lift keeps_when
  keeps_for_each keeps_for_acc : py.

(** A program logic for [ST]: from a state satisfying [P], [m] either returns
    [a] in a state satisfying [Q a] or raises an exception satisfying [E]. *)
Definition hoare {S A} (P : S → Prop) (m : ST S A) (Q : A → S → Prop) (E : exn → Prop) : Prop :=
  ∀ s, P s → match m s with (s', Ok a) => Q a s' | (_, Raise x) => E x end.

Section Hoare.
Context {S : Type} (E : exn → Prop).
Implicit Types P : S → Prop.

Lemma hoare_ret {A} (a : A) P : hoare P (mret a) (λ b s, b = a ∧ P s) E.
Proof. by intros s. Qed.
Lemma hoare_ret_post {A} (a : A) P (Q : A → S → Prop) : (∀ s, P s → Q a s) → hoare P (mret a) Q E.
Proof. intros H s. apply H. Qed.
Lemma hoare_raise {A} P (Q : A → S → Prop) x : E x → hoare P (raise x) Q E.
Proof. by intros H s _. Qed.
Lemma hoare_gets {A} P (f : S → A) : hoare P (gets f) (λ a s, a = f s ∧ P s) E.
Proof. by intros s. Qed.
Lemma hoare_modify P (Q : S → Prop) f : (∀ s, P s → Q (f s)) → hoare P (modify f) (λ _, Q) E.
Proof. intros H s Hs. by apply H. Qed.
Lemma hoare_lift {A} P (r : res A) :
  match r with Ok _ => True | Raise x => E x end →
  hoare P (lift_res r) (λ a s, r = Ok a ∧ P s) E.
Proof. intros H s Hs. cbn. by destruct r. Qed.
Lemma hoare_bind {A B} P (R : A → S → Prop) (Q : B → S → Prop) (m : ST S A) (f : A → ST S B) :
  hoare P m R E → (∀ a, hoare (R a) (f a) Q E) → hoare P (m ≫= f) Q E.
Proof.
  intros Hm Hf s Hs. specialize (Hm s Hs). unfold mbind, ST_bind.
  destruct (m s) as [s' [a|x]]; [|done]. by apply (Hf a s').
Qed.
Lemma hoare_conseq {A} P P' (Q Q' : A → S → Prop) m :
  hoare P' m Q' E → (∀ s, P s → P' s) → (∀ a s, Q' a s → Q a s) → hoare P m Q E.
Proof.
  intros H HP HQ s Hs. specialize (H s (HP s Hs)). destruct (m s) as [s' [a|x]]; [|done].
  by apply HQ.
Qed.
Lemma hoare_post {A} P (Q Q' : A → S → Prop) m :
  hoare P m Q' E → (∀ a s, Q' a s → Q a s) → hoare P m Q E.
Proof. intros H HQ. by apply (hoare_conseq P P Q Q'). Qed.
Lemma hoare_pre {A} P P' (Q : A → S → Prop) m :
  hoare P' m Q E → (∀ s, P s → P' s) → hoare P m Q E.
Proof. intros H HP. by apply (hoare_conseq P P' Q Q). Qed.
Lemma hoare_seq {A B} P (R : S → Prop) (Q : B → S → Prop) (m : ST S A) (k : ST S B) :
  hoare P m (λ _, R) E → hoare R k Q E → hoare P (m ;; k) Q E.
Proof. intros H1 H2. eapply hoare_bind; [exact H1 | intros; exact H2]. Qed.
Lemma hoare_when P b m : hoare P m (λ _, P) E → hoare P (when b m) (λ _, P) E.
Proof. intros H. destruct b; [done | by intros s]. Qed.
Lemma hoare_if {A} P (Q : A → S → Prop) (b : bool) m1 m2 :
  (b = true → hoare P m1 Q E) → (b = false → hoare P m2 Q E) → hoare P (if b then m1 else m2) Q E.
Proof. destruct b; auto. Qed.
Lemma hoare_pure {A} P (Q : A → S → Prop) (φ : Prop) m :
  (φ → hoare P m Q E) → hoare (λ s, φ ∧ P s) m Q E.
Proof. intros H s [Hφ Hs]. by apply H. Qed.
Lemma hoare_for_each {A} P (l : list A) body :
  (∀ x, x ∈ l → hoare P (body x) (λ _, P) E) → hoare P (for_each l body) (λ _, P) E.
Proof.
  induction l as [|x l IH]; intros H; simpl; [by intros s|].
  eapply hoare_seq; [apply H; by left | apply IH; intros; apply H; by right].
Qed.
Lemma hoare_for_acc {A B} (I : A → S → Prop) (l : list B) a body :
  (∀ a x, hoare (I a) (body a x) I E) → hoare (I a) (for_acc l a body) I E.
Proof.
  intros H. revert a. induction l as [|x l IH]; intros a; simpl; [by intros s|].
  eapply hoare_bind; [apply H | apply IH].
Qed.
Lemma hoare_for_acc_in {A B} (I : A → S → Prop) (l : list B) body : ∀ a,
  (∀ a x, x ∈ l → hoare (I a) (body a x) I E) → hoare (I a) (for_acc l a body) I E.
Proof.
  induction l as [|x l IH]; intros a H; simpl; [by intros s|].
  eapply hoare_bind; [apply H; by left | intros; apply IH; intros; apply H; by right].
Qed.
End Hoare.

(** A computation that never raises. *)
Definition never (x : exn) : Prop := False.

Lemma hoare_never {S A} (P : S → Prop) (m : ST S A) (Q : A → S → Prop) s :
  hoare P m Q never → P s → ∃ s' a, m s = (s', Ok a) ∧ Q a s'.
Proof.
  intros H Hs. specialize (H s Hs). destruct (m s) as [s' [a|x]]; [|done]. by exists s', a.
Qed.
Lemma hoare_never_any {S A} (P : S → Prop) (m : ST S A) (Q : A → S → Prop) E :
  hoare P m Q never → hoare P m Q E.
Proof. intros H s Hs. specialize (H s Hs). by destruct (m s) as [s' [a|x]]. Qed.
