(* ===== verification/PyStr.v ===== *)
(** * PyStr: the Python string methods the sources use

    A Python [str] is a [string] whose characters are the code points below
    256: the classification of characters ([\s], [\w], [\d], [lower]) is
    Python's Unicode one restricted to that range, so it includes the Latin-1
    letters and the control characters that Python counts as white space.
    Each function is named after the method it models. *)

From S2P Require Import Prelude.

(** ** Characters *)

Definition code (c : ascii) : N := N_of_ascii c.
Definition in_range (lo hi : N) (c : ascii) : bool := ((lo <=? code c) && (code c <=? hi))%N.

(** [str.isspace] (and [\s] of [re]). *)
Definition is_space (c : ascii) : bool :=
  in_range 9 13 c || in_range 28 32 c || (code c =? 133)%N || (code c =? 160)%N.
(** [str.isdecimal] (and [\d]). *)
Definition is_digit (c : ascii) : bool := in_range 48 57 c.
(** [str.isalnum] *)
Definition is_alnum (c : ascii) : bool :=
  in_range 48 57 c || in_range 65 90 c || in_range 97 122 c
  || (code c =? 170)%N || in_range 178 179 c || (code c =? 181)%N
  || in_range 185 186 c || in_range 188 190 c
  || in_range 192 214 c || in_range 216 246 c || in_range 248 255 c.
(** [\w] *)
Definition is_word (c : ascii) : bool := is_alnum c || (code c =? 95)%N.

(** The same for patterns compiled with [re.ASCII]. *)
Definition is_space_ascii (c : ascii) : bool := in_range 9 13 c || (code c =? 32)%N.
Definition is_word_ascii (c : ascii) : bool :=
  in_range 48 57 c || in_range 65 90 c || in_range 97 122 c || (code c =? 95)%N.
Definition lower (c : ascii) : ascii :=
  if in_range 65 90 c || (in_range 192 222 c && negb (code c =? 215)%N)
  then ascii_of_N (code c + 32) else c.
(** Upper case inside the modelled range: U+00B5, U+00DF and U+00FF have no
    single upper-case letter below 256 and are left alone. *)
Definition upper (c : ascii) : ascii :=
  if in_range 97 122 c || (in_range 224 254 c && negb (code c =? 247)%N)
  then ascii_of_N (code c - 32) else c.

Definition NL : ascii := "010"%char.
Definition TAB : ascii := "009"%char.
Definition CR : ascii := "013"%char.
Definition QUOTE : ascii := "034"%char.
Definition BACKSLASH : ascii := "092"%char.
(** One-character strings. *)
Definition nl : string := String NL "".
Definition tab : string := String TAB "".
Definition quote : string := String QUOTE "".

(** ** Methods *)

Fixpoint str_map (f : ascii → ascii) (s : string) : string :=
  match s with "" => "" | String c t => String (f c) (str_map f t) end.
(** [s.lower()] *)
Definition str_lower := str_map lower.

(** [s.upper()]; the upper case of U+00B5 and U+00FF is outside of the range
    and they are left alone. *)
Fixpoint str_upper (s : string) : string :=
  match s with
  | "" => ""
  | String c t => (if (code c =? 223)%N then "SS" else String (upper c) "") +:+ str_upper t
  end.

(** [s.lstrip] and [s.rstrip] of the characters satisfying [p]. *)
Fixpoint lstrip_by (p : ascii → bool) (s : string) : string :=
  match s with
  | "" => ""
  | String c t => if p c then lstrip_by p t else s
  end.
Fixpoint rstrip_by (p : ascii → bool) (s : string) : string :=
  match s with
  | "" => ""
  | String c t =>
      match rstrip_by p t with
      | "" => if p c then "" else String c ""
      | t' => String c t'
      end
  end.
Definition strip_by p s := lstrip_by p (rstrip_by p s).
Definition strip := strip_by is_space.
Definition lstrip := lstrip_by is_space.
Definition rstrip := rstrip_by is_space.
(** [s.strip(chars)] for a one-character [chars]. *)
Definition strip_char c := strip_by (Ascii.eqb c).
Definition lstrip_char c := lstrip_by (Ascii.eqb c).
Definition rstrip_char c := rstrip_by (Ascii.eqb c).

(** [s.startswith(p)] *)
Fixpoint startswith (p s : string) : bool :=
  match p, s with
  | "", _ => true
  | String c p', String d s' => ((c =? d)%char && startswith p' s')%bool
  | _, _ => false
  end.
(** [s.endswith(p)] *)
Definition endswith (p s : string) : bool :=
  (String.length p <=? String.length s) &&
  (str_drop (String.length s - String.length p) s =? p)%string.
(** [p in s] *)
Fixpoint str_in (p s : string) : bool :=
  (startswith p s || match s with "" => false | String _ t => str_in p t end)%bool.
Definition char_in (c : ascii) (s : string) : bool := (0 <? scount (Ascii.eqb c) s).

(** [s.split(sep)] for a one-character separator. *)
Fixpoint split_char (sep : ascii) (s : string) : list string :=
  match s with
  | "" => [""]
  | String c t =>
      if (c =? sep)%char then "" :: split_char sep t
      else match split_char sep t with
           | [] => [String c ""]
           | x :: l => String c x :: l
           end
  end.
(** [sep.join(l)] *)
Fixpoint join (sep : string) (l : list string) : string :=
  match l with
  | [] => ""
  | [x] => x
  | x :: l' => x +:+ sep +:+ join sep l'
  end.

(** [s.replace(old, new)], left to right without overlap. *)
Fixpoint replace_skip (old new : string) (skip : nat) (s : string) : string :=
  match s with
  | "" => ""
  | String c t =>
      match skip with
      | S k => replace_skip old new k t
      | O => if startswith old s
             then new +:+ replace_skip old new (String.length old - 1) t
             else String c (replace_skip old new 0 t)
      end
  end.
Fixpoint interleave (new s : string) : string :=
  match s with "" => new | String c t => new +:+ String c (interleave new t) end.
Definition replace (old new s : string) : string :=
  match old with
  | "" => interleave new s
  | _ => replace_skip old new 0 s
  end.

(** [s * n] *)
Fixpoint str_mul (n : nat) (s : string) : string :=
  match n with O => "" | S n' => s +:+ str_mul n' s end.

(** [os.path.dirname(p)] and [os.path.join(a, b)] on POSIX. *)
Fixpoint upto_last_slash (s : string) : string :=
  match s with
  | "" => ""
  | String c t => match upto_last_slash t with
                  | "" => if (c =? "/")%char then "/" else ""
                  | r => String c r
                  end
  end.
Definition dirname (p : string) : string :=
  let head := upto_last_slash p in
  if sall (Ascii.eqb "/") head then head else rstrip_char "/" head.
(** [os.path.basename(p)] *)
Definition basename (p : string) : string := str_drop (String.length (upto_last_slash p)) p.
Definition path_join (a b : string) : string :=
  if startswith "/" b then b
  else if (a =? "")%string || endswith "/" a then a +:+ b else a +:+ "/" +:+ b.

(** [s.expandtabs()]: tab stops every 8 columns. *)
Fixpoint expandtabs_from (col : nat) (s : string) : string :=
  match s with
  | "" => ""
  | String c t =>
      if (c =? TAB)%char
      then let k := 8 - col mod 8 in str_mul k " " +:+ expandtabs_from (col + k) t
      else String c (expandtabs_from (if (c =? NL)%char || (c =? CR)%char then 0 else S col) t)
  end.
Definition expandtabs := expandtabs_from 0.

(** [s.ljust(n)] *)
Definition ljust (n : nat) (s : string) : string := s +:+ str_mul (n - String.length s) " ".

(** [re.escape(s)] *)
Definition re_special : string := "()[]{}?*+-|^$\.&~# " +:+ String TAB (String NL (String CR
  (String "011" (String "012" "")))).
Fixpoint re_escape (s : string) : string :=
  match s with
  | "" => ""
  | String c t => if char_in c re_special then String BACKSLASH (String c (re_escape t))
                  else String c (re_escape t)
  end.

(** [int(s)] for a string of decimal digits; [None] is the [ValueError]. *)
Fixpoint int_acc (acc : N) (s : string) : option N :=
  match s with
  | "" => Some acc
  | String c t => if is_digit c then int_acc (acc * 10 + (code c - 48)) t else None
  end.
Definition str_int (s : string) : option nat :=
  match s with "" => None | _ => N.to_nat <$> int_acc 0 s end.
(** [str(n)] *)
Definition int_str (n : nat) : string := pretty n.
Definition zint_str (n : Z) : string := pretty n.

(** [s.split(sep, n)]: at most [n] splits. *)
Fixpoint split_at_most (n : nat) (sep : ascii) (s : string) : list string :=
  match n with
  | 0 => [s]
  | S n =>
      (fix go (s : string) : list string :=
         match s with
         | "" => [""]
         | String c t =>
             if (c =? sep)%char then "" :: split_at_most n sep t
             else match go t with x :: l => String c x :: l | [] => [String c ""] end
         end) s
  end.

(** Text-mode reading: universal newlines, then the lines of the file, each
    with its final newline. *)
Fixpoint universal_newlines (s : string) : string :=
  match s with
  | "" => ""
  | String c t =>
      if (c =? CR)%char
      then match t with
           | String d t' => if (d =? NL)%char then universal_newlines t
                            else String NL (universal_newlines t)
           | "" => nl
           end
      else String c (universal_newlines t)
  end.
Fixpoint lines_of (s : string) : list string :=
  match s with
  | "" => []
  | String c t =>
      if (c =? NL)%char then nl :: lines_of t
      else match lines_of t with
           | [] => [String c ""]
           | x :: l => String c x :: l
           end
  end.
(** [s.split()]: the runs of other characters than white space. *)
Fixpoint split_ws_from (cur s : string) : list string :=
  match s with
  | "" => if (cur =? "")%string then [] else [cur]
  | String c t =>
      if is_space c
      then if (cur =? "")%string then split_ws_from "" t else cur :: split_ws_from "" t
      else split_ws_from (cur +:+ String c "") t
  end.
Definition split_ws (s : string) : list string := split_ws_from "" s.
(** [s.splitlines(True)] *)
Definition line_end (c : ascii) : bool :=
  in_range 10 13 c || in_range 28 30 c || (code c =? 133)%N.
Fixpoint splitlines_keep (s : string) : list string :=
  match s with
  | "" => []
  | String c t =>
      if line_end c then
        match t with
        | String d t' =>
            if (c =? CR)%char && (d =? NL)%char
            then String c (String d "") :: splitlines_keep t'
            else String c "" :: splitlines_keep t
        | "" => [String c ""]
        end
      else match splitlines_keep t with
           | [] => [String c ""]
           | x :: l => String c x :: l
           end
  end.
(** [s.splitlines()] *)
Definition splitlines (s : string) : list string := map (rstrip_by line_end) (splitlines_keep s).
(** [textwrap.indent(s, prefix)] *)
Definition indent (prefix s : string) : string :=
  sconcat (map (λ line, if (strip line =? "")%string then line else prefix +:+ line)
             (splitlines_keep s)).
Definition readlines (contents : string) : list string := lines_of (universal_newlines contents).

(** ** Lemmas *)

Lemma startswith_app p s : startswith p (p +:+ s) = true.
Proof. induction p as [|c p IH]; simpl; [by destruct s | by rewrite Ascii.eqb_refl, IH]. Qed.

Lemma startswith_iff p s : startswith p s = true ↔ ∃ t, s = p +:+ t.
Proof.
  split.
  - revert s; induction p as [|c p IH]; intros [|d s]; simpl; try done.
    + intros _. by eexists.
    + intros _. by eexists.
    + intros [->%Ascii.eqb_eq H]%andb_prop. destruct (IH s H) as [t ->]. by exists t.
  - intros [t ->]. apply startswith_app.
Qed.

Lemma lstrip_by_sall p q s : sall q s = true → sall q (lstrip_by p s) = true.
Proof.
  induction s as [|c s IH]; simpl; [done|]. intros H. destruct (p c); [|done].
  apply andb_prop in H as [_ H]. by apply IH.
Qed.
Lemma rstrip_by_sall p q s : sall q s = true → sall q (rstrip_by p s) = true.
Proof.
  induction s as [|c s IH]; simpl; [done|]. intros [H1 H2]%andb_prop.
  specialize (IH H2). destruct (rstrip_by p s) as [|d t] eqn:E.
  - destruct (p c); simpl; [done | by rewrite H1].
  - simpl in *. by rewrite H1, IH.
Qed.
Lemma strip_by_sall p q s : sall q s = true → sall q (strip_by p s) = true.
Proof. intros. by apply lstrip_by_sall, rstrip_by_sall. Qed.

Lemma lstrip_by_suffix p s : ∃ w, s = w +:+ lstrip_by p s ∧ sall p w = true.
Proof.
  induction s as [|c s [w [E H]]]; simpl; [by exists ""|].
  destruct (p c) eqn:Ec.
  - exists (String c w). simpl. split; [by f_equal | by rewrite Ec, H].
  - by exists "".
Qed.
Lemma rstrip_by_prefix p s : ∃ w, s = rstrip_by p s +:+ w ∧ sall p w = true.
Proof.
  induction s as [|c s [w [E H]]]; simpl; [by exists ""|].
  destruct (rstrip_by p s) as [|d t] eqn:Et; simpl in *.
  - destruct (p c) eqn:Ec.
    + exists (String c w). simpl. split; [by f_equal | by rewrite Ec, H].
    + exists w. split; [by f_equal | done].
  - exists w. split; [by f_equal | done].
Qed.

(** The first character of [lstrip_by p s] does not satisfy [p]. *)
Lemma lstrip_by_head p s c t : lstrip_by p s = String c t → p c = false.
Proof.
  induction s as [|d s IH]; simpl; [done|]. destruct (p d) eqn:E; [auto|].
  intros [= -> ->]. done.
Qed.

(** Replacement exchanges the contents of [old] for those of [new], some number
    of times; at least once when [old] occurs. *)
Lemma replace_skip_count q old new : old ≠ "" → ∀ s skip, skip ≤ String.length s →
  ∃ k, scount q (replace_skip old new skip s) + k * scount q old
       = scount q (str_drop skip s) + k * scount q new
       ∧ (skip = 0 → str_in old s = true → 1 ≤ k).
Proof.
  intros Hne. induction s as [|c s IH]; intros skip Hs.
  - exists 0. destruct skip; simpl in Hs; [|lia]. split; [done|]. intros _. by destruct old.
  - cbn [replace_skip]. destruct skip as [|skip].
    + destruct (startswith old (String c s)) eqn:E.
      * apply startswith_iff in E as [w Hw].
        assert (String.length old - 1 ≤ String.length s) as Hl.
        { apply (f_equal String.length) in Hw. rewrite slen_app in Hw. simpl in Hw. lia. }
        destruct (IH _ Hl) as (k & Hk & _). exists (S k). split; [|lia].
        cbn [str_drop]. rewrite Hw, !scount_app.
        assert (str_drop (String.length old - 1) s = w) as Hd.
        { destruct old as [|d old]; [done|]. simpl in Hw |- *. injection Hw as -> ->.
          rewrite Nat.sub_0_r. apply str_drop_app. }
        rewrite Hd in Hk. nia.
      * destruct (IH 0) as (k & Hk & Hin); [lia|]. exists k. split.
        { cbn [scount str_drop] in *. lia. }
        intros _. cbn [str_in]. rewrite E. cbn [orb]. by apply Hin.
    + simpl in Hs. destruct (IH skip) as (k & Hk & _); [lia|]. exists k. by split.
Qed.

Lemma replace_count q old new s : old ≠ "" →
  ∃ k, scount q (replace old new s) + k * scount q old = scount q s + k * scount q new
       ∧ (str_in old s = true → 1 ≤ k).
Proof.
  intros Hne. destruct (replace_skip_count q old new Hne s 0) as (k & Hk & Hin); [lia|].
  exists k. unfold replace. destruct old; [done|]. split; [exact Hk | auto].
Qed.

Lemma str_in_app a b c : str_in b (a +:+ b +:+ c) = true.
Proof.
  induction a as [|x a IH]; simpl.
  - assert (startswith b (b +:+ c) = true) as H by apply startswith_app.
    destruct (b +:+ c); cbn [str_in]; by rewrite H.
  - by rewrite IH, orb_true_r.
Qed.

Lemma join_cons sep x y l : join sep (x :: y :: l) = x +:+ sep +:+ join sep (y :: l).
Proof. done. Qed.

Lemma join_snoc sep l x : l ≠ [] → join sep (l ++ [x]) = join sep l +:+ sep +:+ x.
Proof.
  induction l as [|y l IH]; [done|]. intros _. destruct l as [|z l]; [done|].
  cbn [app]. rewrite !join_cons. cbn [app] in IH. by rewrite IH, !sapp_assoc.
Qed.

Lemma join_split_char sep s : join (String sep "") (split_char sep s) = s.
Proof.
  induction s as [|c s IH]; simpl; [done|].
  assert (Hne : split_char sep s ≠ []).
  { destruct s as [|d s']; simpl; [done|]. destruct (d =? sep)%char; [done|].
    by destruct (split_char sep s'). }
  destruct (c =? sep)%char eqn:E.
  - apply Ascii.eqb_eq in E as ->. destruct (split_char sep s) as [|x l]; [done|].
    simpl in *. by rewrite IH.
  - destruct (split_char sep s) as [|x l]; [done|].
    destruct l as [|y l]; simpl in *; [by rewrite <- IH | by rewrite <- IH].
Qed.

Lemma split_char_no_sep sep s : Forall (λ x, sall (λ c, negb (c =? sep)%char) x = true) (split_char sep s).
Proof.
  induction s as [|c s IH]; simpl; [by repeat constructor|].
  destruct (c =? sep)%char eqn:E; [by constructor|].
  destruct (split_char sep s) as [|x l]; [by repeat constructor; simpl; rewrite E|].
  inversion IH; subst. constructor; [simpl; by rewrite E|done].
Qed.

Lemma split_char_sall sep q s :
  sall q s = true → Forall (λ x, sall q x = true) (split_char sep s).
Proof.
  induction s as [|c s IH]; simpl; [by repeat constructor|].
  intros [H1 H2]%andb_prop. specialize (IH H2).
  destruct (c =? sep)%char; [by constructor|].
  destruct (split_char sep s) as [|x l]; [repeat constructor; simpl; by rewrite H1|].
  inversion IH; subst. constructor; [simpl; by rewrite H1 | done].
Qed.

Lemma join_sall q sep l :
  sall q sep = true → Forall (λ x, sall q x = true) l → sall q (join sep l) = true.
Proof.
  intros Hs. induction 1 as [|x l Hx Hl IH]; [done|].
  destruct l as [|y l]; [done|]. by rewrite join_cons, !sall_app, Hx, Hs, IH.
Qed.

Lemma sconcat_lines_of s : sconcat (lines_of s) = s.
Proof.
  induction s as [|c s IH]; simpl; [done|].
  destruct (c =? NL)%char eqn:E; [apply Ascii.eqb_eq in E as ->; by rewrite sconcat_cons, IH|].
  destruct (lines_of s) as [|x l]; [by rewrite <- IH|].
  rewrite <- IH. by rewrite !sconcat_cons.
Qed.

Lemma split_char_none sep s : sall (λ c, negb (c =? sep)%char) s = true → split_char sep s = [s].
Proof.
  induction s as [|c s IH]; [done|]. cbn. intros [Hc%negb_true_iff Hs]%andb_prop.
  by rewrite Hc, IH.
Qed.
Lemma split_char_join sep l : l ≠ [] →
  Forall (λ x, sall (λ c, negb (c =? sep)%char) x = true) l →
  split_char sep (join (String sep "") l) = l.
Proof.
  intros Hl HF. destruct HF as [|x l Hx HF]; [done|]. clear Hl.
  revert x Hx. induction HF as [|y l Hy HF IH]; intros x Hx; [by apply split_char_none|].
  rewrite join_cons. specialize (IH y Hy). generalize dependent (join (String sep "") (y :: l)).
  intros s IH. induction x as [|c x IHx]; cbn.
  - by rewrite Ascii.eqb_refl, IH.
  - cbn in Hx. apply andb_prop in Hx as [Hc%negb_true_iff Hx]. rewrite Hc.
    cbn in IHx. by rewrite IHx.
Qed.

Lemma str_mul_sall q n s : sall q s = true → sall q (str_mul n s) = true.
Proof. intros H. induction n as [|n IH]; simpl; [done | by rewrite sall_app, H, IH]. Qed.

Lemma expandtabs_no_tab s : sall (λ c, negb (c =? TAB)%char) (expandtabs s) = true.
Proof.
  unfold expandtabs. generalize 0. induction s as [|c s IH]; intros col; [done|].
  cbn [expandtabs_from]. destruct (c =? TAB)%char eqn:E.
  - rewrite sall_app, IH, str_mul_sall; done.
  - cbn [sall]. by rewrite E, IH.
Qed.

#[export] Hint Resolve strip_by_sall lstrip_by_sall rstrip_by_sall str_mul_sall
  expandtabs_no_tab startswith_app : py.
