(* ===== verification/PyNum.v ===== *)
(** * PyNum: decimal numbers in strings

    [str(n)], zero padding ([f"{n:03d}"]) and [int(s)], with the lemmas that
    reading a number back gives it. *)

From S2P Require Import Prelude PyStr.

(** [f"{n:0{w}d}"] *)
Definition pad0 (w n : nat) : string := str_mul (w - String.length (int_str n)) "0" +:+ int_str n.

(** [int(s)]: white space around, a sign, and single underscores between digits
    are accepted; [None] is the [ValueError]. *)
Definition py_int (s : string) : option Z :=
  let s := strip s in
  let '(neg, digits) := match s with
                        | String c t => if (c =? "-")%char then (true, t)
                                        else if (c =? "+")%char then (false, t) else (false, s)
                        | "" => (false, "") end in
  let parts := split_char "_" digits in
  if forallb (λ x, bool_decide (is_Some (str_int x))) parts
  then (λ n, if (neg : bool) then (- Z.of_nat n)%Z else Z.of_nat n) <$> str_int (sconcat parts)
  else None.

Lemma int_acc_zeros k s : int_acc 0 (str_mul k "0" +:+ s) = int_acc 0 s.
Proof. induction k as [|k IH]; [done|]. exact IH. Qed.

Lemma int_acc_digit d a s : (d < 10)%N →
  int_acc a (String (pretty_N_char d) s) = int_acc (a * 10 + d) s.
Proof.
  intros H. assert (d = 0 ∨ d = 1 ∨ d = 2 ∨ d = 3 ∨ d = 4 ∨ d = 5 ∨ d = 6 ∨ d = 7 ∨ d = 8 ∨ d = 9)%N
    as Hd by lia. by decompose [or] Hd; subst.
Qed.

Lemma int_acc_go x : ∀ s, int_acc 0 (pretty_N_go x s) = int_acc x s.
Proof.
  induction (N.lt_wf_0 x) as [x _ IH]. intros s.
  assert (x = 0 ∨ 0 < x)%N as [->|Hx] by lia; [by rewrite pretty_N_go_0|].
  rewrite pretty_N_go_step by done. rewrite IH by by apply N.div_lt.
  rewrite int_acc_digit by by apply N.mod_lt. f_equal.
  rewrite (N.div_mod x 10) at 3 by done. lia.
Qed.

Lemma int_acc_str n : int_acc 0 (int_str n) = Some (N.of_nat n).
Proof.
  unfold int_str, pretty, pretty_nat, pretty, pretty_N.
  case_decide as E; [by rewrite E|]. by rewrite int_acc_go.
Qed.

Lemma go_long x : ∀ s, String.length s ≤ String.length (pretty_N_go x s).
Proof.
  induction (N.lt_wf_0 x) as [x _ IH]. intros s.
  assert (x = 0 ∨ 0 < x)%N as [->|Hx] by lia; [by rewrite pretty_N_go_0|].
  rewrite pretty_N_go_step by done. etrans; [|apply IH; by apply N.div_lt]. cbn. lia.
Qed.

Lemma int_str_nonempty n : int_str n ≠ "".
Proof.
  unfold int_str, pretty, pretty_nat, pretty, pretty_N. case_decide as E; [done|].
  rewrite pretty_N_go_step by lia. intros H.
  pose proof (go_long (N.of_nat n `div` 10) (String (pretty_N_char (N.of_nat n `mod` 10)) "")) as HL.
  rewrite H in HL. cbn in HL. lia.
Qed.

(** [int(str(n)) == n] *)
Lemma str_int_int_str n : str_int (int_str n) = Some n.
Proof.
  unfold str_int. pose proof (int_str_nonempty n). destruct (int_str n) eqn:E; [done|].
  rewrite <- E, int_acc_str. cbn. by rewrite Nat2N.id.
Qed.

Lemma int_acc_pad0 w n : int_acc 0 (pad0 w n) = Some (N.of_nat n).
Proof. unfold pad0. by rewrite int_acc_zeros, int_acc_str. Qed.

#[global] Instance pad0_inj w : Inj (=) (=) (pad0 w).
Proof.
  intros n m H. pose proof (int_acc_pad0 w n) as Hn. rewrite H, int_acc_pad0 in Hn. by simplify_eq.
Qed.

Lemma str_mul_length k s : String.length (str_mul k s) = k * String.length s.
Proof. induction k as [|k IH]; [done|]. cbn. by rewrite slen_app, IH. Qed.
Lemma pad0_length w n : String.length (pad0 w n) = Nat.max w (String.length (int_str n)).
Proof. unfold pad0. rewrite slen_app, str_mul_length. cbn [String.length]. lia. Qed.

(** The digits of a number: as many as its size allows. *)
Lemma go_length x k : ∀ s, (x < 10 ^ N.of_nat k)%N →
  String.length (pretty_N_go x s) ≤ k + String.length s.
Proof.
  revert x. induction k as [|k IH]; intros x s Hx.
  - assert (x = 0)%N as -> by (cbn in Hx; lia). by rewrite pretty_N_go_0.
  - assert (x = 0 ∨ 0 < x)%N as [->|H0] by lia; [rewrite pretty_N_go_0; lia|].
    rewrite pretty_N_go_step by done. etrans; [apply IH|cbn; lia].
    apply N.Div0.div_lt_upper_bound. rewrite Nat2N.inj_succ, N.pow_succ_r' in Hx. lia.
Qed.
Lemma int_str_length n k : 0 < k → (N.of_nat n < 10 ^ N.of_nat k)%N → String.length (int_str n) ≤ k.
Proof.
  intros Hk Hn. unfold int_str, pretty, pretty_nat, pretty, pretty_N. case_decide as E; [cbn; lia|].
  pose proof (go_length _ _ "" Hn). cbn in *. lia.
Qed.
Lemma int_str_digits n : sall is_digit (int_str n) = true.
Proof.
  assert (∀ x s, sall is_digit s = true → sall is_digit (pretty_N_go x s) = true) as H.
  { intros x. induction (N.lt_wf_0 x) as [x _ IH]. intros s Hs.
    assert (x = 0 ∨ 0 < x)%N as [->|Hx] by lia; [by rewrite pretty_N_go_0|].
    rewrite pretty_N_go_step by done. apply IH; [by apply N.div_lt|]. cbn. rewrite Hs, andb_true_r.
    pose proof (N.mod_lt x 10 ltac:(done)) as Hm. set (d := (x `mod` 10)%N) in *. clearbody d.
    assert (d = 0 ∨ d = 1 ∨ d = 2 ∨ d = 3 ∨ d = 4 ∨ d = 5 ∨ d = 6 ∨ d = 7 ∨ d = 8 ∨ d = 9)%N
      as Hd by lia. by decompose [or] Hd; subst. }
  unfold int_str, pretty, pretty_nat, pretty, pretty_N. case_decide; [done|]. by apply H.
Qed.

(** [int(str(z)) == z] *)
Lemma digit_not_space c : is_digit c = true → is_space c = false.
Proof.
  unfold is_digit, is_space, in_range. intros [H1%N.leb_le H2%N.leb_le]%andb_prop.
  repeat (apply orb_false_intro); try apply andb_false_iff; rewrite ?N.leb_gt, ?N.eqb_neq; lia.
Qed.
Lemma lstrip_by_none p c s : p c = false → lstrip_by p (String c s) = String c s.
Proof. cbn. by intros ->. Qed.
Lemma rstrip_by_none p s : sall (λ c, negb (p c)) s = true → rstrip_by p s = s.
Proof.
  induction s as [|c s IH]; [done|]. cbn. intros [Hc%negb_true_iff Hs]%andb_prop.
  rewrite IH by done. destruct s; [by rewrite Hc|done].
Qed.
Lemma zint_str_of_nat n : zint_str (Z.of_nat n) = int_str n.
Proof. by destruct n. Qed.
Lemma zint_str_opp n : 0 < n → zint_str (- Z.of_nat n) = String "-" (int_str n).
Proof. intros H. destruct n as [|n]; [lia|]. done. Qed.
Lemma py_int_zint_str z : py_int (zint_str z) = Some z.
Proof.
  assert (∀ n, sall (λ c, negb (is_space c)) (int_str n) = true) as Hsp.
  { intros n. eapply sall_impl; [|apply int_str_digits]. intros c Hc. by rewrite digit_not_space. }
  assert (∀ n, split_char "_" (int_str n) = [int_str n]) as Hsplit.
  { intros n. apply split_char_none. eapply sall_impl; [|apply int_str_digits]. intros c Hc.
    apply negb_true_iff, Ascii.eqb_neq. by intros ->. }
  destruct (decide (0 ≤ z)%Z) as [Hz|Hz].
  - rewrite <- (Z2Nat.id z) by done. set (n := Z.to_nat z). rewrite zint_str_of_nat.
    unfold py_int, strip, strip_by. rewrite rstrip_by_none by done.
    pose proof (int_str_digits n) as Hd. destruct (int_str n) as [|c t] eqn:E; [by destruct (int_str_nonempty n)|].
    cbn [sall] in Hd. apply andb_prop in Hd as [Hc _].
    rewrite lstrip_by_none by by apply digit_not_space.
    destruct (c =? "-")%char eqn:E1; [by apply Ascii.eqb_eq in E1 as ->|].
    destruct (c =? "+")%char eqn:E2; [by apply Ascii.eqb_eq in E2 as ->|].
    rewrite <- E, Hsplit. cbn [forallb]. rewrite str_int_int_str, sconcat_cons, sapp_nil_r, str_int_int_str.
    done.
  - replace z with (- Z.of_nat (Z.to_nat (- z)))%Z by lia. set (n := Z.to_nat (- z)).
    rewrite zint_str_opp by lia.
    unfold py_int, strip, strip_by. rewrite rstrip_by_none by (cbn; by rewrite Hsp).
    rewrite lstrip_by_none by done. cbn [Ascii.eqb Bool.eqb].
    rewrite Hsplit. cbn [forallb]. rewrite str_int_int_str, sconcat_cons, sapp_nil_r, str_int_int_str.
    done.
Qed.
