(* ===== verification/PyPath.v ===== *)
(** * PyPath: [os.path] on POSIX

    [normpath], [abspath], [relpath] and [expanduser]; a relative path leads
    from its start to the path it was made of. *)

From S2P Require Import Prelude PyStr.

(** The loop of [os.path.normpath] over the components. *)
Definition norm_comp (absolute : bool) (comps : list string) (comp : string) : list string :=
  if smem comp [""; "."] then comps
  else if negb (comp =? "..")%string || (negb absolute && bool_decide (comps = []))
          || bool_decide (last comps = Some "..")
  then comps ++ [comp]
  else removelast comps.
(** The components of a path, and whether it is absolute. *)
Definition norm_comps (path : string) : list string :=
  fold_left (norm_comp (startswith "/" path)) (split_char "/" path) [].
Definition normpath (path : string) : string :=
  let slashes := if startswith "//" path && negb (startswith "///" path) then "//"
                 else if startswith "/" path then "/" else "" in
  match slashes +:+ join "/" (norm_comps path) with
  | "" => "."
  | p => p
  end.
(** [os.path.abspath(path)]; [cwd] is [os.getcwd()]. *)
Definition abspath (cwd path : string) : string :=
  normpath (if startswith "/" path then path else path_join cwd path).

Fixpoint common_prefix (a b : list string) : nat :=
  match a, b with
  | x :: a, y :: b => if (x =? y)%string then S (common_prefix a b) else 0
  | _, _ => 0
  end.
Definition path_list (p : string) : list string := filter (λ x, x ≠ "") (split_char "/" p).
(** The components of [os.path.relpath(path, start)]. *)
Definition rel_list (start path : list string) : list string :=
  let i := common_prefix start path in
  repeat ".." (length start - i) ++ drop i path.
Definition relpath (cwd path start : string) : string :=
  match rel_list (path_list (abspath cwd start)) (path_list (abspath cwd path)) with
  | [] => "."
  | l => join "/" l
  end.

(** [os.path.expanduser(path)]; [home] is the home directory of a user, the
    current one for the empty name. *)
Definition expanduser (home : string → option string) (path : string) : string :=
  match path with
  | String "~" rest =>
      match split_char "/" rest with
      | user :: _ =>
          match home user with
          | None => path
          | Some dir =>
              match rstrip_char "/" dir +:+ str_drop (String.length user) rest with
              | "" => "/" | p => p end
          end
      | [] => path
      end
  | _ => path
  end.

(** ** Following a path *)

(** Where a path leads from a folder: [..] goes up. *)
Definition step_to (dir : list string) (comp : string) : list string :=
  if (comp =? "..")%string then removelast dir
  else if smem comp [""; "."] then dir else dir ++ [comp].
Definition follow (dir comps : list string) : list string := fold_left step_to comps dir.

(** The component of a name, as git gives them. *)
Definition plain_comp (c : string) : Prop :=
  (c ∉ [""; "."; ".."]) ∧ sall (λ x, negb (x =? "/")%char) c = true.

Lemma common_prefix_take a : ∀ b, take (common_prefix a b) a = take (common_prefix a b) b.
Proof.
  induction a as [|x a IH]; intros [|y b]; cbn; try done.
  destruct (String.eqb_spec x y) as [->|]; [|done]. cbn. by rewrite IH.
Qed.
Lemma common_prefix_le a : ∀ b, common_prefix a b ≤ length a.
Proof.
  induction a as [|x a IH]; intros [|y b]; cbn; try lia. destruct (x =? y)%string; [|lia].
  specialize (IH b). lia.
Qed.
Lemma common_prefix_app p a b : common_prefix (p ++ a) (p ++ b) = length p + common_prefix a b.
Proof. induction p as [|x p IH]; [done|]. cbn. by rewrite String.eqb_refl, IH. Qed.
Lemma rel_list_app p a b : rel_list (p ++ a) (p ++ b) = rel_list a b.
Proof.
  unfold rel_list. rewrite common_prefix_app, length_app. f_equal; [f_equal; lia|].
  rewrite <- drop_drop, drop_app_length. done.
Qed.

Lemma follow_up k : ∀ dir, follow dir (repeat ".." k) = take (length dir - k) dir.
Proof.
  induction k as [|k IH]; intros dir; cbn [repeat follow fold_left].
  - by rewrite Nat.sub_0_r, take_ge.
  - unfold follow in IH. rewrite IH. unfold step_to. cbn [String.eqb Ascii.eqb Bool.eqb].
    destruct dir as [|x dir] using rev_ind; [done|].
    rewrite removelast_last, length_app. cbn [length]. rewrite take_app_le by lia.
    f_equal. lia.
Qed.
Lemma plain_step c dir : plain_comp c → step_to dir c = dir ++ [c].
Proof.
  intros [Hc _]. rewrite !elem_of_cons, elem_of_nil in Hc. unfold step_to.
  rewrite (proj2 (String.eqb_neq c "..")) by tauto.
  destruct (smem c [""; "."]) eqn:E; [|done]. apply smem_iff in E.
  rewrite !elem_of_cons, elem_of_nil in E. tauto.
Qed.
Lemma follow_down comps : ∀ dir, Forall plain_comp comps → follow dir comps = dir ++ comps.
Proof.
  induction comps as [|c comps IH]; intros dir HF; [by rewrite app_nil_r|].
  inversion HF as [|? ? Hc HF']; subst. cbn [follow fold_left]. unfold follow in IH.
  rewrite plain_step, IH, <- app_assoc by done. done.
Qed.
Lemma follow_rel start path : Forall plain_comp path → follow start (rel_list start path) = path.
Proof.
  intros HF. unfold rel_list, follow. rewrite fold_left_app. fold (follow start).
  pose proof (follow_up (length start - common_prefix start path) start) as Hu. unfold follow in Hu.
  rewrite Hu. fold (follow (take (length start - (length start - common_prefix start path)) start)).
  pose proof (common_prefix_le start path) as Hle.
  replace (length start - (length start - common_prefix start path)) with (common_prefix start path) by lia.
  rewrite common_prefix_take. pose proof (follow_down (drop (common_prefix start path) path)
    (take (common_prefix start path) path)) as Hd. unfold follow in Hd. rewrite Hd.
  - apply take_drop.
  - by apply Forall_drop.
Qed.

(** *** Names of plain components *)

Lemma norm_comp_plain absolute comps c : plain_comp c → norm_comp absolute comps c = comps ++ [c].
Proof.
  intros [Hc _]. rewrite !elem_of_cons, elem_of_nil in Hc. unfold norm_comp.
  destruct (smem c [""; "."]) eqn:E.
  { apply smem_iff in E. rewrite !elem_of_cons, elem_of_nil in E. tauto. }
  rewrite (proj2 (String.eqb_neq c "..")) by tauto. done.
Qed.
Lemma norm_comps_fold absolute l : ∀ comps, Forall plain_comp l →
  fold_left (norm_comp absolute) l comps = comps ++ l.
Proof.
  induction l as [|c l IH]; intros comps HF; [by rewrite app_nil_r|].
  inversion HF as [|? ? Hc HF']; subst. cbn [fold_left]. rewrite norm_comp_plain, IH, <- app_assoc by done. done.
Qed.
Lemma plain_split l : l ≠ [] → Forall plain_comp l → split_char "/" (join "/" l) = l.
Proof.
  intros Hl HF. apply (split_char_join "/"); [done|]. eapply Forall_impl; [exact HF|]. by intros c [_ H].
Qed.
Lemma plain_path_list l : Forall plain_comp l → filter (λ x, x ≠ "") l = l.
Proof.
  induction 1 as [|c l [Hc _] HF IH]; [done|]. rewrite filter_cons_True, IH; [done|].
  intros ->. apply Hc. by left.
Qed.

Lemma endswith_iff p s : endswith p s = true → ∃ a, s = a +:+ p.
Proof.
  unfold endswith. intros [_ H%String.eqb_eq]%andb_prop. eexists.
  rewrite <- (str_take_drop (String.length s - String.length p) s) at 1. by rewrite H.
Qed.
Lemma split_slash_app a b : split_char "/" (a +:+ String "/" b) = split_char "/" a ++ split_char "/" b.
Proof.
  induction a as [|c a IH]; [done|]. cbn. destruct (c =? "/")%char; cbn in IH; rewrite IH; [done|].
  destruct (split_char "/" a) as [|x l] eqn:E; [|done].
  exfalso. revert E. destruct a as [|d a]; cbn; [done|]. destruct (d =? "/")%char; [done|]. by destruct (split_char "/" a).
Qed.
Lemma endswith_slash s : endswith "/" s = true → last (split_char "/" s) = Some "".
Proof.
  intros [a ->]%endswith_iff. change (a +:+ "/") with (a +:+ String "/" "").
  rewrite split_slash_app, last_app. done.
Qed.
(** What [split_char] makes of the path with these components. *)
Definition split_of (l : list string) : list string := match l with [] => [""] | _ => l end.
Lemma split_join_plain l : Forall plain_comp l → split_char "/" (join "/" l) = split_of l.
Proof. intros HF. destruct l as [|c l]; [done|]. by apply plain_split. Qed.
Lemma fold_split_of l comps : Forall plain_comp l →
  fold_left (norm_comp true) (split_of l) comps = comps ++ l.
Proof.
  intros HF. destruct l as [|c l]; [by rewrite app_nil_r|]. by apply norm_comps_fold.
Qed.
Lemma filter_split_of l : Forall plain_comp l → filter (λ x, x ≠ "") (split_of l) = l.
Proof. intros HF. destruct l as [|c l]; [done|]. by apply plain_path_list. Qed.

Lemma join_plain_head l c t : Forall plain_comp l → join "/" l = String c t → c ≠ "/"%char.
Proof.
  intros HF E ->. destruct l as [|x l]; [done|].
  apply (f_equal (split_char "/")) in E. rewrite split_join_plain in E by done.
  cbn [split_of] in E. change (split_char "/" (String "/" t)) with ("" :: split_char "/" t) in E.
  injection E as -> _. inversion HF as [|? ? [Hx _] _]; subst. apply Hx. by left.
Qed.

Section Cwd.
(** The current directory: an absolute path, normalised. *)
Context (cs : list string) (Hcs : Forall plain_comp cs).
Definition cwd_of : string := String "/" (join "/" cs).

Lemma cwd_join l : Forall plain_comp l → ∃ s, path_join cwd_of (join "/" l) = String "/" s ∧
  startswith "/" s = false ∧ ∃ pre, split_char "/" s = pre ++ split_of l ∧
  fold_left (norm_comp true) pre [] = cs.
Proof using Hcs.
  intros HF. unfold path_join, cwd_of.
  assert (startswith "/" (join "/" l) = false) as Hs.
  { destruct (join "/" l) as [|c t] eqn:E; [done|]. pose proof (join_plain_head l c t HF E) as Hne.
    cbn [startswith]. by rewrite (proj2 (Ascii.eqb_neq "/" c)) by congruence. }
  rewrite Hs. cbn [String.eqb].
  destruct cs as [|c0 cs0] eqn:Ecs.
  - exists (join "/" l). split; [done|]. split; [done|]. exists []. split; [|done]. by apply split_join_plain.
  - rewrite <- Ecs in *. assert (endswith "/" (String "/" (join "/" cs)) = false) as He.
    { destruct (endswith _ _) eqn:E; [|done]. apply endswith_slash in E.
      change (split_char "/" (String "/" (join "/" cs))) with ("" :: split_char "/" (join "/" cs)) in E.
      rewrite split_join_plain in E by done. rewrite Ecs in E. cbn [split_of] in E.
      change (last ("" :: c0 :: cs0)) with (last (c0 :: cs0)) in E.
      rewrite <- Ecs in E. apply last_Some_elem_of in E. rewrite Forall_forall in Hcs.
      destruct (Hcs _ E) as [Hx _]. exfalso. apply Hx. by left. }
    rewrite He. cbn [orb]. exists (join "/" cs +:+ "/" +:+ join "/" l). split; [done|]. split.
    + destruct (join "/" cs) as [|c t] eqn:E; [|].
      * exfalso. apply (f_equal (split_char "/")) in E. rewrite split_join_plain in E by done.
        rewrite Ecs in E. cbn in E. injection E as -> _. rewrite Ecs in Hcs.
        inversion Hcs as [|? ? [Hx _] _]; subst. apply Hx. by left.
      * pose proof (join_plain_head cs c t Hcs E) as Hne.
        change (String c t +:+ ?x) with (String c (t +:+ x)). cbn [startswith].
        by rewrite (proj2 (Ascii.eqb_neq "/" c)) by congruence.
    + exists cs. split; [|by apply norm_comps_fold].
      change ("/" +:+ join "/" l) with (String "/" (join "/" l)).
      rewrite split_slash_app, !split_join_plain by done. by rewrite Ecs.
Qed.

(** The components of the absolute path of a name. *)
Lemma abspath_list l : Forall plain_comp l → path_list (abspath cwd_of (join "/" l)) = cs ++ l.
Proof using Hcs.
  intros HF. unfold abspath.
  assert (startswith "/" (join "/" l) = false) as Hs.
  { destruct (join "/" l) as [|c t] eqn:E; [done|]. pose proof (join_plain_head l c t HF E) as Hne.
    cbn [startswith]. by rewrite (proj2 (Ascii.eqb_neq "/" c)) by congruence. }
  rewrite Hs. destruct (cwd_join l HF) as (s & -> & Hd & pre & Hsp & Hpre). unfold normpath.
  assert (startswith "//" (String "/" s) = false) as H2.
  { destruct s as [|c s]; [done|]. cbn [startswith] in *. by rewrite Hd. }
  rewrite H2. cbn [andb]. change (startswith "/" (String "/" s)) with true. cbn iota.
  assert (norm_comps (String "/" s) = cs ++ l) as Hn.
  { unfold norm_comps. change (startswith "/" (String "/" s)) with true.
    change (split_char "/" (String "/" s)) with ("" :: split_char "/" s). cbn [fold_left].
    change (norm_comp true [] "") with (@nil string). rewrite Hsp, fold_left_app, Hpre.
    by apply fold_split_of. }
  rewrite Hn. change ("/" +:+ ?x) with (String "/" x). cbn iota.
  unfold path_list. change (split_char "/" (String "/" ?x)) with ("" :: split_char "/" x).
  rewrite filter_cons_False by (intros H; by apply H).
  assert (Forall plain_comp (cs ++ l)) as HA by (by apply Forall_app).
  rewrite split_join_plain by done. by apply filter_split_of.
Qed.

(** [relpath] does not depend on the current directory, and leads from its start
    to its path. *)
Lemma relpath_plain l d : Forall plain_comp l → Forall plain_comp d → l ≠ d →
  ∃ comps, relpath cwd_of (join "/" l) (join "/" d) = join "/" comps ∧ comps = rel_list d l ∧
    follow d comps = l.
Proof using Hcs.
  intros Hl Hd Hne. exists (rel_list d l). split; [|split; [done|by apply follow_rel]].
  unfold relpath. rewrite !abspath_list, rel_list_app by done.
  destruct (rel_list d l) as [|c r] eqn:E; [|done].
  exfalso. apply Hne. pose proof (follow_rel d l Hl) as Hf. rewrite E in Hf. by rewrite <- Hf.
Qed.
End Cwd.

(** ** Folders of a path *)

Lemma upto_last_slash_app a b : sall (λ c, negb (c =? "/")%char) b = true →
  upto_last_slash (a +:+ String "/" b) = a +:+ "/".
Proof.
  intros Hb. induction a as [|c a IH].
  - cbn. assert (upto_last_slash b = "") as ->; [|done].
    induction b as [|d b IHb]; [done|]. cbn in Hb. apply andb_prop in Hb as [Hd%negb_true_iff Hb].
    cbn. by rewrite IHb, Hd.
  - change (String c a +:+ ?x) with (String c (a +:+ x)). cbn [upto_last_slash]. rewrite IH.
    by destruct a.
Qed.
Lemma upto_last_slash_none b : sall (λ c, negb (c =? "/")%char) b = true → upto_last_slash b = "".
Proof.
  induction b as [|d b IHb]; [done|]. cbn. intros [Hd%negb_true_iff Hb]%andb_prop. by rewrite IHb, Hd.
Qed.

Lemma join_last d : d ≠ [] → Forall plain_comp d → ∃ s c, join "/" d = s +:+ String c "" ∧ c ≠ "/"%char.
Proof.
  intros Hd HF. destruct d as [|x d] using rev_ind; [done|]. clear IHd.
  apply Forall_app in HF as [_ HF]. inversion HF as [|? ? [Hx Hs] _]; subst.
  assert (∃ s c, x = s +:+ String c "" ∧ c ≠ "/"%char) as (s & c & -> & Hc).
  { assert (x ≠ "") as Hne by (intros ->; apply Hx; by left). clear Hx HF Hd. induction x as [|e x IH]; [done|].
    cbn in Hs. apply andb_prop in Hs as [He%negb_true_iff Hs]. apply Ascii.eqb_neq in He.
    destruct x as [|f x]; [by exists "", e|]. destruct (IH Hs ltac:(done)) as (s & c & E & Hc).
    exists (String e s), c. by rewrite E. }
  destruct d as [|y d]; [by exists s, c|]. rewrite join_snoc by done.
  exists (join "/" (y :: d) +:+ "/" +:+ s), c. split; [by rewrite !sapp_assoc|done].
Qed.

Lemma rstrip_slash s c : c ≠ "/"%char → rstrip_char "/" (s +:+ String c "" +:+ "/") = s +:+ String c "".
Proof.
  intros Hc. assert (("/" =? c)%char = false) as E by (apply Ascii.eqb_neq; congruence).
  unfold rstrip_char. induction s as [|d s IH].
  - cbn -[Ascii.eqb]. by rewrite Ascii.eqb_refl, E.
  - change (String d s +:+ ?x) with (String d (s +:+ x)). cbn [rstrip_by]. rewrite IH. by destruct s.
Qed.

Lemma dirname_join d o : Forall plain_comp d → plain_comp o → dirname (join "/" (d ++ [o])) = join "/" d.
Proof.
  intros HF [Ho Hs]. unfold dirname. destruct d as [|x d].
  - cbn [app join]. by rewrite upto_last_slash_none.
  - rewrite join_snoc by done. change ("/" +:+ o) with (String "/" o). rewrite upto_last_slash_app by done.
    destruct (join_last (x :: d) ltac:(done) HF) as (s & c & -> & Hc).
    assert (sall (Ascii.eqb "/") ((s +:+ String c "") +:+ "/") = false) as ->.
    { rewrite !sall_app. cbn [sall]. rewrite (proj2 (Ascii.eqb_neq "/" c)) by congruence.
      by rewrite andb_false_r. }
    rewrite sapp_assoc. by apply rstrip_slash.
Qed.

(** *** Absolute paths *)

(** A path of plain components, from the root. *)
Definition abs_path (comps : list string) : string := String "/" (join "/" comps).

(** Joining needs components without slash that are not empty. *)
Definition named (c : string) : Prop := c ≠ "" ∧ sall (λ x, negb (x =? "/")%char) c = true.
Lemma plain_named c : plain_comp c → named c.
Proof. intros [Hc Hs]. split; [|done]. intros ->. apply Hc. by left. Qed.
Lemma abs_no_slash W : W ≠ [] → Forall named W → endswith "/" (abs_path W) = false.
Proof.
  intros Hw HF. unfold abs_path. destruct (endswith _ _) eqn:E2; [|done]. apply endswith_slash in E2.
  change (split_char "/" (String "/" (join "/" W))) with ("" :: split_char "/" (join "/" W)) in E2.
  rewrite (split_char_join "/") in E2 by first [done | eapply Forall_impl; [exact HF|by intros c []]].
  destruct W as [|w W]; [done|].
  change (last ("" :: w :: W)) with (last (w :: W)) in E2. apply last_Some_elem_of in E2.
  rewrite Forall_forall in HF. by destruct (HF _ E2).
Qed.
Lemma path_join_abs W p : W ≠ [] → Forall named W → startswith "/" p = false →
  path_join (abs_path W) p = abs_path W +:+ "/" +:+ p.
Proof. intros Hw HF Hp. unfold path_join. rewrite Hp, abs_no_slash by done. done. Qed.
Lemma path_join_named W n : W ≠ [] → Forall named W → named n →
  path_join (abs_path W) n = abs_path (W ++ [n]).
Proof.
  intros Hw HF Hn. rewrite path_join_abs; [unfold abs_path; by rewrite join_snoc|done|done|].
  destruct Hn as [Hne Hn], n as [|c n]; [done|]. cbn [sall] in Hn.
  apply andb_prop in Hn as [Hc%negb_true_iff%Ascii.eqb_neq _]. cbn [startswith].
  by rewrite (proj2 (Ascii.eqb_neq "/" c)) by congruence.
Qed.
Lemma path_join_plain W n : W ≠ [] → Forall plain_comp W → plain_comp n →
  path_join (abs_path W) n = abs_path (W ++ [n]).
Proof.
  intros Hw HF Hn. apply path_join_named; [done| |by apply plain_named].
  eapply Forall_impl; [exact HF|apply plain_named].
Qed.

Lemma abspath_abs cwd W : Forall plain_comp W → path_list (abspath cwd (abs_path W)) = W.
Proof.
  intros HF. unfold abspath, abs_path. change (startswith "/" (String "/" (join "/" W))) with true. cbn iota.
  unfold normpath.
  assert (startswith "//" (String "/" (join "/" W)) = false) as H2.
  { destruct (join "/" W) as [|c t] eqn:E; [done|]. pose proof (join_plain_head W c t HF E) as Hne.
    cbn [startswith]. rewrite (proj2 (Ascii.eqb_neq "/" c)) by congruence. done. }
  rewrite H2. cbn [andb]. change (startswith "/" (String "/" (join "/" W))) with true. cbn iota.
  assert (norm_comps (String "/" (join "/" W)) = W) as Hn.
  { unfold norm_comps. change (startswith "/" (String "/" (join "/" W))) with true.
    change (split_char "/" (String "/" (join "/" W))) with ("" :: split_char "/" (join "/" W)).
    cbn [fold_left]. change (norm_comp true [] "") with (@nil string).
    rewrite split_join_plain by done. by apply fold_split_of. }
  rewrite Hn. change ("/" +:+ join "/" W) with (String "/" (join "/" W)). cbn iota. unfold path_list.
  change (split_char "/" (String "/" (join "/" W))) with ("" :: split_char "/" (join "/" W)).
  rewrite filter_cons_False by (intros H; by apply H).
  rewrite split_join_plain by done. by apply filter_split_of.
Qed.

Lemma relpath_below cwd W comps : Forall plain_comp (W ++ comps) → comps ≠ [] →
  relpath cwd (abs_path (W ++ comps)) (abs_path W) = join "/" comps.
Proof.
  intros HF Hc. pose proof HF as [HW _]%Forall_app. unfold relpath. rewrite !abspath_abs by done.
  rewrite <- (app_nil_r W) at 1. rewrite rel_list_app. by destruct comps.
Qed.

Lemma join_app W comps : W ≠ [] → comps ≠ [] → join "/" (W ++ comps) = join "/" W +:+ "/" +:+ join "/" comps.
Proof.
  intros HW Hc. destruct W as [|w W]; [done|]. clear HW. revert w. induction W as [|x W IH]; intros w.
  - cbn [app]. destruct comps; [done|]. by rewrite join_cons.
  - cbn [app]. rewrite !join_cons. cbn [app] in IH. by rewrite IH, !sapp_assoc.
Qed.
