(* ===== verification/PyRe.v ===== *)
(** * PyRe: the matching engine of Python's [re] module

    A regular expression is an abstract syntax tree; [m_run] is the
    backtracking matcher, in continuation-passing style: it explores the same
    alternatives in the same order as the library ([|] left to right, greedy
    repetition longest first, lazy repetition shortest first) and refuses, as
    the library does, to start another iteration of a repetition at the
    position where the previous one started.  [search], [finditer],
    [findall], [split] and [sub] are built on it, with the library's rule for
    empty matches.

    The engine covers the constructs the sources use: there are no
    look-arounds, back-references or possessive quantifiers. *)

From S2P Require Import Prelude PyStr.

(** ** Syntax *)

Inductive citem :=
| CRange (lo hi : ascii)      (** a character or a range of them *)
| CDigit (neg : bool)         (** [\d] and [\D] *)
| CSpace (neg : bool)         (** [\s] and [\S] *)
| CWord (neg : bool)          (** [\w] and [\W] *)
| CSpaceA (neg : bool)        (** [\s] and [\S] with [re.ASCII] *)
| CWordA (neg : bool).        (** [\w] and [\W] with [re.ASCII] *)

Inductive cset :=
| CAny (dotall : bool)        (** [.] *)
| CSet (neg : bool) (items : list citem).

Inductive re :=
| REmpty
| RChr (icase : bool) (cs : cset)
| RSeq (r1 r2 : re)
| RAlt (r1 r2 : re)
| RRep (greedy : bool) (mn : nat) (mx : option nat) (r : re)
| RGroup (n : nat) (r : re)
| RBol (multiline : bool)
| REol (multiline : bool)
| RWordB (asc neg : bool).

Definition citem_match (i : citem) (c : ascii) : bool :=
  match i with
  | CRange lo hi => in_range (code lo) (code hi) c
  | CDigit neg => xorb neg (is_digit c)
  | CSpace neg => xorb neg (is_space c)
  | CWord neg => xorb neg (is_word c)
  | CSpaceA neg => xorb neg (is_space_ascii c)
  | CWordA neg => xorb neg (is_word_ascii c)
  end.
Definition items_match (icase : bool) (l : list citem) (c : ascii) : bool :=
  existsb (λ i, citem_match i c
                || (icase && (citem_match i (lower c) || citem_match i (upper c)))) l.
Definition cset_match (icase : bool) (cs : cset) (c : ascii) : bool :=
  match cs with
  | CAny dotall => dotall || negb (c =? NL)%char
  | CSet neg l => xorb neg (items_match icase l c)
  end.

(** ** The matcher *)

(** Spans of the groups set so far, the most recent first. *)
Abbreviation caps := (list (nat * (nat * nat))) (only parsing).

Record mst := MSt {
  m_pos : nat;               (** offset in the subject *)
  m_prev : option ascii;     (** the character before it *)
  m_rest : string;           (** the subject from it *)
  m_caps : caps;
  m_last : option nat;       (** [lastindex]: the group closed last *)
}.

Definition advance (st : mst) (c : ascii) (t : string) : mst :=
  MSt (S (m_pos st)) (Some c) t (m_caps st) (m_last st).
Definition set_cap (n i : nat) (st : mst) : mst :=
  MSt (m_pos st) (m_prev st) (m_rest st) ((n, (i, m_pos st)) :: m_caps st) (Some n).

Definition word_at (asc : bool) (o : option ascii) : bool :=
  match o with Some c => if asc then is_word_ascii c else is_word c | None => false end.
Definition shead (s : string) : option ascii := match s with String c _ => Some c | "" => None end.

Definition at_bol (ml : bool) (st : mst) : bool :=
  match m_prev st with None => true | Some c => ml && (c =? NL)%char end.
Definition at_eol (ml : bool) (st : mst) : bool :=
  match m_rest st with
  | "" => true
  | String c t => (c =? NL)%char && (ml || match t with "" => true | _ => false end)
  end.
Definition at_wordb (asc : bool) (st : mst) : bool :=
  xorb (word_at asc (m_prev st)) (word_at asc (shead (m_rest st))).

Definition below (count : nat) (mx : option nat) : bool :=
  match mx with None => true | Some m => count <? m end.
Definition same_pos (last : option nat) (pos : nat) : bool :=
  match last with None => false | Some p => p =? pos end.

Section Loop.
(** [body] matches one iteration.  [last] is the position where the latest
    optional iteration started; [count] iterations are done. *)
Context (body : mst → (mst → option mst) → option mst)
        (greedy : bool) (mn : nat) (mx : option nat) (k : mst → option mst).

Fixpoint rep_loop (fuel count : nat) (last : option nat) (st : mst) : option mst :=
  match fuel with
  | O => None
  | S fuel' =>
      if count <? mn then body st (rep_loop fuel' (S count) last)
      else
        let more (_ : unit) :=
          if below count mx && negb (same_pos last (m_pos st))
          then body st (rep_loop fuel' (S count) (Some (m_pos st)))
          else None in
        if greedy
        then match more tt with Some x => Some x | None => k st end
        else match k st with Some x => Some x | None => more tt end
  end.
End Loop.

(** Enough for every run of the loop: [mn] mandatory iterations, one per
    remaining character, one empty one and the exit. *)
Definition rep_fuel (mn : nat) (st : mst) : nat := mn + String.length (m_rest st) + 2.

Fixpoint m_run (r : re) (st : mst) (k : mst → option mst) {struct r} : option mst :=
  match r with
  | REmpty => k st
  | RChr ic cs =>
      match m_rest st with
      | String c t => if cset_match ic cs c then k (advance st c t) else None
      | "" => None
      end
  | RSeq a b => m_run a st (λ st', m_run b st' k)
  | RAlt a b => match m_run a st k with Some x => Some x | None => m_run b st k end
  | RRep g mn mx a => rep_loop (m_run a) g mn mx k (rep_fuel mn st) 0 None st
  | RGroup n a => m_run a st (λ st', k (set_cap n (m_pos st) st'))
  | RBol ml => if at_bol ml st then k st else None
  | REol ml => if at_eol ml st then k st else None
  | RWordB asc neg => if xorb neg (at_wordb asc st) then k st else None
  end.

(** ** Compiled patterns and match objects *)

Record reflags := ReFlags { f_icase : bool; f_multiline : bool; f_dotall : bool; f_ascii : bool }.
#[global] Instance reflags_eq_dec : EqDecision reflags.
Proof. solve_decision. Defined.
Definition no_flags := ReFlags false false false false.
Definition re_I := ReFlags true false false false.
Definition re_M := ReFlags false true false false.
Definition re_S := ReFlags false false true false.
Definition re_A := ReFlags false false false true.
(** [flags1 | flags2] *)
Definition flags_or (a b : reflags) : reflags :=
  ReFlags (f_icase a || f_icase b) (f_multiline a || f_multiline b) (f_dotall a || f_dotall b)
    (f_ascii a || f_ascii b).

Record pattern := Pattern {
  p_src : string;                     (** [regex.pattern] *)
  p_flags : reflags;                  (** [regex.flags] *)
  p_prog : re;
  p_ngroups : nat;
  p_names : list (string * nat);      (** named groups *)
}.

Record rmatch := RMatch {
  r_src : string;
  r_start : nat;
  r_end : nat;
  r_caps : caps;
  r_lastindex : option nat;
}.

Fixpoint cap_find (n : nat) (l : caps) : option (nat * nat) :=
  match l with
  | [] => None
  | (m, ij) :: l' => if m =? n then Some ij else cap_find n l'
  end.
(** [m.group(n)]: [None] for a group that did not take part. *)
Definition group (m : rmatch) (n : nat) : option string :=
  match n with
  | O => Some (str_slice (r_start m) (r_end m) (r_src m))
  | _ => match cap_find n (r_caps m) with
         | Some (i, j) => Some (str_slice i j (r_src m))
         | None => None
         end
  end.
Definition group_or (m : rmatch) (n : nat) : string := default "" (group m n).
(** [m.lastgroup] *)
Definition lastgroup (p : pattern) (m : rmatch) : option string :=
  match r_lastindex m with
  | None => None
  | Some i => fst <$> List.find (λ x, snd x =? i) (p_names p)
  end.

Definition mst_at (pos : nat) (prev : option ascii) (rest : string) : mst :=
  MSt pos prev rest [] None.

(** One attempt at one position; with [must_advance] a match that ends where
    it starts is refused. *)
Definition accept (must_advance : bool) (start : nat) (st : mst) : option mst :=
  if must_advance && (m_pos st =? start) then None else Some st.
Definition match_at (r : re) (must_advance : bool) (st : mst) : option mst :=
  m_run r st (accept must_advance (m_pos st)).

(** The first position, from the one given, where the expression matches. *)
Fixpoint search_from (r : re) (must_advance : bool) (pos : nat) (prev : option ascii)
    (rest : string) : option (mst * mst) :=
  let st := mst_at pos prev rest in
  match match_at r must_advance st with
  | Some st' => Some (st, st')
  | None => match rest with
            | "" => None
            | String c t => search_from r false (S pos) (Some c) t
            end
  end.

Definition to_match (src : string) (x : mst * mst) : rmatch :=
  RMatch src (m_pos (fst x)) (m_pos (snd x)) (m_caps (snd x)) (m_last (snd x)).

(** [regex.match(s)] *)
Definition re_match (p : pattern) (s : string) : option rmatch :=
  let st := mst_at 0 None s in
  match match_at (p_prog p) false st with
  | Some st' => Some (to_match s (st, st'))
  | None => None
  end.
(** [regex.search(s)] *)
Definition re_search (p : pattern) (s : string) : option rmatch :=
  to_match s <$> search_from (p_prog p) false 0 None s.

(** [regex.finditer(s)]: after an empty match the next one, sought from the
    same position, may not be empty there. *)
Fixpoint iter_from (fuel : nat) (r : re) (src : string) (must_advance : bool)
    (pos : nat) (prev : option ascii) (rest : string) : list rmatch :=
  match fuel with
  | O => []
  | S fuel' =>
      match search_from r must_advance pos prev rest with
      | None => []
      | Some (st, st') =>
          to_match src (st, st') ::
          iter_from fuel' r src (m_pos st' =? m_pos st) (m_pos st') (m_prev st') (m_rest st')
      end
  end.
(** Every character is passed by at most one non-empty match and preceded by
    at most one empty one. *)
Definition iter_fuel (s : string) : nat := 2 * String.length s + 2.
Definition re_finditer (p : pattern) (s : string) : list rmatch :=
  iter_from (iter_fuel s) (p_prog p) s false 0 None s.

(** [regex.findall(s)] when the pattern has several groups: one tuple of
    groups per match, [""] for a group that did not take part. *)
Definition re_findall (p : pattern) (s : string) : list (list string) :=
  map (λ m, map (group_or m) (seq 1 (p_ngroups p))) (re_finditer p s).

(** [regex.split(s)]: the pieces between the matches and, between them, the
    groups ([None] for a group that did not take part). *)
Fixpoint split_at (ngroups : nat) (src : string) (i : nat) (ms : list rmatch) : list (option string) :=
  match ms with
  | [] => [Some (str_drop i src)]
  | m :: ms' =>
      Some (str_slice i (r_start m) src) :: map (group m) (seq 1 ngroups)
      ++ split_at ngroups src (r_end m) ms'
  end.
Definition re_split (p : pattern) (s : string) : list (option string) :=
  split_at (p_ngroups p) s 0 (re_finditer p s).

(** Replacement templates: literal text and group references. *)
Inductive tpl := TLit (s : string) | TGroup (n : nat).
Definition tpl_expand (t : list tpl) (m : rmatch) : string :=
  sconcat (map (λ x, match x with TLit s => s | TGroup n => group_or m n end) t).

(** [regex.sub(repl, s, count)]; [count = 0] replaces every match. *)
Fixpoint sub_at (repl : rmatch → string) (src : string) (i : nat) (ms : list rmatch) : string :=
  match ms with
  | [] => str_drop i src
  | m :: ms' => str_slice i (r_start m) src +:+ repl m +:+ sub_at repl src (r_end m) ms'
  end.
Definition re_sub_with (p : pattern) (repl : rmatch → string) (s : string) (count : nat) : string :=
  let ms := re_finditer p s in
  sub_at repl s 0 (if count =? 0 then ms else firstn count ms).
