(* ===== verification/PyReSyntax.v ===== *)
(** * PyReSyntax: Python's regular-expression and template syntax

    [re_compile] parses the text of a pattern, so that the models quote the
    patterns exactly as the sources write them, and [tpl_parse] parses the
    replacement argument of [sub].  A construct outside the covered syntax,
    like a malformed pattern, makes the result [None] (Python's [re.error]). *)

From S2P Require Import Prelude PyStr PyRe.

(** State of the parser: the last group number given and the named groups. *)
Record pst := PSt { ps_n : nat; ps_names : list (string * nat) }.

Definition lit (fl : reflags) (c : ascii) : re := RChr (f_icase fl) (CSet false [CRange c c]).

(** Escapes that stand for a class; [None] when the letter is not one. *)
Definition class_escape (fl : reflags) (c : ascii) : option citem :=
  match c with
  | "d" => Some (CDigit false) | "D" => Some (CDigit true)
  | "s" => Some (if f_ascii fl then CSpaceA false else CSpace false)
  | "S" => Some (if f_ascii fl then CSpaceA true else CSpace true)
  | "w" => Some (if f_ascii fl then CWordA false else CWord false)
  | "W" => Some (if f_ascii fl then CWordA true else CWord true)
  | _ => None
  end%char.
(** Escapes that stand for a character. *)
Definition char_escape (c : ascii) : option ascii :=
  match c with
  | "n" => Some NL | "t" => Some TAB | "r" => Some CR
  | "f" => Some "012" | "v" => Some "011" | "a" => Some "007"
  | _ => if is_alnum c then None else Some c
  end%char.

(** Items of a class up to the closing bracket.  [first] holds at the first
    item, where [\]] is a literal. *)
Fixpoint parse_items (fl : reflags) (fuel : nat) (first : bool) (s : string) : option (list citem * string) :=
  match fuel with
  | O => None
  | S f =>
      (* one item: a class escape, or a character that may open a range *)
      let item : option (citem + ascii) * string :=
        match s with
        | "" => (None, "")
        | String c t =>
            if (c =? BACKSLASH)%char then
              match t with
              | "" => (None, "")
              | String e t' =>
                  match class_escape fl e with
                  | Some i => (Some (inl i), t')
                  | None => match char_escape e with
                            | Some x => (Some (inr x), t')
                            | None => (None, "")
                            end
                  end
              end
            else (Some (inr c), t)
        end in
      match s with
      | "" => None
      | String "]" t => if first then
            match item with
            | (Some (inr c), t') =>
                '(l, u) ← parse_items fl f false t'; Some (CRange c c :: l, u)
            | _ => None
            end
          else Some ([], t)
      | _ =>
          match item with
          | (Some (inl i), t') => '(l, u) ← parse_items fl f false t'; Some (i :: l, u)
          | (Some (inr c), String "-" (String d t'')) =>
              if (d =? "]")%char
              then Some ([CRange c c; CRange "-" "-"], t'')
              else if (d =? BACKSLASH)%char then None
              else if (code c <=? code d)%N
              then '(l, u) ← parse_items fl f false t''; Some (CRange c d :: l, u)
              else None
          | (Some (inr c), t') => '(l, u) ← parse_items fl f false t'; Some (CRange c c :: l, u)
          | (None, _) => None
          end
      end
  end.

(** A run of digits and the rest. *)
Fixpoint take_digits (s : string) : string * string :=
  match s with
  | "" => ("", "")
  | String c t => if is_digit c then let '(a, b) := take_digits t in (String c a, b) else ("", s)
  end.
(** A group name and the rest after [>]. *)
Fixpoint take_name (s : string) : option (string * string) :=
  match s with
  | "" => None
  | String c t => if (c =? ">")%char then Some ("", t)
                  else if is_word c then '(a, b) ← take_name t; Some (String c a, b)
                  else None
  end.

(** [{m}], [{m,}], [{,n}] and [{m,n}] after the opening brace; [None] when the
    brace is a literal. *)
Definition parse_bounds (s : string) : option ((nat * option nat) * string) :=
  let '(lo, s1) := take_digits s in
  match s1 with
  | String "}" t => match lo with
                    | "" => None
                    | _ => n ← str_int lo; Some ((n, Some n), t)
                    end
  | String "," s2 =>
      let '(hi, s3) := take_digits s2 in
      match s3 with
      | String "}" t => Some ((default 0 (str_int lo), str_int hi), t)
      | _ => None
      end
  | _ => None
  end.

Definition quantified (r : re) (mn : nat) (mx : option nat) (s : string) : option (re * string) :=
  match s with
  | String "?" t => Some (RRep false mn mx r, t)
  | String "+" _ => None
  | _ => Some (RRep true mn mx r, s)
  end.
(** The quantifier after an atom, if there is one. *)
Definition parse_quant (r : re) (s : string) : option (re * string) :=
  match s with
  | String "*" t => quantified r 0 None t
  | String "+" t => quantified r 1 None t
  | String "?" t => quantified r 0 (Some 1) t
  | String "{" t => match parse_bounds t with
                    | Some ((mn, mx), u) => quantified r mn mx u
                    | None => Some (r, s)
                    end
  | _ => Some (r, s)
  end.

Section Parse.
Context (fl : reflags).

Fixpoint parse_alt (fuel : nat) (g : pst) (s : string) {struct fuel} : option (re * pst * string) :=
  match fuel with
  | O => None
  | S f =>
      '(r, g1, s1) ← parse_seq f g s;
      match s1 with
      | String "|" t => '(r', g2, s2) ← parse_alt f g1 t; Some (RAlt r r', g2, s2)
      | _ => Some (r, g1, s1)
      end
  end
with parse_seq (fuel : nat) (g : pst) (s : string) {struct fuel} : option (re * pst * string) :=
  match fuel with
  | O => None
  | S f =>
      match s with
      | "" | String "|" _ | String ")" _ => Some (REmpty, g, s)
      | _ =>
          '(a, g1, s1) ← parse_atom f g s;
          '(q, s2) ← parse_quant a s1;
          '(r, g2, s3) ← parse_seq f g1 s2;
          Some (match r with REmpty => q | _ => RSeq q r end, g2, s3)
      end
  end
with parse_atom (fuel : nat) (g : pst) (s : string) {struct fuel} : option (re * pst * string) :=
  match fuel with
  | O => None
  | S f =>
      let close (x : re * pst * string) : option (re * pst * string) :=
        match x with (r, g', String ")" t) => Some (r, g', t) | _ => None end in
      match s with
      | "" => None
      | String "(" (String "?" (String ":" t)) => x ← parse_alt f g t; close x
      | String "(" (String "?" (String "P" (String "<" t))) =>
          '(name, t') ← take_name t;
          let n := S (ps_n g) in
          x ← parse_alt f (PSt n ((name, n) :: ps_names g)) t';
          '(r, g', u) ← close x;
          Some (RGroup n r, g', u)
      | String "(" (String "?" _) => None
      | String "(" t =>
          let n := S (ps_n g) in
          x ← parse_alt f (PSt n (ps_names g)) t;
          '(r, g', u) ← close x;
          Some (RGroup n r, g', u)
      | String "[" (String "^" t) =>
          '(l, u) ← parse_items fl (String.length t) true t;
          Some (RChr (f_icase fl) (CSet true l), g, u)
      | String "[" t =>
          '(l, u) ← parse_items fl (String.length t) true t;
          Some (RChr (f_icase fl) (CSet false l), g, u)
      | String "." t => Some (RChr false (CAny (f_dotall fl)), g, t)
      | String "^" t => Some (RBol (f_multiline fl), g, t)
      | String "$" t => Some (REol (f_multiline fl), g, t)
      | String "*" _ | String "+" _ | String "?" _ => None
      | String c t =>
          if (c =? BACKSLASH)%char then
            match t with
            | "" => None
            | String "b" u => Some (RWordB (f_ascii fl) false, g, u)
            | String "B" u => Some (RWordB (f_ascii fl) true, g, u)
            | String e u =>
                match class_escape fl e with
                | Some i => Some (RChr false (CSet false [i]), g, u)
                | None => match char_escape e with
                          | Some x => Some (lit fl x, g, u)
                          | None => None
                          end
                end
            end
          else Some (lit fl c, g, t)
      end
  end.
End Parse.

(** [re.compile(s, flags)] *)
Definition re_compile (fl : reflags) (s : string) : option pattern :=
  match parse_alt fl (3 * String.length s + 3) (PSt 0 []) s with
  | Some (r, g, "") => Some (Pattern s fl r (ps_n g) (ps_names g))
  | _ => None
  end.

(** A pattern that matches nothing; what [compiled] makes of a bad one. *)
Definition bad_pattern (s : string) (fl : reflags) : pattern :=
  Pattern s fl (RChr false (CSet false [])) 0 [].
Definition compiled (fl : reflags) (s : string) : pattern :=
  default (bad_pattern s fl) (re_compile fl s).

(** Replacement templates: [\1] ... [\99] are groups, [\n], [\t], [\\] ... are
    characters, a backslash before another punctuation mark stays. *)
Fixpoint tpl_parse (s : string) : option (list tpl) :=
  match s with
  | "" => Some []
  | String c t =>
      if (c =? BACKSLASH)%char then
        match t with
        | "" => None
        | String d u =>
            if is_digit d then
              match u with
              | String e v =>
                  if is_digit e && negb (d =? "0")%char
                  then l ← tpl_parse v; n ← str_int (String d (String e "")); Some (TGroup n :: l)
                  else if (d =? "0")%char then None
                  else l ← tpl_parse u; n ← str_int (String d ""); Some (TGroup n :: l)
              | "" => if (d =? "0")%char then None
                      else n ← str_int (String d ""); Some [TGroup n]
              end
            else match char_escape d with
                 | Some x =>
                     l ← tpl_parse u;
                     Some (TLit (if (d =? BACKSLASH)%char || is_alnum d
                                 then String x "" else String BACKSLASH (String x "")) :: l)
                 | None => None
                 end
        end
      else l ← tpl_parse t; Some (TLit (String c "") :: l)
  end.

(** [regex.sub(repl, s, count)] with the template [repl] as a string. *)
Definition tpl_compiled (repl : string) : list tpl := default [] (tpl_parse repl).
Definition re_sub (p : pattern) (repl : string) (s : string) (count : nat) : string :=
  re_sub_with p (tpl_expand (tpl_compiled repl)) s count.
