(* ===== verification/PyReTheory.v ===== *)
(** * PyReTheory: what the matching engine guarantees

    A denotational reading [mrel] of expressions as relations between matcher
    states, soundness and completeness of [m_run] for it (the latter is where
    the fuel of repetitions is shown to be enough), the language [lang] of an
    expression, and the facts the components use: spans lie in the subject,
    a group's text belongs to the language of its sub-expression, successive
    matches of [finditer] do not overlap and [iter_fuel] suffices. *)

From S2P Require Import Prelude PyStr PyRe PyReSyntax.

(** ** Relational semantics *)

Section Reps.
Context (R : mst → mst → Prop) (mn : nat) (mx : option nat).
Inductive reps : nat → option nat → mst → mst → Prop :=
| reps_stop count last st : mn ≤ count → reps count last st st
| reps_must count last st st1 st2 :
    count < mn → R st st1 → reps (S count) last st1 st2 → reps count last st st2
| reps_more count last st st1 st2 :
    mn ≤ count → below count mx = true → same_pos last (m_pos st) = false →
    R st st1 → reps (S count) (Some (m_pos st)) st1 st2 → reps count last st st2.
End Reps.

Fixpoint mrel (r : re) : mst → mst → Prop :=
  match r with
  | REmpty => λ st st', st' = st
  | RChr ic cs => λ st st', ∃ c t, m_rest st = String c t ∧ cset_match ic cs c = true
                                   ∧ st' = advance st c t
  | RSeq a b => λ st st', ∃ st1, mrel a st st1 ∧ mrel b st1 st'
  | RAlt a b => λ st st', mrel a st st' ∨ mrel b st st'
  | RRep _ mn mx a => reps (mrel a) mn mx 0 None
  | RGroup n a => λ st st', ∃ st1, mrel a st st1 ∧ st' = set_cap n (m_pos st) st1
  | RBol ml => λ st st', at_bol ml st = true ∧ st' = st
  | REol ml => λ st st', at_eol ml st = true ∧ st' = st
  | RWordB asc neg => λ st st', xorb neg (at_wordb asc st) = true ∧ st' = st
  end.

Lemma rep_loop_sound body R g mn mx k fuel : ∀ count last st x,
  (∀ st k x, body st k = Some x → ∃ st', R st st' ∧ k st' = Some x) →
  rep_loop body g mn mx k fuel count last st = Some x →
  ∃ st', reps R mn mx count last st st' ∧ k st' = Some x.
Proof.
  induction fuel as [|fuel IH]; intros count last st x Hb; [done|].
  cbn [rep_loop]. destruct (count <? mn) eqn:Ec; bool_facts.
  { intros (st1 & HR & Hx)%Hb. destruct (IH _ _ _ _ Hb Hx) as (st2 & ? & ?).
    exists st2. split; [by eapply reps_must|done]. }
  assert (Hmore : (if below count mx && negb (same_pos last (m_pos st))
     then body st (rep_loop body g mn mx k fuel (S count) (Some (m_pos st))) else None) = Some x →
     ∃ st', reps R mn mx count last st st' ∧ k st' = Some x).
  { destruct (below count mx && negb (same_pos last (m_pos st))) eqn:E; [|done]; bool_facts.
    intros (st1 & HR & Hx)%Hb. destruct (IH _ _ _ _ Hb Hx) as (st2 & ? & ?).
    exists st2. split; [by eapply reps_more|done]. }
  assert (Hstop : k st = Some x → ∃ st', reps R mn mx count last st st' ∧ k st' = Some x).
  { intros. exists st. split; [by apply reps_stop | done]. }
  destruct g.
  - case_match_goal; [intros [= ->]; auto | auto].
  - destruct (k st) eqn:Ek; [intros [= ->]; auto | auto].
Qed.

Lemma m_run_sound r : ∀ st k x,
  m_run r st k = Some x → ∃ st', mrel r st st' ∧ k st' = Some x.
Proof.
  induction r as [|ic cs|a IHa b IHb|a IHa b IHb|g mn mx a IHa|n a IHa|ml|ml|asc neg];
    intros st k x; cbn [m_run mrel].
  - eauto.
  - destruct (m_rest st) as [|c t] eqn:E; [done|]. destruct (cset_match ic cs c) eqn:Ec; [|done].
    intros H. eexists; split; [by exists c, t | done].
  - intros (st1 & H1 & H)%IHa. apply IHb in H as (st2 & H2 & H). eauto.
  - destruct (m_run a st k) eqn:E.
    + intros [= ->]. apply IHa in E as (st' & ? & ?). eauto.
    + intros (st' & ? & ?)%IHb. eauto.
  - intros H. by apply (rep_loop_sound (m_run a) (mrel a)) in H.
  - intros (st1 & H1 & H)%IHa. eauto.
  - destruct (at_bol ml st); [eauto | done].
  - destruct (at_eol ml st); [eauto | done].
  - destruct (xorb neg (at_wordb asc st)); [eauto | done].
Qed.

(** ** Matching moves forward through the subject *)

(** The character before the end of [w], starting after [prev]. *)
Fixpoint slast (prev : option ascii) (w : string) : option ascii :=
  match w with "" => prev | String c t => slast (Some c) t end.

Lemma slast_app prev a b : slast prev (a +:+ b) = slast (slast prev a) b.
Proof. revert prev; induction a as [|c a IH]; intros prev; simpl; auto. Qed.

(** [st'] is reached from [st] by consuming [w]. *)
Record consumes (st : mst) (w : string) (st' : mst) : Prop := {
  cs_rest : m_rest st = w +:+ m_rest st';
  cs_pos : m_pos st' = m_pos st + String.length w;
  cs_prev : m_prev st' = slast (m_prev st) w;
}.

Lemma consumes_refl st : consumes st "" st.
Proof. by split; simpl; rewrite ?Nat.add_0_r. Qed.
Lemma consumes_trans a u b v c : consumes a u b → consumes b v c → consumes a (u +:+ v) c.
Proof.
  intros [r1 p1 v1] [r2 p2 v2]. split.
  - by rewrite r1, r2, sapp_assoc.
  - rewrite p2, p1, slen_app. lia.
  - by rewrite v2, v1, slast_app.
Qed.
Lemma consumes_len st w st' :
  consumes st w st' → String.length (m_rest st) = String.length w + String.length (m_rest st').
Proof. intros [-> _ _]. apply slen_app. Qed.
#[export] Hint Resolve consumes_refl : py.

(** ** The language of an expression *)

Fixpoint lang (r : re) : string → Prop :=
  match r with
  | REmpty | RBol _ | REol _ | RWordB _ _ => λ w, w = ""
  | RChr ic cs => λ w, ∃ c, w = String c "" ∧ cset_match ic cs c = true
  | RSeq a b => λ w, ∃ u v, w = u +:+ v ∧ lang a u ∧ lang b v
  | RAlt a b => λ w, lang a w ∨ lang b w
  | RRep _ mn mx a => λ w, ∃ ws, w = sconcat ws ∧ Forall (lang a) ws ∧ mn ≤ length ws
                                 ∧ match mx with Some m => length ws ≤ max mn m | None => True end
  | RGroup _ a => lang a
  end.

Lemma reps_lang (R : mst → mst → Prop) (L : string → Prop) mn mx count last st st' :
  (∀ st st', R st st' → ∃ w, consumes st w st' ∧ L w) →
  reps R mn mx count last st st' →
  ∃ ws, consumes st (sconcat ws) st' ∧ Forall L ws ∧ mn ≤ count + length ws
        ∧ match mx with Some m => count + length ws ≤ max count (max mn m) | None => True end.
Proof.
  intros HR. induction 1 as [count last st Hc|count last st st1 st2 Hc HR1 Hr IH
                            |count last st st1 st2 Hc Hb Hp HR1 Hr IH].
  - exists []. split; [apply consumes_refl|]. simpl. repeat split; [done|lia|].
    destruct mx; [lia|done].
  - destruct (HR _ _ HR1) as (w & Hw & HL). destruct IH as (ws & Hws & HF & Hn & Hm).
    exists (w :: ws). split; [by eapply consumes_trans|]. simpl.
    repeat split; [by constructor|lia|]. destruct mx; [lia|done].
  - destruct (HR _ _ HR1) as (w & Hw & HL). destruct IH as (ws & Hws & HF & Hn & Hm).
    exists (w :: ws). split; [by eapply consumes_trans|]. simpl.
    repeat split; [by constructor|lia|]. destruct mx as [m|]; [|done].
    simpl in Hb. apply Nat.ltb_lt in Hb. lia.
Qed.

Lemma mrel_lang r : ∀ st st', mrel r st st' → ∃ w, consumes st w st' ∧ lang r w.
Proof.
  induction r as [|ic cs|a IHa b IHb|a IHa b IHb|g mn mx a IHa|n a IHa|ml|ml|asc neg];
    intros st st'; cbn [mrel lang].
  - intros ->. eauto with py.
  - intros (c & t & Hr & Hc & ->). exists (String c "").
    split; [|eauto]. split; simpl; [done|lia|done].
  - intros (st1 & (u & ? & ?)%IHa & (v & ? & ?)%IHb).
    exists (u +:+ v). split; [by eapply consumes_trans | eauto 6].
  - intros [(w & ? & ?)%IHa|(w & ? & ?)%IHb]; eauto.
  - intros (ws & H1 & H2 & H3 & H4)%(reps_lang _ (lang a)); [|done].
    exists (sconcat ws). split; [done|]. exists ws. simpl in *. repeat split; auto.
  - intros (st1 & (u & [] & ?)%IHa & ->). exists u. by split.
  - intros [_ ->]; eauto with py.
  - intros [_ ->]; eauto with py.
  - intros [_ ->]; eauto with py.
Qed.

Lemma mrel_len r st st' : mrel r st st' →
  m_pos st ≤ m_pos st' ∧
  m_pos st' + String.length (m_rest st') = m_pos st + String.length (m_rest st).
Proof.
  intros (w & Hw & _)%mrel_lang. pose proof (consumes_len _ _ _ Hw). destruct Hw. lia.
Qed.

(** ** Completeness: the fuel is enough *)

Lemma rep_loop_complete body R g mn mx k fuel : ∀ count last st st',
  (∀ st st1 k, R st st1 → is_Some (k st1) → is_Some (body st k)) →
  (∀ st st1, R st st1 → m_pos st ≤ m_pos st1 ∧
     m_pos st1 + String.length (m_rest st1) = m_pos st + String.length (m_rest st)) →
  (count < mn → last = None) →
  reps R mn mx count last st st' → is_Some (k st') →
  (mn - count) + String.length (m_rest st) + (if same_pos last (m_pos st) then 1 else 2) ≤ fuel →
  is_Some (rep_loop body g mn mx k fuel count last st).
Proof.
  induction fuel as [|fuel IH]; intros count last st st' Hb Hp Hl Hr Hk Hf.
  { destruct (same_pos last (m_pos st)); lia. }
  cbn [rep_loop].
  inversion Hr as [? ? ? Hc|? ? ? st1 ? Hc HR Hr'|? ? ? st1 ? Hc Hbl Hsp HR Hr']; subst.
  - rewrite (proj2 (Nat.ltb_ge count mn)) by done.
    destruct g.
    + case_match_goal; [by eexists | done].
    + destruct Hk as [x ->]. by eexists.
  - rewrite (proj2 (Nat.ltb_lt count mn)) by done.
    apply (Hb _ _ _ HR). destruct (Hp _ _ HR). rewrite (Hl Hc) in *.
    eapply IH; eauto. simpl in *. lia.
  - rewrite (proj2 (Nat.ltb_ge count mn)) by done. rewrite Hbl, Hsp in *. cbn [negb andb].
    assert (Hmore : is_Some (body st (rep_loop body g mn mx k fuel (S count) (Some (m_pos st))))).
    { apply (Hb _ _ _ HR). destruct (Hp _ _ HR). eapply IH; eauto; [lia|].
      simpl same_pos. destruct (Nat.eqb_spec (m_pos st) (m_pos st1)); lia. }
    destruct g.
    + destruct Hmore as [x ->]. by eexists.
    + case_match_goal; [by eexists | done].
Qed.

Lemma m_run_complete r : ∀ st st' k,
  mrel r st st' → is_Some (k st') → is_Some (m_run r st k).
Proof.
  induction r as [|ic cs|a IHa b IHb|a IHa b IHb|g mn mx a IHa|n a IHa|ml|ml|asc neg];
    intros st st' k; cbn [m_run mrel].
  - by intros ->.
  - intros (c & t & -> & Hc & ->). by rewrite Hc.
  - intros (st1 & H1 & H2) Hk. eapply IHa; [done|]. by eapply IHb.
  - intros [H|H] Hk.
    + destruct (IHa _ _ _ H Hk) as [x ->]. by eexists.
    + case_match_goal; [by eexists | by eapply IHb].
  - intros Hr Hk. eapply (rep_loop_complete (m_run a) (mrel a)); eauto using mrel_len.
    unfold rep_fuel. simpl. lia.
  - intros (st1 & H1 & ->) Hk. by eapply IHa.
  - intros [Hc ->]. by rewrite Hc.
  - intros [Hc ->]. by rewrite Hc.
  - intros [Hc ->]. by rewrite Hc.
Qed.

(** ** Computable facts about languages *)

(** Characters that may occur in a word of [lang r], and its least length. *)
Fixpoint may (r : re) (c : ascii) : bool :=
  match r with
  | REmpty | RBol _ | REol _ | RWordB _ _ => false
  | RChr ic cs => cset_match ic cs c
  | RSeq a b | RAlt a b => may a c || may b c
  | RRep _ _ _ a | RGroup _ a => may a c
  end.
Fixpoint width (r : re) : nat :=
  match r with
  | REmpty | RBol _ | REol _ | RWordB _ _ => 0
  | RChr _ _ => 1
  | RSeq a b => width a + width b
  | RAlt a b => min (width a) (width b)
  | RRep _ mn _ a => mn * width a
  | RGroup _ a => width a
  end.

Lemma lang_may r : ∀ w, lang r w → sall (may r) w = true.
Proof.
  induction r as [|ic cs|a IHa b IHb|a IHa b IHb|g mn mx a IHa|n a IHa|ml|ml|asc neg];
    intros w; cbn [lang may]; try by intros ->.
  - intros (c & -> & Hc). simpl. by rewrite Hc.
  - intros (u & v & -> & Hu%IHa & Hv%IHb). rewrite sall_app.
    rewrite (sall_impl (may a) _ u), (sall_impl (may b) _ v); try done;
      intros c ->; [by rewrite orb_true_r | done].
  - intros [H%IHa|H%IHb].
    + apply (sall_impl (may a)); [|done]. by intros c ->.
    + apply (sall_impl (may b)); [|done]. intros c ->. by rewrite orb_true_r.
  - intros (ws & -> & HF & _ & _). induction HF as [|x ws Hx HF IH]; [done|].
    rewrite sconcat_cons, sall_app, IH, andb_true_r. by apply IHa.
  - apply IHa.
Qed.

Lemma lang_width r : ∀ w, lang r w → width r ≤ String.length w.
Proof.
  induction r as [|ic cs|a IHa b IHb|a IHa b IHb|g mn mx a IHa|n a IHa|ml|ml|asc neg];
    intros w; cbn [lang width]; try by intros ->; simpl; lia.
  - intros (c & -> & _). simpl. lia.
  - intros (u & v & -> & Hu%IHa & Hv%IHb). rewrite slen_app. lia.
  - intros [H%IHa|H%IHb]; lia.
  - intros (ws & -> & HF & Hn & _).
    assert (length ws * width a ≤ String.length (sconcat ws)); [|nia]. clear Hn.
    induction HF as [|x ws Hx HF IH]; [done|]. rewrite sconcat_cons, slen_app.
    specialize (IHa x Hx). simpl. lia.
  - apply IHa.
Qed.

(** A property of all 256 characters, decided by evaluation. *)
Definition all_ascii : list ascii := map (λ n, ascii_of_nat n) (seq 0 256).
Definition forall_ascii (p : ascii → bool) : bool := forallb p all_ascii.

Lemma forall_ascii_spec p : forall_ascii p = true → ∀ c, p c = true.
Proof.
  unfold forall_ascii, all_ascii. rewrite forallb_forall. intros H c. apply H.
  apply in_map_iff. exists (nat_of_ascii c). split; [apply ascii_nat_embedding|].
  apply in_seq. pose proof (nat_ascii_bounded c). lia.
Qed.

(** The words of an expression without repetition or classes. *)
Fixpoint words (r : re) : option (list string) :=
  match r with
  | REmpty => Some [""]
  | RChr false (CSet false [CRange a b]) => if (a =? b)%char then Some [String a ""] else None
  | RSeq a b =>
      match words a, words b with
      | Some l, Some k => Some (concat (map (λ u, map (λ v, u +:+ v) k) l))
      | _, _ => None
      end
  | RAlt a b =>
      match words a, words b with Some l, Some k => Some (l ++ k) | _, _ => None end
  | RGroup _ a => words a
  | _ => None
  end.

Lemma lang_char c w : lang (RChr false (CSet false [CRange c c])) w → w = String c "".
Proof.
  intros (x & -> & H). cbn [cset_match items_match existsb citem_match xorb andb] in H.
  rewrite !orb_false_r in H. apply andb_prop in H as [H1%N.leb_le H2%N.leb_le]. unfold code in *.
  assert (N_of_ascii x = N_of_ascii c) as E by lia.
  apply (f_equal ascii_of_N) in E. by rewrite !ascii_N_embedding in E; subst.
Qed.

Lemma words_spec r : ∀ l w, words r = Some l → lang r w → w ∈ l.
Proof.
  induction r as [|ic cs|a IHa b IHb|a IHa b IHb|g mn mx a IHa|m a IHa|ml|ml|asc neg];
    intros l w; cbn [words lang]; try done.
  - intros [= <-] ->. by left.
  - destruct ic; [done|]. destruct cs as [|[] items]; [done|done|].
    destruct items as [|[lo hi|?|?|?|?|?] [|? ?]]; try done.
    destruct (Ascii.eqb_spec lo hi) as [->|]; [|done]. intros [= <-] H.
    apply lang_char in H as ->. by left.
  - destruct (words a) as [la|], (words b) as [lb|]; try done. intros [= <-] (u & v & -> & Hu & Hv).
    apply list_elem_of_In, in_concat. exists (map (λ v, u +:+ v) lb). split.
    + apply in_map_iff. exists u. split; [done|]. apply list_elem_of_In. by apply IHa.
    + apply in_map. apply list_elem_of_In. by apply IHb.
  - destruct (words a) as [la|], (words b) as [lb|]; try done. intros [= <-] [H|H]; apply elem_of_app.
    + left. by apply IHa.
    + right. by apply IHb.
  - apply IHa.
Qed.

(** The sub-expressions of the groups. *)
Fixpoint groups (r : re) : list (nat * re) :=
  match r with
  | RSeq a b | RAlt a b => groups a ++ groups b
  | RRep _ _ _ a => groups a
  | RGroup n a => (n, a) :: groups a
  | _ => []
  end.
(** Group [n] takes part in every match. *)
Fixpoint always_sets (n : nat) (r : re) : bool :=
  match r with
  | RSeq a b => always_sets n a || always_sets n b
  | RAlt a b => always_sets n a && always_sets n b
  | RRep _ mn _ a => (1 <=? mn) && always_sets n a
  | RGroup m a => (m =? n) || always_sets n a
  | _ => false
  end.

(** ** Captured groups *)

(** [st] is a state of a match over the subject [src]. *)
Record at_src (src : string) (st : mst) : Prop := {
  as_split : ∃ p, src = p +:+ m_rest st ∧ m_pos st = String.length p ∧ m_prev st = slast None p
}.

Lemma at_src_consumes src st w st' : at_src src st → consumes st w st' → at_src src st'.
Proof.
  intros [(p & E & P & V)] [r q v]. split. exists (p +:+ w).
  split; [by rewrite E, r, sapp_assoc|]. split; [by rewrite q, P, slen_app|].
  by rewrite v, V, slast_app.
Qed.

Lemma consumed_slice src st w st' :
  at_src src st → consumes st w st' →
  str_slice (m_pos st) (m_pos st') src = w ∧ m_pos st' ≤ String.length src.
Proof.
  intros [(p & E & P & V)] [r q v]. rewrite E, r, q, P. split.
  - apply str_slice_app.
  - rewrite !slen_app. lia.
Qed.

(** A capture [(n, (i, j))] is sound for the groups [gs]. *)
Definition cap_sound (src : string) (gs : list (nat * re)) (x : nat * (nat * nat)) : Prop :=
  let '(n, (i, j)) := x in
  ∃ b, (n, b) ∈ gs ∧ i ≤ j ≤ String.length src ∧ lang b (str_slice i j src).

Definition caps_step src (gs : list (nat * re)) (st st' : mst) : Prop :=
  ∀ x, x ∈ m_caps st' → x ∈ m_caps st ∨ cap_sound src gs x.

Lemma cap_sound_incl src gs gs' x :
  (∀ y, y ∈ gs → y ∈ gs') → cap_sound src gs x → cap_sound src gs' x.
Proof. destruct x as [n [i j]]. intros Hi (b & ? & ? & ?). exists b. auto. Qed.

Lemma caps_step_trans src g1 g2 gs a b c :
  (∀ y, y ∈ g1 → y ∈ gs) → (∀ y, y ∈ g2 → y ∈ gs) →
  caps_step src g1 a b → caps_step src g2 b c → caps_step src gs a c.
Proof.
  intros H1 H2 Hab Hbc x [Hx|Hx]%Hbc.
  - destruct (Hab x Hx) as [?|?]; [by left | right; by apply (cap_sound_incl _ g1)].
  - right. by apply (cap_sound_incl _ g2).
Qed.

Lemma reps_caps src (R : mst → mst → Prop) gs mn mx count last st st' :
  (∀ st st', R st st' → at_src src st → at_src src st' ∧ caps_step src gs st st') →
  reps R mn mx count last st st' → at_src src st →
  at_src src st' ∧ caps_step src gs st st'.
Proof.
  intros HR. induction 1 as [count last st Hc|count last st st1 st2 Hc HR1 Hr IH
                            |count last st st1 st2 Hc Hb Hp HR1 Hr IH]; intros Hs.
  - split; [done | by left].
  - destruct (HR _ _ HR1 Hs) as [Hs1 H1]. destruct (IH Hs1) as [Hs2 H2].
    split; [done|]. eapply caps_step_trans; eauto.
  - destruct (HR _ _ HR1 Hs) as [Hs1 H1]. destruct (IH Hs1) as [Hs2 H2].
    split; [done|]. eapply caps_step_trans; eauto.
Qed.

Lemma mrel_at_src src r st st' : mrel r st st' → at_src src st → at_src src st'.
Proof. intros (w & Hw & _)%mrel_lang Hs. by eapply at_src_consumes. Qed.

Lemma mrel_caps src r : ∀ st st',
  mrel r st st' → at_src src st → at_src src st' ∧ caps_step src (groups r) st st'.
Proof.
  induction r as [|ic cs|a IHa b IHb|a IHa b IHb|g mn mx a IHa|n a IHa|ml|ml|asc neg];
    intros st st' Hr Hs; (split; [by eapply mrel_at_src|]); cbn [mrel groups] in *.
  - subst. by left.
  - destruct Hr as (c & t & _ & _ & ->). by left.
  - destruct Hr as (st1 & H1 & H2). destruct (IHa _ _ H1 Hs) as [Hs1 C1].
    destruct (IHb _ _ H2 Hs1) as [Hs2 C2].
    eapply caps_step_trans; [| |exact C1|exact C2]; intros y Hy; apply elem_of_app; auto.
  - destruct Hr as [H|H].
    + destruct (IHa _ _ H Hs) as [_ C]. intros x [?|?]%C; [by left|right].
      eapply cap_sound_incl; [|done]. intros; apply elem_of_app; auto.
    + destruct (IHb _ _ H Hs) as [_ C]. intros x [?|?]%C; [by left|right].
      eapply cap_sound_incl; [|done]. intros; apply elem_of_app; auto.
  - by destruct (reps_caps src (mrel a) (groups a) mn mx 0 None st st').
  - destruct Hr as (st1 & H1 & ->). destruct (IHa _ _ H1 Hs) as [Hs1 C1].
    destruct (mrel_lang _ _ _ H1) as (w & Hw & HL).
    destruct (consumed_slice _ _ _ _ Hs Hw) as [Hsl Hle].
    intros x [->|Hx]%elem_of_cons.
    + right. exists a. split; [by left|]. rewrite Hsl. split; [|done].
      destruct Hw. simpl. lia.
    + destruct (C1 x Hx) as [?|?]; [by left|right].
      eapply cap_sound_incl; [|done]. by right.
  - destruct Hr as [_ ->]. by left.
  - destruct Hr as [_ ->]. by left.
  - destruct Hr as [_ ->]. by left.
Qed.

(** A group that is set stays set, and [always_sets] groups get set. *)
Definition is_set (n : nat) (st : mst) : Prop := is_Some (cap_find n (m_caps st)).

Lemma reps_sets (R : mst → mst → Prop) n mn mx count last st st' :
  (∀ st st', R st st' → is_set n st → is_set n st') →
  reps R mn mx count last st st' → is_set n st → is_set n st'.
Proof. intros HR. induction 1; eauto. Qed.

Lemma mrel_keeps_set n r : ∀ st st', mrel r st st' → is_set n st → is_set n st'.
Proof.
  induction r as [|ic cs|a IHa b IHb|a IHa b IHb|g mn mx a IHa|m a IHa|ml|ml|asc neg];
    intros st st'; cbn [mrel]; try by intros [_ ->].
  - by intros ->.
  - by intros (c & t & _ & _ & ->).
  - intros (st1 & H1 & H2) Hs. eauto.
  - intros [H|H] Hs; eauto.
  - intros Hr. by eapply reps_sets.
  - intros (st1 & H1 & ->) Hs. unfold is_set. simpl. destruct (m =? n); [done|].
    by eapply IHa.
Qed.

Lemma reps_always (R : mst → mst → Prop) n mn mx count last st st' :
  (∀ st st', R st st' → is_set n st') → (∀ st st', R st st' → is_set n st → is_set n st') →
  reps R mn mx count last st st' → count < mn → is_set n st'.
Proof.
  intros HA HK. inversion 1; intros Hc; subst; [lia | | lia].
  eapply reps_sets; eauto.
Qed.

Lemma mrel_always_sets n r : ∀ st st', mrel r st st' → always_sets n r = true → is_set n st'.
Proof.
  induction r as [|ic cs|a IHa b IHb|a IHa b IHb|g mn mx a IHa|m a IHa|ml|ml|asc neg];
    intros st st'; cbn [mrel always_sets]; try done.
  - intros (st1 & H1 & H2) [H|H]%orb_prop; [eapply mrel_keeps_set; eauto | eauto].
  - intros [H|H] [? ?]%andb_prop; eauto.
  - intros Hr [Hm Ha]%andb_prop. bool_facts.
    eapply reps_always; eauto using mrel_keeps_set.
  - intros (st1 & H1 & ->) [H|H]%orb_prop; unfold is_set; simpl.
    + rewrite H. by eexists.
    + destruct (m =? n); [by eexists | by eapply IHa].
Qed.

(** ** Match objects *)

(** What holds of every match object [m] of the pattern [p] on [s]. *)
Record match_ok (p : pattern) (s : string) (m : rmatch) : Prop := {
  mo_src : r_src m = s;
  mo_span : r_start m ≤ r_end m ≤ String.length s;
  mo_lang : lang (p_prog p) (str_slice (r_start m) (r_end m) s);
  mo_caps : Forall (cap_sound s (groups (p_prog p))) (r_caps m);
  mo_sets : ∀ n, always_sets n (p_prog p) = true → is_Some (cap_find n (r_caps m));
  mo_run : ∃ st st', at_src s st ∧ mrel (p_prog p) st st' ∧ r_start m = m_pos st
                     ∧ r_end m = m_pos st' ∧ r_caps m = m_caps st';
}.

Lemma match_at_sound r must st st' :
  match_at r must st = Some st' → mrel r st st' ∧ (must = true → m_pos st' ≠ m_pos st).
Proof.
  intros (x & Hr & Ha)%m_run_sound. unfold accept in Ha.
  destruct must; simpl in Ha; [|by simplify_eq].
  destruct (Nat.eqb_spec (m_pos x) (m_pos st)); simplify_eq. done.
Qed.

Lemma match_at_complete r st st' : mrel r st st' → is_Some (match_at r false st).
Proof. intros H. eapply m_run_complete; [done|]. by eexists. Qed.

Lemma at_src_start p rest : at_src (p +:+ rest) (mst_at (String.length p) (slast None p) rest).
Proof. split. by exists p. Qed.

Lemma to_match_ok p s must st st' :
  at_src s st → m_caps st = [] → match_at (p_prog p) must st = Some st' →
  match_ok p s (to_match s (st, st')).
Proof.
  intros Hs Hc [Hr _]%match_at_sound.
  destruct (mrel_lang _ _ _ Hr) as (w & Hw & HL).
  destruct (consumed_slice _ _ _ _ Hs Hw) as [Hsl Hle].
  split; simpl.
  - done.
  - pose proof (mrel_len _ _ _ Hr). lia.
  - by rewrite Hsl.
  - apply Forall_forall. intros x Hx. destruct (mrel_caps s _ _ _ Hr Hs) as [_ C].
    destruct (C x Hx) as [Hin|?]; [|done]. rewrite Hc in Hin. by apply elem_of_nil in Hin.
  - intros n Hn. by eapply mrel_always_sets.
  - by exists st, st'.
Qed.

Lemma search_from_spec r must pos prev rest st st' :
  search_from r must pos prev rest = Some (st, st') →
  ∃ w rest', rest = w +:+ rest' ∧ st = mst_at (pos + String.length w) (slast prev w) rest' ∧
    match_at r (must && (w =? "")%string) st = Some st'.
Proof.
  revert must pos prev. induction rest as [|c t IH]; intros must pos prev; cbn [search_from].
  - destruct (match_at r must _) eqn:E; intros [= <- <-].
    exists "", "". simpl. rewrite Nat.add_0_r, andb_true_r. done.
  - destruct (match_at r must _) eqn:E.
    + intros [= <- <-]. exists "", (String c t). simpl. rewrite Nat.add_0_r, andb_true_r. done.
    + intros (w & rest' & -> & -> & H)%IH. exists (String c w), rest'. simpl.
      rewrite Nat.add_succ_r, andb_false_r. done.
Qed.

Lemma search_from_ok p s must pre rest st st' :
  s = pre +:+ rest →
  search_from (p_prog p) must (String.length pre) (slast None pre) rest = Some (st, st') →
  match_ok p s (to_match s (st, st')) ∧ at_src s st' ∧ String.length pre ≤ m_pos st.
Proof.
  intros -> (w & rest' & -> & -> & H)%search_from_spec.
  assert (Hs : at_src (pre +:+ w +:+ rest')
    (mst_at (String.length pre + String.length w) (slast (slast None pre) w) rest')).
  { rewrite <- sapp_assoc, <- slen_app, <- slast_app. apply at_src_start. }
  split; [|split].
  - eapply to_match_ok; eauto.
  - apply match_at_sound in H as [H _]. by eapply mrel_at_src.
  - simpl. lia.
Qed.

Lemma re_search_ok p s m : re_search p s = Some m → match_ok p s m.
Proof.
  unfold re_search. destruct (search_from _ _ _ _ _) as [[st st']|] eqn:E; [|done].
  intros [= <-]. by apply (search_from_ok p s false "" s) in E as [? _].
Qed.

Lemma re_match_ok p s m : re_match p s = Some m → match_ok p s m ∧ r_start m = 0.
Proof.
  unfold re_match. destruct (match_at _ _ _) as [st'|] eqn:E; [|done]. intros [= <-].
  split; [|done]. eapply to_match_ok; eauto. by apply (at_src_start "").
Qed.

(** ** Groups of a match *)

Section Groups.
Context (p : pattern) (s : string) (m : rmatch) (Hm : match_ok p s m).

Lemma cap_find_in n ij l : cap_find n l = Some ij → (n, ij) ∈ l.
Proof.
  induction l as [|[k kj] l IH]; simpl; [done|].
  destruct (Nat.eqb_spec k n) as [->|]; [intros [= ->]; by left | right; auto].
Qed.

Lemma group_lang n t : n ≠ 0 → group m n = Some t →
  ∃ b, (n, b) ∈ groups (p_prog p) ∧ lang b t.
Proof using Hm.
  unfold group. destruct n as [|n]; [done|]. intros _.
  destruct (cap_find _ _) as [[i j]|] eqn:E; [|done]. intros [= <-].
  apply cap_find_in in E. pose proof (mo_caps _ _ _ Hm) as HF. rewrite Forall_forall in HF.
  apply HF in E as (b & Hb & _ & HL). exists b. by rewrite (mo_src _ _ _ Hm).
Qed.

Lemma group0_lang t : group m 0 = Some t → lang (p_prog p) t.
Proof using Hm. intros [= <-]. rewrite (mo_src _ _ _ Hm). apply (mo_lang _ _ _ Hm). Qed.

Lemma group_always n : always_sets n (p_prog p) = true → is_Some (group m n).
Proof using Hm.
  intros H. unfold group. destruct n; [by eexists|].
  destruct (mo_sets _ _ _ Hm _ H) as [[i j] ->]. by eexists.
Qed.

(** The characters of a group, by evaluation on the pattern. *)
Definition group_charset (n : nat) (q : ascii → bool) : bool :=
  forallb (λ x, negb (fst x =? n) || forall_ascii (λ c, negb (may (snd x) c) || q c))
          (groups (p_prog p)).
Definition group_width (n k : nat) : bool :=
  forallb (λ x, negb (fst x =? n) || (k <=? width (snd x))) (groups (p_prog p)).

Lemma group_chars n q t :
  group_charset n q = true → n ≠ 0 → group m n = Some t → sall q t = true.
Proof using Hm.
  intros Hq Hn (b & Hb & HL)%group_lang; [|done].
  unfold group_charset in Hq. rewrite forallb_forall in Hq.
  apply list_elem_of_In, Hq in Hb. simpl in Hb. rewrite Nat.eqb_refl in Hb. simpl in Hb.
  eapply sall_impl; [|by apply lang_may]. intros c Hc.
  pose proof (forall_ascii_spec _ Hb c) as Hc'. simpl in Hc'. by rewrite Hc in Hc'.
Qed.

Lemma group_min_len n k t :
  group_width n k = true → n ≠ 0 → group m n = Some t → k ≤ String.length t.
Proof using Hm.
  intros Hq Hn (b & Hb & HL)%group_lang; [|done].
  unfold group_width in Hq. rewrite forallb_forall in Hq.
  apply list_elem_of_In, Hq in Hb. simpl in Hb. rewrite Nat.eqb_refl in Hb. simpl in Hb.
  bool_facts. apply lang_width in HL. lia.
Qed.

Lemma str_slice_sall q i j x : sall q x = true → sall q (str_slice i j x) = true.
Proof.
  intros H. unfold str_slice.
  assert (Hd : ∀ n y, sall q y = true → sall q (str_drop n y) = true).
  { intros n y. rewrite <- (str_take_drop n y) at 1. rewrite sall_app. by intros [_ ?]%andb_prop. }
  specialize (Hd i x H). rewrite <- (str_take_drop (j - i) (str_drop i x)), sall_app in Hd.
  by apply andb_prop in Hd as [? _].
Qed.

(** The possible texts of a group, by evaluation on the pattern. *)
Definition group_words (n : nat) (ws : list string) : bool :=
  forallb (λ x, negb (fst x =? n) || match words (snd x) with
                                     | Some l => forallb (λ w, smem w ws) l
                                     | None => false end) (groups (p_prog p)).
Lemma group_in_words n ws t :
  group_words n ws = true → n ≠ 0 → group m n = Some t → t ∈ ws.
Proof using Hm.
  intros Hq Hn (b & Hb & HL)%group_lang; [|done].
  unfold group_words in Hq. rewrite forallb_forall in Hq.
  apply list_elem_of_In, Hq in Hb. cbn [fst snd] in Hb. rewrite Nat.eqb_refl in Hb. cbn [negb orb] in Hb.
  destruct (words b) as [l|] eqn:E; [|done]. rewrite forallb_forall in Hb.
  apply smem_iff, Hb. apply list_elem_of_In. by eapply words_spec.
Qed.

(** A group's text is a piece of the subject. *)
Lemma group_infix n q : sall q s = true → sall q (group_or m n) = true.
Proof using Hm.
  intros H. unfold group_or, group. rewrite (mo_src _ _ _ Hm).
  destruct n; [by apply str_slice_sall|].
  destruct (cap_find _ _) as [[i j]|]; [by apply str_slice_sall | done].
Qed.
End Groups.

(** *** Sequences of groups

    When the expression is a sequence, the text of a match is the
    concatenation of one piece per element, and the piece of an element that is
    a group is that group's text. *)

Fixpoint seq_split (r : re) : list re :=
  match r with
  | REmpty => []
  | RSeq a b => seq_split a ++ seq_split b
  | _ => [r]
  end.
Definition nodup_groups (p : pattern) : bool := bool_decide (NoDup (0 :: map fst (groups (p_prog p)))).

Definition part (s : string) (l : list (nat * (nat * nat))) (x : re) (w : string) : Prop :=
  lang x w ∧
  match x with
  | RGroup n _ => ∃ i j, cap_find n l = Some (i, j) ∧ str_slice i j s = w
  | _ => True
  end.

Lemma reps_cap_other (R : mst → mst → Prop) n mn mx count last st st' :
  (∀ st st', R st st' → cap_find n (m_caps st') = cap_find n (m_caps st)) →
  reps R mn mx count last st st' → cap_find n (m_caps st') = cap_find n (m_caps st).
Proof.
  intros HR. induction 1 as [|? ? ? ? ? ? H1 ? IH|? ? ? ? ? ? ? ? H1 ? IH]; [done| |];
    by rewrite IH, (HR _ _ H1).
Qed.

(** A group that an expression does not contain keeps its value. *)
Lemma mrel_cap_other n r : ∀ st st',
  mrel r st st' → n ∉ map fst (groups r) → cap_find n (m_caps st') = cap_find n (m_caps st).
Proof.
  induction r as [|ic cs|a IHa b IHb|a IHa b IHb|g mn mx a IHa|m a IHa|ml|ml|asc neg];
    intros st st'; cbn [mrel groups]; rewrite ?map_app, ?not_elem_of_app.
  - by intros ->.
  - by intros (c & t & _ & _ & ->).
  - intros (st1 & H1 & H2) [Ha Hb]. by rewrite (IHb _ _ H2), (IHa _ _ H1).
  - intros [H|H] [Ha Hb]; eauto.
  - intros Hr Hn. eapply reps_cap_other; [|exact Hr]. eauto.
  - cbn [map fst]. intros (st1 & H1 & ->) [Hm Hn]%not_elem_of_cons. cbn [m_caps set_cap cap_find].
    rewrite (proj2 (Nat.eqb_neq m n)) by done. eauto.
  - by intros [_ ->].
  - by intros [_ ->].
  - by intros [_ ->].
Qed.

Lemma seq_split_groups x r n a : x ∈ seq_split r → x = RGroup n a → n ∈ map fst (groups r).
Proof.
  intros Hx ->. revert Hx. induction r as [|ic cs|r1 IH1 r2 IH2| | | | | |]; cbn [seq_split groups];
    try (intros Hx%list_elem_of_singleton; done).
  - by intros ?%elem_of_nil.
  - rewrite elem_of_app, map_app, elem_of_app. intros [?|?]; auto.
  - intros Hx%list_elem_of_singleton. injection Hx as <- <-. by left.
Qed.

Lemma mrel_parts s r : ∀ st st',
  at_src s st → mrel r st st' → NoDup (map fst (groups r)) →
  ∃ ws, consumes st (sconcat ws) st' ∧ Forall2 (part s (m_caps st')) (seq_split r) ws.
Proof.
  assert (Hone : ∀ r st st', at_src s st → mrel r st st' →
    (∀ n a, r = RGroup n a → cap_find n (m_caps st') = Some (m_pos st, m_pos st')) →
    ∃ ws, consumes st (sconcat ws) st' ∧ Forall2 (part s (m_caps st')) [r] ws).
  { intros r0 st st' Hs Hr Hg. destruct (mrel_lang _ _ _ Hr) as (w & Hw & HL).
    exists [w]. rewrite sconcat_cons, sapp_nil_r. split; [done|]. constructor; [|constructor].
    split; [done|]. destruct r0; try done. exists (m_pos st), (m_pos st').
    split; [by eapply Hg|]. by apply (consumed_slice s st w st'). }
  induction r as [|ic cs|a IHa b IHb|a IHa b IHb|g mn mx a IHa|m a IHa|ml|ml|asc neg];
    intros st st' Hs Hr Hnd; try (apply Hone; done); cbn [seq_split mrel] in *.
  - subst. exists []. split; [apply consumes_refl | constructor].
  - destruct Hr as (st1 & H1 & H2). cbn [groups] in Hnd. rewrite map_app in Hnd.
    apply NoDup_app in Hnd as (Na & Hd & Nb).
    destruct (IHa _ _ Hs H1 Na) as (ws & Hws & Fws).
    destruct (IHb _ _ (at_src_consumes _ _ _ _ Hs Hws) H2 Nb) as (vs & Hvs & Fvs).
    exists (ws ++ vs). rewrite sconcat_app. split; [by eapply consumes_trans|].
    apply Forall2_app; [|done]. eapply Forall2_impl_in; [exact Fws|].
    intros x w Hx _ [HL Hp]. split; [done|]. destruct x as [| | | | |n c| | |]; try done.
    destruct Hp as (i & j & Hc & Hsl). exists i, j. split; [|done].
    rewrite (mrel_cap_other n b _ _ H2); [done|]. apply Hd. by eapply seq_split_groups.
  - apply Hone; [done|done|]. intros n c [= -> ->]. destruct Hr as (st1 & H1 & ->).
    cbn. by rewrite Nat.eqb_refl.
Qed.

(** The pieces of a match. *)
Definition match_part (m : rmatch) (x : re) (w : string) : Prop :=
  lang x w ∧ match x with RGroup n _ => group_or m n = w | _ => True end.

Lemma match_parts p s m :
  match_ok p s m → nodup_groups p = true →
  ∃ ws, group_or m 0 = sconcat ws ∧ Forall2 (match_part m) (seq_split (p_prog p)) ws.
Proof.
  intros Hm Hnd. apply bool_decide_eq_true, NoDup_cons in Hnd as [H0 Hnd].
  destruct (mo_run _ _ _ Hm) as (st & st' & Hs & Hr & E1 & E2 & E3).
  destruct (mrel_parts s _ _ _ Hs Hr Hnd) as (ws & Hws & HF). exists ws. split.
  - unfold group_or, group. cbn [default]. rewrite (mo_src _ _ _ Hm), E1, E2.
    by apply (consumed_slice s st _ st').
  - eapply Forall2_impl_in; [exact HF|]. intros x w Hx _ [HL Hp]. split; [done|].
    destruct x as [| | | | |n c| | |]; try done. destruct Hp as (i & j & Hc & Hsl).
    unfold group_or, group. rewrite (mo_src _ _ _ Hm), E3, Hc.
    destruct n; [by destruct H0; eapply seq_split_groups | done].
Qed.

(** ** Successive matches *)

(** The spans of [ms] are in order and disjoint, from [pos] on. *)
Inductive chain : nat → list rmatch → Prop :=
| chain_nil pos : chain pos []
| chain_cons pos m ms : pos ≤ r_start m → r_start m ≤ r_end m → chain (r_end m) ms →
    chain pos (m :: ms).

Lemma iter_from_ok p s fuel : ∀ must pre rest,
  s = pre +:+ rest →
  Forall (match_ok p s) (iter_from fuel (p_prog p) s must (String.length pre) (slast None pre) rest)
  ∧ chain (String.length pre) (iter_from fuel (p_prog p) s must (String.length pre) (slast None pre) rest).
Proof.
  induction fuel as [|fuel IH]; intros must pre rest Hs; cbn [iter_from]; [by repeat constructor|].
  destruct (search_from _ _ _ _ _) as [[st st']|] eqn:E; [|by repeat constructor].
  destruct (search_from_ok p s must pre rest st st' Hs E) as (Hok & [(q & Hq & Hp & Hv)] & Hle).
  destruct (IH (m_pos st' =? m_pos st) q (m_rest st') Hq) as [HF HC].
  rewrite <- Hp, <- Hv in *. split; [by constructor|].
  constructor; [done | apply (mo_span _ _ _ Hok) | done].
Qed.

Lemma re_finditer_ok p s : Forall (match_ok p s) (re_finditer p s).
Proof. by apply (iter_from_ok p s (iter_fuel s) false "" s). Qed.
Lemma re_finditer_chain p s : chain 0 (re_finditer p s).
Proof. by apply (iter_from_ok p s (iter_fuel s) false "" s). Qed.

(** More fuel than [2 * length + 1] changes nothing: the iteration has ended. *)
Lemma iter_from_fuel r s : ∀ fuel must pos prev rest extra,
  2 * String.length rest + (if must : bool then 0 else 1) < fuel →
  iter_from (fuel + extra) r s must pos prev rest = iter_from fuel r s must pos prev rest.
Proof.
  induction fuel as [|fuel IH]; intros must pos prev rest extra Hf; [lia|].
  cbn [iter_from Nat.add].
  destruct (search_from r must pos prev rest) as [[st st']|] eqn:E; [|done].
  f_equal. apply IH.
  apply search_from_spec in E as (w & rest' & -> & -> & Hm).
  apply match_at_sound in Hm as [Hr Hne]. apply mrel_len in Hr. simpl in *.
  rewrite slen_app in Hf.
  destruct (Nat.eqb_spec (m_pos st') (pos + String.length w)) as [Heq|Hneq].
  - destruct must; simpl in *; [|lia].
    destruct w; simpl in *; [by destruct Hne|lia].
  - destruct must; simpl in *; lia.
Qed.

Lemma re_finditer_complete p s extra :
  iter_from (iter_fuel s + extra) (p_prog p) s false 0 None s = re_finditer p s.
Proof. apply iter_from_fuel. unfold iter_fuel. lia. Qed.

(** The first match found by [finditer] is the one [search] returns. *)
Lemma re_finditer_search p s : head (re_finditer p s) = re_search p s.
Proof.
  unfold re_finditer, re_search, iter_fuel.
  replace (2 * String.length s + 2) with (S (2 * String.length s + 1)) by lia.
  cbn [iter_from]. by destruct (search_from _ _ _ _ _) as [[st st']|].
Qed.

Lemma re_finditer_nil p s : re_search p s = None → re_finditer p s = [].
Proof. rewrite <- re_finditer_search. by destruct (re_finditer p s). Qed.

(** ** Substitution *)

Lemma str_drop_slice i j s : i ≤ j → str_slice i j s +:+ str_drop j s = str_drop i s.
Proof.
  intros Hij. unfold str_slice.
  assert (E : str_drop j s = str_drop (j - i) (str_drop i s)).
  { revert j s Hij. induction i as [|i IH]; intros j s Hij.
    - by rewrite Nat.sub_0_r.
    - destruct j as [|j]; [lia|]. destruct s as [|c s]; simpl; [by destruct (j - i)|].
      apply IH. lia. }
  rewrite E. apply str_take_drop.
Qed.

Lemma re_sub_none p f s n : re_search p s = None → re_sub_with p f s n = s.
Proof.
  intros H. unfold re_sub_with. rewrite re_finditer_nil by done.
  by destruct (n =? 0); [|rewrite firstn_nil].
Qed.

Definition total (f : rmatch → nat) (ms : list rmatch) : nat := foldr (λ m n, f m + n) 0 ms.

(** Replacing accounts for every character: what the matches held is
    exchanged for what the replacements hold. *)
Lemma sub_at_count q f s i ms :
  chain i ms → Forall (λ m, r_src m = s) ms →
  scount q (sub_at f s i ms) + total (λ m, scount q (group_or m 0)) ms
  = scount q (str_drop i s) + total (λ m, scount q (f m)) ms.
Proof.
  intros HC. induction HC as [i|i m ms H1 H2 HC IH]; intros HF; simpl; [lia|].
  inversion HF as [|? ? Hs HF']; subst. specialize (IH HF').
  rewrite !scount_app. unfold group_or at 1. simpl.
  rewrite <- (str_drop_slice i (r_start m)), <- (str_drop_slice (r_start m) (r_end m)) by lia.
  rewrite !scount_app. lia.
Qed.

Lemma sub_at_sall q f s i ms :
  sall q s = true → Forall (λ m, sall q (f m) = true) ms → sall q (sub_at f s i ms) = true.
Proof.
  intros Hs HF. revert i. induction HF as [|m ms Hm HF IH]; intros i; simpl.
  - revert Hs. rewrite <- (str_take_drop i s) at 1. rewrite sall_app. by intros [_ ?]%andb_prop.
  - rewrite !sall_app, Hm, IH, str_slice_sall; done.
Qed.

Lemma re_sub_sall p q f s n :
  sall q s = true → (∀ m, match_ok p s m → sall q (f m) = true) →
  sall q (re_sub_with p f s n) = true.
Proof.
  intros Hs Hf. apply sub_at_sall; [done|].
  assert (HF : Forall (λ m, sall q (f m) = true) (re_finditer p s)).
  { eapply Forall_impl; [apply re_finditer_ok|]. auto. }
  destruct (n =? 0); [done | by apply Forall_take].
Qed.

Lemma group0_slice m : group_or m 0 = str_slice (r_start m) (r_end m) (r_src m).
Proof. done. Qed.

(** A homomorphism that does not tell a replacement from what it replaces does
    not see the substitution. *)
Lemma sub_at_hom (h : string → string) g s i ms :
  (∀ a b, h (a +:+ b) = h a +:+ h b) →
  chain i ms → Forall (λ m, r_src m = s) ms →
  Forall (λ m, h (g m) = h (group_or m 0)) ms → h (sub_at g s i ms) = h (str_drop i s).
Proof.
  intros Hh HC. induction HC as [i|i m ms H1 H2 HC IH]; intros HF HG; simpl; [done|].
  apply Forall_cons in HF as [Hs HF]. apply Forall_cons in HG as [Hg HG].
  rewrite <- (str_drop_slice i (r_start m)), <- (str_drop_slice (r_start m) (r_end m)) by lia.
  rewrite !Hh, IH by done. by rewrite Hg, group0_slice, Hs.
Qed.

Lemma chain_firstn n i ms : chain i ms → chain i (firstn n ms).
Proof.
  intros HC. revert n. induction HC; intros [|n]; cbn; constructor; auto.
Qed.

Lemma Forall_src p s ms : Forall (match_ok p s) ms → Forall (λ m, r_src m = s) ms.
Proof. intros H. eapply Forall_impl; [exact H|]. intros m Hm. apply (mo_src _ _ _ Hm). Qed.

Lemma re_sub_hom (h : string → string) p g s n :
  (∀ a b, h (a +:+ b) = h a +:+ h b) →
  (∀ m, match_ok p s m → h (g m) = h (group_or m 0)) →
  h (re_sub_with p g s n) = h s.
Proof.
  intros Hh Hg. unfold re_sub_with.
  assert (∀ k, chain 0 (firstn k (re_finditer p s)) ∧ Forall (match_ok p s) (firstn k (re_finditer p s)))
    as HA.
  { intros k. split; [apply chain_firstn, re_finditer_chain | apply Forall_take, re_finditer_ok]. }
  assert (∀ ms, chain 0 ms → Forall (match_ok p s) ms → h (sub_at g s 0 ms) = h s) as HB.
  { intros ms HC HF. rewrite (sub_at_hom h g s 0 ms Hh HC (Forall_src _ _ _ HF)); [by destruct s|].
    eapply Forall_impl; [exact HF|]. auto. }
  destruct (n =? 0); apply HB; try apply HA; [apply re_finditer_chain | apply re_finditer_ok].
Qed.

(** A measure with a state, [lst], on which every replacement gains 1. *)
Lemma sub_at_measure {A} (mu : A → string → nat) (lst : A → string → A) g s i ms :
  (∀ b u v, mu b (u +:+ v) = mu b u + mu (lst b u) v) →
  (∀ b u v, lst b (u +:+ v) = lst (lst b u) v) →
  chain i ms → Forall (λ m, r_src m = s) ms →
  Forall (λ m, ∀ b, mu b (g m) + 1 = mu b (group_or m 0) ∧ lst b (g m) = lst b (group_or m 0)) ms →
  ∀ b, mu b (sub_at g s i ms) + length ms = mu b (str_drop i s).
Proof.
  intros Hmu Hl HC. induction HC as [i|i m ms H1 H2 HC IH]; intros HF HG b; simpl; [lia|].
  apply Forall_cons in HF as [Hs HF]. apply Forall_cons in HG as [Hg HG].
  rewrite <- (str_drop_slice i (r_start m)), <- (str_drop_slice (r_start m) (r_end m)) by lia.
  rewrite !Hmu. destruct (Hg (lst b (str_slice i (r_start m) s))) as [Hg1 Hg2].
  rewrite group0_slice, Hs in Hg1, Hg2.
  rewrite <- Hg1, Hg2, <- (IH HF HG). lia.
Qed.

Lemma tpl_expand_sall q t m :
  forallb (λ x, match x with TLit l => sall q l | TGroup _ => true end) t = true →
  (∀ n, sall q (group_or m n) = true) → sall q (tpl_expand t m) = true.
Proof.
  intros Ht Hg. unfold tpl_expand. induction t as [|x t IH]; simpl in *; [done|].
  apply andb_prop in Ht as [Hx Ht]. rewrite sconcat_cons, sall_app, (IH Ht).
  destruct x; [by rewrite Hx | by rewrite Hg].
Qed.

#[export] Hint Resolve re_search_ok re_sub_sall tpl_expand_sall str_slice_sall : py.

(** The text of a group that always takes part, among its possible texts. *)
Lemma search_group_words r s m n ws :
  re_search r s = Some m → n ≠ 0 → always_sets n (p_prog r) = true → group_words r n ws = true →
  group_or m n ∈ ws.
Proof.
  intros Hm%re_search_ok Hn Ha Hw. destruct (group_always _ _ _ Hm n Ha) as [t Ht].
  unfold group_or. rewrite Ht. exact (group_in_words _ _ _ Hm n ws t Hw Hn Ht).
Qed.
