(* ===== verification/PyDate.v ===== *)
(** * PyDate: [datetime.strptime] for the formats of the sources

    The format becomes a regular expression with one group per directive, as in
    Python's [_strptime], for the names of the C locale; the names of the time
    zone, from the longest, are a parameter.  Fractions of a second in an offset
    from UTC are left out. *)

From S2P Require Import Prelude PyStr PyNum PyRe PyReSyntax PyReTheory.

(** [l.index(x)], [None] being the [ValueError]. *)
Fixpoint index_of (x : string) (l : list string) : option nat :=
  match l with
  | [] => None
  | y :: l => if (y =? x)%string then Some 0 else S <$> index_of x l
  end.

Definition weekdays : list string := ["mon"; "tue"; "wed"; "thu"; "fri"; "sat"; "sun"].
Definition months : list string :=
  ["jan"; "feb"; "mar"; "apr"; "may"; "jun"; "jul"; "aug"; "sep"; "oct"; "nov"; "dec"].
Definition full_months : list string :=
  ["january"; "february"; "march"; "april"; "may"; "june"; "july"; "august"; "september"; "october";
   "november"; "december"].
(** Longest first. *)
Definition full_months_re : string :=
  "september|february|november|december|january|october|august|march|april|june|july|may".

Definition is_leap (y : Z) : bool :=
  ((y mod 4 =? 0) && (negb (y mod 100 =? 0) || (y mod 400 =? 0)))%Z.
Definition month_days (y : Z) : list Z :=
  [31; if is_leap y then 29 else 28; 31; 30; 31; 30; 31; 31; 30; 31; 30; 31]%Z.

Record datetime := Datetime {
  dt_year : Z;
  dt_month : nat;   (** from 0 *)
  dt_day : Z;
  dt_hour : Z;
  dt_minute : Z;
  dt_second : Z;
  dt_utcoffset : option Z;
}.

(** ** Formats *)

Section Zones.
Context (zones : list string).

Definition directive_re (c : ascii) : string :=
  if (c =? "a")%char then join "|" weekdays
  else if (c =? "b")%char then join "|" months
  else if (c =? "B")%char then full_months_re
  else if (c =? "d")%char then "3[0-1]|[1-2]\d|0[1-9]|[1-9]| [1-9]"
  else if (c =? "m")%char then "1[0-2]|0[1-9]|[1-9]"
  else if (c =? "Y")%char then "\d\d\d\d"
  else if (c =? "H")%char then "2[0-3]|[0-1]\d|\d"
  else if (c =? "M")%char then "[0-5]\d|\d"
  else if (c =? "S")%char then "6[0-1]|[0-5]\d|\d"
  else if (c =? "z")%char then "[+-]\d\d:?[0-5]\d(?::?[0-5]\d)?|Z"
  else join "|" (map re_escape zones).
(** The expression for a format, and its directives; a run of white space stands
    for any. *)
Fixpoint format_re (blank : bool) (f : string) : string * list ascii :=
  match f with
  | "" => ("", [])
  | String c t =>
      if (c =? "%")%char then
        match t with
        | String d t =>
            let '(r, ds) := format_re false t in
            ("(" +:+ directive_re d +:+ ")" +:+ r, d :: ds)
        | "" => ("%", [])
        end
      else if is_space c then
        let '(r, ds) := format_re true t in
        (if blank then r else "\s+" +:+ r, ds)
      else
        let '(r, ds) := format_re false t in
        ((if char_in c "\.^$*+?(){}[]|" then "\" else "") +:+ String c r, ds)
  end.

(** ** Fields *)

(** [int(z[1:3])] and so on, for an offset without its colons. *)
Definition utcoffset (z : string) : option Z :=
  if (z =? "Z")%string then Some 0%Z
  else if (z =? "z")%string then None
  else
    let '(colon, z) :=
      if (str_slice 3 4 z =? ":")%string then (true, str_take 3 z +:+ str_drop 4 z) else (false, z) in
    let z' := if colon && (5 <? String.length z)
              then if (str_slice 5 6 z =? ":")%string then Some (str_take 5 z +:+ str_drop 6 z) else None
              else Some z in
    z ← z';
    let number i j := default 0%Z (py_int (str_slice i j z)) in
    let gmtoff := (number 1%nat 3%nat * 3600 + number 3%nat 5%nat * 60
                   + (if (str_slice 5 7 z =? "")%string then 0 else number 5%nat 7%nat))%Z in
    Some (if startswith "-" z then - gmtoff else gmtoff)%Z.
Definition set_field (dt : datetime) (c : ascii) (text : string) : option datetime :=
  let '(Datetime y mo d h mi s off) := dt in
  let n := default 0%Z (py_int text) in
  if (c =? "Y")%char then Some (Datetime n mo d h mi s off)
  else if (c =? "m")%char then Some (Datetime y (Z.to_nat n - 1) d h mi s off)
  else if (c =? "b")%char then
    (λ mo, Datetime y mo d h mi s off) <$> index_of (str_lower text) months
  else if (c =? "B")%char then
    (λ mo, Datetime y mo d h mi s off) <$> index_of (str_lower text) full_months
  else if (c =? "d")%char then Some (Datetime y mo n h mi s off)
  else if (c =? "H")%char then Some (Datetime y mo d n mi s off)
  else if (c =? "M")%char then Some (Datetime y mo d h n s off)
  else if (c =? "S")%char then Some (Datetime y mo d h mi n off)
  else if (c =? "z")%char then (λ o, Datetime y mo d h mi s (Some o)) <$> utcoffset text
  else Some dt.
Fixpoint set_fields (dt : datetime) (m : rmatch) (i : nat) (ds : list ascii) : option datetime :=
  match ds with
  | [] => Some dt
  | c :: ds => dt ← set_field dt c (group_or m i); set_fields dt m (S i) ds
  end.
(** What the constructors of [date] and [datetime] check. *)
Definition valid (dt : datetime) : bool :=
  (1 <=? dt_year dt)%Z && (dt_second dt <=? 59)%Z
  && match month_days (dt_year dt) !! dt_month dt with
     | Some n => (1 <=? dt_day dt)%Z && (dt_day dt <=? n)%Z | None => false end.
(** [datetime.strptime(s, format)], [None] being the [ValueError]. *)
Definition strptime (format s : string) : option datetime :=
  let '(r, ds) := format_re false format in
  p ← re_compile re_I r;
  m ← re_match p s;
  if (r_end m =? String.length s) then
    dt ← set_fields (Datetime 1900 0 1 0 0 0 None) m 1 ds;
    if valid dt then Some dt else None
  else None.
End Zones.

(** [dt.strftime("%B %Y")] *)
Definition month_and_year (dt : datetime) : string :=
  match full_months !! dt_month dt with
  | Some (String c t) => String (upper c) t
  | _ => ""
  end +:+ " " +:+ zint_str (dt_year dt).
