(* ===== verification/KdocRe.v ===== *)
(** * KdocRe: the class [KernRe] of [kdoc_re.py]

    [KernRe] wraps a compiled regular expression.  The compiled objects are
    shared through the module-level dictionary [re_cache], which is the state
    of this component; a [KernRe] object also remembers its last match. *)

From S2P Require Import Prelude PyStr PyRe PyReSyntax PyReTheory.

(** The module-level [re_cache]. *)
Abbreviation recache := (dict pattern).

Record KernRe := MkKernRe {
  kr_cache : bool;                (** [self.cache] *)
  kr_regex : pattern;             (** [self.regex] *)
  kr_last_match : option rmatch;  (** [self.last_match] *)
}.

(** [_add_regex]: the cache is keyed by the text of the pattern alone. *)
Definition _add_regex (cache : bool) (text : string) (flags : reflags) : ST recache pattern :=
  re_cache ← get;
  match dget re_cache text with
  | Some regex => mret regex
  | None =>
      match re_compile flags text with
      | None => raise (ReError text)
      | Some regex =>
          when cache (modify (λ d, dset d text regex)) ;;
          mret regex
      end
  end.

(** [KernRe(string, cache, flags)] *)
Definition KernRe_init (text : string) (cache : bool) (flags : reflags) : ST recache KernRe :=
  regex ← _add_regex cache text flags;
  mret (MkKernRe cache regex None).

(** [str(self)] *)
Definition KernRe_str (self : KernRe) : string := p_src (kr_regex self).

(** [self + other] *)
Definition KernRe_add (self other : KernRe) : ST recache KernRe :=
  KernRe_init (KernRe_str self +:+ KernRe_str other) (kr_cache self || kr_cache other)
    (flags_or (p_flags (kr_regex self)) (p_flags (kr_regex other))).

Definition flag_names (f : reflags) : list string :=
  (if f_icase f then ["re.I"] else []) ++ (if f_multiline f then ["re.M"] else [])
  ++ (if f_dotall f then ["re.S"] else []).

(** The text cut in pieces of [n] characters. *)
Fixpoint chunks (fuel n : nat) (s : string) : list string :=
  match fuel, s with
  | S fuel', String _ _ => str_take n s :: chunks fuel' n (str_drop n s)
  | _, _ => []
  end.
(** [repr(self)] *)
Definition KernRe_repr (self : KernRe) : string :=
  let flags_name := join " | " (flag_names (p_flags (kr_regex self))) in
  let src := p_src (kr_regex self) in
  let pat := sconcat (map (λ x, quote +:+ x +:+ quote +:+ " ") (chunks (String.length src) 60 src)) in
  if (flags_name =? "")%string then "KernRe(" +:+ pat +:+ ")"
  else "KernRe(" +:+ pat +:+ ", " +:+ flags_name +:+ ")".

(** Methods that delegate to the compiled object and record the match. *)
Definition KernRe_match (self : KernRe) (text : string) : KernRe * option rmatch :=
  let m := re_match (kr_regex self) text in
  (MkKernRe (kr_cache self) (kr_regex self) m, m).
Definition KernRe_search (self : KernRe) (text : string) : KernRe * option rmatch :=
  let m := re_search (kr_regex self) text in
  (MkKernRe (kr_cache self) (kr_regex self) m, m).
(** [self.group(num)]: [None.group] raises when the last match failed, and the
    match object rejects a group the pattern does not have. *)
Definition KernRe_group (self : KernRe) (num : nat) : res (option string) :=
  match kr_last_match self with
  | None => Raise (AttributeError "group")
  | Some m => if num <=? p_ngroups (kr_regex self) then Ok (group m num) else Raise IndexError
  end.
Definition KernRe_finditer (self : KernRe) (text : string) : list rmatch :=
  re_finditer (kr_regex self) text.
Definition KernRe_findall (self : KernRe) (text : string) : list (list string) :=
  re_findall (kr_regex self) text.
Definition KernRe_split (self : KernRe) (text : string) : list (option string) :=
  re_split (kr_regex self) text.
Definition KernRe_sub (self : KernRe) (sub text : string) (count : nat) : string :=
  re_sub (kr_regex self) sub text count.

(** ** The cache *)

(** A cache in which every entry was compiled with the flags [F] gives to its
    text. *)
Definition cache_coherent (F : string → reflags) (d : recache) : Prop :=
  ∀ s p, dget d s = Some p → re_compile (F s) s = Some p.

Lemma add_regex_coherent F cache s d :
  cache_coherent F d → is_Some (re_compile (F s) s) →
  ∃ d', _add_regex cache s (F s) d = (d', Ok (compiled (F s) s)) ∧ cache_coherent F d'.
Proof.
  intros Hd [p Hp]. unfold _add_regex, compiled. run_ST. destruct (dget d s) eqn:E.
  - exists d. pose proof (Hd _ _ E) as Hq. rewrite Hp in Hq |- *. by injection Hq as ->.
  - rewrite Hp. destruct cache; [|by exists d].
    exists (dset d s p). split; [done|]. intros t q.
    destruct (decide (s = t)) as [<-|Hne].
    + rewrite dget_dset_eq. by intros [= <-].
    + rewrite dget_dset_ne by done. apply Hd.
Qed.

(** As long as no text is compiled with two different flag values the
    cache cannot be observed: [KernRe] returns the pattern a fresh compilation
    with the requested flags gives, and keeps the cache so. *)
Theorem KernRe_cache_transparent F cache s d :
  cache_coherent F d → is_Some (re_compile (F s) s) →
  ∃ d', KernRe_init s cache (F s) d = (d', Ok (MkKernRe cache (compiled (F s) s) None))
        ∧ cache_coherent F d'.
Proof.
  intros Hd Hp. destruct (add_regex_coherent F cache s d Hd Hp) as (d' & E & Hd').
  exists d'. unfold KernRe_init. run_ST. by rewrite E.
Qed.

Lemma KernRe_cache_transparent_witness :
  ∃ d', KernRe_init "a+b" true no_flags [] = (d', Ok (MkKernRe true (compiled no_flags "a+b") None)) ∧
        cache_coherent (λ _, no_flags) d'.
Proof.
  apply (KernRe_cache_transparent (λ _, no_flags) true "a+b" []).
  - by intros s p.
  - vm_compute. by eexists.
Defined.

(** The cache ignores the flags: once a text has been compiled and cached,
    a later request for the same text with any other flags gets the first
    object. *)
Theorem KernRe_cache_ignores_flags s f1 f2 c p :
  re_compile f1 s = Some p →
  ∃ d, fst (KernRe_init s true f1 []) = d ∧
       KernRe_init s c f2 d = (d, Ok (MkKernRe c p None)).
Proof.
  intros Hp. eexists; split; [done|].
  unfold KernRe_init, _add_regex. run_ST. cbn. rewrite Hp. cbn. by rewrite String.eqb_refl.
Qed.

Lemma KernRe_cache_ignores_flags_witness :
  ∃ d, fst (KernRe_init "a.b" true no_flags []) = d ∧
       KernRe_init "a.b" false re_S d = (d, Ok (MkKernRe false (compiled no_flags "a.b") None)).
Proof. apply KernRe_cache_ignores_flags. vm_compute. reflexivity. Defined.

(** [repr] shows the whole pattern: the quoted pieces concatenate back to its
    text. *)
Lemma chunks_concat fuel n s :
  0 < n → String.length s ≤ fuel → sconcat (chunks fuel n s) = s.
Proof.
  revert s. induction fuel as [|fuel IH]; intros [|c s] Hn Hf; cbn [chunks]; try done.
  - simpl in Hf. lia.
  - rewrite sconcat_cons, IH, str_take_drop; [done|done|].
    rewrite str_drop_len. simpl in *. lia.
Qed.
