(* ===== verification/CLex.v ===== *)
(** * CLex: the C tokenizer and the macro matcher of [c_lex.py]

    [CToken], [CTokenizer] (scanning and printing), [CTokenArgs] (the
    arguments of a replacement) and [CMatch] (search and replacement of macro
    invocations with balanced delimiters).  Functions that may log run in
    [Lex], a state transformer over the list of messages sent to the module's
    logger; those that may raise end in [Raise]. *)

From S2P Require Import Prelude PyStr PyRe PyReSyntax PyReTheory KdocRe.

#[global] Arguments compiled : simpl never.
#[global] Opaque compiled.
#[global] Arguments re_sub : simpl never.

(** Messages sent to a [logging] logger. *)
Inductive logrec :=
| LogError (msg : string)
| LogWarning (msg : string)
| LogInfo (msg : string)
| LogDebug (msg : string).
(** The number of the level and the text of a message. *)
Definition record_level (r : logrec) : nat :=
  match r with LogDebug _ => 10 | LogInfo _ => 20 | LogWarning _ => 30 | LogError _ => 40 end.
Definition record_message (r : logrec) : string :=
  match r with LogDebug m | LogInfo m | LogWarning m | LogError m => m end.

Definition Lex (A : Type) : Type := ST (list logrec) A.
Definition log_error (msg : string) : Lex unit := modify (λ l, l ++ [LogError msg]).
Definition log_warning (msg : string) : Lex unit := modify (λ l, l ++ [LogWarning msg]).

(** [tokenizer_set_log]: the adapter puts [prefix] before every message. *)
Definition tokenizer_set_log (prefix : string) (r : logrec) : logrec :=
  match r with
  | LogError msg => LogError (prefix +:+ msg)
  | LogWarning msg => LogWarning (prefix +:+ msg)
  | LogInfo msg => LogInfo (prefix +:+ msg)
  | LogDebug msg => LogDebug (prefix +:+ msg)
  end.

(** ** Tokens *)

Module CToken.
Inductive kind_t :=
| COMMENT | STRING | CHAR | NUMBER | PUNC | BEGIN | END | CPP | HASH | OP
| STRUCT | UNION | ENUM | TYPEDEF | NAME | SPACE | ENDSTMT | BACKREF | MISMATCH.

#[global] Instance kind_eq_dec : EqDecision kind_t.
Proof. solve_decision. Defined.

(** The value of the class attribute. *)
Definition val (k : kind_t) : nat :=
  match k with
  | COMMENT => 0 | STRING => 1 | CHAR => 2 | NUMBER => 3 | PUNC => 4 | BEGIN => 5
  | END => 6 | CPP => 7 | HASH => 8 | OP => 9 | STRUCT => 10 | UNION => 11
  | ENUM => 12 | TYPEDEF => 13 | NAME => 14 | SPACE => 15 | ENDSTMT => 16
  | BACKREF => 17 | MISMATCH => 255
  end.
Definition all_kinds : list kind_t :=
  [COMMENT; STRING; CHAR; NUMBER; PUNC; BEGIN; END; CPP; HASH; OP; STRUCT; UNION;
   ENUM; TYPEDEF; NAME; SPACE; ENDSTMT; BACKREF; MISMATCH].
Definition to_name (k : kind_t) : string :=
  match k with
  | COMMENT => "COMMENT" | STRING => "STRING" | CHAR => "CHAR" | NUMBER => "NUMBER"
  | PUNC => "PUNC" | BEGIN => "BEGIN" | END => "END" | CPP => "CPP" | HASH => "HASH"
  | OP => "OP" | STRUCT => "STRUCT" | UNION => "UNION" | ENUM => "ENUM"
  | TYPEDEF => "TYPEDEF" | NAME => "NAME" | SPACE => "SPACE" | ENDSTMT => "ENDSTMT"
  | BACKREF => "BACKREF" | MISMATCH => "MISMATCH"
  end.
(** [from_name]: an unknown name is a [MISMATCH]. *)
Definition from_name (name : string) : kind_t :=
  default MISMATCH (List.find (λ k, to_name k =? name)%string all_kinds).

(** The nesting level of a token: brackets, parentheses, braces. *)
Record level_t := Level { bracket : nat; paren : nat; brace : nat }.
#[global] Instance level_eq_dec : EqDecision level_t.
Proof. solve_decision. Defined.

Record t := Mk { kind : kind_t; value : string; pos : nat; level : level_t }.
#[global] Instance t_eq_dec : EqDecision t.
Proof. solve_decision. Defined.

Definition is_kind (k : kind_t) (tok : t) : bool := bool_decide (kind tok = k).

(** [repr(tok)] *)
Definition level_str (l : level_t) : string :=
  "(" +:+ int_str (bracket l) +:+ ", " +:+ int_str (paren l) +:+ ", "
  +:+ int_str (brace l) +:+ ")".
Definition repr (tok : t) : string :=
  "CToken(CToken." +:+ to_name (kind tok) +:+ ", " +:+ quote +:+ value tok +:+ quote
  +:+ ", " +:+ int_str (pos tok) +:+ ", " +:+ level_str (level tok) +:+ ")".
End CToken.
Import CToken.

(** ** The scanner *)

Definition RE_SCANNER_LIST : list (kind_t * string) := [
  (COMMENT,  "//[^\n]*|/\*[\s\S]*?\*/");
  (STRING,   quote +:+ "(?:\\.|[^" +:+ quote +:+ "\\])*" +:+ quote);
  (CHAR,     "'(?:\\.|[^'\\])'");
  (NUMBER,   "0[xX][\da-fA-F]+[uUlL]*|0[0-7]+[uUlL]*|" +:+
             "\d+(?:\.\d*)?(?:[eE][+-]?\d+)?[fFlL]*");
  (ENDSTMT,  "(?:\s+;|;)");
  (PUNC,     "[,\.]");
  (BEGIN,    "[\[\(\{]");
  (END,      "[\]\)\}]");
  (CPP,      "#\s*(?:define|include|ifdef|ifndef|if|else|elif|endif|undef|pragma)\b");
  (HASH,     "#");
  (OP,       "\+\+|\-\-|\->|==|\!=|<=|>=|&&|\|\||<<|>>|\+=|\-=|\*=|/=|%=" +:+
             "|&=|\|=|\^=|[=\+\-\*/%<>&\|\^~!\?\:]");
  (STRUCT,   "\bstruct\b");
  (UNION,    "\bunion\b");
  (ENUM,     "\benum\b");
  (TYPEDEF,  "\btypedef\b");
  (NAME,     "[A-Za-z_]\w*");
  (SPACE,    "\s+");
  (BACKREF,  "\\\d+");
  (MISMATCH, ".")
].

(** [fill_re_scanner]: the flags of the source are passed in the position of
    the argument [cache], so the pattern is compiled without flags. *)
Definition fill_re_scanner (token_list : list (kind_t * string)) : pattern :=
  compiled no_flags
    (join "|" (map (λ '(kind, pat), "(?P<" +:+ to_name kind +:+ ">" +:+ pat +:+ ")") token_list)).

Definition RE_CONT : pattern := compiled no_flags "\\\n".
Definition RE_COMMENT_START : pattern := compiled no_flags "/\*\s*".
Definition RE_SCANNER : pattern := fill_re_scanner RE_SCANNER_LIST.

(** ** [CTokenizer] *)

Module CTokenizer.
(** One turn of the loop of [_tokenize]: the level after the token, which is
    the one the token carries. *)
Definition next_level (kind : kind_t) (value : string) (l : level_t) : level_t :=
  match kind with
  | BEGIN =>
      if (value =? "(")%string then Level (bracket l) (S (paren l)) (brace l)
      else if (value =? "[")%string then Level (S (bracket l)) (paren l) (brace l)
      else Level (bracket l) (paren l) (S (brace l))
  | END =>
      if (value =? ")")%string && (0 <? paren l)
      then Level (bracket l) (paren l - 1) (brace l)
      else if (value =? "]")%string && (0 <? bracket l)
      then Level (bracket l - 1) (paren l) (brace l)
      else if 0 <? brace l then Level (bracket l) (paren l) (brace l - 1)
      else l
  | _ => l
  end.

Fixpoint scan (l : level_t) (ms : list rmatch) : list t :=
  match ms with
  | [] => []
  | m :: ms' =>
      let kind := from_name (default "" (lastgroup RE_SCANNER m)) in
      let value := group_or m 0 in
      let l' := next_level kind value l in
      Mk kind value (r_start m) l' :: scan l' ms'
  end.

(** The tokens that [_tokenize] yields and the errors it logs. *)
Definition _tokenize (source : string) : list t :=
  scan (Level 0 0 0) (re_finditer RE_SCANNER (re_sub RE_CONT "" source 0)).
Definition mismatch_errors (source : string) (tokens : list t) : list logrec :=
  map (λ tok, LogError ("Unexpected token '" +:+ value tok +:+ "' on pos " +:+ int_str (pos tok)
                        +:+ ":" +:+ nl +:+ tab +:+ "'" +:+ source +:+ "'"))
      (filter (λ tok, kind tok = MISMATCH) tokens).

(** [CTokenizer(source)] for a string; the object is its list of tokens. *)
Definition init (source : string) : Lex (list t) :=
  if (source =? "")%string then mret []
  else
    let tokens := _tokenize source in
    modify (λ l, l ++ mismatch_errors (re_sub RE_CONT "" source 0) tokens) ;;
    mret tokens.

(** [str(self)].  [show_stack] is the non-empty stack [top :: below]. *)
Definition next_is (k : kind_t) (rest : list t) : bool :=
  match rest with next_tok :: _ => is_kind k next_tok | [] => false end.

Fixpoint str_from (tokens : list t) (top : bool) (below : list bool) : string :=
  match tokens with
  | [] => ""
  | tok :: rest =>
      (* the code after the branches of the loop body *)
      let tail (top : bool) (below : list bool) : string :=
        if negb top then str_from rest top below
        else if is_kind SPACE tok && next_is ENDSTMT rest then str_from rest top below
        else if is_kind ENDSTMT tok && next_is ENDSTMT rest then str_from rest top below
        else value tok +:+ str_from rest top below in
      match kind tok with
      | BEGIN => tail top (top :: below)
      | END =>
          let '(top', below') := match below with x :: b => (x, b) | [] => (top, []) end in
          if negb top && top'
          then str_mul (length below') tab +:+ value tok +:+ str_from rest top' below'
          else tail top' below'
      | COMMENT =>
          let comment := re_sub RE_COMMENT_START "" (value tok) 0 in
          if startswith "private:" comment then str_from rest false below
          else if startswith "public:" comment then str_from rest true below
          else str_from rest top below
      | _ => tail top below
      end
  end.
Definition str (tokens : list t) : string := str_from tokens true [].
End CTokenizer.

(** ** [CTokenArgs] *)

Module CTokenArgs.
Record args := Args {
  sub_groups : list nat;
  max_group : Z;
  greedy : option nat;
  sub_str : string;
  sub_tokens : list t;         (** [self.sub_tokeninzer.tokens] *)
}.

Definition re_backref : pattern := compiled no_flags "\\(\d+)([+]?)".
Definition re_greedy : pattern := compiled no_flags "(\\\d+)[+]".

(** The truth value of [self.greedy], [None] or an [int]. *)
Definition truthy (o : option nat) : bool := match o with Some (S _) => true | _ => false end.

Definition add_group (acc : list nat * Z * option nat) (m : rmatch)
    : Lex (list nat * Z * option nat) :=
  let '(groups, mx, gr) := acc in
  match str_int (group_or m 1) with
  | None => raise (ValueError "invalid literal for int() with base 10")
  | Some group =>
      let plus := (group_or m 2 =? "+")%string in
      if plus && truthy gr && negb (bool_decide (gr = Some group))
      then raise (ValueError "There are multiple greedy patterns!")
      else mret (if bool_decide (group ∈ groups) then groups else groups ++ [group],
                 Z.max mx (Z.of_nat group),
                 if plus then Some group else gr)
  end.

(** [CTokenArgs(sub_str)] *)
Definition init (sub_str : string) : Lex args :=
  acc ← for_acc (re_finditer re_backref sub_str) ([], (-1)%Z, None) add_group;
  let '(groups, mx, gr) := acc in
  if truthy gr && negb (Z.of_nat (default 0%nat gr) =? mx)%Z
  then raise (ValueError "Greedy pattern is not the last one!")
  else
    let sub_str' := if truthy gr then re_sub re_greedy "\1" sub_str 0 else sub_str in
    toks ← CTokenizer.init sub_str';
    mret (Args groups mx gr sub_str' toks).

(** The loop that fills [groups_list[0]]. *)
Fixpoint group0 (tokens : list t) (inner_level : Z) (acc : list t) : list t :=
  match tokens with
  | [] => acc
  | tok :: rest =>
      match kind tok with
      | BEGIN =>
          let inner_level := (inner_level + 1)%Z in
          match acc with
          | [] => group0 rest inner_level acc
          | _ => group0 rest inner_level
                   (if (inner_level =? 0)%Z then acc else acc ++ [tok])
          end
      | END =>
          let inner_level := (inner_level - 1)%Z in
          if (inner_level <? 0)%Z then acc
          else group0 rest inner_level (if (inner_level =? 0)%Z then acc else acc ++ [tok])
      | _ => group0 rest inner_level (if (inner_level =? 0)%Z then acc else acc ++ [tok])
      end
  end.

(** The loop that looks for the first BEGIN: its delimiter, its level and
    the tokens after it.  Without a BEGIN the index of the loop stays at the
    last token, so nothing is left. *)
Fixpoint find_begin (tokens : list t) : Lex (option string * level_t * list t) :=
  match tokens with
  | [] => mret (None, Level 0 0 0, [])
  | tok :: rest =>
      if is_kind BEGIN tok then
        if (value tok =? "{")%string then mret (Some ";", level tok, rest)
        else if (value tok =? "(")%string then mret (Some ",", level tok, rest)
        else raise (AttributeError "log")      (* self.log does not exist *)
      else find_begin rest
  end.

Definition is_delim (delim : option string) (tok : t) : bool :=
  (is_kind PUNC tok || is_kind ENDSTMT tok) && bool_decide (delim = Some (value tok)).

Definition append_at (pos : nat) (tok : t) (groups_list : list (list t)) : list (list t) :=
  alter (λ l, l ++ [tok]) pos groups_list.

(** The loop that fills the groups from 1 on; returns [pos] as well. *)
Fixpoint split_args (self : args) (delim : option string) (tokens : list t) (inner_level : Z)
    (pos : nat) (groups_list : list (list t)) : nat * list (list t) :=
  match tokens with
  | [] => (pos, groups_list)
  | tok :: rest =>
      let inner_level := match kind tok with
                         | BEGIN => (inner_level + 1)%Z
                         | END => (inner_level - 1)%Z
                         | _ => inner_level end in
      if is_kind END tok && (inner_level <? 0)%Z then (pos, groups_list)
      else if is_delim delim tok then
        if truthy (greedy self) && (max_group self <? Z.of_nat (S pos))%Z
        then split_args self delim rest inner_level pos (append_at pos tok groups_list)
        else
          let groups_list := groups_list ++ [[]] in
          if (max_group self <? Z.of_nat (S pos))%Z then (S pos, groups_list)
          else split_args self delim rest inner_level (S pos) groups_list
      else split_args self delim rest inner_level pos (append_at pos tok groups_list)
  end.

(** [self.groups(new_tokenizer)] *)
Definition groups (self : args) (tokens : list t) : Lex (level_t * list (list t)) :=
  if (max_group self <? 0)%Z then mret (Level 0 0 0, [])
  else
    let g0 := if bool_decide (0 ∈ sub_groups self) then group0 tokens 0 [] else [] in
    if (max_group self =? 0)%Z then mret (Level 0 0 0, [g0])
    else match tokens with
    | [] => raise (UnboundLocalError "i")
    | _ =>
        found ← find_begin tokens;
        let '(delim, level, rest) := found in
        let '(pos, groups_list) := split_args self delim rest 0 1 [g0; []] in
        when (Z.of_nat pos <? max_group self)%Z
          (log_error (sub_str self +:+ " groups are up to " +:+ int_str pos
                      +:+ " instead of " +:+ zint_str (max_group self))) ;;
        mret (level, groups_list)
    end.

Definition level_add (a b : level_t) : level_t :=
  Level (bracket a + bracket b) (paren a + paren b) (brace a + brace b).
Definition shift_level (level : level_t) (tok : t) : t :=
  Mk (kind tok) (value tok) (pos tok) (level_add (CToken.level tok) level).

(** [self.tokens(new_tokenizer)]: the replacement for one match. *)
Definition tokens (self : args) (new_tokens : list t) : Lex (list t) :=
  found ← groups self new_tokens;
  let '(level, groups_list) := found in
  for_acc (sub_tokens self) [] (λ new tok,
    if is_kind BACKREF tok then
      match str_int (str_drop 1 (value tok)) with
      | None => raise (ValueError "invalid literal for int() with base 10")
      | Some group =>
          match groups_list !! group with
          | None => raise IndexError
          | Some l => mret (new ++ map (shift_level level) l)
          end
      end
    else mret (new ++ [tok])).
End CTokenArgs.

(** ** [CMatch] *)

Module CMatch.
Record cmatch := MkCMatch { regex : pattern; start_delim : string }.

(** [CMatch(regex, delim)] *)
Definition init_delim (regex delim : string) : cmatch :=
  MkCMatch (compiled no_flags ("^" +:+ regex +:+ "\b")) delim.
Definition init (regex : string) : cmatch := init_delim regex "(".

(** What the generator [_search] does, in order. *)
Inductive event := Yield (start stop : nat) | Warn (msg : string).

Definition name_matches (self : cmatch) (tok : t) : bool :=
  is_kind NAME tok && match re_match (regex self) (value tok) with Some _ => true | None => false end.

(** The end of the loop body: an END at the level on top of the stack. *)
Definition close (tok : t) (i : nat) (start : option nat) (stack : list (nat * level_t))
    : option nat * list (nat * level_t) * list event :=
  match stack with
  | (s, l) :: stack' =>
      if is_kind END tok && bool_decide (level tok = l)
      then (None, stack', [Yield s i]) else (start, stack, [])
  | [] => (start, stack, [])
  end.

Fixpoint search_loop (self : cmatch) (all tokens : list t) (i : nat) (start : option nat)
    (started : bool) (stack : list (nat * level_t)) : list event :=
  match tokens with
  | [] =>
      match start, stack with
      | Some (S s), _ :: _ =>
          (if started then [Warn ("can't find a final end at " +:+ CTokenizer.str all)] else [])
          ++ [Yield (S s) (length all)]
      | _, _ => []
      end
  | tok :: rest =>
      match start with
      | None =>
          if name_matches self tok
          then search_loop self all rest (S i) (Some i) false ((i, level tok) :: stack)
          else search_loop self all rest (S i) None started stack
      | Some s =>
          if negb started then
            if is_kind SPACE tok then search_loop self all rest (S i) start started stack
            else if is_kind BEGIN tok && (value tok =? start_delim self)%string
            then search_loop self all rest (S i) start true stack
            else
              (* a name without delimiters *)
              let i' := if s <? i then i - 1 else i in
              let '(start', stack', evs) := close tok i' None stack in
              Yield s i' :: evs ++ search_loop self all rest (S i) start' started stack'
          else
            let '(start', stack', evs) := close tok i start stack in
            evs ++ search_loop self all rest (S i) start' started stack'
      end
  end.
(** [self._search(tokenizer)] *)
Definition _search (self : cmatch) (tokens : list t) : list event :=
  search_loop self tokens tokens 0 None false [].

(** [tokens[i:j]] *)
Definition tslice (i j : nat) (l : list t) : list t := firstn (j - i) (skipn i l).

(** [self.search(source)] for a string, consumed to the end. *)
Fixpoint yields (evs : list event) : list (nat * nat) :=
  match evs with
  | [] => []
  | Yield s e :: evs' => (s, e) :: yields evs'
  | Warn _ :: evs' => yields evs'
  end.
Definition search (self : cmatch) (source : string) : Lex (list string) :=
  tokens ← CTokenizer.init source;
  for_acc (_search self tokens) [] (λ out ev,
    match ev with
    | Warn msg => log_warning msg ;; mret out
    | Yield s e => mret (out ++ [CTokenizer.str (tslice s (S e) tokens)])
    end).

(** The loop of [sub]; [n] items replaced so far. *)
Fixpoint sub_loop (args : CTokenArgs.args) (count : nat) (tokens : list t) (evs : list event)
    (pos n : nat) (new : list t) : Lex (list t) :=
  match evs with
  | [] => mret (new ++ skipn pos tokens)
  | Warn msg :: evs' => log_warning msg ;; sub_loop args count tokens evs' pos n new
  | Yield s e :: evs' =>
      repl ← CTokenArgs.tokens args (tslice s (S e) tokens);
      let new := new ++ tslice pos s tokens ++ repl in
      if negb (count =? 0) && (count <=? S n)
      then mret (new ++ skipn (S e) tokens)
      else sub_loop args count tokens evs' (S e) (S n) new
  end.
(** [self.sub(sub_str, source, count)] for a tokenizer and for a string. *)
Definition sub (self : cmatch) (sub_str : string) (tokens : list t) (count : nat) : Lex (list t) :=
  args ← CTokenArgs.init sub_str;
  sub_loop args count tokens (_search self tokens) 0 0 [].
Definition sub_source (self : cmatch) (sub_str source : string) (count : nat) : Lex string :=
  tokens ← CTokenizer.init source;
  new ← sub self sub_str tokens count;
  mret (CTokenizer.str new).

(** [repr(self)] *)
Definition repr (self : cmatch) : string :=
  "CMatch(" +:+ quote +:+ p_src (regex self) +:+ quote +:+ ")".
End CMatch.
