(* ===== verification/CLexTheory.v ===== *)
(** * CLexTheory: correctness of the C tokenizer

    The scanner is total and lossless, every token's text belongs to the
    language of the pattern of its kind, levels come back at a matching
    delimiter, and printing shows exactly what is not private. *)

From S2P Require Import Prelude PyStr PyRe PyReSyntax PyReTheory KdocRe CLex.
Import CToken.

(** ** The alternatives of the scanner *)

Fixpoint alts (r : re) : list re := match r with RAlt a b => a :: alts b | _ => [r] end.

Lemma mrel_alts r : ∀ st st', mrel r st st' ↔ ∃ b, b ∈ alts r ∧ mrel b st st'.
Proof.
  induction r as [| | |a IHa b IHb| | | | |]; intros st st'; cbn [alts];
    try (split; [intros ?; eexists; split; [by left|done]
                |intros (b & ->%list_elem_of_singleton & ?); done]).
  cbn [mrel]. rewrite IHb. split.
  - intros [?|(x & ? & ?)]; [exists a; split; [by left|done] | exists x; split; [by right|done]].
  - intros (x & [->|?]%elem_of_cons & ?); [by left | right; eauto].
Qed.

Abbreviation scanner := (p_prog RE_SCANNER).

Definition scanner_alts : list re :=
  imap (λ i x, RGroup (S i) (p_prog (compiled no_flags (snd x)))) RE_SCANNER_LIST.

Lemma scanner_alts_eq : alts scanner = scanner_alts.
Proof. vm_compute. reflexivity. Qed.

Lemma scanner_width : width scanner = 1.
Proof. vm_compute. reflexivity. Qed.

(** The name of group [i] of the scanner is the name of the [i]-th kind. *)
Lemma scanner_names : Forall (λ x, from_name (default "" (fst <$> List.find (λ y, snd y =? fst x)
    (p_names RE_SCANNER))) = snd x)
  (imap (λ i x, (S i, fst x)) RE_SCANNER_LIST).
Proof. vm_compute. repeat constructor. Qed.

#[local] Opaque RE_SCANNER.

Lemma scanner_total st : m_rest st ≠ "" → is_Some (match_at scanner false st).
Proof.
  intros Hne. destruct (m_rest st) as [|c t] eqn:E; [by destruct Hne|].
  destruct (is_space c) eqn:Ec.
  - apply (match_at_complete _ _ (set_cap 17 (m_pos st) (advance st c t))).
    apply (proj2 (mrel_alts _ _ _)). exists (RGroup 17 (RRep true 1 None (RChr false (CSet false [CSpace false])))).
    split. { rewrite scanner_alts_eq. apply list_elem_of_lookup. exists 16. by vm_compute. }
    cbn [mrel]. eexists; split; [|done].
    eapply reps_must; [lia| |by apply reps_stop].
    exists c, t. split; [done|]. split; [|done]. cbn. by rewrite Ec.
  - apply (match_at_complete _ _ (set_cap 19 (m_pos st) (advance st c t))).
    apply (proj2 (mrel_alts _ _ _)). exists (RGroup 19 (RChr false (CAny false))).
    split. { rewrite scanner_alts_eq. apply list_elem_of_lookup. exists 18. by vm_compute. }
    cbn [mrel]. eexists; split; [|done]. exists c, t. split; [done|]. split; [|done].
    cbn. destruct (Ascii.eqb_spec c NL) as [->|]; [by vm_compute in Ec | done].
Qed.

(** One match of the scanner: what it consumes and the group it sets. *)
Definition scans (st0 : mst) (w : string) (st : mst) : Prop :=
  consumes st0 w st ∧ w ≠ "" ∧
  ∃ i k pat, m_last st = Some (S i) ∧ RE_SCANNER_LIST !! i = Some (k, pat)
             ∧ lang (p_prog (compiled no_flags pat)) w.

Lemma mrel_scans st0 st : mrel scanner st0 st → ∃ w, scans st0 w st.
Proof.
  intros Hr. destruct (mrel_lang _ _ _ Hr) as (w & Hw & HL).
  exists w. split; [exact Hw|]. split.
  { apply lang_width in HL. rewrite scanner_width in HL. clear -HL.
    intros ->. simpl in HL. lia. }
  destruct (proj1 (mrel_alts _ _ _) Hr) as (b & Hb & Hr'). clear Hr. rename Hr' into Hr.
  rewrite scanner_alts_eq in Hb.
  apply elem_of_lookup_imap in Hb as (i & [k pat] & -> & Hi). cbn [mrel] in Hr.
  destruct Hr as (st1 & H1 & ->). exists i, k, pat. split; [done|]. split; [done|].
  cbn [snd] in H1. apply mrel_lang in H1 as (w' & Hw' & HL').
  enough (w' = w) by by subst. destruct Hw as [E1 _ _], Hw' as [E2 _ _].
  cbn [m_rest set_cap] in E1. rewrite E1 in E2.
  apply (f_equal String.length) in E2 as EL. rewrite !slen_app in EL.
  destruct (sapp_inv_len w w' _ _ E2) as [-> _]; [lia | reflexivity].
Qed.

Lemma scanner_search pos prev c t :
  ∃ st' w, search_from scanner false pos prev (String c t)
         = Some (mst_at pos prev (String c t), st')
       ∧ scans (mst_at pos prev (String c t)) w st'.
Proof.
  set (st := mst_at pos prev (String c t)).
  destruct (scanner_total st) as [st' H]; [done|].
  pose proof (match_at_sound _ _ _ _ H) as [Hr _].
  destruct (mrel_scans _ _ Hr) as [w Hw].
  exists st', w. cbn [search_from]. fold st. rewrite H. split; [reflexivity | exact Hw].
Qed.

Lemma scanner_end pos prev : search_from scanner false pos prev "" = None.
Proof.
  cbn [search_from]. destruct (match_at _ _ _) as [st'|] eqn:E; [|done].
  apply match_at_sound in E as [Hr _].
  destruct (mrel_lang _ _ _ Hr) as (w & Hw & HL). apply lang_width in HL.
  rewrite scanner_width in HL. pose proof (cs_rest _ _ _ Hw) as Hp. simpl in Hp.
  destruct w; [simpl in HL; lia | done].
Qed.

(** ** Successive matches of the scanner tile the source *)

(** [ms] are matches of [src] whose texts, from [pos] on, are contiguous and
    concatenate to [rest]. *)
Inductive tiles (src : string) : nat → string → list rmatch → Prop :=
| tiles_nil pos : tiles src pos "" []
| tiles_cons pos w rest m ms st0 st :
    r_start m = pos → group_or m 0 = w → r_lastindex m = m_last st → scans st0 w st →
    tiles src (pos + String.length w) rest ms →
    tiles src pos (w +:+ rest) (m :: ms).

Lemma scanner_tiles src fuel : ∀ pre rest,
  src = pre +:+ rest → String.length rest < fuel →
  tiles src (String.length pre) rest
    (iter_from fuel scanner src false (String.length pre) (slast None pre) rest).
Proof.
  induction fuel as [|fuel IH]; intros pre rest Hs Hf; [lia|]. cbn [iter_from].
  destruct rest as [|c t]; [rewrite scanner_end; constructor|].
  destruct (scanner_search (String.length pre) (slast None pre) c t) as (st' & w & -> & Hw).
  destruct (Hw) as ([E Hp Hv] & Hne & _). cbn [m_pos m_rest m_prev mst_at] in E, Hp, Hv |- *.
  assert (0 < String.length w) by (destruct w; [done | simpl; lia]).
  rewrite (proj2 (Nat.eqb_neq _ _)) by lia.
  rewrite E. eapply (tiles_cons _ _ w); [done| |done|exact Hw|].
  - unfold group_or. cbn. rewrite Hp, Hs, E. apply str_slice_app.
  - rewrite Hp, Hv, <- slen_app, <- slast_app. apply IH.
    + by rewrite Hs, E, sapp_assoc.
    + rewrite E, slen_app in Hf. lia.
Qed.

Lemma finditer_tiles src : tiles src 0 src (re_finditer RE_SCANNER src).
Proof. apply (scanner_tiles src _ "" src); [done|]. unfold iter_fuel. lia. Qed.

(** ** Tokens *)

(** Offsets of contiguous tokens. *)
Fixpoint contiguous (p : nat) (toks : list t) : Prop :=
  match toks with
  | [] => True
  | tok :: toks' => pos tok = p ∧ value tok ≠ "" ∧ contiguous (p + String.length (value tok)) toks'
  end.

(** The levels are those of the scanner's bookkeeping. *)
Fixpoint leveled (l : level_t) (toks : list t) : Prop :=
  match toks with
  | [] => True
  | tok :: toks' => level tok = CTokenizer.next_level (kind tok) (value tok) l
                    ∧ leveled (level tok) toks'
  end.

Definition values (toks : list t) : list string := map value toks.

Lemma scan_tiles src ms p rest l :
  tiles src p rest ms →
  sconcat (values (CTokenizer.scan l ms)) = rest ∧ contiguous p (CTokenizer.scan l ms)
  ∧ leveled l (CTokenizer.scan l ms).
Proof.
  intros H. revert l. induction H as [|p w rest m ms st0 st Hs Hg Hl Hw _ IH]; intros l; [done|].
  cbn [CTokenizer.scan values map contiguous leveled value pos level kind].
  rewrite sconcat_cons, Hg, Hs.
  destruct (IH (CTokenizer.next_level (from_name (default "" (lastgroup RE_SCANNER m))) w l))
    as (E & C & L).
  unfold values in E. rewrite E. destruct Hw as (_ & ? & _). done.
Qed.

(** The type of a token: its text is a word of its kind's pattern. *)
Definition token_ok (tok : t) : Prop :=
  ∃ pat, (kind tok, pat) ∈ RE_SCANNER_LIST ∧ lang (p_prog (compiled no_flags pat)) (value tok).

Lemma scan_token_ok src ms p rest l :
  tiles src p rest ms → Forall token_ok (CTokenizer.scan l ms).
Proof.
  intros H. revert l. induction H as [|p w rest m ms st0 st Hs Hg Hl Hw _ IH]; intros l;
    [constructor|]. cbn [CTokenizer.scan]. constructor; [|apply IH].
  destruct Hw as (_ & _ & i & k & pat & Hi & Hk & HL).
  exists pat. cbn [kind value]. rewrite Hg. split; [|exact HL].
  enough (from_name (default "" (lastgroup RE_SCANNER m)) = k) as ->
    by (by eapply list_elem_of_lookup_2).
  unfold lastgroup. rewrite Hl, Hi.
  pose proof scanner_names as HN. rewrite Forall_forall in HN.
  apply (HN (S i, k)). apply elem_of_lookup_imap. exists i, (k, pat). by split.
Qed.

(** ** Balanced token sequences *)

Definition delim_pair (b e : string) : bool :=
  match b, e with
  | "(", ")" | "[", "]" | "{", "}" => true
  | _, _ => false
  end%string.

Inductive balanced : list t → Prop :=
| bal_nil : balanced []
| bal_tok tok toks : kind tok ≠ BEGIN → kind tok ≠ END → balanced toks → balanced (tok :: toks)
| bal_group b body e toks :
    kind b = BEGIN → kind e = END → delim_pair (value b) (value e) = true →
    balanced body → balanced toks → balanced (b :: body ++ e :: toks).

Definition next_of (tok : t) (l : level_t) : level_t :=
  CTokenizer.next_level (kind tok) (value tok) l.
Definition level_end (l : level_t) (toks : list t) : level_t :=
  fold_left (λ l tok, next_of tok l) toks l.
Definition level_le (a b : level_t) : Prop :=
  bracket a ≤ bracket b ∧ paren a ≤ paren b ∧ brace a ≤ brace b.
#[global] Instance level_le_preorder : PreOrder level_le.
Proof. split; [by intros [] | intros [] [] [] (?&?&?) (?&?&?); repeat split; simpl in *; lia]. Qed.

Lemma next_neutral tok l : kind tok ≠ BEGIN → kind tok ≠ END → next_of tok l = l.
Proof. unfold next_of. by destruct (kind tok). Qed.

Lemma delim_pair_inv b e :
  delim_pair b e = true →
  (b = "(" ∧ e = ")") ∨ (b = "[" ∧ e = "]") ∨ (b = "{" ∧ e = "}").
Proof.
  unfold delim_pair. intros H.
  repeat (case_match_in H; try discriminate H); subst; auto.
Qed.

(** Entering and leaving a pair of delimiters. *)
Lemma next_pair b e l :
  kind b = BEGIN → kind e = END → delim_pair (value b) (value e) = true →
  level_le l (next_of b l) ∧ next_of b l ≠ l ∧ next_of e (next_of b l) = l.
Proof.
  unfold next_of, level_le. intros -> ->. destruct l as [x y z].
  intros [[-> ->]|[[-> ->]|[-> ->]]]%delim_pair_inv; cbn; rewrite ?Nat.sub_0_r.
  all: split; [lia|]; split; [|done]; intros E; injection E; lia.
Qed.

Lemma leveled_app l a b : leveled l (a ++ b) ↔ leveled l a ∧ leveled (level_end l a) b.
Proof.
  revert l. induction a as [|x a IH]; intros l; cbn [app leveled level_end fold_left]; [tauto|].
  rewrite IH. unfold level_end, next_of. split.
  - intros [-> [? ?]]. auto.
  - intros [[-> ?] ?]. auto.
Qed.

Lemma level_end_app l a b : level_end l (a ++ b) = level_end (level_end l a) b.
Proof. apply fold_left_app. Qed.

(** Over a balanced sequence the level never sinks below the one it started
    from, and comes back to it. *)
Lemma balanced_levels toks : ∀ l,
  balanced toks → leveled l toks →
  level_end l toks = l ∧ Forall (λ tok, level_le l (level tok)) toks.
Proof.
  intros l H. revert l. induction H as [|tok toks Hb He _ IH|b body e toks Hb He Hp _ IHb _ IHt];
    intros l HL; [done| |].
  - cbn [leveled] in HL. destruct HL as [Hl HL]. fold (next_of tok l) in Hl.
    rewrite next_neutral in Hl by done. rewrite Hl in HL.
    cbn [level_end fold_left]. rewrite next_neutral by done.
    destruct (IH l HL) as [? ?]. split; [done|]. constructor; [by rewrite Hl | done].
  - destruct (next_pair b e l Hb He Hp) as (Hle & _ & Hback).
    cbn [leveled] in HL. destruct HL as [Hl HL]. fold (next_of b l) in Hl. rewrite Hl in HL.
    apply leveled_app in HL as [HLb HLe]. destruct (IHb _ HLb) as [Eb Fb].
    rewrite Eb in HLe. cbn [leveled] in HLe. destruct HLe as [Hle' HLt].
    fold (next_of e (next_of b l)) in Hle'. rewrite Hback in Hle'. rewrite Hle' in HLt.
    destruct (IHt _ HLt) as [Et Ft].
    change (level_end l (b :: body ++ e :: toks)) with (level_end (next_of b l) (body ++ e :: toks)).
    rewrite level_end_app, Eb.
    change (level_end (next_of b l) (e :: toks)) with (level_end (next_of e (next_of b l)) toks).
    rewrite Hback, Et. split; [done|]. constructor; [by rewrite Hl|].
    apply Forall_app. split.
    + eapply Forall_impl; [exact Fb|]. intros x Hx. by etransitivity.
    + constructor; [by rewrite Hle' | done].
Qed.

Lemma level_le_antisym a b : level_le a b → level_le b a → a = b.
Proof. destruct a, b. intros (?&?&?) (?&?&?). simpl in *. f_equal; lia. Qed.

(** ** [CMatch._search] *)

Section Search.
Context (self : CMatch.cmatch) (all : list t).
Abbreviation loop := (CMatch.search_loop self all).

Lemma search_skip pre rest i started stack :
  Forall (λ tok, CMatch.name_matches self tok = false) pre →
  loop (pre ++ rest) i None started stack = loop rest (i + length pre) None started stack.
Proof.
  intros H. revert i. induction H as [|tok pre Ht _ IH]; intros i; simpl.
  - by rewrite Nat.add_0_r.
  - rewrite Ht, IH. f_equal. lia.
Qed.

Lemma search_spaces sp rest i s stack :
  Forall (λ tok, kind tok = SPACE) sp →
  loop (sp ++ rest) i (Some s) false stack = loop rest (i + length sp) (Some s) false stack.
Proof.
  intros H. revert i. induction H as [|tok sp Ht _ IH]; intros i; simpl.
  - by rewrite Nat.add_0_r.
  - unfold is_kind. rewrite (bool_decide_eq_true_2 _ Ht), IH. f_equal. lia.
Qed.

Lemma search_body body rest i s l stack :
  Forall (λ tok, kind tok = END → level tok ≠ l) body →
  loop (body ++ rest) i (Some s) true ((s, l) :: stack)
  = loop rest (i + length body) (Some s) true ((s, l) :: stack).
Proof.
  intros H. revert i. induction H as [|tok body Ht _ IH]; intros i; simpl.
  - by rewrite Nat.add_0_r.
  - assert (is_kind END tok && bool_decide (level tok = l) = false) as ->.
    { unfold is_kind. destruct (decide (kind tok = END)) as [E|E].
      - rewrite (bool_decide_eq_false_2 (level tok = l)) by auto. by rewrite andb_false_r.
      - by rewrite (bool_decide_eq_false_2 (kind tok = END)). }
    cbn. rewrite IH. f_equal. lia.
Qed.

Lemma search_nothing toks i started stack :
  Forall (λ tok, CMatch.name_matches self tok = false) toks →
  loop toks i None started stack = [].
Proof.
  intros H. rewrite <- (app_nil_r toks), search_skip by done. done.
Qed.
End Search.

(** A macro invocation: a matching name, spaces, and balanced arguments
    between the delimiters [self] expects. *)
Record invocation (self : CMatch.cmatch) (name : t) (sp : list t) (b : t) (body : list t) (e : t)
  : Prop := {
  inv_name : CMatch.name_matches self name = true;
  inv_sp : Forall (λ tok, kind tok = SPACE) sp;
  inv_begin : kind b = BEGIN;
  inv_delim : value b = CMatch.start_delim self;
  inv_end : kind e = END;
  inv_pair : delim_pair (value b) (value e) = true;
  inv_body : balanced body;
}.
Definition call_tokens (name : t) (sp : list t) (b : t) (body : list t) (e : t) : list t :=
  name :: sp ++ b :: body ++ [e].

Lemma level_end_spaces sp l : Forall (λ tok, kind tok = SPACE) sp → level_end l sp = l.
Proof.
  intros H. revert l. induction H as [|x sp Hx _ IH]; intros l; [done|].
  cbn [level_end fold_left]. rewrite next_neutral by (by rewrite Hx). apply IH.
Qed.

(** Inside an invocation of a well-leveled token list no END sits at the level
    of the name, and the closing delimiter does. *)
Lemma invocation_levels self name sp b body e l rest :
  invocation self name sp b body e →
  leveled l (call_tokens name sp b body e ++ rest) →
  level name = l ∧ level e = l ∧ level b = next_of b l ∧ leveled l rest ∧
  Forall (λ tok, kind tok = END → level tok ≠ l) body.
Proof.
  intros [Hn Hsp Hb _ He Hp Hbody] HL. unfold call_tokens in HL. cbn [app] in HL.
  assert (kind name = NAME) as Hk.
  { unfold CMatch.name_matches in Hn. apply andb_prop in Hn as [Hn _].
    by apply bool_decide_eq_true in Hn. }
  cbn [leveled] in HL. destruct HL as [Hl HL]. fold (next_of name l) in Hl.
  rewrite next_neutral in Hl by (by rewrite Hk). rewrite Hl in HL.
  rewrite <- !app_assoc in HL. apply leveled_app in HL as [_ HL].
  rewrite level_end_spaces in HL by done. cbn [app leveled] in HL. destruct HL as [Hlb HL].
  fold (next_of b l) in Hlb. rewrite Hlb in HL.
  rewrite <- app_assoc in HL. apply leveled_app in HL as [HLb HLe].
  destruct (balanced_levels body _ Hbody HLb) as [Eb Fb].
  destruct (next_pair b e l Hb He Hp) as (Hle & Hne & Hback).
  rewrite Eb in HLe. cbn [app leveled] in HLe. destruct HLe as [Hle' HLr].
  fold (next_of e (next_of b l)) in Hle'. rewrite Hback in Hle'. rewrite Hle' in HLr.
  repeat (split; [done|]).
  eapply Forall_impl; [exact Fb|]. intros x Hx _ E. apply Hne. cbn beta in Hx. rewrite E in Hx.
  by apply level_le_antisym.
Qed.

(** The first invocation is found, with the right closing delimiter. *)
Lemma search_invocation self pre name sp b body e post l :
  leveled l (pre ++ call_tokens name sp b body e ++ post) →
  Forall (λ tok, CMatch.name_matches self tok = false) pre →
  invocation self name sp b body e →
  ∀ all i started stack, ∃ n, n = length (call_tokens name sp b body e) ∧
  CMatch.search_loop self all (pre ++ call_tokens name sp b body e ++ post) i None started stack
  = CMatch.Yield (i + length pre) (i + length pre + n - 1)
    :: CMatch.search_loop self all post (i + length pre + n) None true stack.
Proof.
  intros HL Hpre Hinv all i started stack. eexists; split; [done|].
  apply leveled_app in HL as [_ HL].
  destruct (invocation_levels _ _ _ _ _ _ _ _ Hinv HL) as (Hl & Hle & _ & _ & HF).
  destruct Hinv as [Hn Hsp Hb Hd He Hp Hbody].
  rewrite search_skip by done. unfold call_tokens. cbn [app CMatch.search_loop].
  rewrite Hn, <- !app_assoc, search_spaces by done.
  cbn [app CMatch.search_loop negb]. unfold is_kind at 1.
  rewrite (bool_decide_eq_false_2 (kind b = SPACE)) by (by rewrite Hb).
  unfold is_kind at 1. rewrite (bool_decide_eq_true_2 _ Hb), Hd, String.eqb_refl. cbn [andb].
  rewrite <- app_assoc, Hl, search_body by done.
  cbn [app CMatch.search_loop negb CMatch.close]. unfold is_kind at 1.
  rewrite (bool_decide_eq_true_2 _ He), (bool_decide_eq_true_2 _ Hle). cbn [andb app].
  cbn [length]. rewrite !length_app. cbn [length]. rewrite length_app. cbn [length].
  f_equal; [f_equal; lia | f_equal; lia].
Qed.

(** ** Replacing invocations *)

Lemma tslice_mid (a b c : list t) : CMatch.tslice (length a) (length a + length b) (a ++ b ++ c) = b.
Proof.
  unfold CMatch.tslice. rewrite drop_app_length.
  replace (_ + _ - _) with (length b) by lia. apply take_app_length.
Qed.
Lemma tslice_pre (a b : list t) : CMatch.tslice 0 (length a) (a ++ b) = a.
Proof. unfold CMatch.tslice. simpl. rewrite Nat.sub_0_r. apply take_app_length. Qed.

(** With one invocation, [sub] puts the replacement in its place. *)
Lemma sub_loop_one args toks pre call post s e count log :
  toks = pre ++ call ++ post → call ≠ [] → s = length pre → S e = length pre + length call →
  CMatch.sub_loop args count toks [CMatch.Yield s e] 0 0 [] log
  = (let '(log', r) := CTokenArgs.tokens args call log in
     (log', match r with Ok repl => Ok (pre ++ repl ++ post) | Raise x => Raise x end)).
Proof.
  intros -> Hc -> He. cbn [CMatch.sub_loop]. run_ST. rewrite He, tslice_mid, tslice_pre.
  destruct (CTokenArgs.tokens args call log) as [log' [repl|x]]; [|done].
  assert (skipn (length pre + length call) (pre ++ call ++ post) = post) as ->.
  { rewrite app_assoc, <- length_app. apply drop_app_length. }
  cbn [app].
  destruct (negb (count =? 0) && (count <=? 1)); by rewrite <- app_assoc.
Qed.

Lemma sub_args_empty log :
  CTokenArgs.init "" log = (log, Ok (CTokenArgs.Args [] (-1) None "" [])).
Proof. reflexivity. Qed.

(** ** Splitting the arguments of an invocation *)

Section SplitArgs.
Context (self : CTokenArgs.args) (delim : option string).
Abbreviation split := (CTokenArgs.split_args self delim).
Abbreviation not_delim := (λ tok, CTokenArgs.is_delim delim tok = false).

Lemma append_at_last gs cur tok :
  CTokenArgs.append_at (length gs) tok (gs ++ [cur]) = gs ++ [cur ++ [tok]].
Proof.
  unfold CTokenArgs.append_at. induction gs as [|g gs IH]; simpl; [done|].
  cbn. f_equal. exact IH.
Qed.

Lemma not_delim_begin_end tok : kind tok = BEGIN ∨ kind tok = END → CTokenArgs.is_delim delim tok = false.
Proof. unfold CTokenArgs.is_delim, is_kind. by intros [->| ->]. Qed.

(** The nesting after some tokens, [None] if it sinks below 0 on the way. *)
Fixpoint depth (n : Z) (toks : list t) : option Z :=
  match toks with
  | [] => Some n
  | tok :: toks =>
      match kind tok with
      | BEGIN => depth (n + 1) toks
      | END => if (n - 1 <? 0)%Z then None else depth (n - 1) toks
      | _ => depth n toks
      end
  end.
Lemma depth_app a b : ∀ n, depth n (a ++ b) = m ← depth n a; depth m b.
Proof.
  induction a as [|tok a IH]; intros n; [done|]. cbn [app depth].
  destruct (kind tok); try apply IH. by destruct (n - 1 <? 0)%Z.
Qed.
Lemma depth_neutral tok toks n : kind tok ≠ BEGIN → kind tok ≠ END → depth n (tok :: toks) = depth n toks.
Proof. intros Hb He. cbn [depth]. by destruct (kind tok). Qed.
Lemma depth_balanced toks : balanced toks → ∀ n, (0 ≤ n)%Z → depth n toks = Some n.
Proof.
  induction 1 as [|tok a Hb He _ IH|b body e a Hb He Hp _ IHb _ IHa]; intros n Hn; [done| |].
  - by rewrite depth_neutral, IH.
  - cbn [depth]. rewrite Hb, depth_app, IHb by lia. cbn [mbind option_bind depth]. rewrite He.
    replace (n + 1 - 1)%Z with n by lia. rewrite (proj2 (Z.ltb_ge n 0)) by lia. by apply IHa.
Qed.

(** Tokens without a delimiter go to the current group. *)
Lemma split_piece a : ∀ rest n m gs cur,
  depth n a = Some m → Forall not_delim a →
  split (a ++ rest) n (length gs) (gs ++ [cur]) = split rest m (length gs) (gs ++ [cur ++ a]).
Proof.
  induction a as [|tok a IH]; intros rest n m gs cur Hd HF.
  - injection Hd as ->. by rewrite app_nil_r.
  - apply Forall_cons in HF as [Ht HF]. cbn [app CTokenArgs.split_args]. rewrite Ht, append_at_last.
    cbn [depth] in Hd. unfold is_kind.
    destruct (kind tok); rewrite ?(bool_decide_eq_true_2 (END = END)) by done;
      rewrite ?bool_decide_eq_false_2 by done; cbn [andb];
      try (by rewrite (IH _ _ m) by done; rewrite <- app_assoc).
    destruct (n - 1 <? 0)%Z; [done|]. rewrite (IH _ _ m) by done. by rewrite <- app_assoc.
Qed.

(** Pieces [a, s1 a1, s2 a2, ...] separated by delimiter tokens. *)
Definition arg_list (a : list t) (more : list (t * list t)) : list t :=
  a ++ concat (map (λ x, fst x :: snd x) more).

Lemma split_done e post pos gs :
  kind e = END → split (e :: post) 0 pos gs = (pos, gs).
Proof. intros He. cbn [CTokenArgs.split_args]. unfold is_kind. rewrite He. by rewrite (bool_decide_eq_true_2 (END = END)). Qed.

(** A group for each piece while [max_group] allows it, and an empty one when a
    piece is left. *)
Lemma split_arg_list e post more : ∀ n gs cur a M,
  CTokenArgs.truthy (CTokenArgs.greedy self) = false → CTokenArgs.max_group self = Z.of_nat M →
  kind e = END → depth n (arg_list a more) = Some 0%Z → Forall not_delim a →
  Forall (λ x, CTokenArgs.is_delim delim (fst x) = true ∧ Forall not_delim (snd x)) more →
  length gs ≤ M ≤ length gs + length more →
  ∃ pos, M ≤ pos ∧
    split (arg_list a more ++ e :: post) n (length gs) (gs ++ [cur])
    = (pos, gs ++ take (S M - length gs) ((cur ++ a) :: map snd more)
                ++ (if M <? length gs + length more then [[]] else [])).
Proof.
  induction more as [|[s a'] more IH]; intros n gs cur a M Hg HM He Hd HFa HF Hm; unfold arg_list in *.
  - cbn [map concat length] in *. rewrite app_nil_r in *. exists (length gs). split; [lia|].
    rewrite (split_piece a _ n 0) by done. rewrite split_done by done.
    replace (S M - length gs) with 1 by lia. rewrite (proj2 (Nat.ltb_ge _ _)) by lia.
    cbn [take]. by rewrite app_nil_r.
  - apply Forall_cons in HF as [(Hs & HFa') HF]. cbn [map concat fst snd length] in *.
    rewrite depth_app in Hd. destruct (depth n a) as [m|] eqn:Hda; [|done]. cbn [mbind option_bind app] in Hd.
    rewrite <- app_assoc, (split_piece a _ n m) by done. cbn [app CTokenArgs.split_args].
    assert (kind s ≠ BEGIN ∧ kind s ≠ END) as [Hkb Hke].
    { split; intros E; by rewrite not_delim_begin_end in Hs by auto. }
    rewrite depth_neutral in Hd by done. unfold is_kind.
    rewrite (bool_decide_eq_false_2 (kind s = END)) by done.
    cbn [andb]. rewrite Hs, Hg. cbn [andb].
    assert ((match kind s with BEGIN => m + 1 | END => m - 1 | _ => m end)%Z = m) as ->
      by (by destruct (kind s)).
    rewrite HM. rewrite <- app_assoc. cbn [app]. destruct (decide (M = length gs)) as [E|Hne].
    + rewrite (proj2 (Z.ltb_lt _ _)) by lia. exists (S (length gs)). split; [lia|].
      replace (S M - length gs) with 1 by lia. rewrite (proj2 (Nat.ltb_lt _ _)) by lia. done.
    + rewrite (proj2 (Z.ltb_ge _ _)) by lia.
      destruct (IH m (gs ++ [cur ++ a]) [] a' M) as (pos & Hpos & H); try done.
      { rewrite length_app. cbn [length]. lia. }
      exists pos. split; [done|]. rewrite length_app in H. cbn [length] in H.
      rewrite Nat.add_1_r, <- !app_assoc in H. cbn [app] in H. rewrite <- ?app_assoc. rewrite H.
      replace (S M - length gs) with (S (S M - S (length gs))) by lia.
      rewrite Nat.add_succ_r, Nat.add_succ_l, firstn_cons. done.
Qed.
End SplitArgs.

(** ** Expanding the template of [sub] *)

Definition backref_ok (groups_list : list (list t)) (tok : t) : bool :=
  negb (is_kind BACKREF tok)
  || match str_int (str_drop 1 (value tok)) with
     | Some k => k <? length groups_list
     | None => false
     end.
(** A back-reference stands for the tokens of its group, moved to the level of
    the invocation; any other token for itself. *)
Definition expand_tok (groups_list : list (list t)) (l : level_t) (tok : t) : list t :=
  if is_kind BACKREF tok
  then map (CTokenArgs.shift_level l)
           (nth (default 0 (str_int (str_drop 1 (value tok)))) groups_list [])
  else [tok].

Lemma tokens_expand self new l gs log log' :
  CTokenArgs.groups self new log = (log', Ok (l, gs)) →
  Forall (λ tok, backref_ok gs tok = true) (CTokenArgs.sub_tokens self) →
  CTokenArgs.tokens self new log
  = (log', Ok (concat (map (expand_tok gs l) (CTokenArgs.sub_tokens self)))).
Proof.
  intros Hg HF. unfold CTokenArgs.tokens. run_ST. rewrite Hg.
  assert (∀ acc toks, Forall (λ tok, backref_ok gs tok = true) toks →
    for_acc toks acc (λ new tok,
      if is_kind BACKREF tok then
        match str_int (str_drop 1 (value tok)) with
        | None => raise (ValueError "invalid literal for int() with base 10")
        | Some group =>
            match gs !! group with
            | None => raise IndexError
            | Some x => mret (new ++ map (CTokenArgs.shift_level l) x)
            end
        end
      else mret (new ++ [tok])) log' = (log', Ok (acc ++ concat (map (expand_tok gs l) toks))))
    as H; [|apply (H [] _ HF)].
  intros acc toks. revert acc. induction toks as [|tok toks IH]; intros acc Hok.
  - cbn. by rewrite app_nil_r.
  - apply Forall_cons in Hok as [Ht Hok]. cbn [for_acc map concat]. unfold mbind, ST_bind.
    unfold backref_ok in Ht. unfold expand_tok at 1. destruct (is_kind BACKREF tok).
    + cbn [negb orb] in Ht. destruct (str_int _) as [k|]; [|done]. bool_facts.
      destruct (gs !! k) as [x|] eqn:E; [|apply lookup_ge_None in E; lia].
      cbn. rewrite (nth_lookup_Some _ _ _ _ E). rewrite IH by done. by rewrite app_assoc.
    + cbn. rewrite IH by done. by rewrite <- app_assoc.
Qed.

Lemma find_begin_call self name sp b body e log :
  invocation self name sp b body e → value b = "(" →
  CTokenArgs.find_begin (call_tokens name sp b body e) log
  = (log, Ok (Some ",", level b, body ++ [e])).
Proof.
  intros [Hn Hsp Hb _ _ _ _] Hv. unfold call_tokens. cbn [CTokenArgs.find_begin].
  unfold CMatch.name_matches in Hn. apply andb_prop in Hn as [Hn _].
  apply bool_decide_eq_true in Hn. unfold is_kind at 1.
  rewrite (bool_decide_eq_false_2 (kind name = BEGIN)) by (by rewrite Hn).
  induction Hsp as [|x sp Hx _ IH]; cbn [app CTokenArgs.find_begin]; unfold is_kind at 1.
  - by rewrite (bool_decide_eq_true_2 _ Hb), Hv.
  - by rewrite (bool_decide_eq_false_2 (kind x = BEGIN)) by (by rewrite Hx).
Qed.

(** The arguments of an invocation with parentheses, split at every comma: also at
    those inside nested delimiters, so that only all the pieces together are
    balanced. *)
Definition comma_args (a : list t) (more : list (t * list t)) : Prop :=
  let not_comma tok := CTokenArgs.is_delim (Some ",") tok = false in
  Forall not_comma a ∧
  Forall (λ x, CTokenArgs.is_delim (Some ",") (fst x) = true ∧ Forall not_comma (snd x)) more.

(** The group 0, the first [n] pieces, and an empty group when there are more. *)
Definition call_groups (self : CTokenArgs.args) (n : nat) (call a : list t) (more : list (t * list t))
    : list (list t) :=
  (if bool_decide (0 ∈ CTokenArgs.sub_groups self) then CTokenArgs.group0 call 0 [] else [])
  :: take n (a :: map snd more) ++ (if n <? S (length more) then [[]] else []).

Lemma groups_call m self n name sp b e a more log :
  invocation m name sp b (arg_list a more) e → value b = "(" → comma_args a more →
  CTokenArgs.truthy (CTokenArgs.greedy self) = false →
  CTokenArgs.max_group self = Z.of_nat n → 1 ≤ n ≤ S (length more) →
  CTokenArgs.groups self (call_tokens name sp b (arg_list a more) e) log
  = (log, Ok (level b, call_groups self n (call_tokens name sp b (arg_list a more) e) a more)).
Proof.
  intros Hinv Hv (HFa & HF) Hg Hm Hn. unfold CTokenArgs.groups. rewrite Hm.
  rewrite (proj2 (Z.ltb_ge _ _)) by lia. rewrite (proj2 (Z.eqb_neq _ _)) by lia.
  pose proof (find_begin_call _ _ _ _ _ _ log Hinv Hv) as HB.
  destruct (call_tokens _ _ _ _ _) as [|x l] eqn:E; [done|]. rewrite <- E in *. clear E x l.
  run_ST. rewrite HB. cbn [fst snd].
  unfold call_groups. set (g0 := if bool_decide (0 ∈ CTokenArgs.sub_groups self) then _ else _).
  destruct (split_arg_list self (Some ",") e [] more 0 [g0] [] a n Hg Hm (inv_end _ _ _ _ _ _ Hinv)
    (depth_balanced _ (inv_body _ _ _ _ _ _ Hinv) 0 ltac:(done)) HFa HF ltac:(cbn; lia)) as (pos & Hpos & HS).
  cbn [length] in HS. replace (S n - 1) with n in HS by lia. cbn [app Nat.add] in HS. rewrite HS.
  rewrite (proj2 (Z.ltb_ge _ _)) by lia. done.
Qed.

(** ** Printing *)

(** The two markers inside a comment. *)
Definition comment_text (tok : t) : string := re_sub RE_COMMENT_START "" (value tok) 0.
Definition is_private (tok : t) : bool := is_kind COMMENT tok && startswith "private:" (comment_text tok).
Definition is_public (tok : t) : bool :=
  is_kind COMMENT tok && negb (startswith "private:" (comment_text tok))
  && startswith "public:" (comment_text tok).

Lemma str_private tok rest top below :
  is_private tok = true →
  CTokenizer.str_from (tok :: rest) top below = CTokenizer.str_from rest false below.
Proof.
  unfold is_private, comment_text. intros [Hk Hp]%andb_prop. apply bool_decide_eq_true in Hk.
  cbn [CTokenizer.str_from]. by rewrite Hk, Hp.
Qed.

Lemma str_public tok rest top below :
  is_public tok = true →
  CTokenizer.str_from (tok :: rest) top below = CTokenizer.str_from rest true below.
Proof.
  unfold is_public, comment_text. intros [[Hk Hp]%andb_prop Hq]%andb_prop.
  apply bool_decide_eq_true in Hk. apply negb_true_iff in Hp.
  cbn [CTokenizer.str_from]. by rewrite Hk, Hp, Hq.
Qed.

(** Balanced tokens without a [public:] marker print nothing in a private part. *)
Lemma str_hidden toks : ∀ rest below,
  balanced toks → Forall (λ tok, is_public tok = false) toks →
  CTokenizer.str_from (toks ++ rest) false below = CTokenizer.str_from rest false below.
Proof.
  intros rest below H. revert rest below.
  induction H as [|tok toks Hb He _ IH|b body e toks Hb He _ _ IHb _ IHt]; intros rest below HF.
  - done.
  - apply Forall_cons in HF as [Hp HF]. cbn [app CTokenizer.str_from negb].
    destruct (decide (kind tok = COMMENT)) as [Hc|Hc].
    + unfold is_public, comment_text, is_kind in Hp. rewrite (bool_decide_eq_true_2 _ Hc) in Hp.
      rewrite Hc. cbn [andb] in Hp. destruct (startswith "private:" _); [by apply IH|].
      cbn [negb andb] in Hp. rewrite Hp. by apply IH.
    + destruct (kind tok); try done; by apply IH.
  - apply Forall_cons in HF as [_ HF]. apply Forall_app in HF as [HFb HF].
    apply Forall_cons in HF as [_ HF]. cbn [app CTokenizer.str_from negb].
    rewrite Hb, <- app_assoc, IHb by done. cbn [app CTokenizer.str_from negb andb].
    rewrite He. by apply IHt.
Qed.

(** Tokens that [str] prints as they are before [rest]: no comment, no space or
    end of statement just before an end of statement. *)
Fixpoint printable (toks rest : list t) : Prop :=
  match toks with
  | [] => True
  | tok :: toks' =>
      kind tok ≠ COMMENT ∧
      (kind tok = SPACE ∨ kind tok = ENDSTMT → CTokenizer.next_is ENDSTMT (toks' ++ rest) = false) ∧
      printable toks' rest
  end.

Lemma printable_app a b rest :
  printable (a ++ b) rest → printable a (b ++ rest) ∧ printable b rest.
Proof.
  induction a as [|x a IH]; [done|]. cbn [app printable]. intros (Hc & Hn & Hp).
  destruct (IH Hp) as [Ha Hb]. by rewrite app_assoc.
Qed.

Definition tail_str (tok : t) (rest : list t) (s : string) : string :=
  if is_kind SPACE tok && CTokenizer.next_is ENDSTMT rest then s
  else if is_kind ENDSTMT tok && CTokenizer.next_is ENDSTMT rest then s
  else value tok +:+ s.

Lemma tail_str_printable tok rest s :
  (kind tok = SPACE ∨ kind tok = ENDSTMT → CTokenizer.next_is ENDSTMT rest = false) →
  tail_str tok rest s = value tok +:+ s.
Proof.
  intros Hn. unfold tail_str, is_kind.
  assert (∀ k, k = SPACE ∨ k = ENDSTMT →
    bool_decide (kind tok = k) && CTokenizer.next_is ENDSTMT rest = false) as HK.
  { intros k Hk. case_bool_decide as Hd; [|done]. rewrite Hd in Hn. by rewrite (Hn Hk). }
  by rewrite !HK by auto.
Qed.

(** What one visible token prints, by kind. *)
Lemma str_neutral tok rest below :
  kind tok ≠ COMMENT → kind tok ≠ BEGIN → kind tok ≠ END →
  CTokenizer.str_from (tok :: rest) true below
  = tail_str tok rest (CTokenizer.str_from rest true below).
Proof.
  intros Hc Hb He. unfold tail_str, is_kind. cbn [CTokenizer.str_from negb].
  unfold is_kind. destruct (kind tok) eqn:E; done.
Qed.
Lemma str_begin tok rest below :
  kind tok = BEGIN →
  CTokenizer.str_from (tok :: rest) true below
  = value tok +:+ CTokenizer.str_from rest true (true :: below).
Proof. intros E. cbn [CTokenizer.str_from]. unfold is_kind. by rewrite E. Qed.
Lemma str_end tok rest below :
  kind tok = END →
  CTokenizer.str_from (tok :: rest) true (true :: below)
  = value tok +:+ CTokenizer.str_from rest true below.
Proof. intros E. cbn [CTokenizer.str_from]. unfold is_kind. by rewrite E. Qed.

(** A balanced, printable prefix prints as it is before anything else. *)
Lemma str_prefix pre : ∀ rest below,
  balanced pre → printable pre rest →
  CTokenizer.str_from (pre ++ rest) true below
  = sconcat (values pre) +:+ CTokenizer.str_from rest true below.
Proof.
  intros rest below H. revert rest below.
  induction H as [|tok pre Hb He _ IH|b body e pre Hb He _ _ IHb _ IHp]; intros rest below HP.
  - done.
  - cbn [printable] in HP. destruct HP as (Hc & Hn & HP).
    cbn [app values map]. rewrite sconcat_cons, sapp_assoc, str_neutral by done.
    rewrite tail_str_printable by done. by rewrite IH.
  - cbn [printable] in HP. destruct HP as (_ & _ & HP).
    apply printable_app in HP as [HPb HP]. cbn [printable] in HP. destruct HP as (_ & _ & HP).
    cbn [app] in HPb |- *. rewrite <- app_assoc. cbn [app].
    rewrite str_begin, IHb by done. rewrite str_end, IHp by done.
    unfold values. cbn [map]. rewrite map_app, sconcat_cons, sconcat_app. cbn [map].
    by rewrite sconcat_cons, !sapp_assoc.
Qed.

(** ** Replacing every invocation *)

(** Tokens without a matching name and then an invocation with its arguments. *)
Record seg := Seg {
  sg_pre : list t; sg_name : t; sg_sp : list t; sg_begin : t;
  sg_arg : list t; sg_more : list (t * list t); sg_end : t;
}.
Definition sg_call (s : seg) : list t :=
  call_tokens (sg_name s) (sg_sp s) (sg_begin s) (arg_list (sg_arg s) (sg_more s)) (sg_end s).
Definition no_name (self : CMatch.cmatch) : list t → Prop :=
  Forall (λ tok, CMatch.name_matches self tok = false).
Definition seg_ok (self : CMatch.cmatch) (s : seg) : Prop :=
  no_name self (sg_pre s) ∧
  invocation self (sg_name s) (sg_sp s) (sg_begin s) (arg_list (sg_arg s) (sg_more s)) (sg_end s).
Definition seg_tokens (segs : list seg) (tail : list t) : list t :=
  concat (map (λ s, sg_pre s ++ sg_call s) segs) ++ tail.
(** The spans of the invocations when the first segment starts at [i]. *)
Fixpoint spans (i : nat) (segs : list seg) : list CMatch.event :=
  match segs with
  | [] => []
  | s :: segs' =>
      let j := i + length (sg_pre s) in
      let k := j + length (sg_call s) in
      CMatch.Yield j (k - 1) :: spans k segs'
  end.

Lemma seg_tokens_cons s segs tail :
  seg_tokens (s :: segs) tail = sg_pre s ++ sg_call s ++ seg_tokens segs tail.
Proof. unfold seg_tokens. cbn [map concat]. by rewrite <- !app_assoc. Qed.

Lemma search_segs self all tail segs : ∀ l i started stack,
  leveled l (seg_tokens segs tail) → Forall (seg_ok self) segs → no_name self tail →
  CMatch.search_loop self all (seg_tokens segs tail) i None started stack = spans i segs.
Proof.
  induction segs as [|s segs IH]; intros l i started stack HL HF Ht.
  - by apply search_nothing.
  - rewrite seg_tokens_cons in *. apply Forall_cons in HF as [[Hp Hi] HF].
    destruct (search_invocation self (sg_pre s) _ _ _ _ _ (seg_tokens segs tail) l HL Hp Hi
      all i started stack) as (n & -> & E).
    fold (sg_call s) in E. rewrite E. cbn [spans]. f_equal.
    apply leveled_app in HL as [_ HL].
    destruct (invocation_levels _ _ _ _ _ _ _ _ Hi HL) as (_ & _ & _ & HLr & _).
    by apply (IH _ _ _ _ HLr).
Qed.

(** The first [count] invocations (all, for 0) replaced by [repl]. *)
Definition replaced (repl : seg → list t) (count : nat) (segs : list seg) (tail : list t) : list t :=
  let k := if count =? 0 then length segs else count in
  concat (map (λ s, sg_pre s ++ repl s) (firstn k segs)) ++ seg_tokens (skipn k segs) tail.

Lemma sg_call_len s : 0 < length (sg_call s).
Proof. unfold sg_call, call_tokens. simpl. lia. Qed.

Lemma sub_loop_segs args repl log tail count segs : ∀ toks done n new,
  Forall (λ s, CTokenArgs.tokens args (sg_call s) log = (log, Ok (repl s))) segs →
  toks = done ++ seg_tokens segs tail → count = 0 ∨ n < count →
  CMatch.sub_loop args count toks (spans (length done) segs) (length done) n new log
  = (log, Ok (new ++ replaced repl (count - n) segs tail)).
Proof.
  induction segs as [|s segs IH]; intros ? dn n new HF -> Hc.
  - cbn. unfold replaced. cbn. rewrite firstn_nil, skipn_nil, drop_app_length. done.
  - apply Forall_cons in HF as [Hs HF]. cbn [spans CMatch.sub_loop]. run_ST.
    pose proof (sg_call_len s) as Hlen.
    replace (S (length dn + length (sg_pre s) + length (sg_call s) - 1))
      with (length (dn ++ sg_pre s) + length (sg_call s)) by (rewrite length_app; lia).
    rewrite <- (length_app dn (sg_pre s)).
    rewrite seg_tokens_cons, (app_assoc dn), tslice_mid, Hs.
    assert (CMatch.tslice (length dn) (length (dn ++ sg_pre s))
      ((dn ++ sg_pre s) ++ sg_call s ++ seg_tokens segs tail) = sg_pre s) as ->.
    { rewrite <- app_assoc. rewrite length_app. apply tslice_mid. }
    rewrite <- (length_app (dn ++ sg_pre s)).
    destruct (count =? 0) eqn:E0; bool_facts.
    + subst count. cbn [negb andb]. replace (0 - n) with 0 by lia.
      rewrite (app_assoc (dn ++ sg_pre s)).
      rewrite IH by (done || auto). replace (0 - S n) with 0 by lia. do 2 f_equal. unfold replaced. cbn [Nat.eqb length firstn skipn map concat].
      by rewrite <- !app_assoc.
    + cbn [negb andb]. destruct (count <=? S n) eqn:E1; bool_facts.
      * replace (count - n) with 1 by lia. unfold replaced. cbn [Nat.eqb firstn skipn map concat].
        rewrite (app_assoc (dn ++ sg_pre s)), drop_app_length. by rewrite app_nil_r, <- !app_assoc.
      * rewrite (app_assoc (dn ++ sg_pre s)).
        rewrite IH by (done || lia). do 2 f_equal. unfold replaced.
        replace (count - n) with (S (count - S n)) by lia.
        rewrite (proj2 (Nat.eqb_neq (S _) 0)), (proj2 (Nat.eqb_neq (count - S n) 0)) by lia.
        cbn [firstn skipn map concat]. by rewrite <- !app_assoc.
Qed.
