(* ===== verification/CLexSpec.v ===== *)
(** * CLexSpec: what the C tokenizer and the macro matcher promise

    The properties of [KernRe], [CTokenizer], [CMatch] and [CTokenArgs], each
    with a concrete instance. *)

From S2P Require Import Prelude PyStr PyRe PyReSyntax PyReTheory KdocRe CLex CLexTheory.
Import CToken.

(** ** The tokenizer *)

(** C5 The tokenizer loses nothing: the texts of the tokens concatenate back to
    the source (line continuations removed), every token is non-empty, and the
    offsets it carries are the places where its text starts. *)
Theorem tokenize_lossless source :
  sconcat (values (CTokenizer._tokenize source)) = re_sub RE_CONT "" source 0 ∧
  contiguous 0 (CTokenizer._tokenize source).
Proof.
  destruct (scan_tiles _ _ _ _ (Level 0 0 0) (finditer_tiles (re_sub RE_CONT "" source 0)))
    as (E & C & _).
  split; [exact E | exact C].
Qed.

(** Every token is well typed: its text belongs to the language of the
    regular expression that [RE_SCANNER_LIST] gives to its kind. *)
Theorem tokenize_typed source : Forall token_ok (CTokenizer._tokenize source).
Proof. exact (scan_token_ok _ _ _ _ (Level 0 0 0) (finditer_tiles _)). Qed.

Lemma tokenize_leveled source : leveled (Level 0 0 0) (CTokenizer._tokenize source).
Proof. apply (scan_tiles _ _ _ _ (Level 0 0 0) (finditer_tiles (re_sub RE_CONT "" source 0))). Qed.

(** Delimiters: over a balanced stretch of the token list the nesting level
    comes back to what it was before, and never sinks below it in between. *)
Theorem tokenize_balanced_levels source pre body post :
  CTokenizer._tokenize source = pre ++ body ++ post → balanced body →
  let l := level_end (Level 0 0 0) pre in
  level_end l body = l ∧ Forall (λ tok, level_le l (level tok)) body.
Proof.
  intros E Hb. pose proof (tokenize_leveled source) as HL. rewrite E in HL.
  apply leveled_app in HL as [_ HL]. apply leveled_app in HL as [HL _].
  by apply balanced_levels.
Qed.

Definition example_tokens : list t :=
  Eval vm_compute in CTokenizer._tokenize "int f (a, g[1]); f(b)".

Lemma example_tokens_eq :
  CTokenizer._tokenize "int f (a, g[1]); f(b)" = example_tokens.
Proof. vm_compute. reflexivity. Qed.

(** Proves [balanced] of a concrete token list. *)
Ltac solve_balanced :=
  lazymatch goal with
  | |- balanced [] => apply bal_nil
  | |- balanced (?b :: ?l) =>
      let rec close n :=
        lazymatch n with
        | O => fail
        | S ?n' =>
            let k := eval vm_compute in (length l - n) in
            first
              [ let body := eval cbn in (firstn k l) in
                let rest := eval cbn in (skipn (S k) l) in
                let e := eval cbn in (nth k l b) in
                apply (bal_group b body e rest);
                  [reflexivity | reflexivity | reflexivity | solve_balanced | solve_balanced]
              | close n' ]
        end in
      let k := eval cbn in (kind b) in
      lazymatch k with
      | BEGIN => let n := eval cbn in (length l) in close n
      | _ => apply bal_tok; [discriminate | discriminate | solve_balanced]
      end
  end.

Lemma tokenize_balanced_levels_witness :
  let l := level_end (Level 0 0 0) (firstn 3 example_tokens) in
  level_end l (firstn 10 (skipn 3 example_tokens)) = l.
Proof.
  refine (proj1 (tokenize_balanced_levels "int f (a, g[1]); f(b)" (firstn 3 example_tokens)
    (firstn 10 (skipn 3 example_tokens)) (skipn 13 example_tokens) example_tokens_eq _)).
  unfold example_tokens. cbn [firstn skipn].
  solve_balanced.
Defined.

(** ** Searching and replacing macro invocations *)

Lemma search_source self source segs tail :
  CTokenizer._tokenize source = seg_tokens segs tail →
  Forall (seg_ok self) segs → no_name self tail →
  CMatch._search self (seg_tokens segs tail) = spans 0 segs.
Proof.
  intros E HF Ht. pose proof (tokenize_leveled source) as HL. rewrite E in HL.
  by apply (search_segs self _ tail segs (Level 0 0 0)).
Qed.


(** [sub] with a template whose expansion of each invocation is known. *)
Lemma sub_source_segs self sub_str args repl source segs tail count log :
  CTokenizer._tokenize source = seg_tokens segs tail →
  Forall (seg_ok self) segs → no_name self tail →
  CTokenArgs.init sub_str log = (log, Ok args) →
  Forall (λ s, CTokenArgs.tokens args (sg_call s) log = (log, Ok (repl s))) segs →
  CMatch.sub self sub_str (CTokenizer._tokenize source) count log
  = (log, Ok (replaced repl count segs tail)).
Proof.
  intros E HF Ht Ha HR. unfold CMatch.sub. run_ST. rewrite Ha, E, (search_source self source) by done.
  rewrite (sub_loop_segs _ repl log tail count segs (seg_tokens segs tail) [] 0 []); try done.
  - by rewrite Nat.sub_0_r.
  - destruct count; [by left | right; lia].
Qed.

(** [CMatch.sub] with an empty template removes the first [count]
    invocations (all of them for 0) with their arguments, and nothing else; a
    source without an invocation is left alone. *)
Theorem sub_deletes self source segs tail count log :
  CTokenizer._tokenize source = seg_tokens segs tail →
  Forall (seg_ok self) segs → no_name self tail →
  CMatch.sub self "" (CTokenizer._tokenize source) count log
  = (log, Ok (replaced (λ _, []) count segs tail)).
Proof.
  intros E HF Ht. apply (sub_source_segs self "" (CTokenArgs.Args [] (-1) None "" [])); try done.
  by apply Forall_true.
Qed.

(** The number of arguments that the template of [args] uses. *)
Definition used_args (args : CTokenArgs.args) : nat := Z.to_nat (CTokenArgs.max_group args).
(** An invocation in parentheses with at least as many pieces between its commas as
    the template of [args] uses. *)
Definition seg_args (args : CTokenArgs.args) (s : seg) : Prop :=
  value (sg_begin s) = "(" ∧ comma_args (sg_arg s) (sg_more s) ∧
  (1 ≤ CTokenArgs.max_group args ≤ Z.of_nat (S (length (sg_more s))))%Z.
Definition seg_groups (args : CTokenArgs.args) (s : seg) : list (list t) :=
  call_groups args (used_args args) (sg_call s) (sg_arg s) (sg_more s).
(** The template with every back-reference replaced by its argument. *)
Definition seg_expand (args : CTokenArgs.args) (s : seg) : list t :=
  concat (map (expand_tok (seg_groups args s) (level (sg_begin s))) (CTokenArgs.sub_tokens args)).

(** C4 [CMatch.sub] with a template replaces each invocation by the template in
    which the back-reference [\k] stands for the tokens of the [k]-th argument, and
    leaves everything else; nothing is logged.  The arguments are what is between
    the commas, every comma: one inside nested delimiters separates too.  What
    follows the last argument that the template uses is dropped. *)
Theorem sub_rewrites self sub_str args source segs tail count log :
  CTokenizer._tokenize source = seg_tokens segs tail →
  Forall (seg_ok self) segs → no_name self tail →
  CTokenArgs.init sub_str log = (log, Ok args) →
  CTokenArgs.truthy (CTokenArgs.greedy args) = false →
  Forall (seg_args args) segs →
  Forall (λ s, Forall (λ tok, backref_ok (seg_groups args s) tok = true)
                      (CTokenArgs.sub_tokens args)) segs →
  CMatch.sub self sub_str (CTokenizer._tokenize source) count log
  = (log, Ok (replaced (seg_expand args) count segs tail)).
Proof.
  intros E HF Ht Ha Hg HA HB. apply (sub_source_segs _ _ args); try done.
  rewrite Forall_forall in HF, HA, HB |- *. intros s Hs.
  destruct (HF s Hs) as [_ Hi]. destruct (HA s Hs) as (Hv & Hc & Hm).
  apply tokens_expand; [|exact (HB s Hs)].
  apply (groups_call self args (used_args args) _ _ _ _ _ _ _ Hi Hv Hc Hg); unfold used_args; lia.
Qed.

(** *** An instance: [f (a, g[1]); f(b, c)] *)

Definition call_source : string := "int f (a, g[1]); f(b, c);".
Definition call_toks : list t := Eval vm_compute in CTokenizer._tokenize call_source.
Definition tok_at (i : nat) : t := nth i call_toks (Mk MISMATCH "" 0 (Level 0 0 0)).
Definition toks_at (i j : nat) : list t := CMatch.tslice i j call_toks.
Definition call_segs : list seg := Eval vm_compute in [
  Seg (toks_at 0 2) (tok_at 2) (toks_at 3 4) (tok_at 4) (toks_at 5 6)
      [(tok_at 6, toks_at 7 12)] (tok_at 12);
  Seg (toks_at 13 15) (tok_at 15) [] (tok_at 16) (toks_at 17 18)
      [(tok_at 18, toks_at 19 21)] (tok_at 21)].
Definition call_tail : list t := Eval vm_compute in skipn 22 call_toks.

Lemma call_source_eq : CTokenizer._tokenize call_source = seg_tokens call_segs call_tail.
Proof. vm_compute. reflexivity. Qed.

(** Proves conjunctions and [Forall]s over concrete token lists. *)
Ltac solve_concrete :=
  lazymatch goal with
  | |- Forall _ [] => apply Forall_nil; exact I
  | |- Forall _ (_ :: _) => apply Forall_cons; split; solve_concrete
  | |- balanced _ => cbn; solve_balanced
  | |- _ ∧ _ => split; solve_concrete
  | |- comma_args _ _ => unfold comma_args; cbn zeta; cbn [snd fst]; solve_concrete
  | |- seg_ok _ _ => unfold seg_ok, no_name; cbn [sg_pre sg_name sg_sp sg_begin sg_arg sg_more sg_end];
                     split; [solve_concrete | constructor; solve_concrete]
  | |- seg_args _ _ => unfold seg_args; cbn [sg_begin sg_arg sg_more]; solve_concrete
  | |- no_name _ _ => unfold no_name; solve_concrete
  | |- (_ <= _)%Z => vm_compute; discriminate
  | |- (_ = _) => vm_compute; reflexivity
  | |- _ => cbn beta; progress cbn [fst snd]; solve_concrete
  end.

Lemma call_segs_ok : Forall (seg_ok (CMatch.init "f")) call_segs.
Proof. unfold call_segs. solve_concrete. Qed.
Lemma call_tail_ok : no_name (CMatch.init "f") call_tail.
Proof. unfold call_tail. solve_concrete. Qed.


Lemma sub_deletes_witness :
  CMatch.sub (CMatch.init "f") "" (CTokenizer._tokenize call_source) 0 []
  = ([], Ok (replaced (λ _, []) 0 call_segs call_tail)) ∧
  sconcat (values (replaced (λ _, []) 0 call_segs call_tail)) = "int ; ;" ∧
  sconcat (values (replaced (λ _, []) 1 call_segs call_tail)) = "int ; f(b, c);".
Proof.
  split; [|split; vm_compute; reflexivity].
  exact (sub_deletes _ _ _ _ 0 [] call_source_eq call_segs_ok call_tail_ok).
Defined.

Definition call_args : CTokenArgs.args := Eval vm_compute in
  match snd (CTokenArgs.init "h(\2)->\1" []) with Ok a => a | Raise _ => CTokenArgs.Args [] 0 None "" [] end.

(** A comma inside nested parentheses separates: the second argument is [ g(x]. *)
Definition nested_source : string := "f(a, g(x, y)); f(b, c);".
Definition nested_toks : list t := Eval vm_compute in CTokenizer._tokenize nested_source.
Definition nested_at (i : nat) : t := nth i nested_toks (Mk MISMATCH "" 0 (Level 0 0 0)).
Definition nested_from (i j : nat) : list t := CMatch.tslice i j nested_toks.
Definition nested_segs : list seg := Eval vm_compute in [
  Seg [] (nested_at 0) [] (nested_at 1) (nested_from 2 3)
      [(nested_at 3, nested_from 4 8); (nested_at 8, nested_from 9 12)] (nested_at 12);
  Seg (nested_from 13 15) (nested_at 15) [] (nested_at 16) (nested_from 17 18)
      [(nested_at 18, nested_from 19 21)] (nested_at 21)].
Definition nested_tail : list t := Eval vm_compute in skipn 22 nested_toks.

Lemma sub_rewrites_witness :
  CMatch.sub (CMatch.init "f") "h(\2)->\1" (CTokenizer._tokenize nested_source) 0 []
  = ([], Ok (replaced (seg_expand call_args) 0 nested_segs nested_tail)) ∧
  sconcat (values (replaced (seg_expand call_args) 0 nested_segs nested_tail))
  = "h( g(x)->a; h( c)->b;".
Proof.
  split; [|vm_compute; reflexivity].
  apply (sub_rewrites _ _ call_args nested_source nested_segs nested_tail 0 []).
  - vm_compute. reflexivity.
  - unfold nested_segs. solve_concrete.
  - unfold nested_tail. solve_concrete.
  - vm_compute. reflexivity.
  - reflexivity.
  - unfold nested_segs. solve_concrete.
  - unfold nested_segs. repeat (apply Forall_cons; split; [|try apply Forall_nil; try exact I]).
    all: unfold call_args; cbn [CTokenArgs.sub_tokens]; solve_concrete.
Defined.

(** ** Printing *)

(** C17 [str] of a token list: what comes before a [private:] comment is printed
    as it is; nothing is printed from there to the next [public:] comment of
    the same nesting; after it printing goes on as at the start. *)
Theorem str_private_region pre priv hidden pub post :
  balanced pre → printable pre (priv :: hidden ++ pub :: post) →
  is_private priv = true → balanced hidden → Forall (λ tok, is_public tok = false) hidden →
  is_public pub = true →
  CTokenizer.str (pre ++ priv :: hidden ++ pub :: post)
  = sconcat (values pre) +:+ CTokenizer.str post.
Proof.
  intros Hp HP Hpriv Hh HF Hpub. unfold CTokenizer.str.
  by rewrite str_prefix, str_private, str_hidden, str_public by done.
Qed.

Definition private_source : string :=
  "int a; /* private: */ int (b); /* public: */ int c;".
Definition private_toks : list t := Eval vm_compute in CTokenizer._tokenize private_source.

Lemma str_private_region_witness :
  CTokenizer.str (CTokenizer._tokenize private_source) = "int a;  int c;".
Proof.
  assert (CTokenizer._tokenize private_source = private_toks) as -> by (vm_compute; reflexivity).
  pose (p i j := CMatch.tslice i j private_toks).
  change private_toks with
    (p 0 5 ++ nth 5 private_toks (Mk NAME "" 0 (Level 0 0 0)) :: p 6 14
     ++ nth 14 private_toks (Mk NAME "" 0 (Level 0 0 0)) :: p 15 30).
  rewrite str_private_region; [vm_compute; reflexivity| | | | | |].
  - cbv. solve_balanced.
  - cbv. repeat split; discriminate || tauto || (intros [?|?]; discriminate).
  - vm_compute. reflexivity.
  - cbv. solve_balanced.
  - cbv [p]. cbn. solve_concrete.
  - vm_compute. reflexivity.
Defined.
