(* ===== verification/Xforms.v ===== *)
(** * Xforms: the transformations of [xforms_lists.py]

    The three lists of replacements and [CTransforms.apply]. *)

From S2P Require Import Prelude PyStr PyRe PyReSyntax PyReTheory KdocRe CLex.

(** The first component of an entry: a [CMatch] or a [KernRe]. *)
Inductive xsearch :=
| XMatch (m : CMatch.cmatch)
| XRe (r : pattern).

(** A [source] argument: a string or a [CTokenizer]. *)
Inductive xsource :=
| SStr (s : string)
| STok (tokens : list CToken.t).

Definition xsource_str (s : xsource) : string :=
  match s with SStr s => s | STok tokens => CTokenizer.str tokens end.

Definition struct_xforms : list (xsearch * string) := [
  (XMatch (CMatch.init "__attribute__"), "");
  (XMatch (CMatch.init "__aligned"), "");
  (XMatch (CMatch.init "__counted_by"), "");
  (XMatch (CMatch.init "__counted_by_(le|be)"), "");
  (XMatch (CMatch.init "__counted_by_ptr"), "");
  (XMatch (CMatch.init "__guarded_by"), "");
  (XMatch (CMatch.init "__pt_guarded_by"), "");
  (XMatch (CMatch.init "__packed"), "");
  (XMatch (CMatch.init "CRYPTO_MINALIGN_ATTR"), "");
  (XMatch (CMatch.init "__private"), "");
  (XMatch (CMatch.init "__rcu"), "");
  (XMatch (CMatch.init "____cacheline_aligned_in_smp"), "");
  (XMatch (CMatch.init "____cacheline_aligned"), "");
  (XMatch (CMatch.init "__cacheline_group_(?:begin|end)"), "");
  (XMatch (CMatch.init "__ETHTOOL_DECLARE_LINK_MODE_MASK"), "DECLARE_BITMAP(\1, __ETHTOOL_LINK_MODE_MASK_NBITS)");
  (XMatch (CMatch.init "DECLARE_PHY_INTERFACE_MASK"), "DECLARE_BITMAP(\1, PHY_INTERFACE_MODE_MAX)");
  (XMatch (CMatch.init "DECLARE_BITMAP"), "unsigned long \1[BITS_TO_LONGS(\2)]");
  (XMatch (CMatch.init "DECLARE_HASHTABLE"), "unsigned long \1[1 << ((\2) - 1)]");
  (XMatch (CMatch.init "DECLARE_KFIFO"), "\2 *\1");
  (XMatch (CMatch.init "DECLARE_KFIFO_PTR"), "\2 *\1");
  (XMatch (CMatch.init "(?:__)?DECLARE_FLEX_ARRAY"), "\1 \2[]");
  (XMatch (CMatch.init "DEFINE_DMA_UNMAP_ADDR"), "dma_addr_t \1");
  (XMatch (CMatch.init "DEFINE_DMA_UNMAP_LEN"), "__u32 \1");
  (XMatch (CMatch.init "VIRTIO_DECLARE_FEATURES"), "union { u64 \1; u64 \1_array[VIRTIO_FEATURES_U64S]; }");
  (XMatch (CMatch.init "__SYSFS_FUNCTION_ALTERNATIVE"), "union { \1+ }");
  (XMatch (CMatch.init "__attribute__"), "");
  (XMatch (CMatch.init "struct_group"), "struct { \2+ };");
  (XMatch (CMatch.init "struct_group_attr"), "struct { \3+ };");
  (XMatch (CMatch.init "struct_group_tagged"), "struct { \3+ };");
  (XMatch (CMatch.init "__struct_group"), "struct { \4+ };")
].

Definition function_xforms : list (xsearch * string) := [
  (XMatch (CMatch.init "static"), "");
  (XMatch (CMatch.init "extern"), "");
  (XMatch (CMatch.init "asmlinkage"), "");
  (XMatch (CMatch.init "inline"), "");
  (XMatch (CMatch.init "__inline__"), "");
  (XMatch (CMatch.init "__inline"), "");
  (XMatch (CMatch.init "__always_inline"), "");
  (XMatch (CMatch.init "noinline"), "");
  (XMatch (CMatch.init "__FORTIFY_INLINE"), "");
  (XMatch (CMatch.init "__init"), "");
  (XMatch (CMatch.init "__init_or_module"), "");
  (XMatch (CMatch.init "__exit"), "");
  (XMatch (CMatch.init "__deprecated"), "");
  (XMatch (CMatch.init "__flatten"), "");
  (XMatch (CMatch.init "__meminit"), "");
  (XMatch (CMatch.init "__must_check"), "");
  (XMatch (CMatch.init "__weak"), "");
  (XMatch (CMatch.init "__sched"), "");
  (XMatch (CMatch.init "__always_unused"), "");
  (XMatch (CMatch.init "__maybe_unused"), "");
  (XMatch (CMatch.init "__printf"), "");
  (XMatch (CMatch.init "__(?:re)?alloc_size"), "");
  (XMatch (CMatch.init "__diagnose_as"), "");
  (XMatch (CMatch.init "DECL_BUCKET_PARAMS"), "\1, \2");
  (XMatch (CMatch.init "__cond_acquires"), "");
  (XMatch (CMatch.init "__cond_releases"), "");
  (XMatch (CMatch.init "__acquires"), "");
  (XMatch (CMatch.init "__releases"), "");
  (XMatch (CMatch.init "__must_hold"), "");
  (XMatch (CMatch.init "__must_not_hold"), "");
  (XMatch (CMatch.init "__must_hold_shared"), "");
  (XMatch (CMatch.init "__cond_acquires_shared"), "");
  (XMatch (CMatch.init "__acquires_shared"), "");
  (XMatch (CMatch.init "__releases_shared"), "");
  (XMatch (CMatch.init "__no_context_analysis"), "");
  (XMatch (CMatch.init "__attribute_const__"), "");
  (XMatch (CMatch.init "__attribute__"), "");
  (XMatch (CMatch.init "STATIC_IFN_KUNIT"), "");
  (XMatch (CMatch.init "INLINE_IFN_KUNIT"), "");
  (XRe (compiled no_flags "_noprof"), "")
].

Definition var_xforms : list (xsearch * string) := [
  (XMatch (CMatch.init "__read_mostly"), "");
  (XMatch (CMatch.init "__ro_after_init"), "");
  (XMatch (CMatch.init "__guarded_by"), "");
  (XMatch (CMatch.init "__pt_guarded_by"), "");
  (XMatch (CMatch.init "LIST_HEAD"), "struct list_head \1");
  (XMatch (CMatch.init "DECLARE_PER_CPU"), "\1 \2[PER_CPU]; }");
  (XRe (compiled no_flags "(?://.*)$"), "");
  (XRe (compiled no_flags "(?:/\*.*\*/)"), "");
  (XRe (compiled no_flags ";$"), "")
].

Definition xforms : dict (list (xsearch * string)) :=
  [("struct", struct_xforms); ("func", function_xforms); ("var", var_xforms)].

(** [search.sub(subst, source)] *)
Definition xsub (search : xsearch) (subst : string) (source : xsource) : Lex xsource :=
  match search, source with
  | XMatch m, STok tokens => toks ← CMatch.sub m subst tokens 0; mret (STok toks)
  | XMatch m, SStr s => r ← CMatch.sub_source m subst s 0; mret (SStr r)
  | XRe r, _ => mret (SStr (re_sub r subst (xsource_str source) 0))
  end.

(** [CTransforms.apply(xforms_type, source)] for a table of transformations;
    the class uses [xforms]. *)
Definition apply_table (table : dict (list (xsearch * string))) (xforms_type source : string)
    : Lex string :=
  match dget table xforms_type with
  | None => mret source
  | Some l =>
      tokens ← CTokenizer.init source;
      r ← for_acc l (STok tokens) (λ source '(search, subst), xsub search subst source);
      mret (xsource_str r)
  end.
Definition apply : string → string → Lex string := apply_table xforms.
