(* ===== verification/KdocItem.v ===== *)
(** * KdocItem: the parsed items of [kdoc_item.py]

    A [KdocItem] is what the parser hands to the output classes: the name,
    kind and place of a documented entity, its sections and parameters, and a
    dictionary of further values that depend on the kind. *)

From S2P Require Import Prelude PyStr.

(** A value of [other_stuff]. *)
Inductive pyval :=
| VNone
| VBool (b : bool)
| VStr (s : string).

#[global] Instance pyval_eq_dec : EqDecision pyval.
Proof. solve_decision. Defined.

(** The truth value of [v]. *)
Definition truth (v : pyval) : bool :=
  match v with VNone => false | VBool b => b | VStr s => negb (s =? "")%string end.

Record KdocItem := MkKdocItem {
  it_name : string;
  it_fname : string;
  it_type : string;
  it_declaration_start_line : nat;
  it_sections : dict string;
  it_sections_start_lines : dict Z;
  it_parameterlist : list string;
  it_parameterdesc_start_lines : dict Z;
  it_parameterdescs : dict string;
  it_parametertypes : dict string;
  it_warnings : list string;
  it_other_stuff : dict pyval;
}.

(** [KdocItem(name, fname, type, start_line, **other_stuff)], none of the
    keywords being a known attribute, as in every call of the parser. *)
Definition KdocItem_init (name fname type : string) (start_line : nat) (other_stuff : dict pyval)
    : KdocItem :=
  MkKdocItem name fname type start_line [] [] [] [] [] [] [] other_stuff.

(** [item.get(key, default)] *)
Definition KdocItem_get (item : KdocItem) (key : string) (dflt : pyval) : pyval :=
  dget_or (it_other_stuff item) key dflt.
(** [item[key]] *)
Definition KdocItem_getitem (item : KdocItem) (key : string) : pyval := KdocItem_get item key VNone.

Definition KdocItem_repr (item : KdocItem) : string :=
  "KdocItem(" +:+ it_name item +:+ ", " +:+ it_fname item +:+ ", " +:+ it_type item
  +:+ ", " +:+ int_str (it_declaration_start_line item) +:+ ")".

Definition KdocItem_set_sections (sections : dict string) (start_lines : dict Z)
    (item : KdocItem) : KdocItem :=
  MkKdocItem (it_name item) (it_fname item) (it_type item) (it_declaration_start_line item)
    sections start_lines (it_parameterlist item) (it_parameterdesc_start_lines item)
    (it_parameterdescs item) (it_parametertypes item) (it_warnings item) (it_other_stuff item).

Definition KdocItem_set_params (names : list string) (descs types : dict string)
    (starts : dict Z) (item : KdocItem) : KdocItem :=
  MkKdocItem (it_name item) (it_fname item) (it_type item) (it_declaration_start_line item)
    (it_sections item) (it_sections_start_lines item) names starts descs types
    (it_warnings item) (it_other_stuff item).

(** [item.warnings = warnings] *)
Definition KdocItem_set_warnings (warnings : list string) (item : KdocItem) : KdocItem :=
  MkKdocItem (it_name item) (it_fname item) (it_type item) (it_declaration_start_line item)
    (it_sections item) (it_sections_start_lines item) (it_parameterlist item)
    (it_parameterdesc_start_lines item) (it_parameterdescs item) (it_parametertypes item)
    warnings (it_other_stuff item).

(** ** Plain dictionaries

    What [vars(item)] holds, and what [from_dict] builds an item from.  Python
    does not check the type of an attribute; the record does, so a value of
    another type is outside the model, [None]. *)

Inductive plain :=
| PVal (v : pyval)
| PNat (n : nat)
| PStrs (l : list string)
| PTexts (d : dict string)
| PLines (d : dict Z)
| PStuff (d : dict pyval).

#[global] Instance plain_eq_dec : EqDecision plain.
Proof. solve_decision. Defined.

(** [vars(item)], in the order the constructor sets the attributes. *)
Definition item_vars (item : KdocItem) : dict plain := [
  ("name", PVal (VStr (it_name item)));
  ("fname", PVal (VStr (it_fname item)));
  ("type", PVal (VStr (it_type item)));
  ("declaration_start_line", PNat (it_declaration_start_line item));
  ("sections", PTexts (it_sections item));
  ("sections_start_lines", PLines (it_sections_start_lines item));
  ("parameterlist", PStrs (it_parameterlist item));
  ("parameterdesc_start_lines", PLines (it_parameterdesc_start_lines item));
  ("parameterdescs", PTexts (it_parameterdescs item));
  ("parametertypes", PTexts (it_parametertypes item));
  ("warnings", PStrs (it_warnings item));
  ("other_stuff", PStuff (it_other_stuff item))
].

Definition known_keys : list string := [
  "declaration_start_line"; "sections"; "sections_start_lines"; "parameterlist";
  "parameterdesc_start_lines"; "parameterdescs"; "parametertypes"; "warnings"
].

Definition KdocItem_set_line (n : nat) (item : KdocItem) : KdocItem :=
  MkKdocItem (it_name item) (it_fname item) (it_type item) n
    (it_sections item) (it_sections_start_lines item) (it_parameterlist item)
    (it_parameterdesc_start_lines item) (it_parameterdescs item) (it_parametertypes item)
    (it_warnings item) (it_other_stuff item).
Definition KdocItem_set_other_stuff (stuff : dict pyval) (item : KdocItem) : KdocItem :=
  MkKdocItem (it_name item) (it_fname item) (it_type item) (it_declaration_start_line item)
    (it_sections item) (it_sections_start_lines item) (it_parameterlist item)
    (it_parameterdesc_start_lines item) (it_parameterdescs item) (it_parametertypes item)
    (it_warnings item) stuff.

(** [setattr(self, k, v)] for a known key. *)
Definition set_attr (k : string) (v : plain) (i : KdocItem) : option KdocItem :=
  let starts := it_parameterdesc_start_lines i in
  match v with
  | PNat n =>
      if (k =? "declaration_start_line")%string then Some (KdocItem_set_line n i) else None
  | PTexts d =>
      if (k =? "sections")%string then Some (KdocItem_set_sections d (it_sections_start_lines i) i)
      else if (k =? "parameterdescs")%string
      then Some (KdocItem_set_params (it_parameterlist i) d (it_parametertypes i) starts i)
      else if (k =? "parametertypes")%string
      then Some (KdocItem_set_params (it_parameterlist i) (it_parameterdescs i) d starts i)
      else None
  | PLines d =>
      if (k =? "sections_start_lines")%string then Some (KdocItem_set_sections (it_sections i) d i)
      else if (k =? "parameterdesc_start_lines")%string
      then Some (KdocItem_set_params (it_parameterlist i) (it_parameterdescs i)
                   (it_parametertypes i) d i)
      else None
  | PStrs l =>
      if (k =? "parameterlist")%string
      then Some (KdocItem_set_params l (it_parameterdescs i) (it_parametertypes i) starts i)
      else if (k =? "warnings")%string then Some (KdocItem_set_warnings l i)
      else None
  | _ => None
  end.
(** One keyword of the constructor. *)
Definition set_keyword (item : KdocItem) (kv : string * plain) : option KdocItem :=
  let '(k, v) := kv in
  if smem k known_keys then set_attr k v item
  else match v with
       | PVal v => Some (KdocItem_set_other_stuff (dset (it_other_stuff item) k v) item)
       | _ => None
       end.
Fixpoint set_keywords (item : KdocItem) (kws : dict plain) : option KdocItem :=
  match kws with
  | [] => Some item
  | kv :: kws => item ← set_keyword item kv; set_keywords item kws
  end.
(** [KdocItem(name, fname, type, start_line, **kws)] *)
Definition KdocItem_keywords (name fname type : string) (start_line : nat) (kws : dict plain)
    : option KdocItem := set_keywords (KdocItem_init name fname type start_line []) kws.

(** The first keyword that is given twice, or that is also a positional
    parameter. *)
Definition twice (cp : dict plain) (other_stuff : dict pyval) : option exn :=
  match find (λ k, dmem cp k) (dkeys other_stuff) with
  | Some k => Some (TypeError ("kdoc.kdoc_item.KdocItem() got multiple values for keyword argument '"
                               +:+ k +:+ "'"))
  | None =>
      match find (λ k, smem k ["self"; "name"; "fname"; "type"; "start_line"])
              (dkeys cp ++ dkeys other_stuff) with
      | Some k => Some (TypeError ("KdocItem.__init__() got multiple values for argument '"
                                   +:+ k +:+ "'"))
      | None => None
      end
  end.

Definition plain_str (v : option plain) : option string :=
  match v with Some (PVal (VStr s)) => Some s | _ => None end.
(** [KdocItem.from_dict(d)] *)
Definition from_dict (d : dict plain) : option (res KdocItem) :=
  let cp := foldl ddel d ["name"; "fname"; "type"; "start_line"; "other_stuff"] in
  other_stuff ← match dget d "other_stuff" with
                | None => Some []
                | Some (PStuff s) => Some s
                | Some _ => None end;
  match twice cp other_stuff with
  | Some e => Some (Raise e)
  | None =>
      name ← plain_str (dget d "name");
      fname ← plain_str (dget d "fname");
      type ← plain_str (dget d "type");
      start_line ← match dget d "start_line" with
                   | None => Some 1
                   | Some (PNat n) => Some n
                   | Some _ => None end;
      Ok <$> KdocItem_keywords name fname type start_line
               (cp ++ map (λ '(k, v), (k, PVal v)) other_stuff)
  end.

(** The keys that the constructor does not keep in [other_stuff]. *)
Definition reserved : list string := ["self"; "name"; "fname"; "type"; "start_line"] ++ known_keys.
Definition stuff_ok (stuff : dict pyval) : Prop :=
  NoDup (dkeys stuff) ∧ Forall (λ k, k ∉ reserved) (dkeys stuff).

Definition stuff_okb (stuff : dict pyval) : bool :=
  bool_decide (NoDup (dkeys stuff)) && forallb (λ k, negb (smem k reserved)) (dkeys stuff).
Lemma stuff_okb_iff stuff : stuff_okb stuff = true ↔ stuff_ok stuff.
Proof.
  unfold stuff_okb, stuff_ok. rewrite andb_true_iff, bool_decide_eq_true, forallb_forall, Forall_forall.
  split; intros [Hd H]; (split; [exact Hd|]); intros k Hk.
  - apply list_elem_of_In, H, negb_true_iff in Hk. intros Hr%smem_iff. congruence.
  - apply list_elem_of_In, H in Hk. apply negb_true_iff. apply not_true_iff_false. by rewrite smem_iff.
Qed.

Lemma set_keywords_stuff stuff : ∀ item,
  NoDup (dkeys (it_other_stuff item) ++ dkeys stuff) → Forall (λ k, k ∉ reserved) (dkeys stuff) →
  set_keywords item (map (λ '(k, v), (k, PVal v)) stuff)
  = Some (KdocItem_set_other_stuff (it_other_stuff item ++ stuff) item).
Proof.
  induction stuff as [|[k v] stuff IH]; intros item Hd Hr; cbn [map set_keywords].
  - rewrite app_nil_r. by destruct item.
  - inversion Hr as [|? ? Hk Hr']; subst. unfold set_keyword.
    destruct (smem k known_keys) eqn:E.
    { apply smem_iff in E. destruct Hk. apply elem_of_app. by right. }
    assert (dset (it_other_stuff item) k v = it_other_stuff item ++ [(k, v)]) as Hs.
    { apply dset_new. destruct (dmem _ k) eqn:Em; [|done]. apply dmem_In in Em.
      apply NoDup_app in Hd as (_ & Hn & _). destruct (Hn k Em). by left. }
    cbn [mbind option_bind]. rewrite IH; [|cbn|done].
    + cbn. by rewrite Hs, <- app_assoc.
    + rewrite Hs. unfold dkeys in *. rewrite map_app, <- app_assoc. done.
Qed.

(** An item is what [from_dict] makes of its own dictionary. *)
Lemma from_dict_vars item : stuff_ok (it_other_stuff item) →
  from_dict (item_vars item) = Some (Ok item).
Proof.
  intros [Hd Hr]. unfold from_dict, item_vars.
  cbn [foldl ddel String.eqb Ascii.eqb Bool.eqb dget mbind option_bind].
  destruct (twice _ _) as [e|] eqn:Et.
  - exfalso. revert Et. unfold twice.
    rewrite Forall_forall in Hr.
    match goal with |- context [find ?p (dkeys (it_other_stuff item))] =>
      destruct (find p (dkeys (it_other_stuff item))) as [k|] eqn:Ef end.
    { apply find_some in Ef as [Hin%list_elem_of_In Hm%dmem_In]. destruct (Hr k Hin).
      apply elem_of_app. by right. }
    match goal with |- context [find ?p ?l] => destruct (find p l) as [k|] eqn:Eg end; [|done].
    apply find_some in Eg as [Hin%list_elem_of_In Hm%smem_iff].
    apply elem_of_app in Hin as [Hin|Hin].
    + revert Hm. revert Hin. cbn [dkeys map fst]. rewrite <- !smem_iff. intros Hin Hm. exfalso.
      rewrite !smem_iff, !list_elem_of_In in *.
      repeat (destruct Hin as [<-|Hin]; [by repeat (destruct Hm as [Hm|Hm]; [discriminate Hm|])|]). done.
    + destruct (Hr k Hin). apply elem_of_app. by left.
  - unfold KdocItem_keywords. cbn [plain_str mbind option_bind].
    match goal with |- context [set_keywords _ (?l ++ _)] => set (attrs := l) end.
    assert (∀ i l, set_keywords i (attrs ++ l) = i' ← set_keywords i attrs; set_keywords i' l) as Happ.
    { intros i l. revert i. generalize attrs as ks. intros ks.
      induction ks as [|kv ks IH]; intros i; [done|]. cbn [app set_keywords].
      destruct (set_keyword i kv); [|done]. cbn [mbind option_bind]. apply IH. }
    rewrite Happ. unfold attrs. clear Happ Et attrs.
    match goal with |- context [set_keywords ?i ?l] =>
      change (set_keywords i l) with (Some (KdocItem_set_other_stuff [] item)) end.
    cbn [mbind option_bind]. rewrite set_keywords_stuff by done. by destruct item.
Qed.

(** ** The contract between the parser and the output classes

    The values an item of each kind carries in [other_stuff], and which of its
    parameters have a description.  A preprocessor line and a name that keeps
    its dots may lack one. *)

Definition str_at (args : dict pyval) (key : string) : bool :=
  match dget args key with Some (VStr _) => true | _ => false end.
Definition has_desc (descs : dict string) (p : string) : bool :=
  dmem descs p || startswith "#" p || endswith "..." p.

Definition item_shape (dtype : string) (args : dict pyval) (params : list string)
    (descs : dict string) : bool :=
  if (dtype =? "doc")%string then true
  else
    str_at args "purpose" &&
    (if (dtype =? "function")%string then str_at args "functiontype"
     else if (dtype =? "enum")%string then forallb (has_desc descs) params
     else if (dtype =? "var")%string then str_at args "full_proto" && dmem args "default_val"
     else if (dtype =? "typedef")%string then true
     else smem dtype ["struct"; "union"] && str_at args "definition"
          && forallb (has_desc descs) params).
Definition kind_ok (dtype : string) (args : dict pyval) (params : list string)
    (descs : dict string) : bool := stuff_okb args && item_shape dtype args params descs.
Definition item_ok (item : KdocItem) : bool :=
  kind_ok (it_type item) (it_other_stuff item) (it_parameterlist item) (it_parameterdescs item).

Lemma item_ok_shape item : item_ok item = true →
  item_shape (it_type item) (it_other_stuff item) (it_parameterlist item) (it_parameterdescs item)
  = true.
Proof. unfold item_ok, kind_ok. by intros [_ H]%andb_prop. Qed.
Lemma item_ok_stuff item : item_ok item = true → stuff_ok (it_other_stuff item).
Proof. unfold item_ok, kind_ok. intros [H _]%andb_prop. by apply stuff_okb_iff. Qed.
