(* ===== verification/KdocEntry.v ===== *)
(** * KdocEntry: the class [KernelEntry] of [kdoc_parser.py]

    The entry being collected while a documentation comment and the prototype
    after it are read.  The attributes that [__init__] does not create
    ([section], [new_start_line], [identifier], [decl_type] and
    [declaration_purpose]) are options: reading one that was never assigned
    raises [AttributeError]. *)

From S2P Require Import Prelude PyStr PyRe PyReSyntax PyReTheory KdocRe CLex.

Record KernelEntry := MkEntry {
  ke_fname : string;
  ke__contents : list string;
  ke_prototype : string;
  ke_warnings : list string;
  ke_parameterlist : list string;
  ke_parameterdescs : dict string;
  ke_parametertypes : dict string;
  ke_parameterdesc_start_lines : dict Z;
  ke_sections_start_lines : dict Z;
  ke_sections : dict string;
  ke_anon_struct_union : bool;
  ke_leading_space : option nat;
  ke_brcount : Z;
  ke_declaration_start_line : nat;
  ke_section : option string;
  ke_new_start_line : option nat;
  ke_identifier : option string;
  ke_decl_type : option string;
  ke_declaration_purpose : option string;
}.

(** Assignments to one attribute, as a function of its old value. *)
Definition upd__contents (f : list string → list string) (e : KernelEntry) : KernelEntry :=
  MkEntry (ke_fname e) (f (ke__contents e)) (ke_prototype e) (ke_warnings e)
    (ke_parameterlist e) (ke_parameterdescs e) (ke_parametertypes e)
    (ke_parameterdesc_start_lines e) (ke_sections_start_lines e) (ke_sections e)
    (ke_anon_struct_union e) (ke_leading_space e) (ke_brcount e) (ke_declaration_start_line e)
    (ke_section e) (ke_new_start_line e) (ke_identifier e) (ke_decl_type e)
    (ke_declaration_purpose e).
Definition upd_prototype (f : string → string) (e : KernelEntry) : KernelEntry :=
  MkEntry (ke_fname e) (ke__contents e) (f (ke_prototype e)) (ke_warnings e)
    (ke_parameterlist e) (ke_parameterdescs e) (ke_parametertypes e)
    (ke_parameterdesc_start_lines e) (ke_sections_start_lines e) (ke_sections e)
    (ke_anon_struct_union e) (ke_leading_space e) (ke_brcount e) (ke_declaration_start_line e)
    (ke_section e) (ke_new_start_line e) (ke_identifier e) (ke_decl_type e)
    (ke_declaration_purpose e).
Definition upd_warnings (f : list string → list string) (e : KernelEntry) : KernelEntry :=
  MkEntry (ke_fname e) (ke__contents e) (ke_prototype e) (f (ke_warnings e))
    (ke_parameterlist e) (ke_parameterdescs e) (ke_parametertypes e)
    (ke_parameterdesc_start_lines e) (ke_sections_start_lines e) (ke_sections e)
    (ke_anon_struct_union e) (ke_leading_space e) (ke_brcount e) (ke_declaration_start_line e)
    (ke_section e) (ke_new_start_line e) (ke_identifier e) (ke_decl_type e)
    (ke_declaration_purpose e).
Definition upd_parameterlist (f : list string → list string) (e : KernelEntry) : KernelEntry :=
  MkEntry (ke_fname e) (ke__contents e) (ke_prototype e) (ke_warnings e)
    (f (ke_parameterlist e)) (ke_parameterdescs e) (ke_parametertypes e)
    (ke_parameterdesc_start_lines e) (ke_sections_start_lines e) (ke_sections e)
    (ke_anon_struct_union e) (ke_leading_space e) (ke_brcount e) (ke_declaration_start_line e)
    (ke_section e) (ke_new_start_line e) (ke_identifier e) (ke_decl_type e)
    (ke_declaration_purpose e).
Definition upd_parameterdescs (f : dict string → dict string) (e : KernelEntry) : KernelEntry :=
  MkEntry (ke_fname e) (ke__contents e) (ke_prototype e) (ke_warnings e) (ke_parameterlist e)
    (f (ke_parameterdescs e)) (ke_parametertypes e) (ke_parameterdesc_start_lines e)
    (ke_sections_start_lines e) (ke_sections e) (ke_anon_struct_union e) (ke_leading_space e)
    (ke_brcount e) (ke_declaration_start_line e) (ke_section e) (ke_new_start_line e)
    (ke_identifier e) (ke_decl_type e) (ke_declaration_purpose e).
Definition upd_parametertypes (f : dict string → dict string) (e : KernelEntry) : KernelEntry :=
  MkEntry (ke_fname e) (ke__contents e) (ke_prototype e) (ke_warnings e) (ke_parameterlist e)
    (ke_parameterdescs e) (f (ke_parametertypes e)) (ke_parameterdesc_start_lines e)
    (ke_sections_start_lines e) (ke_sections e) (ke_anon_struct_union e) (ke_leading_space e)
    (ke_brcount e) (ke_declaration_start_line e) (ke_section e) (ke_new_start_line e)
    (ke_identifier e) (ke_decl_type e) (ke_declaration_purpose e).
Definition upd_parameterdesc_start_lines (f : dict Z → dict Z) (e : KernelEntry) : KernelEntry :=
  MkEntry (ke_fname e) (ke__contents e) (ke_prototype e) (ke_warnings e) (ke_parameterlist e)
    (ke_parameterdescs e) (ke_parametertypes e) (f (ke_parameterdesc_start_lines e))
    (ke_sections_start_lines e) (ke_sections e) (ke_anon_struct_union e) (ke_leading_space e)
    (ke_brcount e) (ke_declaration_start_line e) (ke_section e) (ke_new_start_line e)
    (ke_identifier e) (ke_decl_type e) (ke_declaration_purpose e).
Definition upd_sections_start_lines (f : dict Z → dict Z) (e : KernelEntry) : KernelEntry :=
  MkEntry (ke_fname e) (ke__contents e) (ke_prototype e) (ke_warnings e) (ke_parameterlist e)
    (ke_parameterdescs e) (ke_parametertypes e) (ke_parameterdesc_start_lines e)
    (f (ke_sections_start_lines e)) (ke_sections e) (ke_anon_struct_union e)
    (ke_leading_space e) (ke_brcount e) (ke_declaration_start_line e) (ke_section e)
    (ke_new_start_line e) (ke_identifier e) (ke_decl_type e) (ke_declaration_purpose e).
Definition upd_sections (f : dict string → dict string) (e : KernelEntry) : KernelEntry :=
  MkEntry (ke_fname e) (ke__contents e) (ke_prototype e) (ke_warnings e) (ke_parameterlist e)
    (ke_parameterdescs e) (ke_parametertypes e) (ke_parameterdesc_start_lines e)
    (ke_sections_start_lines e) (f (ke_sections e)) (ke_anon_struct_union e)
    (ke_leading_space e) (ke_brcount e) (ke_declaration_start_line e) (ke_section e)
    (ke_new_start_line e) (ke_identifier e) (ke_decl_type e) (ke_declaration_purpose e).
Definition upd_anon_struct_union (f : bool → bool) (e : KernelEntry) : KernelEntry :=
  MkEntry (ke_fname e) (ke__contents e) (ke_prototype e) (ke_warnings e) (ke_parameterlist e)
    (ke_parameterdescs e) (ke_parametertypes e) (ke_parameterdesc_start_lines e)
    (ke_sections_start_lines e) (ke_sections e) (f (ke_anon_struct_union e))
    (ke_leading_space e) (ke_brcount e) (ke_declaration_start_line e) (ke_section e)
    (ke_new_start_line e) (ke_identifier e) (ke_decl_type e) (ke_declaration_purpose e).
Definition upd_leading_space (f : option nat → option nat) (e : KernelEntry) : KernelEntry :=
  MkEntry (ke_fname e) (ke__contents e) (ke_prototype e) (ke_warnings e) (ke_parameterlist e)
    (ke_parameterdescs e) (ke_parametertypes e) (ke_parameterdesc_start_lines e)
    (ke_sections_start_lines e) (ke_sections e) (ke_anon_struct_union e)
    (f (ke_leading_space e)) (ke_brcount e) (ke_declaration_start_line e) (ke_section e)
    (ke_new_start_line e) (ke_identifier e) (ke_decl_type e) (ke_declaration_purpose e).
Definition upd_brcount (f : Z → Z) (e : KernelEntry) : KernelEntry :=
  MkEntry (ke_fname e) (ke__contents e) (ke_prototype e) (ke_warnings e) (ke_parameterlist e)
    (ke_parameterdescs e) (ke_parametertypes e) (ke_parameterdesc_start_lines e)
    (ke_sections_start_lines e) (ke_sections e) (ke_anon_struct_union e) (ke_leading_space e)
    (f (ke_brcount e)) (ke_declaration_start_line e) (ke_section e) (ke_new_start_line e)
    (ke_identifier e) (ke_decl_type e) (ke_declaration_purpose e).
Definition upd_section (f : option string → option string) (e : KernelEntry) : KernelEntry :=
  MkEntry (ke_fname e) (ke__contents e) (ke_prototype e) (ke_warnings e) (ke_parameterlist e)
    (ke_parameterdescs e) (ke_parametertypes e) (ke_parameterdesc_start_lines e)
    (ke_sections_start_lines e) (ke_sections e) (ke_anon_struct_union e) (ke_leading_space e)
    (ke_brcount e) (ke_declaration_start_line e) (f (ke_section e)) (ke_new_start_line e)
    (ke_identifier e) (ke_decl_type e) (ke_declaration_purpose e).
Definition upd_new_start_line (f : option nat → option nat) (e : KernelEntry) : KernelEntry :=
  MkEntry (ke_fname e) (ke__contents e) (ke_prototype e) (ke_warnings e) (ke_parameterlist e)
    (ke_parameterdescs e) (ke_parametertypes e) (ke_parameterdesc_start_lines e)
    (ke_sections_start_lines e) (ke_sections e) (ke_anon_struct_union e) (ke_leading_space e)
    (ke_brcount e) (ke_declaration_start_line e) (ke_section e) (f (ke_new_start_line e))
    (ke_identifier e) (ke_decl_type e) (ke_declaration_purpose e).
Definition upd_identifier (f : option string → option string) (e : KernelEntry) : KernelEntry :=
  MkEntry (ke_fname e) (ke__contents e) (ke_prototype e) (ke_warnings e) (ke_parameterlist e)
    (ke_parameterdescs e) (ke_parametertypes e) (ke_parameterdesc_start_lines e)
    (ke_sections_start_lines e) (ke_sections e) (ke_anon_struct_union e) (ke_leading_space e)
    (ke_brcount e) (ke_declaration_start_line e) (ke_section e) (ke_new_start_line e)
    (f (ke_identifier e)) (ke_decl_type e) (ke_declaration_purpose e).
Definition upd_decl_type (f : option string → option string) (e : KernelEntry) : KernelEntry :=
  MkEntry (ke_fname e) (ke__contents e) (ke_prototype e) (ke_warnings e) (ke_parameterlist e)
    (ke_parameterdescs e) (ke_parametertypes e) (ke_parameterdesc_start_lines e)
    (ke_sections_start_lines e) (ke_sections e) (ke_anon_struct_union e) (ke_leading_space e)
    (ke_brcount e) (ke_declaration_start_line e) (ke_section e) (ke_new_start_line e)
    (ke_identifier e) (f (ke_decl_type e)) (ke_declaration_purpose e).
Definition upd_declaration_purpose (f : option string → option string) (e : KernelEntry) : KernelEntry :=
  MkEntry (ke_fname e) (ke__contents e) (ke_prototype e) (ke_warnings e) (ke_parameterlist e)
    (ke_parameterdescs e) (ke_parametertypes e) (ke_parameterdesc_start_lines e)
    (ke_sections_start_lines e) (ke_sections e) (ke_anon_struct_union e) (ke_leading_space e)
    (ke_brcount e) (ke_declaration_start_line e) (ke_section e) (ke_new_start_line e)
    (ke_identifier e) (ke_decl_type e) (f (ke_declaration_purpose e)).

(** Two entries with the same attributes are the same. *)
Lemma entry_ext e1 e2 :
  ke_fname e1 = ke_fname e2 →
  ke__contents e1 = ke__contents e2 →
  ke_prototype e1 = ke_prototype e2 →
  ke_warnings e1 = ke_warnings e2 →
  ke_parameterlist e1 = ke_parameterlist e2 →
  ke_parameterdescs e1 = ke_parameterdescs e2 →
  ke_parametertypes e1 = ke_parametertypes e2 →
  ke_parameterdesc_start_lines e1 = ke_parameterdesc_start_lines e2 →
  ke_sections_start_lines e1 = ke_sections_start_lines e2 →
  ke_sections e1 = ke_sections e2 →
  ke_anon_struct_union e1 = ke_anon_struct_union e2 →
  ke_leading_space e1 = ke_leading_space e2 →
  ke_brcount e1 = ke_brcount e2 →
  ke_declaration_start_line e1 = ke_declaration_start_line e2 →
  ke_section e1 = ke_section e2 →
  ke_new_start_line e1 = ke_new_start_line e2 →
  ke_identifier e1 = ke_identifier e2 →
  ke_decl_type e1 = ke_decl_type e2 →
  ke_declaration_purpose e1 = ke_declaration_purpose e2 →
  e1 = e2.
Proof. destruct e1, e2; cbn; intros; by subst. Qed.

(** Proves an equality of entries attribute by attribute. *)
Ltac ext_entry := apply entry_ext; cbn.

Definition SECTION_DEFAULT : string := "Description".

Definition type_param : pattern := compiled no_flags "@(\w*((\.\w+)|(->\w+))*(\.\.\.)?)".

(** [KernelEntry(config, fname, ln)] *)
Definition KernelEntry_init (fname : string) (ln : nat) : KernelEntry :=
  MkEntry fname [] "" [] [] [] [] [] [] [] false None 0 (ln + 1) None None None None None.

(** [entry.attr] for an attribute that may be missing. *)
Definition attr {A} (f : KernelEntry → option A) (name : string) : ST KernelEntry A :=
  v ← gets f;
  match v with Some a => mret a | None => raise (AttributeError name) end.

Definition add_text (text : string) : ST KernelEntry unit :=
  modify (upd__contents (λ l, l ++ [text])).

(** [entry.contents()] *)
Definition contents (e : KernelEntry) : string := join nl (ke__contents e) +:+ nl.

Definition log_msg (fname : string) (ln : nat) (msg : string) : string :=
  fname +:+ ":" +:+ int_str ln +:+ " " +:+ msg.

(** [entry.emit_msg(ln, msg)]: a warning is kept with the entry. *)
Definition entry_warn (ln : nat) (msg : string) : ST KernelEntry unit :=
  modify (λ e, upd_warnings (λ l, l ++ [log_msg (ke_fname e) ln msg]) e).
(** [entry.emit_msg(ln, msg, warning=False)]: the message for [config.log]. *)
Definition entry_info (ln : nat) (msg : string) (e : KernelEntry) : logrec :=
  LogInfo (log_msg (ke_fname e) ln msg).

Definition assign_section (title : string) : ST KernelEntry unit :=
  modify (upd_section (λ _, Some title)).
Definition assign_new_start_line (n : nat) : ST KernelEntry unit :=
  modify (upd_new_start_line (λ _, Some n)).

(** [entry.dump_section(start_new)] *)
Definition entry_dump_section (start_new : bool) : ST KernelEntry unit :=
  section ← attr ke_section "section";
  content_list ← gets ke__contents;
  if (section =? SECTION_DEFAULT)%string && match content_list with [] => true | _ => false end
  then mret tt
  else
    contents ← gets contents;
    (match re_match type_param section with
     | Some m =>
         let name := group_or m 1 in
         modify (upd_parameterdescs (λ d, dset d name contents)) ;;
         start ← attr ke_new_start_line "new_start_line";
         modify (upd_parameterdesc_start_lines (λ d, dset d name (Z.of_nat start))) ;;
         assign_new_start_line 0
     | None =>
         let name := section in
         secs ← gets ke_sections;
         if negb (dget_or secs name "" =? "")%string
         then
           when (negb (name =? SECTION_DEFAULT)%string)
             (start ← attr ke_new_start_line "new_start_line";
              entry_warn start ("duplicate section name '" +:+ name +:+ "'")) ;;
           modify (upd_sections (λ d, dset d name (dget_or d name "" +:+ nl +:+ contents)))
         else
           modify (upd_sections (λ d, dset d name contents)) ;;
           start ← attr ke_new_start_line "new_start_line";
           modify (upd_sections_start_lines (λ d, dset d name (Z.of_nat start))) ;;
           assign_new_start_line 0
     end) ;;
    when start_new
      (assign_section SECTION_DEFAULT ;;
       modify (upd__contents (λ _, []))).

(** [entry.begin_section(line_no, title, dump)] *)
Definition begin_section (line_no : nat) (title : string) (dump : bool) : ST KernelEntry unit :=
  when dump (entry_dump_section true) ;;
  assign_section title ;;
  assign_new_start_line line_no.
