(* ===== verification/KdocParams.v ===== *)
(** * KdocParams: parameter lists and checks of [kdoc_parser.py]

    [push_parameter], [create_parameter_list], [check_sections] and
    [check_return_section].  They only touch [self.entry], whose [emit_msg]
    they call, so they are state transformers over a [KernelEntry]. *)

From S2P Require Import Prelude PyStr PyRe PyReSyntax PyReTheory KdocRe CLex KdocEntry.

Definition undescribed : string := "-- undescribed --".

(** [self.entry.parameterdescs[param] = text] *)
Definition set_desc (param text : string) : ST KernelEntry unit :=
  modify (upd_parameterdescs (λ d, dset d param text)).

Definition re_bracket_tail : pattern := compiled no_flags "[\[\)].*".
Definition re_spaces : pattern := compiled no_flags "\s\s+".

(** The [dtype == ''] cases: [...], [void], unnamed [struct] and [union].
    Returns the new value of [param]. *)
Definition anonymous_param (ln : nat) (decl_type param declaration_name : string)
    : ST KernelEntry string :=
  if endswith "..." param then
    let named_variadic := 3 <? String.length param in
    param ←
      (if named_variadic then
         orig ← gets (λ e, dget (ke_parameterdescs e) param);
         modify (upd_parameterdescs (λ d, ddel d param)) ;;
         let param := str_take (String.length param - 3) param in
         (match orig with
          | Some text =>
              current ← gets (λ e, dget_or (ke_parameterdescs e) param "");
              when (current =? "")%string (set_desc param text)
          | None => mret tt
          end) ;;
         mret param
       else mret param);
    current ← gets (λ e, dget_or (ke_parameterdescs e) param "");
    when (current =? "")%string
      (when (named_variadic && (decl_type =? "function")%string)
         (entry_warn ln ("function parameter '" +:+ param +:+ "' not described in '"
                         +:+ declaration_name +:+ "'")) ;;
       set_desc param "variable arguments") ;;
    mret param
  else if (param =? "")%string || (param =? "void")%string then
    set_desc "void" "no arguments" ;;
    mret "void"
  else if smem param ["struct"; "union"] then
    let param := "{unnamed_" +:+ param +:+ "}" in
    set_desc param ("anonymous" +:+ nl) ;;
    modify (upd_anon_struct_union (λ _, true)) ;;
    mret param
  else mret param.

(** "function parameter", "struct member", ... *)
Definition dname (decl_type : string) : string :=
  if (decl_type =? "function")%string then decl_type +:+ " parameter" else decl_type +:+ " member".

(** [self.push_parameter(ln, decl_type, param, dtype, org_arg, declaration_name)] *)
Definition push_parameter (ln : nat) (decl_type param dtype org_arg declaration_name : string)
    : ST KernelEntry unit :=
  anon ← gets ke_anon_struct_union;
  if anon && (dtype =? "")%string && (param =? "}")%string then mret tt
  else
    modify (upd_anon_struct_union (λ _, false)) ;;
    let param := re_sub re_bracket_tail "" param 1 in
    param ← (if (dtype =? "")%string then anonymous_param ln decl_type param declaration_name
             else mret param);
    described ← gets (λ e, dmem (ke_parameterdescs e) param);
    when (negb described && negb (startswith "#" param))
      (set_desc param undescribed ;;
       when (negb (str_in "." param))
         (entry_warn ln (dname decl_type +:+ " '" +:+ param +:+ "' not described in '"
                         +:+ declaration_name +:+ "'"))) ;;
    modify (upd_parameterlist (λ l, l ++ [param])) ;;
    modify (upd_parametertypes (λ d, dset d param (re_sub re_spaces " " org_arg 0))).

(** ** [create_parameter_list] *)

Definition re_arg_expr : pattern := compiled no_flags "(\([^\),]+),".
Definition re_pos : pattern := compiled no_flags "\sPOS0?\s".
Definition re_ws : pattern := compiled no_flags "\s+".
Definition re_func_ptr : pattern := compiled no_flags "\(.+\)\s*\(".
Definition re_func_name : pattern := compiled no_flags "[^\(]+\(\*?\s*([\w\[\].]*)\s*\)".
Definition re_array_ptr : pattern := compiled no_flags "\(.+\)\s*\[".
Definition re_array_name : pattern :=
  compiled no_flags "[^\(]+\(\s*\*\s*([\w.]*?)\s*(\[\s*\w+\s*\]\s*)*\)".
Definition re_colon : pattern := compiled no_flags "\s*:\s*".
Definition re_bracket : pattern := compiled no_flags "\s*\[".
Definition re_comma : pattern := compiled no_flags "\s*,\s*".
Definition re_stars : pattern := compiled no_flags "(\*+)\s*".
Definition re_type_name : pattern := compiled no_flags "^([^[\]]*\s+)(.*)$".
Definition re_bitfield : pattern := compiled no_flags "(.*?):(\w+)".
Definition re_pointer : pattern := compiled no_flags "^(\*+)\s*(.*)".

(** [while arg_expr.search(args): args = arg_expr.sub(r"\1#", args)] *)
Fixpoint hash_commas (fuel : nat) (args : string) : res string :=
  match re_search re_arg_expr args with
  | None => Ok args
  | Some _ =>
      match fuel with
      | O => Raise (OutOfFuel "create_parameter_list")
      | S fuel' => hash_commas fuel' (re_sub re_arg_expr "\1#" args 0)
      end
  end.
Definition is_comma (c : ascii) : bool := (c =? ",")%char.

(** [r.group(1)] when [r] matches at the start of [arg], else a warning. *)
Definition param_name (ln : nat) (r : pattern) (arg : string) : ST KernelEntry string :=
  match re_match r arg with
  | Some m => mret (group_or m 1)
  | None => entry_warn ln ("Invalid param: " +:+ arg) ;; mret arg
  end.

(** The declarators after a common type: one [push_parameter] each. *)
Definition push_declarator (ln : nat) (decl_type dtype arg declaration_name param : string)
    : ST KernelEntry unit :=
  match re_match re_pointer param with
  | Some m =>
      push_parameter ln decl_type (group_or m 2) (dtype +:+ " " +:+ group_or m 1) arg declaration_name
  | None =>
      match re_search re_bitfield param with
      | Some m =>
          when (negb (dtype =? "")%string)
            (push_parameter ln decl_type (group_or m 1) (dtype +:+ ":" +:+ group_or m 2) arg
               declaration_name)
      | None => push_parameter ln decl_type param dtype arg declaration_name
      end
  end.

(** The body of the loop over [args.split(splitter)]. *)
Definition push_arg (ln : nat) (decl_type declaration_name arg : string) : ST KernelEntry unit :=
  let arg := re_sub re_pos " " arg 0 in
  let arg := replace "[at_least " "[static " arg in
  let arg := strip arg in
  let arg := re_sub re_ws " " arg 1 in
  if startswith "#" arg then push_parameter ln decl_type arg "" "" declaration_name
  else if bool_decide (is_Some (re_search re_func_ptr arg)) then
    let arg := replace "#" "," arg in
    param ← param_name ln re_func_name arg;
    push_parameter ln decl_type param (replace param "" arg) arg declaration_name
  else if bool_decide (is_Some (re_search re_array_ptr arg)) then
    param ← param_name ln re_array_name arg;
    push_parameter ln decl_type param (replace param "" arg) arg declaration_name
  else if negb (arg =? "")%string then
    let arg := re_sub re_colon ":" arg 0 in
    let arg := re_sub re_bracket "[" arg 0 in
    match map (default "") (re_split re_comma arg) with
    | [] => raise IndexError
    | arg0 :: rest =>
        let arg0 := re_sub re_stars " \1" arg0 0 in
        let '(dtype, arg0) := match re_match re_type_name arg0 with
                              | Some m => (group_or m 1, group_or m 2)
                              | None => ("", arg0) end in
        for_each (arg0 :: rest) (push_declarator ln decl_type dtype arg declaration_name)
    end
  else mret tt.

(** [self.create_parameter_list(ln, decl_type, args, splitter, declaration_name)] *)
Definition create_parameter_list (ln : nat) (decl_type args : string) (splitter : ascii)
    (declaration_name : string) : ST KernelEntry unit :=
  args ← lift_res (hash_commas (S (scount is_comma args)) args);
  for_each (split_char splitter args) (push_arg ln decl_type declaration_name).

(** ** Checks *)

Definition known_section_names : string := "description|context|returns?|notes?|examples?".
Definition known_sections : pattern := compiled re_I known_section_names.

(** [self.check_sections(ln, decl_name, decl_type)] *)
Definition check_sections (ln : nat) (decl_name decl_type : string) : ST KernelEntry unit :=
  secs ← gets ke_sections;
  for_each (dkeys secs) (λ section,
    params ← gets ke_parameterlist;
    when (negb (smem section params)
          && negb (bool_decide (is_Some (re_search known_sections section))))
      (entry_warn ln ("Excess " +:+ dname decl_type +:+ " '" +:+ section +:+ "' description in '"
                      +:+ decl_name +:+ "'"))) ;;
  descs ← gets ke_parameterdescs;
  for_each descs (λ '(param_name, desc),
    params ← gets ke_parameterlist;
    when (negb (desc =? undescribed)%string
          && negb (smem desc ["no arguments"; "anonymous" +:+ nl; "variable arguments"])
          && negb (startswith "{unnamed_" param_name)
          && negb (smem param_name params))
      (entry_warn ln ("Excess " +:+ dname decl_type +:+ " '" +:+ param_name +:+ "' description in '"
                      +:+ decl_name +:+ "'"))).

Definition re_void : pattern := compiled no_flags "void\s*\w*\s*$".

(** [self.check_return_section(ln, declaration_name, return_type)] *)
Definition check_return_section (wreturn : bool) (ln : nat) (declaration_name return_type : string)
    : ST KernelEntry unit :=
  if negb wreturn then mret tt
  else if (return_type =? "")%string || bool_decide (is_Some (re_search re_void return_type))
  then mret tt
  else
    text ← gets (λ e, dget_or (ke_sections e) "Return" "");
    when (text =? "")%string
      (entry_warn ln ("No description found for return value of '" +:+ declaration_name +:+ "'")).
