(* ===== verification/KdocStruct.v ===== *)
(** * KdocStruct: struct and union bodies in [kdoc_parser.py]

    [split_struct_proto], [rewrite_struct_members] and [format_struct_decl]:
    string to string functions, the last two with [while] loops. *)

From S2P Require Import Prelude PyStr PyRe PyReSyntax PyReTheory KdocRe CLex.

(** ** [split_struct_proto] *)

Definition qualifiers : list string :=
  ["__attribute__"; "__packed"; "__aligned"; "____cacheline_aligned_in_smp";
   "____cacheline_aligned"].
Definition definition_body : string :=
  "\{(.*)\}\s*" +:+ "(?:" +:+ join "|" qualifiers +:+ ")?".
Definition type_pattern : string := "(struct|union)".
Definition re_struct_proto : pattern :=
  compiled no_flags (type_pattern +:+ "\s+(\w+)\s*" +:+ definition_body).
Definition re_struct_typedef : pattern :=
  compiled no_flags ("typedef\s+" +:+ type_pattern +:+ "\s*" +:+ definition_body +:+ "\s*(\w+)\s*;").

(** (struct|union, name, members), or [None]. *)
Definition split_struct_proto (proto : string) : option (string * string * string) :=
  match re_search re_struct_proto proto with
  | Some m => Some (group_or m 1, group_or m 2, group_or m 3)
  | None =>
      match re_search re_struct_typedef proto with
      | Some m => Some (group_or m 1, group_or m 3, group_or m 2)
      | None => None
      end
  end.

(** ** [rewrite_struct_members] *)

Definition re_struct_members : pattern :=
  compiled no_flags
    ("(struct|union)" +:+ "([^\{\};]+)" +:+ "(\{)" +:+ "([^\{\}]*)" +:+ "(\})" +:+ "([^\{\};]*)(;)").
Definition re_bit_array : pattern := compiled no_flags "[:\[].*".
Definition re_bare_name : pattern := compiled no_flags "^\s*\**(\S+)\s*".
Definition re_member_func : pattern := compiled no_flags "^([^\(]+\(\*?\s*)([\w.]*)(\s*\).*)".
Definition re_bitmap : pattern := compiled no_flags ":\s*\d+\s*".
Definition re_array : pattern := compiled no_flags "\[.*\]".
Definition re_comma_spaces : pattern := compiled no_flags "\s*,\s*".
Definition re_type_decl : pattern := compiled no_flags "(.*)\s+([\S+,]+)".

(** The body of the loop over the members of the inner structure, for the
    field [s_id].  The assignment to [dtype] in it outlives the loop. *)
Definition inner_member (s_id : string) (acc : string * string) (arg : string) : string * string :=
  let '(dtype, newmember) := acc in
  let arg := strip arg in
  match re_match re_member_func arg with
  | Some m =>
      let dtype := group_or m 1 in
      let name := group_or m 2 in
      let extra := group_or m 3 in
      if (s_id =? "")%string
      then (dtype, newmember +:+ dtype +:+ name +:+ extra +:+ "; ")
      else (dtype, newmember +:+ dtype +:+ s_id +:+ "." +:+ name +:+ extra +:+ "; ")
  | None =>
      let arg := re_sub re_bitmap "" arg 0 in
      let arg := re_sub re_array "" arg 0 in
      let arg := re_sub re_comma_spaces "," arg 0 in
      match re_search re_type_decl arg with
      | Some m =>
          (dtype,
           fold_left (λ newmember name,
             let name := re_sub re_bare_name "\1" name 0 in
             if (s_id =? "")%string
             then newmember +:+ group_or m 1 +:+ " " +:+ name +:+ "; "
             else newmember +:+ group_or m 1 +:+ " " +:+ s_id +:+ "." +:+ name +:+ "; ")
             (split_char "," (group_or m 2)) newmember)
      | None => (dtype, newmember +:+ arg +:+ "; ")
      end
  end.

(** The body of the loop over [rest.split(',')]. *)
Definition field_members (content : string) (acc : string * string) (s_id : string)
    : string * string :=
  let '(dtype, newmember) := acc in
  let s_id := strip s_id in
  let newmember := newmember +:+ dtype +:+ " " +:+ s_id +:+ "; " in
  let s_id := re_sub re_bit_array "" s_id 0 in
  let s_id := re_sub re_bare_name "\1" s_id 0 in
  fold_left (inner_member s_id) (split_char ";" content) (dtype, newmember).

(** One tuple of [struct_members.findall(members)], given as its match. *)
Definition old_member (t : rmatch) : string := sconcat (map (group_or t) (seq 1 7)).
Definition new_member (t : rmatch) : string :=
  let dtype := group_or t 1 in
  let content := group_or t 4 in
  let rest := group_or t 6 in
  snd (fold_left (field_members content) (split_char "," rest) (dtype, "")).

Fixpoint rewrite_loop (fuel : nat) (members : string) : res string :=
  match re_finditer re_struct_members members with
  | [] => Ok members
  | tuples =>
      match fuel with
      | O => Raise (OutOfFuel "rewrite_struct_members")
      | S fuel' =>
          rewrite_loop fuel'
            (fold_left (λ members t, replace (old_member t) (new_member t) members) tuples members)
      end
  end.
Definition is_lbrace (c : ascii) : bool := (c =? "{")%char.
(** [self.rewrite_struct_members(members)]: every turn of the loop removes an
    opening brace. *)
Definition rewrite_struct_members (members : string) : res string :=
  rewrite_loop (S (scount is_lbrace members)) members.

(** ** [format_struct_decl] *)

Definition re_open_or_semi : pattern := compiled no_flags "([\{;])".
Definition re_close_semi : pattern := compiled no_flags "\}\s+;".
Definition re_inline_enum : pattern := compiled no_flags "(enum\s+\{[^\}]+),([^\n])".
Definition re_first_ws : pattern := compiled no_flags "\s+".

Fixpoint split_enums (fuel : nat) (declaration : string) : res string :=
  match re_search re_inline_enum declaration with
  | None => Ok declaration
  | Some _ =>
      match fuel with
      | O => Raise (OutOfFuel "format_struct_decl")
      | S fuel' => split_enums fuel' (re_sub re_inline_enum "\1,\n\2" declaration 0)
      end
  end.

(** The body of the loop over the clauses; [level] is at least 1. *)
Definition format_clause (acc : nat * string) (clause : string) : nat * string :=
  let '(level, declaration) := acc in
  let clause := re_sub re_first_ws " " (strip clause) 1 in
  if (clause =? "")%string then (level, declaration)
  else
    let level := if char_in "}" clause && (1 <? level) then level - 1 else level in
    let declaration :=
      if negb (startswith "#" clause) then declaration +:+ str_mul level tab else declaration in
    let declaration := declaration +:+ tab +:+ clause +:+ nl in
    let level := if char_in "{" clause && negb (char_in "}" clause) then S level else level in
    (level, declaration).

(** [self.format_struct_decl(declaration)]: every turn of the [while] loop
    breaks a line after a comma. *)
Definition format_struct_decl (declaration : string) : res string :=
  let declaration := re_sub re_open_or_semi "\1\n" declaration 0 in
  let declaration := re_sub re_close_semi "};" declaration 0 in
  match split_enums (S (String.length declaration)) declaration with
  | Ok declaration => Ok (snd (fold_left format_clause (split_char NL declaration) (1, "")))
  | Raise e => Raise e
  end.
