(* ===== verification/KdocLoops.v ===== *)
(** * KdocLoops: the [while] loops of [kdoc_parser.py] terminate

    [create_parameter_list], [rewrite_struct_members] and [format_struct_decl]
    repeat a substitution until a search fails.  For each a measure decreases
    at every turn, so the fuel of the model is never exhausted, and what the
    loop leaves unchanged is stated as well. *)

From S2P Require Import Prelude PyStr PyRe PyReSyntax PyReTheory KdocRe CLex.
From S2P Require Import KdocEntry KdocParams KdocStruct.

Lemma str_map_app f a b : str_map f (a +:+ b) = str_map f a +:+ str_map f b.
Proof. induction a as [|c a IH]; simpl; [done | by rewrite IH]. Qed.

(** ** Commas inside function-pointer arguments *)

Lemma arg_expr_match s m :
  match_ok re_arg_expr s m → group_or m 0 = group_or m 1 +:+ ",".
Proof.
  intros Hm. destruct (match_parts _ _ _ Hm) as (ws & E & HF); [by vm_compute|].
  assert (seq_split (p_prog re_arg_expr) =
    [RGroup 1 (RSeq (RChr false (CSet false [CRange "(" "("]))
               (RRep true 1 None (RChr false (CSet true [CRange ")" ")"; CRange "," ","]))));
     RChr false (CSet false [CRange "," ","])]) as Es by (vm_compute; reflexivity).
  rewrite Es in HF. clear Es.
  inversion HF as [|x1 w1 l1 k1 [_ H1] HF1]; subst. inversion HF1 as [|x2 w2 l2 k2 [H2 _] HF2]; subst.
  inversion HF2; subst. apply lang_char in H2. rewrite E, H2, !sconcat_cons. by rewrite sapp_nil_r.
Qed.

(** Reading a comma as the [#] that stands for it. *)
Definition hashed (s : string) : string := str_map (λ c, if is_comma c then "#"%char else c) s.

Lemma arg_expr_expand m : tpl_expand (tpl_compiled "\1#") m = group_or m 1 +:+ "#".
Proof.
  change (tpl_compiled "\1#") with [TGroup 1; TLit "#"]. unfold tpl_expand. cbn [map].
  by rewrite !sconcat_cons, sapp_nil_r.
Qed.

Lemma arg_expr_sub s :
  re_search re_arg_expr s ≠ None →
  scount is_comma (re_sub re_arg_expr "\1#" s 0) < scount is_comma s ∧
  hashed (re_sub re_arg_expr "\1#" s 0) = hashed s.
Proof.
  intros Hs. split.
  - unfold re_sub, re_sub_with. cbn [Nat.eqb].
    pose proof (re_finditer_ok re_arg_expr s) as HF.
    pose proof (sub_at_count is_comma (tpl_expand (tpl_compiled "\1#")) s 0 _
      (re_finditer_chain re_arg_expr s) (Forall_src _ _ _ HF)) as HC.
    rewrite <- re_finditer_search in Hs. cbn [str_drop] in HC.
    destruct (re_finditer re_arg_expr s) as [|m ms] eqn:E; [done|].
    assert (total (λ m, scount is_comma (group_or m 0)) (m :: ms)
      = total (λ m, scount is_comma (tpl_expand (tpl_compiled "\1#") m)) (m :: ms) + length (m :: ms)) as HT.
    { clear -HF. induction HF as [|x l Hx _ IH]; [done|]. cbn [total foldr length].
      unfold total in IH. rewrite IH, arg_expr_expand, (arg_expr_match s x Hx), !scount_app. cbn. lia. }
    cbn [length] in HT. lia.
  - apply re_sub_hom; [apply str_map_app|]. intros m Hm. unfold hashed.
    by rewrite arg_expr_expand, (arg_expr_match s m Hm), !str_map_app.
Qed.

Lemma hash_commas_ok fuel : ∀ args, scount is_comma args < fuel →
  ∃ r, hash_commas fuel args = Ok r ∧ re_search re_arg_expr r = None ∧ hashed r = hashed args.
Proof.
  induction fuel as [|fuel IH]; intros args Hf; [lia|]. cbn [hash_commas].
  destruct (re_search re_arg_expr args) as [m|] eqn:E; [|by exists args].
  destruct (arg_expr_sub args) as [Hlt Hh]; [by rewrite E|].
  destruct (IH (re_sub re_arg_expr "\1#" args 0)) as (r & Hr & Hn & Hm); [lia|].
  exists r. by rewrite Hm.
Qed.

(** ** Nested structures *)

Definition no_lbrace (c : ascii) : bool := negb (is_lbrace c).
Abbreviation flat s := (sall no_lbrace s = true).

Lemma flat_count s : flat s → scount is_lbrace s = 0.
Proof. apply scount_none. Qed.

Lemma struct_match s m :
  match_ok re_struct_members s m →
  group_or m 0 = old_member m ∧ group_or m 3 = "{" ∧
  flat (group_or m 1) ∧ flat (group_or m 4) ∧ flat (group_or m 6).
Proof.
  intros Hm. split; [|split].
  - destruct (match_parts _ _ _ Hm) as (ws & E & HF); [by vm_compute|].
    assert (Forall2 (λ x n, ∃ a, x = RGroup n a) (seq_split (p_prog re_struct_members)) (seq 1 7)) as Hs.
    { vm_compute. repeat (constructor; [by eexists|]). constructor. }
    rewrite E. unfold old_member. f_equal. clear -HF Hs. revert HF Hs.
    generalize (seq_split (p_prog re_struct_members)), (seq 1 7). intros l k HF. revert k.
    induction HF as [|x w l ws [_ Hx] _ IH]; intros k Hk; inversion Hk as [|? n ? k' (a & ->) Hk']; subst.
    + done.
    + change (group_or m n = w) in Hx. cbn [map]. by rewrite Hx, <- (IH k' Hk').
  - destruct (group_lang _ _ _ Hm 3 (group_or m 3)) as (b & Hb & HL); [done| |].
    + destruct (group_always _ _ _ Hm 3) as [t Ht]; [by vm_compute|]. unfold group_or. by rewrite Ht.
    + assert (Forall (λ x, fst x = 3 → snd x = RChr false (CSet false [CRange "{" "{"]))
        (groups (p_prog re_struct_members))) as Hg.
      { vm_compute. repeat (constructor; [discriminate || done|]). constructor. }
      rewrite Forall_forall in Hg. specialize (Hg _ Hb eq_refl). cbn [snd] in Hg. subst b.
      by apply lang_char.
  - assert (∀ n, n ≠ 0 → group_charset re_struct_members n no_lbrace = true → flat (group_or m n)) as Hc.
    { intros n Hn Hc. unfold group_or. destruct (group m n) as [t|] eqn:E; [|done].
      by apply (group_chars _ _ _ Hm n no_lbrace t Hc Hn). }
    repeat split; apply Hc; done || (vm_compute; reflexivity).
Qed.

(** Nothing in the rewriting of a member brings an opening brace in. *)
Lemma flat_app a b : flat a → flat b → flat (a +:+ b).
Proof. intros Ha Hb. by rewrite sall_app, Ha, Hb. Qed.
Lemma flat_group p s m n : match_ok p s m → flat s → flat (group_or m n).
Proof. intros Hm Hs. exact (group_infix p s m Hm n no_lbrace Hs). Qed.
Lemma flat_sub p repl s n :
  forallb (λ x, match x with TLit l => sall no_lbrace l | TGroup _ => true end) (tpl_compiled repl) = true →
  flat s → flat (re_sub p repl s n).
Proof.
  intros Ht Hs. apply re_sub_sall; [done|]. intros m Hm. apply tpl_expand_sall; [done|].
  intros k. by eapply flat_group.
Qed.
Lemma flat_search p s m n : re_search p s = Some m → flat s → flat (group_or m n).
Proof. intros Hm%re_search_ok. by apply flat_group with p. Qed.
Lemma flat_match p s m n : re_match p s = Some m → flat s → flat (group_or m n).
Proof. intros [Hm _]%re_match_ok. by apply flat_group with p. Qed.

Create HintDb flat.
#[local] Hint Resolve flat_app strip_by_sall : flat.
#[local] Hint Extern 1 (sall no_lbrace (re_sub _ _ _ _) = true) => apply flat_sub; [reflexivity|] : flat.
#[local] Hint Extern 1 (sall no_lbrace (strip _) = true) => apply strip_by_sall : flat.
#[local] Hint Extern 2 (sall no_lbrace (group_or _ _) = true) =>
  (eapply flat_search; [eassumption|]) || (eapply flat_match; [eassumption|]) : flat.
#[local] Hint Extern 0 (sall no_lbrace _ = true) => reflexivity : flat.

Abbreviation flat2 acc := (flat (fst acc) ∧ flat (snd acc)).

Lemma fold_left_inv {A B} (P : A → Prop) (Q : B → Prop) (f : A → B → A) l a :
  (∀ a b, P a → Q b → P (f a b)) → Forall Q l → P a → P (fold_left f l a).
Proof. intros Hf HF. revert a. induction HF; simpl; auto. Qed.

Lemma inner_member_flat s_id acc arg :
  flat s_id → flat arg → flat2 acc → flat2 (inner_member s_id acc arg).
Proof.
  intros Hs Ha. destruct acc as [dtype newmember]. intros [Hd Hn]. cbn [fst snd] in Hd, Hn.
  assert (flat (strip arg)) as Harg by auto with flat.
  unfold inner_member. destruct (re_match re_member_func (strip arg)) as [m|] eqn:Em.
  - destruct (s_id =? "")%string; cbn [fst snd]; eauto 12 with flat.
  - set (arg' := re_sub re_comma_spaces "," _ 0).
    assert (flat arg') as Harg' by (unfold arg'; auto with flat).
    destruct (re_search re_type_decl arg') as [m|] eqn:E; cbn [fst snd]; [|eauto 8 with flat].
    split; [done|]. apply fold_left_inv with (Q := λ x, flat x); [|apply split_char_sall|done].
    + intros a b Hfa Hb. destruct (s_id =? "")%string; eauto 12 with flat.
    + eauto with flat.
Qed.

Lemma field_members_flat content acc s_id :
  flat content → flat s_id → flat2 acc → flat2 (field_members content acc s_id).
Proof.
  intros Hc Hs. destruct acc as [dtype newmember]. intros [Hd Hn]. cbn [fst snd] in Hd, Hn.
  unfold field_members. apply (fold_left_inv (λ acc, flat2 acc) (λ x, flat x)).
  - intros a b Ha Hb. apply inner_member_flat; auto with flat.
  - by apply split_char_sall.
  - cbn [fst snd]. split; [done|]. eauto 8 with flat.
Qed.

Lemma new_member_flat s m : match_ok re_struct_members s m → flat (new_member m).
Proof.
  intros (_ & _ & H1 & H4 & H6)%struct_match. unfold new_member.
  apply (fold_left_inv (λ acc, flat2 acc) (λ x, flat x)).
  - intros a b Ha Hb. by apply field_members_flat.
  - by apply split_char_sall.
  - by split.
Qed.

Lemma old_member_brace s m :
  match_ok re_struct_members s m → 1 ≤ scount is_lbrace (old_member m).
Proof.
  intros (_ & H3 & _)%struct_match. unfold old_member. cbn [map seq].
  rewrite !sconcat_cons, !scount_app, H3. cbn. lia.
Qed.

Definition munge (members : string) (t : rmatch) : string :=
  replace (old_member t) (new_member t) members.

Lemma munge_count s m members :
  match_ok re_struct_members s m →
  scount is_lbrace (munge members m) ≤ scount is_lbrace members ∧
  (str_in (old_member m) members = true →
   scount is_lbrace (munge members m) < scount is_lbrace members).
Proof.
  intros Hm. pose proof (old_member_brace s m Hm) as Ho.
  pose proof (flat_count _ (new_member_flat s m Hm)) as Hn.
  assert (old_member m ≠ "") as Hne by (intros E; rewrite E in Ho; simpl in Ho; lia).
  destruct (replace_count is_lbrace (old_member m) (new_member m) members Hne) as (k & Hk & Hin).
  unfold munge. rewrite Hn in Hk. split; [nia|]. intros Hi. specialize (Hin Hi). nia.
Qed.

Lemma match_text_in p s m : match_ok p s m → str_in (group_or m 0) s = true.
Proof.
  intros Hm. rewrite group0_slice, (mo_src _ _ _ Hm). destruct (mo_span _ _ _ Hm) as [H1 H2].
  rewrite <- (str_take_drop (r_start m) s) at 2.
  rewrite <- (str_drop_slice (r_start m) (r_end m) s) by done. apply str_in_app.
Qed.

Lemma munge_all s ms members :
  Forall (match_ok re_struct_members s) ms →
  scount is_lbrace (fold_left munge ms members) ≤ scount is_lbrace members.
Proof.
  intros HF. revert members. induction HF as [|m ms Hm _ IH]; intros members; simpl; [done|].
  specialize (IH (munge members m)). destruct (munge_count s m members Hm). lia.
Qed.

Lemma rewrite_loop_ok fuel : ∀ members, scount is_lbrace members < fuel →
  ∃ r, rewrite_loop fuel members = Ok r ∧ re_finditer re_struct_members r = []
       ∧ scount is_lbrace r ≤ scount is_lbrace members.
Proof.
  induction fuel as [|fuel IH]; intros members Hf; [lia|]. cbn [rewrite_loop].
  pose proof (re_finditer_ok re_struct_members members) as HF.
  destruct (re_finditer re_struct_members members) as [|m ms] eqn:E; [by exists members|].
  apply Forall_cons in HF as [Hm HF].
  change (fold_left _ (m :: ms) members) with (fold_left munge ms (munge members m)).
  assert (str_in (old_member m) members = true) as Hin.
  { destruct (struct_match _ _ Hm) as [<- _]. by eapply match_text_in. }
  destruct (munge_count _ _ members Hm) as [_ Hlt]. specialize (Hlt Hin).
  pose proof (munge_all _ _ (munge members m) HF) as Hle.
  destruct (IH (fold_left munge ms (munge members m))) as (r & Hr & Hn & Hc); [lia|].
  exists r. split; [done|]. split; [done|lia].
Qed.

(** ** Formatting *)

(** Commas that are followed by something else than a new line; [b] tells
    whether a comma comes just before. *)
Fixpoint open_commas (b : bool) (s : string) : nat :=
  match s with
  | "" => 0
  | String c t => (if b && negb (c =? NL)%char then 1 else 0) + open_commas (is_comma c) t
  end.
Fixpoint ends_comma (b : bool) (s : string) : bool :=
  match s with "" => b | String c t => ends_comma (is_comma c) t end.

Lemma open_commas_app b u v : open_commas b (u +:+ v) = open_commas b u + open_commas (ends_comma b u) v.
Proof. revert b; induction u as [|c u IH]; intros b; simpl; [done|]. rewrite IH. lia. Qed.
Lemma ends_comma_app b u v : ends_comma b (u +:+ v) = ends_comma (ends_comma b u) v.
Proof. revert b; induction u as [|c u IH]; intros b; simpl; auto. Qed.
Lemma open_commas_len b s : open_commas b s ≤ String.length s.
Proof.
  revert b; induction s as [|c s IH]; intros b; simpl; [done|].
  specialize (IH (is_comma c)). destruct (b && negb (c =? NL)%char); lia.
Qed.

Lemma enum_match s m :
  match_ok re_inline_enum s m →
  ∃ g c, group_or m 0 = g +:+ "," +:+ String c "" ∧ (c =? NL)%char = false ∧
         tpl_expand (tpl_compiled "\1,\n\2") m = g +:+ "," +:+ nl +:+ String c "".
Proof.
  intros Hm. destruct (match_parts _ _ _ Hm) as (ws & E & HF); [by vm_compute|].
  assert (∃ r, seq_split (p_prog re_inline_enum) =
    [RGroup 1 r; RChr false (CSet false [CRange "," ","]);
     RGroup 2 (RChr false (CSet true [CRange NL NL]))]) as [r Es] by (eexists; vm_compute; reflexivity).
  rewrite Es in HF. clear Es.
  inversion HF as [|x1 w1 l1 k1 [_ H1] HF1]; subst. inversion HF1 as [|x2 w2 l2 k2 [H2 _] HF2]; subst.
  inversion HF2 as [|x3 w3 l3 k3 [HL3 H3] HF3]; subst. inversion HF3; subst.
  cbn [lang] in HL3. destruct HL3 as (c & E2 & Hc).
  apply lang_char in H2 as ->. exists (group_or m 1), c.
  rewrite E, !sconcat_cons, E2. split; [done|]. split.
  - destruct (Ascii.eqb_spec c NL) as [->|]; [by vm_compute in Hc | done].
  - change (tpl_compiled "\1,\n\2") with [TGroup 1; TLit ","; TLit nl; TGroup 2].
    unfold tpl_expand. cbn [map]. by rewrite !sconcat_cons, E2.
Qed.

Lemma enum_sub_measure s :
  re_search re_inline_enum s ≠ None →
  open_commas false (re_sub re_inline_enum "\1,\n\2" s 0) < open_commas false s.
Proof.
  intros Hs. pose proof (re_finditer_ok re_inline_enum s) as HF.
  rewrite <- re_finditer_search in Hs.
  pose proof (sub_at_measure open_commas ends_comma (tpl_expand (tpl_compiled "\1,\n\2")) s 0
    (re_finditer re_inline_enum s) open_commas_app ends_comma_app (re_finditer_chain _ _)
    (Forall_src _ _ _ HF)) as HM.
  unfold re_sub, re_sub_with. cbn [Nat.eqb].
  destruct (re_finditer re_inline_enum s) as [|m ms] eqn:E; [done|].
  cbn [length str_drop] in HM.
  enough (open_commas false (sub_at (tpl_expand (tpl_compiled "\1,\n\2")) s 0 (m :: ms)) + S (length ms)
    = open_commas false s) by lia.
  apply HM. eapply Forall_impl; [exact HF|]. intros x Hx b.
  destruct (enum_match s x Hx) as (g & c & -> & Hc & ->).
  rewrite !open_commas_app, !ends_comma_app. cbn. rewrite Hc. cbn. split; [lia|done].
Qed.

Lemma split_enums_ok fuel : ∀ s, open_commas false s < fuel →
  ∃ r, split_enums fuel s = Ok r ∧ re_search re_inline_enum r = None.
Proof.
  induction fuel as [|fuel IH]; intros s Hf; [lia|]. cbn [split_enums].
  destruct (re_search re_inline_enum s) as [m|] eqn:E; [|by exists s].
  apply IH. pose proof (enum_sub_measure s) as Hlt. rewrite E in Hlt. specialize (Hlt ltac:(done)). lia.
Qed.

(** The text without its white space. *)
Fixpoint nospace (s : string) : string :=
  match s with
  | "" => ""
  | String c t => if is_space c then nospace t else String c (nospace t)
  end.

Lemma nospace_app a b : nospace (a +:+ b) = nospace a +:+ nospace b.
Proof. induction a as [|c a IH]; simpl; [done|]. rewrite IH. by destruct (is_space c). Qed.
Lemma nospace_blank s : sall is_space s = true → nospace s = "".
Proof. induction s as [|c s IH]; simpl; [done|]. by intros [-> ?%IH]%andb_prop. Qed.
Lemma nospace_strip s : nospace (strip s) = nospace s.
Proof.
  unfold strip, strip_by. destruct (rstrip_by_prefix is_space s) as (w & E & Hw).
  destruct (lstrip_by_suffix is_space (rstrip_by is_space s)) as (v & E' & Hv).
  rewrite E at 2. rewrite E' at 2. by rewrite !nospace_app, (nospace_blank _ Hw), (nospace_blank _ Hv), sapp_nil_r.
Qed.
Lemma nospace_mul_tab n : nospace (str_mul n tab) = "".
Proof. apply nospace_blank. by apply str_mul_sall. Qed.
Lemma nospace_join_nl l : nospace (join nl l) = nospace (sconcat l).
Proof.
  induction l as [|x l IH]; [done|]. destruct l as [|y l].
  - cbn [join]. by rewrite sconcat_cons, sapp_nil_r.
  - rewrite join_cons, sconcat_cons, !nospace_app, IH. done.
Qed.

(** The three substitutions of [format_struct_decl]. *)
Lemma nospace_first_ws s n : nospace (re_sub re_first_ws " " s n) = nospace s.
Proof.
  apply re_sub_hom; [apply nospace_app|]. intros m Hm.
  change (tpl_expand (tpl_compiled " ") m) with " ".
  destruct (match_parts _ _ _ Hm) as (ws & E & HF); [by vm_compute|].
  assert (seq_split (p_prog re_first_ws) = [RRep true 1 None (RChr false (CSet false [CSpace false]))])
    as Es by (vm_compute; reflexivity).
  rewrite Es in HF. inversion HF as [|x1 w1 l1 k1 [HL _] HF1]; subst. inversion HF1; subst.
  rewrite E, sconcat_cons, sapp_nil_r. symmetry. apply nospace_blank.
  eapply sall_impl; [|by apply lang_may]. intros c. cbn. by rewrite !orb_false_r.
Qed.

Lemma nospace_open_or_semi s : nospace (re_sub re_open_or_semi "\1\n" s 0) = nospace s.
Proof.
  apply re_sub_hom; [apply nospace_app|]. intros m Hm.
  destruct (match_parts _ _ _ Hm) as (ws & E & HF); [by vm_compute|].
  assert (∃ r, seq_split (p_prog re_open_or_semi) = [RGroup 1 r]) as [r Es]
    by (eexists; vm_compute; reflexivity).
  rewrite Es in HF. inversion HF as [|x1 w1 l1 k1 [_ H1] HF1]; subst. inversion HF1; subst.
  rewrite E. change (tpl_compiled "\1\n") with [TGroup 1; TLit nl]. unfold tpl_expand. cbn [map].
  by rewrite !sconcat_cons, !nospace_app.
Qed.

Lemma nospace_close_semi s : nospace (re_sub re_close_semi "};" s 0) = nospace s.
Proof.
  apply re_sub_hom; [apply nospace_app|]. intros m Hm.
  change (tpl_expand (tpl_compiled "};") m) with "};".
  destruct (match_parts _ _ _ Hm) as (ws & E & HF); [by vm_compute|].
  assert (seq_split (p_prog re_close_semi) =
    [RChr false (CSet false [CRange "}" "}"]);
     RRep true 1 None (RChr false (CSet false [CSpace false]));
     RChr false (CSet false [CRange ";" ";"])]) as Es by (vm_compute; reflexivity).
  rewrite Es in HF. inversion HF as [|x1 w1 l1 k1 [H1 _] HF1]; subst.
  inversion HF1 as [|x2 w2 l2 k2 [H2 _] HF2]; subst.
  inversion HF2 as [|x3 w3 l3 k3 [H3 _] HF3]; subst. inversion HF3; subst.
  apply lang_char in H1 as ->. apply lang_char in H3 as ->.
  rewrite E, !sconcat_cons, !nospace_app, (nospace_blank w2); [by cbn|].
  eapply sall_impl; [|by apply lang_may]. intros c. cbn. by rewrite !orb_false_r.
Qed.

Lemma nospace_enum s : nospace (re_sub re_inline_enum "\1,\n\2" s 0) = nospace s.
Proof.
  apply re_sub_hom; [apply nospace_app|]. intros m Hm.
  destruct (enum_match s m Hm) as (g & c & -> & _ & ->). by rewrite !nospace_app.
Qed.

Lemma nospace_split_enums fuel : ∀ s r, split_enums fuel s = Ok r → nospace r = nospace s.
Proof.
  induction fuel as [|fuel IH]; intros s r; cbn [split_enums].
  - destruct (re_search _ _); [done | by intros [= ->]].
  - destruct (re_search _ _); [|by intros [= ->]]. intros ->%IH. apply nospace_enum.
Qed.

Lemma format_clause_spec acc clause :
  1 ≤ fst acc →
  1 ≤ fst (format_clause acc clause) ∧
  nospace (snd (format_clause acc clause)) = nospace (snd acc) +:+ nospace clause.
Proof.
  destruct acc as [level decl]. cbn [fst snd]. intros Hl. unfold format_clause.
  assert (nospace (re_sub re_first_ws " " (strip clause) 1) = nospace clause) as Hc
    by by rewrite nospace_first_ws, nospace_strip.
  set (cl := re_sub re_first_ws " " (strip clause) 1) in *.
  destruct (String.eqb_spec cl "") as [E|_].
  - cbn [fst snd]. rewrite E in Hc. cbn in Hc. by rewrite <- Hc, sapp_nil_r.
  - set (lv := if char_in "}" cl && (1 <? level) then level - 1 else level).
    assert (1 ≤ lv) as Hlv.
    { unfold lv. destruct (char_in "}" cl); simpl; [|done].
      destruct (1 <? level) eqn:E; bool_facts; lia. }
    cbn [fst snd]. split.
    + destruct (char_in "{" cl && _); lia.
    + destruct (negb (startswith "#" cl)); rewrite !nospace_app, ?nospace_mul_tab, Hc; cbn;
        by rewrite ?sapp_nil_r.
Qed.

Lemma format_clauses_spec l : ∀ acc, 1 ≤ fst acc →
  1 ≤ fst (fold_left format_clause l acc) ∧
  nospace (snd (fold_left format_clause l acc)) = nospace (snd acc) +:+ nospace (sconcat l).
Proof.
  induction l as [|c l IH]; intros acc Ha; cbn [fold_left].
  - cbn. by rewrite sapp_nil_r.
  - destruct (format_clause_spec acc c Ha) as [H1 H2]. destruct (IH _ H1) as [H3 H4].
    split; [done|]. by rewrite H4, H2, sconcat_cons, nospace_app, sapp_assoc.
Qed.

Lemma format_struct_decl_ok d : ∃ r, format_struct_decl d = Ok r ∧ nospace r = nospace d.
Proof.
  unfold format_struct_decl.
  set (s := re_sub re_close_semi "};" (re_sub re_open_or_semi "\1\n" d 0) 0).
  assert (nospace s = nospace d) as Hs by by unfold s; rewrite nospace_close_semi, nospace_open_or_semi.
  destruct (split_enums_ok (S (String.length s)) s) as (r & Hr & _).
  { pose proof (open_commas_len false s). lia. }
  rewrite Hr. eexists; split; [done|].
  destruct (format_clauses_spec (split_char NL r) (1, "")) as [_ ->]; [done|]. cbn [snd nospace].
  rewrite <- nospace_join_nl. change nl with (String NL "") at 1.
  rewrite join_split_char, (nospace_split_enums _ _ _ Hr). done.
Qed.
