(* ===== verification/KdocParamsTheory.v ===== *)
(** * KdocParamsTheory: parameter lists are total and well described

    [create_parameter_list] raises nothing on any text and only adds to the
    entry: parameters at the end of the list, each with a description and a
    type, and warnings. *)

From S2P Require Import Prelude PyStr PyRe PyReSyntax PyReTheory KdocRe CLex.
From S2P Require Import KdocEntry KdocParams KdocStruct KdocLoops.

(** The attributes that the parameter code leaves alone. *)
Definition other_attrs (e : KernelEntry) :=
  (ke_fname e, ke__contents e, ke_prototype e, ke_parameterdesc_start_lines e,
   ke_sections_start_lines e, ke_sections e, ke_leading_space e, ke_brcount e,
   ke_declaration_start_line e, ke_section e, ke_new_start_line e, ke_identifier e,
   ke_decl_type e, ke_declaration_purpose e).

(** A listed parameter has a type and, unless it is a preprocessor line or keeps
    its dots, a description. *)
Definition param_described (e : KernelEntry) (p : string) : Prop :=
  dmem (ke_parameterdescs e) p = true ∨ startswith "#" p = true ∨ endswith "..." p = true.
Definition described (e : KernelEntry) : Prop :=
  Forall (λ p, param_described e p ∧ dmem (ke_parametertypes e) p = true) (ke_parameterlist e).

Record grown (e0 e : KernelEntry) : Prop := {
  gr_attrs : other_attrs e = other_attrs e0;
  gr_list : ke_parameterlist e0 `prefix_of` ke_parameterlist e;
  gr_warnings : ke_warnings e0 `prefix_of` ke_warnings e;
  gr_described : described e;
}.

Section Grown.
Context (e0 : KernelEntry).
Abbreviation good := (λ _ : unit, grown e0).

Lemma grown_refl : described e0 → grown e0 e0.
Proof. by split. Qed.

Lemma prefix_snoc {A} (a b : list A) x : a `prefix_of` b → a `prefix_of` b ++ [x].
Proof. intros [k ->]. exists (k ++ [x]). by rewrite app_assoc. Qed.

Lemma hoare_warn ln msg : hoare (grown e0) (entry_warn ln msg) good never.
Proof.
  apply hoare_modify. intros e [Ha Hl Hw Hd]. split; try done. by apply prefix_snoc.
Qed.

Lemma hoare_set_desc p text : hoare (grown e0) (set_desc p text) good never.
Proof.
  apply hoare_modify. intros e [Ha Hl Hw Hd]. split; try done.
  eapply Forall_impl; [exact Hd|]. intros x [[Hx|Hx] Ht]; split; try done; [left|by right].
  by apply dmem_dset_mono.
Qed.

Lemma hoare_del_desc p :
  endswith "..." p = true →
  hoare (grown e0) (modify (upd_parameterdescs (λ d, ddel d p))) good never.
Proof.
  intros Hp. apply hoare_modify. intros e [Ha Hl Hw Hd]. split; try done.
  eapply Forall_impl; [exact Hd|]. intros x [Hx Ht]; split; [|done].
  destruct (decide (p = x)) as [->|Hne]; [by right; right|].
  destruct Hx as [Hx|Hx]; [left|by right]. cbn. unfold dmem in *. by rewrite dget_ddel_ne.
Qed.

Lemma hoare_anon b : hoare (grown e0) (modify (upd_anon_struct_union (λ _, b))) good never.
Proof. apply hoare_modify. intros e [Ha Hl Hw Hd]. by split. Qed.

Lemma hoare_gets_any {A} (f : KernelEntry → A) :
  hoare (grown e0) (gets f) (λ _, grown e0) never.
Proof. by intros e. Qed.

Lemma hoare_ret_any {A} (a : A) : hoare (grown e0) (mret a) (λ _, grown e0) never.
Proof. by intros e. Qed.

Create HintDb grown.
#[local] Hint Resolve hoare_warn hoare_set_desc hoare_anon hoare_gets_any hoare_ret_any hoare_when
  hoare_for_each : grown.
#[local] Hint Extern 2 (hoare _ (_ ≫= _) _ _) => eapply hoare_bind; [|intros] : grown.
#[local] Hint Extern 3 (hoare _ (if ?b then _ else _) _ _) => destruct b : grown.
#[local] Hint Extern 3 (hoare _ (match ?b with _ => _ end) _ _) => destruct b : grown.

Lemma anonymous_param_ok ln decl_type param declaration_name :
  hoare (grown e0) (anonymous_param ln decl_type param declaration_name) (λ _, grown e0) never.
Proof.
  unfold anonymous_param. destruct (endswith "..." param) eqn:E; [|eauto 12 with grown].
  pose proof (hoare_del_desc param E). eauto 20 with grown.
Qed.

(** Adding a parameter that has its description. *)
Lemma hoare_add_param param text :
  hoare (λ e, grown e0 e ∧ param_described e param)
    (modify (upd_parameterlist (λ l, l ++ [param])) ;;
     modify (upd_parametertypes (λ d, dset d param text))) good never.
Proof.
  intros e [[Ha Hl Hw Hd] Hp]. cbn. split; try done; cbn.
  - by apply prefix_snoc.
  - unfold described. cbn. apply Forall_app. split.
    + eapply Forall_impl; [exact Hd|]. intros x [Hx Ht]. split; [exact Hx|].
      by apply dmem_dset_mono.
    + constructor; [|constructor]. split; [exact Hp | apply dmem_dset_eq].
Qed.

(** The description a parameter gets when it has none. *)
Lemma hoare_describe ln decl_type param declaration_name :
  hoare (grown e0)
    (described ← gets (λ e, dmem (ke_parameterdescs e) param);
     when (negb described && negb (startswith "#" param))
      (set_desc param undescribed ;;
       when (negb (str_in "." param))
         (entry_warn ln (dname decl_type +:+ " '" +:+ param +:+ "' not described in '"
                         +:+ declaration_name +:+ "'"))))
    (λ _ e, grown e0 e ∧ param_described e param) never.
Proof.
  eapply hoare_bind; [apply hoare_gets|]. intros d. unfold when.
  destruct d; cbn [negb andb].
  { intros e [Hd He]. split; [done|]. by left. }
  destruct (startswith "#" param) eqn:Es; cbn [negb].
  { intros e [Hd He]. split; [done|]. right. by left. }
  intros e [_ He]. pose proof (hoare_set_desc param undescribed e He) as H1. cbn in H1 |- *.
  destruct (str_in "." param); cbn.
  - split; [exact H1|]. left. apply dmem_dset_eq.
  - split; [apply (hoare_warn ln _ _ H1)|]. left. apply dmem_dset_eq.
Qed.

Lemma push_parameter_ok ln decl_type param dtype org_arg declaration_name :
  hoare (grown e0) (push_parameter ln decl_type param dtype org_arg declaration_name) good never.
Proof.
  pose proof anonymous_param_ok as HA. unfold push_parameter.
  eapply hoare_bind; [apply hoare_gets_any|]. intros anon. apply hoare_if; [auto with grown|intros _].
  eapply hoare_seq; [auto with grown|]. eapply hoare_bind; [eauto with grown|]. intros param'. cbn beta.
  intros e He. pose proof (hoare_describe ln decl_type param' declaration_name e He) as HD.
  revert HD. run_ST. destruct (dmem (ke_parameterdescs e) param'), (startswith "#" param');
    cbn [negb andb]; try (intros HD; exact (hoare_add_param param' _ e HD)).
  set (e1 := set_desc param' undescribed e). unfold set_desc, modify in e1. subst e1. cbv beta iota.
  destruct (str_in "." param'); cbn [negb]; intros HD; exact (hoare_add_param param' _ _ HD).
Qed.
#[local] Hint Resolve push_parameter_ok : grown.

Lemma push_arg_ok ln decl_type declaration_name arg :
  hoare (grown e0) (push_arg ln decl_type declaration_name arg) good never.
Proof.
  unfold push_arg, param_name.
  repeat (apply hoare_if; intros _); eauto 12 with grown.
  destruct (re_split re_comma _) as [|x l] eqn:E.
  { exfalso. unfold re_split in E. destruct (re_finditer _ _); discriminate E. }
  cbn [map]. set (dt := match re_match re_type_name _ with Some _ => _ | None => _ end).
  destruct dt as [dtype arg0]. apply hoare_for_each. intros param _. unfold push_declarator.
  eauto 8 with grown.
Qed.

Lemma create_parameter_list_grown ln decl_type args splitter declaration_name :
  hoare (grown e0) (create_parameter_list ln decl_type args splitter declaration_name) good never.
Proof.
  unfold create_parameter_list.
  destruct (hash_commas_ok (S (scount is_comma args)) args) as (r & -> & _); [lia|].
  eapply hoare_bind; [apply hoare_lift; exact I|]. intros a. apply hoare_pure. intros _.
  apply hoare_for_each. intros arg _. apply push_arg_ok.
Qed.

Lemma check_sections_grown ln decl_name decl_type :
  hoare (grown e0) (check_sections ln decl_name decl_type) good never.
Proof.
  unfold check_sections. eapply hoare_bind; [apply hoare_gets_any|]. intros secs.
  eapply hoare_seq; [|eapply hoare_bind; [apply hoare_gets_any|]]; intros; apply hoare_for_each;
    [intros x _ | intros [x y] _]; eauto with grown.
Qed.

Lemma check_return_grown wret ln declaration_name return_type :
  hoare (grown e0) (check_return_section wret ln declaration_name return_type) good never.
Proof. unfold check_return_section. eauto 8 with grown. Qed.

End Grown.
