(* ===== verification/KdocDump.v ===== *)
(** * KdocDump: the object [KernelDoc] and its [dump_*] methods

    The state of the parser, the messages it sends, and the methods that turn
    a prototype into a [KdocItem]. *)

From S2P Require Import Prelude PyStr PyRe PyReSyntax PyReTheory KdocRe CLex Xforms.
From S2P Require Import KdocItem KdocEntry KdocParams KdocStruct.

Inductive state :=
| NORMAL | NAME | DECLARATION | BODY | SPECIAL_SECTION | PROTO | DOCBLOCK
| INLINE_NAME | INLINE_TEXT.
#[global] Instance state_eq_dec : EqDecision state.
Proof. solve_decision. Defined.

(** The attributes of [self.config] the parser reads. *)
Record config := Config { wreturn : bool; wshort_desc : bool; verbose : bool }.

(** [kd_log] is what was sent to [config.log], [kd_errors] the counter that
    [config.warning] increments. *)
Record KernelDoc := MkDoc {
  kd_fname : string;
  kd_config : config;
  kd_xforms : dict (list (xsearch * string));
  kd_store_src : bool;
  kd_state : state;
  kd_entry : option KernelEntry;
  kd_entries : list KdocItem;
  kd_log : list logrec;
  kd_errors : nat;
}.

Definition upd_state (f : state → state) (d : KernelDoc) : KernelDoc :=
  MkDoc (kd_fname d) (kd_config d) (kd_xforms d) (kd_store_src d) (f (kd_state d)) (kd_entry d)
    (kd_entries d) (kd_log d) (kd_errors d).
Definition upd_entry (f : option KernelEntry → option KernelEntry) (d : KernelDoc) : KernelDoc :=
  MkDoc (kd_fname d) (kd_config d) (kd_xforms d) (kd_store_src d) (kd_state d) (f (kd_entry d))
    (kd_entries d) (kd_log d) (kd_errors d).
Definition upd_entries (f : list KdocItem → list KdocItem) (d : KernelDoc) : KernelDoc :=
  MkDoc (kd_fname d) (kd_config d) (kd_xforms d) (kd_store_src d) (kd_state d) (kd_entry d)
    (f (kd_entries d)) (kd_log d) (kd_errors d).
Definition upd_log (f : list logrec → list logrec) (d : KernelDoc) : KernelDoc :=
  MkDoc (kd_fname d) (kd_config d) (kd_xforms d) (kd_store_src d) (kd_state d) (kd_entry d)
    (kd_entries d) (f (kd_log d)) (kd_errors d).
Definition upd_errors (f : nat → nat) (d : KernelDoc) : KernelDoc :=
  MkDoc (kd_fname d) (kd_config d) (kd_xforms d) (kd_store_src d) (kd_state d) (kd_entry d)
    (kd_entries d) (kd_log d) (f (kd_errors d)).

Definition set_state (s : state) : ST KernelDoc unit := modify (upd_state (λ _, s)).
Definition log_record (r : logrec) : ST KernelDoc unit := modify (upd_log (λ l, l ++ [r])).

(** A method of [self.entry]. *)
Definition on_entry {A} (m : ST KernelEntry A) : ST KernelDoc A := λ d,
  match kd_entry d with
  | None => (d, Raise (AttributeError "NoneType"))
  | Some e => let '(e', r) := m e in (upd_entry (λ _, Some e') d, r)
  end.
(** [self.entry.attr], and the same for an attribute that may be missing. *)
Definition entry_gets {A} (f : KernelEntry → A) : ST KernelDoc A := on_entry (gets f).
Definition entry_attr {A} (f : KernelEntry → option A) (name : string) : ST KernelDoc A :=
  on_entry (attr f name).

(** The tokenizer's logger is [config.log] behind a prefix. *)
Definition with_lex {A} (m : Lex A) : ST KernelDoc A := λ d,
  let '(l, r) := m [] in
  (upd_log (λ log, log ++ map (tokenizer_set_log (kd_fname d +:+ ": CMatch: ")) l) d, r).

(** ** Messages *)

(** [self.emit_msg(ln, msg)] and [self.emit_msg(ln, msg, warning=False)] *)
Definition emit_msg (ln : nat) (msg : string) : ST KernelDoc unit :=
  entry ← gets kd_entry;
  match entry with
  | Some _ => on_entry (entry_warn ln msg)
  | None => fname ← gets kd_fname; log_record (LogWarning (log_msg fname ln msg))
  end.
Definition emit_info (ln : nat) (msg : string) : ST KernelDoc unit :=
  entry ← gets kd_entry;
  match entry with
  | Some e => log_record (entry_info ln msg e)
  | None => fname ← gets kd_fname; log_record (LogInfo (log_msg fname ln msg))
  end.
(** [self.config.warning(msg)] *)
Definition config_warning (msg : string) : ST KernelDoc unit :=
  log_record (LogWarning msg) ;;
  modify (upd_errors S).

(** [KernelDoc(config, fname, xforms, store_src)]: the second component is the
    new value of the module's [python_warning]. *)
Definition KernelDoc_init (cfg : config) (fname : string) (xf : dict (list (xsearch * string)))
    (store_src python_warning old_python : bool) : KernelDoc * bool :=
  let d := MkDoc fname cfg xf store_src NORMAL None [] [] 0 in
  if negb python_warning && old_python
  then (fst (emit_msg 0 "Python 3.7 or later is required for correct results" d), true)
  else (d, python_warning).

(** [self.dump_section()] *)
Definition dump_section : ST KernelDoc unit :=
  entry ← gets kd_entry;
  match entry with Some _ => on_entry (entry_dump_section true) | None => mret tt end.

(** The sections without the empty [Description] and [Return]. *)
Definition drop_empty (sections : dict string) (section : string) : dict string :=
  match dget sections section with
  | Some text => if (rstrip text =? "")%string then ddel sections section else sections
  | None => sections
  end.

(** [self.output_declaration(dtype, name, **args)] *)
Definition output_declaration (dtype name : string) (args : dict pyval) : ST KernelDoc unit :=
  fname ← gets kd_fname;
  start ← entry_gets ke_declaration_start_line;
  let item := KdocItem_init name fname dtype start args in
  warnings ← entry_gets ke_warnings;
  let item := KdocItem_set_warnings warnings item in
  on_entry (modify (upd_sections (λ s, fold_left drop_empty ["Description"; "Return"] s))) ;;
  e ← entry_gets (λ e, e);
  let item := KdocItem_set_sections (ke_sections e) (ke_sections_start_lines e) item in
  let item := KdocItem_set_params (ke_parameterlist e) (ke_parameterdescs e)
                (ke_parametertypes e) (ke_parameterdesc_start_lines e) item in
  modify (upd_entries (λ l, l ++ [item])).

(** [self.emit_unused_warnings()]: [self.entry not in self.entries] compares a
    [KernelEntry] with [KdocItem]s, which are never equal, so it always holds. *)
Definition emit_unused_warnings : ST KernelDoc unit :=
  entry ← gets kd_entry;
  match entry with
  | Some e => for_each (ke_warnings e) config_warning
  | None => mret tt
  end.

(** [self.reset_state(ln)] *)
Definition reset_state (ln : nat) : ST KernelDoc unit :=
  emit_unused_warnings ;;
  fname ← gets kd_fname;
  modify (upd_entry (λ _, Some (KernelEntry_init fname ln))) ;;
  set_state NORMAL.

(** ** Declarations *)

(** [trim_private_members(text)] *)
Definition trim_private_members (text : string) : Lex string :=
  tokens ← CTokenizer.init text; mret (CTokenizer.str tokens).

(** [self.xforms.apply(xforms_type, source)] *)
Definition xforms_apply (xforms_type source : string) : ST KernelDoc string :=
  table ← gets kd_xforms;
  with_lex (apply_table table xforms_type source).

Definition re_braced : pattern := compiled no_flags "(\{[^\{\}]*\})".

Definition dump_struct (ln : nat) (proto source : string) : ST KernelDoc unit :=
  proto ← with_lex (trim_private_members proto);
  match split_struct_proto proto with
  | None => emit_msg ln (proto +:+ " error: Cannot parse struct or union!")
  | Some (decl_type, declaration_name, members) =>
      identifier ← entry_attr ke_identifier "identifier";
      if negb (identifier =? declaration_name)%string then
        emit_msg ln ("expecting prototype for " +:+ decl_type +:+ " " +:+ identifier +:+ ". "
                     +:+ "Prototype was for " +:+ decl_type +:+ " " +:+ declaration_name
                     +:+ " instead" +:+ nl)
      else
        members ← xforms_apply "struct" members;
        let declaration := members in
        members ← lift_res (rewrite_struct_members members);
        let members := re_sub re_braced "" members 0 in
        on_entry (create_parameter_list ln decl_type members ";" declaration_name) ;;
        on_entry (check_sections ln declaration_name decl_type) ;;
        definition ← lift_res (format_struct_decl declaration);
        purpose ← entry_attr ke_declaration_purpose "declaration_purpose";
        output_declaration decl_type declaration_name
          [("source", VStr source); ("definition", VStr definition); ("purpose", VStr purpose)]
  end.

Definition re_enum_directive : pattern := compiled re_S "#\s*((define|ifdef|if)\s+|endif)[^;]*;".
Definition re_enum_typedef : pattern := compiled no_flags "typedef\s+enum\s*\{(.*)\}\s*(\w*)\s*;".
Definition re_enum : pattern := compiled no_flags "enum\s+(\w*)\s*\{(.*)\}".
Definition re_enum_value : pattern := compiled no_flags "\([^;)]*\)".
Definition re_enum_name : pattern := compiled no_flags "^\s*(\w+).*".

(** (name, members) of an enum, or [None]. *)
Definition split_enum_proto (proto : string) : option (string * string) :=
  match re_search re_enum_typedef proto with
  | Some m => Some (group_or m 2, group_or m 1)
  | None =>
      match re_match re_enum proto with
      | Some m => Some (group_or m 1, group_or m 2)
      | None => None
      end
  end.

(** The body of the loop over the members; returns [member_set]. *)
Definition enum_member (ln : nat) (declaration_name : string) (member_set : list string)
    (arg : string) : ST KernelEntry (list string) :=
  let arg := re_sub re_enum_name "\1" arg 0 in
  if (strip arg =? "")%string then mret member_set
  else
    modify (upd_parameterlist (λ l, l ++ [arg])) ;;
    described ← gets (λ e, dmem (ke_parameterdescs e) arg);
    when (negb described)
      (set_desc arg undescribed ;;
       entry_warn ln ("Enum value '" +:+ arg +:+ "' not described in enum '"
                      +:+ declaration_name +:+ "'")) ;;
    mret (set_add member_set arg).

Definition enum_members (ln : nat) (declaration_name members : string) : ST KernelEntry unit :=
  let members := re_sub re_enum_value "" members 0 in
  member_set ← for_acc (split_char "," members) [] (enum_member ln declaration_name);
  descs ← gets ke_parameterdescs;
  for_each (dkeys descs) (λ k,
    when (negb (smem k member_set))
      (entry_warn ln ("Excess enum value '@" +:+ k +:+ "' description in '"
                      +:+ declaration_name +:+ "'"))).

Definition dump_enum (ln : nat) (proto source : string) : ST KernelDoc unit :=
  proto ← with_lex (trim_private_members proto);
  let proto := re_sub re_enum_directive "" proto 0 in
  match split_enum_proto proto with
  | None => emit_msg ln (proto +:+ ": error: Cannot parse enum!")
  | Some (declaration_name, members) =>
      identifier ← entry_attr ke_identifier "identifier";
      if negb (identifier =? declaration_name)%string then
        if (identifier =? "")%string then
          emit_msg ln (proto +:+ ": wrong kernel-doc identifier on prototype")
        else
          emit_msg ln ("expecting prototype for enum " +:+ identifier +:+ ". "
                       +:+ "Prototype was for enum " +:+ declaration_name +:+ " instead")
      else
        let declaration_name :=
          if (declaration_name =? "")%string then "(anonymous)" else declaration_name in
        on_entry (enum_members ln declaration_name members) ;;
        purpose ← entry_attr ke_declaration_purpose "declaration_purpose";
        output_declaration "enum" declaration_name
          [("source", VStr source); ("purpose", VStr purpose)]
  end.

Definition OPTIONAL_VAR_ATTR : string := "^(?:\b(?:" +:+ join "|" ["extern"; "const"] +:+ ")\b\s*)*".
Definition re_define_macro : pattern := compiled no_flags "DEFINE_[\w_]+\s*\(([\w_]+)\)".
Definition re_var : pattern :=
  compiled no_flags
    (OPTIONAL_VAR_ATTR +:+ "\s*[\w_\s]*\s+(?:\*+)?([\w_]+)\s*[\d\]\[]*\s*(=.*)?").
Definition re_var_default : pattern :=
  compiled no_flags
    (OPTIONAL_VAR_ATTR +:+ "(?:[\w_\s]*)?\s+(?:\*+)?(?:[\w_]+)\s*[\d\]\[]*\s*(=.*)?").

Definition opt_val (o : option string) : pyval :=
  match o with Some s => VStr s | None => VNone end.

Definition dump_var (ln : nat) (proto source : string) : ST KernelDoc unit :=
  let full_proto := proto in
  let declaration_name :=
    match re_search re_define_macro proto with Some m => group_or m 1 | None => "" end in
  proto ← (if (declaration_name =? "")%string then xforms_apply "var" proto else mret proto);
  let proto := rstrip proto in
  let '(declaration_name, default_val) :=
    match re_match re_var proto with
    | Some m =>
        (if (declaration_name =? "")%string then group_or m 1 else declaration_name, group m 2)
    | None =>
        (declaration_name,
         match re_match re_var_default proto with Some m => group m 1 | None => None end)
    end in
  if (declaration_name =? "")%string then emit_msg ln (proto +:+ ": can't parse variable")
  else
    let default_val :=
      match default_val with
      | Some "" => Some ""
      | Some v => Some (strip (lstrip_char "=" v))
      | None => None
      end in
    purpose ← entry_attr ke_declaration_purpose "declaration_purpose";
    output_declaration "var" declaration_name
      [("source", VStr source); ("full_proto", VStr full_proto);
       ("default_val", opt_val default_val); ("purpose", VStr purpose)].

Definition re_define : pattern := compiled no_flags "^#\s*define\s+".
Definition re_macro_name : pattern := compiled no_flags "^(\w+)\s+".
Definition proto_args : string := "\(([^\(]*|.*)\)".
Definition type1 : string := "(?:[\w\s]+)?".
Definition type2 : string := "(?:[\w\s]+\*+)+".
Definition func_patterns : list pattern := map (compiled no_flags) [
  "^()(\w+)\s*" +:+ proto_args;
  "^(" +:+ type1 +:+ ")\s+(\w+)\s*" +:+ proto_args;
  "^(" +:+ type2 +:+ ")\s*(\w+)\s*" +:+ proto_args].

(** The first pattern that matches: return type, name, arguments. *)
Fixpoint first_match (patterns : list pattern) (prototype : string)
    : option (string * string * string) :=
  match patterns with
  | [] => None
  | r :: patterns' =>
      match re_match r prototype with
      | Some m => Some (group_or m 1, group_or m 2, group_or m 3)
      | None => first_match patterns' prototype
      end
  end.

Definition dump_function (ln : nat) (prototype source : string) : ST KernelDoc unit :=
  let new_proto := re_sub re_define "" prototype 0 in
  let is_define := negb (new_proto =? prototype)%string in
  prototype ← (if is_define then mret new_proto else xforms_apply "func" prototype);
  let macro := if is_define then re_search re_macro_name prototype else None in
  found ←
    match macro with
    | Some m => mret (Some ("", group_or m 1, true))
    | None =>
        match first_match func_patterns prototype with
        | Some (return_type, declaration_name, args) =>
            on_entry (create_parameter_list ln "function" args "," declaration_name) ;;
            mret (Some (return_type, declaration_name, false))
        | None => mret None
        end
    end;
  match found with
  | None => emit_msg ln ("cannot understand function prototype: '" +:+ prototype +:+ "'")
  | Some (return_type, declaration_name, func_macro) =>
      identifier ← entry_attr ke_identifier "identifier";
      if negb (identifier =? declaration_name)%string then
        emit_msg ln ("expecting prototype for " +:+ identifier +:+ "(). "
                     +:+ "Prototype was for " +:+ declaration_name +:+ "() instead")
      else
        on_entry (check_sections ln declaration_name "function") ;;
        cfg ← gets kd_config;
        on_entry (check_return_section (wreturn cfg) ln declaration_name return_type) ;;
        purpose ← entry_attr ke_declaration_purpose "declaration_purpose";
        output_declaration "function" declaration_name
          [("source", VStr source); ("typedef", VBool (str_in "typedef" return_type));
           ("functiontype", VStr return_type); ("purpose", VStr purpose);
           ("func_macro", VBool func_macro)]
  end.

Definition typedef_type : string := "typedef((?:\s+[\w*]+\b){0,7}\s+(?:\w+\b|\*+))\s*".
Definition typedef_ident : string := "\*?\s*(\w\S+)\s*".
Definition typedef_args : string := "\s*\((.*)\);".
Definition typedef_patterns : list pattern := map (compiled no_flags) [
  typedef_type +:+ "\(" +:+ typedef_ident +:+ "\)" +:+ typedef_args;
  typedef_type +:+ typedef_ident +:+ typedef_args].
Definition re_simple_typedef : pattern := compiled no_flags "typedef.*\s+(\w+)\s*;".

Definition wrong_typedef (ln : nat) (identifier declaration_name : string) : ST KernelDoc unit :=
  emit_msg ln ("expecting prototype for typedef " +:+ identifier +:+ ". Prototype was for typedef "
               +:+ declaration_name +:+ " instead" +:+ nl).

Definition dump_typedef (ln : nat) (proto source : string) : ST KernelDoc unit :=
  match first_match typedef_patterns proto with
  | Some (return_type, declaration_name, args) =>
      let return_type := strip return_type in
      identifier ← entry_attr ke_identifier "identifier";
      if negb (identifier =? declaration_name)%string
      then wrong_typedef ln identifier declaration_name
      else
        on_entry (create_parameter_list ln "function" args "," declaration_name) ;;
        purpose ← entry_attr ke_declaration_purpose "declaration_purpose";
        output_declaration "function" declaration_name
          [("source", VStr source); ("typedef", VBool true);
           ("functiontype", VStr return_type); ("purpose", VStr purpose)]
  | None =>
      match re_match re_simple_typedef proto with
      | Some m =>
          let declaration_name := group_or m 1 in
          identifier ← entry_attr ke_identifier "identifier";
          if negb (identifier =? declaration_name)%string
          then wrong_typedef ln identifier declaration_name
          else
            purpose ← entry_attr ke_declaration_purpose "declaration_purpose";
            output_declaration "typedef" declaration_name
              [("source", VStr source); ("purpose", VStr purpose)]
      | None => emit_msg ln "error: Cannot parse typedef!"
      end
  end.

(** [self.dump_declaration(ln, prototype, source)]: the last branch calls a
    method that does not exist. *)
Definition dump_declaration (ln : nat) (prototype source : string) : ST KernelDoc unit :=
  decl_type ← entry_attr ke_decl_type "decl_type";
  if (decl_type =? "enum")%string then dump_enum ln prototype source
  else if (decl_type =? "typedef")%string then dump_typedef ln prototype source
  else if smem decl_type ["union"; "struct"] then dump_struct ln prototype source
  else if (decl_type =? "var")%string then dump_var ln prototype source
  else raise (AttributeError "emit_message").
