(* ===== verification/KdocDumpTheory.v ===== *)
(** * KdocDumpTheory: entries, sections and enum members

    What [dump_section] accumulates, what [dump_enum] lists and warns about,
    and how the [dump_*] methods act on the object. *)

From S2P Require Import Prelude PyStr PyRe PyReSyntax PyReTheory KdocRe CLex Xforms.
From S2P Require Import KdocItem KdocEntry KdocParams KdocStruct KdocLoops KdocParamsTheory KdocDump.

(** ** Enum members *)

Definition enum_names (members : string) : list string :=
  filter (λ a, strip a ≠ "")
    (map (λ a, re_sub re_enum_name "\1" a 0) (split_char "," (re_sub re_enum_value "" members 0))).

Definition not_described (fname : string) (ln : nat) (declaration_name n : string) : string :=
  log_msg fname ln ("Enum value '" +:+ n +:+ "' not described in enum '" +:+ declaration_name +:+ "'").
Definition excess_value (fname : string) (ln : nat) (declaration_name n : string) : string :=
  log_msg fname ln ("Excess enum value '@" +:+ n +:+ "' description in '" +:+ declaration_name +:+ "'").

(** The names without a description, once each, and the descriptions after
    they got the default one. *)
Fixpoint missing (d : dict string) (names : list string) : list string :=
  match names with
  | [] => []
  | n :: names' => if dmem d n then missing d names' else n :: missing (dset d n undescribed) names'
  end.
Definition with_missing (d : dict string) (miss : list string) : dict string :=
  fold_left (λ d n, dset d n undescribed) miss d.

Lemma with_missing_mem p miss : ∀ d,
  dmem (with_missing d miss) p = true ↔ dmem d p = true ∨ p ∈ miss.
Proof.
  unfold with_missing. induction miss as [|n miss IH]; intros d; cbn [fold_left].
  - rewrite elem_of_nil. tauto.
  - rewrite IH, elem_of_cons. unfold dmem at 1. destruct (decide (n = p)) as [->|Hne].
    + rewrite dget_dset_eq. tauto.
    + rewrite dget_dset_ne by done. fold (dmem d p). split; [tauto|].
      intros [?|[->|?]]; [by left|done|by right].
Qed.

Lemma missing_spec names : ∀ d n, n ∈ missing d names ↔ n ∈ names ∧ dmem d n = false.
Proof.
  induction names as [|x names IH]; intros d n; cbn [missing].
  - split; [by intros ?%elem_of_nil | by intros [?%elem_of_nil _]].
  - destruct (dmem d x) eqn:E; rewrite ?elem_of_cons, IH.
    + split; [tauto|]. intros [[->|?] ?]; [congruence|tauto].
    + unfold dmem at 1. destruct (decide (x = n)) as [->|Hne].
      * rewrite dget_dset_eq. tauto.
      * rewrite dget_dset_ne by done. fold (dmem d n). split; [|].
        { intros [->|[? ?]]; [done|tauto]. }
        { intros [[->|?] ?]; tauto. }
Qed.

Lemma missing_nodup names : ∀ d, NoDup (missing d names).
Proof.
  induction names as [|x names IH]; intros d; cbn [missing]; [constructor|].
  destruct (dmem d x) eqn:E; [done|]. constructor; [|done].
  rewrite missing_spec, dmem_dset_eq. by intros [_ ?].
Qed.

(** The loop over the members. *)
Definition enum_after (e : KernelEntry) (fname : string) (ln : nat) (dn : string)
    (names : list string) : KernelEntry :=
  let miss := missing (ke_parameterdescs e) names in
  upd_parameterlist (λ l, l ++ names)
    (upd_parameterdescs (λ d, with_missing d miss)
       (upd_warnings (λ l, l ++ map (not_described fname ln dn) miss) e)).

Definition enum_value (a : string) : string := re_sub re_enum_name "\1" a 0.
Abbreviation values_of args := (filter (λ a, strip a ≠ "") (map enum_value args)).

Definition enum_step (ln : nat) (dn n : string) (e : KernelEntry) : KernelEntry :=
  let e1 := upd_parameterlist (λ l, l ++ [n]) e in
  if dmem (ke_parameterdescs e) n then e1
  else upd_warnings (λ l, l ++ [not_described (ke_fname e) ln dn n])
         (upd_parameterdescs (λ d, dset d n undescribed) e1).

Lemma enum_member_eq ln dn ms a e :
  enum_member ln dn ms a e
  = if (strip (enum_value a) =? "")%string then (e, Ok ms)
    else (enum_step ln dn (enum_value a) e, Ok (set_add ms (enum_value a))).
Proof.
  unfold enum_member, enum_step, enum_value. cbv zeta. destruct (strip _ =? "")%string; [done|].
  run_ST. change (ke_parameterdescs (upd_parameterlist _ e)) with (ke_parameterdescs e).
  by destruct (dmem (ke_parameterdescs e) _).
Qed.

Lemma enum_step_after ln dn n e names :
  enum_after (enum_step ln dn n e) (ke_fname (enum_step ln dn n e)) ln dn names
  = enum_after e (ke_fname e) ln dn (n :: names).
Proof.
  unfold enum_after, enum_step.
  destruct (dmem (ke_parameterdescs e) n) eqn:E; ext_entry; rewrite ?E; cbn; by rewrite <- ?app_assoc.
Qed.

Lemma enum_loop ln dn args : ∀ e ms,
  ∃ ms', for_acc args ms (enum_member ln dn) e
    = (enum_after e (ke_fname e) ln dn (values_of args), Ok ms')
  ∧ ∀ x, x ∈ ms' ↔ x ∈ ms ∨ x ∈ values_of args.
Proof.
  induction args as [|a args IH]; intros e ms; cbn [for_acc map].
  - exists ms. rewrite filter_nil. split; [|intros x; rewrite elem_of_nil; tauto].
    unfold enum_after. run_ST. f_equal. ext_entry; by rewrite ?app_nil_r.
  - unfold mbind, ST_bind. rewrite enum_member_eq, filter_cons.
    destruct (String.eqb_spec (strip (enum_value a)) "") as [E|E].
    { rewrite decide_False by tauto. apply IH. }
    rewrite decide_True by done.
    destruct (IH (enum_step ln dn (enum_value a) e) (set_add ms (enum_value a))) as (ms' & H & Hm).
    exists ms'. rewrite enum_step_after in H. split; [done|].
    intros x. rewrite Hm, set_add_in, elem_of_cons. tauto.
Qed.

Lemma warn_loop {A} ln (msg : A → string) (l : list A) (p : A → bool) : ∀ e,
  for_each l (λ k, when (p k) (entry_warn ln (msg k))) e
  = (upd_warnings (λ w, w ++ map (λ k, log_msg (ke_fname e) ln (msg k)) (filter (λ k, p k = true) l)) e,
     Ok tt).
Proof.
  induction l as [|x l IH]; intros e; cbn [for_each].
  - rewrite filter_nil. run_ST. f_equal. ext_entry; by rewrite ?app_nil_r.
  - rewrite filter_cons. unfold mbind, ST_bind, when. destruct (p x) eqn:E.
    + rewrite decide_True by done. unfold entry_warn, modify. rewrite IH. f_equal.
      ext_entry; by rewrite <- ?app_assoc.
    + rewrite decide_False by congruence. cbn. by rewrite IH.
Qed.

Lemma enum_members_spec ln dn members e :
  ∃ e' miss,
    enum_members ln dn members e = (e', Ok tt) ∧ other_attrs e' = other_attrs e ∧
    ke_parameterlist e' = ke_parameterlist e ++ enum_names members ∧
    NoDup miss ∧ (∀ n, n ∈ miss ↔ n ∈ enum_names members ∧ dmem (ke_parameterdescs e) n = false) ∧
    ke_parameterdescs e' = with_missing (ke_parameterdescs e) miss ∧
    ke_warnings e' = ke_warnings e ++ map (not_described (ke_fname e) ln dn) miss
      ++ map (excess_value (ke_fname e) ln dn)
             (filter (λ k, k ∉ enum_names members) (dkeys (ke_parameterdescs e'))).
Proof.
  unfold enum_members, mbind, ST_bind, gets. cbv zeta beta.
  destruct (enum_loop ln dn (split_char "," (re_sub re_enum_value "" members 0)) e []) as (ms & H & Hm).
  change (values_of _) with (enum_names members) in H, Hm. rewrite H.
  set (e1 := enum_after e (ke_fname e) ln dn (enum_names members)).
  exists (upd_warnings (λ w, w ++ map (excess_value (ke_fname e) ln dn)
           (filter (λ k, k ∉ enum_names members) (dkeys (ke_parameterdescs e1)))) e1).
  exists (missing (ke_parameterdescs e) (enum_names members)).
  split; [|split; [done|split; [done|split; [apply missing_nodup|split; [apply missing_spec|split; [done|]]]]]].
  - pose proof (warn_loop ln (λ k, "Excess enum value '@" +:+ k +:+ "' description in '" +:+ dn +:+ "'")
      (dkeys (ke_parameterdescs e1)) (λ k, negb (smem k ms)) e1) as HW.
    rewrite HW. do 2 f_equal.
    replace (filter (λ k, negb (smem k ms) = true) (dkeys (ke_parameterdescs e1)))
      with (filter (λ k, k ∉ enum_names members) (dkeys (ke_parameterdescs e1))); [done|].
    apply list_filter_iff. intros k. rewrite negb_true_iff, <- not_true_iff_false, smem_iff, Hm.
    rewrite elem_of_nil. tauto.
  - subst e1. cbn. by rewrite <- app_assoc.
Qed.

(** ** Sections *)

(** A section as the parser reads it: its start line, its title and its lines. *)
Record block := Block { bl_line : nat; bl_name : string; bl_lines : list string }.
Definition bl_text (b : block) : string := join nl (bl_lines b) +:+ nl.
(** Not a parameter, and not an empty default section. *)
Definition block_ok (b : block) : Prop :=
  re_match type_param (bl_name b) = None ∧ (bl_name b = SECTION_DEFAULT → bl_lines b ≠ []).

Definition run_block (b : block) : ST KernelEntry unit :=
  begin_section (bl_line b) (bl_name b) false ;;
  for_each (bl_lines b) add_text ;;
  entry_dump_section true.

(** What is recorded for title [k] after the blocks [bs]. *)
Definition section_text (bs : list block) (k : string) : option string :=
  match filter (λ b, bl_name b = k) bs with
  | [] => None
  | l => Some (join nl (map bl_text l))
  end.
Definition section_line (bs : list block) (k : string) : option nat :=
  bl_line <$> head (filter (λ b, bl_name b = k) bs).

Lemma section_text_snoc bs b k :
  section_text (bs ++ [b]) k
  = if decide (bl_name b = k)
    then Some (match section_text bs k with None => bl_text b | Some t => t +:+ nl +:+ bl_text b end)
    else section_text bs k.
Proof.
  unfold section_text. rewrite filter_app, filter_cons, filter_nil. destruct (decide (bl_name b = k)).
  - destruct (filter _ bs) as [|x l]; [done|]. cbn [app]. f_equal.
    change (map bl_text (x :: l ++ [b])) with (map bl_text ((x :: l) ++ [b])).
    rewrite map_app. by apply join_snoc.
  - by rewrite app_nil_r.
Qed.

Lemma section_line_snoc bs b k :
  section_line (bs ++ [b]) k
  = match section_line bs k with
    | Some n => Some n
    | None => if decide (bl_name b = k) then Some (bl_line b) else None
    end.
Proof.
  unfold section_line. rewrite filter_app, filter_cons, filter_nil.
  destruct (filter _ bs) as [|x l]; [|done]. by destruct (decide (bl_name b = k)).
Qed.

Lemma section_text_none bs k : section_text bs k = None ↔ section_line bs k = None.
Proof. unfold section_text, section_line. by destruct (filter _ bs). Qed.

Lemma section_text_nonempty bs k t : section_text bs k = Some t → t ≠ "".
Proof.
  unfold section_text. destruct (filter _ bs) as [|x l]; [done|]. intros [= <-].
  unfold bl_text. destruct l as [|y l]; cbn [map].
  - intros E. apply sapp_eq_nil in E as [_ ?]. done.
  - intros E. apply sapp_eq_nil in E as [E _].
    apply sapp_eq_nil in E as [_ ?]. done.
Qed.

Lemma add_texts l : ∀ e,
  for_each l add_text e = (upd__contents (λ c, c ++ l) e, Ok tt).
Proof.
  induction l as [|x l IH]; intros e; cbn [for_each].
  - run_ST. f_equal. ext_entry; by rewrite ?app_nil_r.
  - unfold mbind, ST_bind, add_text, modify at 1. fold add_text. cbn [for_each].
    change (for_each l (λ text, modify (upd__contents (λ l0, l0 ++ [text])))) with (for_each l add_text).
    rewrite IH. f_equal. ext_entry; by rewrite <- ?app_assoc.
Qed.

(** The entry after the blocks [bs]. *)
Record sections_of (bs : list block) (e : KernelEntry) : Prop := {
  so_contents : ke__contents e = [];
  so_text : ∀ k, dget (ke_sections e) k = section_text bs k;
  so_line : ∀ k, dget (ke_sections_start_lines e) k = Z.of_nat <$> section_line bs k;
}.

Lemma run_block_spec bs b e :
  sections_of bs e → block_ok b →
  ∃ e', run_block b e = (e', Ok tt) ∧ sections_of (bs ++ [b]) e'.
Proof.
  intros [Hc Ht Hl] [Hp Hd]. unfold run_block, begin_section, assign_section, assign_new_start_line.
  unfold mbind, ST_bind, when, mret, ST_ret, modify. cbv beta iota. rewrite add_texts.
  set (e1 := upd__contents _ _).
  assert (ke__contents e1 = bl_lines b) as Hc1 by (subst e1; cbn; by rewrite Hc).
  unfold entry_dump_section, attr. run_ST.
  change (ke_section e1) with (Some (bl_name b)). cbv beta iota. rewrite Hc1.
  assert ((bl_name b =? SECTION_DEFAULT)%string && match bl_lines b with [] => true | _ => false end
    = false) as ->.
  { clear -Hd. destruct (String.eqb_spec (bl_name b) SECTION_DEFAULT) as [E|]; [|done].
    specialize (Hd E). by destruct (bl_lines b). }
  rewrite Hp. clear Hp Hd. change (ke_new_start_line e1) with (Some (bl_line b)).
  assert (contents e1 = bl_text b) as Hct by (unfold contents; by rewrite Hc1). rewrite !Hct.
  change (ke_sections e1) with (ke_sections e). unfold dget_or. rewrite Ht.
  destruct (section_text bs (bl_name b)) as [t|] eqn:E; cbn [default].
  - cbn [from_option id]. destruct (String.eqb_spec t "") as [->|Hne]; [by apply section_text_nonempty in E|].
    cbn [negb]. assert (∀ e2, ke_sections e2 = ke_sections e →
      ke_sections_start_lines e2 = ke_sections_start_lines e → ∃ e',
      (assign_section SECTION_DEFAULT;; modify (upd__contents (λ _, [])))
        (upd_sections (λ d, dset d (bl_name b) (default "" (dget d (bl_name b)) +:+ nl +:+ bl_text b)) e2)
      = (e', Ok tt) ∧ sections_of (bs ++ [b]) e') as HK.
    { intros e2 H1 H2. eexists; split; [reflexivity|]. split; cbn -[bl_text]; [done| |].
      - intros k. rewrite H1, section_text_snoc. destruct (decide (bl_name b = k)) as [<-|Hk].
        + rewrite dget_dset_eq, Ht, E. done.
        + by rewrite dget_dset_ne.
      - intros k. rewrite H2, section_line_snoc, Hl. destruct (section_line bs k) eqn:El; cbn; [done|].
        destruct (decide (bl_name b = k)) as [<-|]; [|done].
        apply section_text_none in El. congruence. }
    unfold dget_or. revert HK. run_ST. intros HK.
    destruct (bl_name b =? SECTION_DEFAULT)%string; cbn [negb]; apply HK; done.
  - cbn [from_option String.eqb negb]. eexists; split; [reflexivity|]. split; cbn -[bl_text]; [done| |].
    + intros k. rewrite section_text_snoc. destruct (decide (bl_name b = k)) as [<-|Hk].
      * by rewrite dget_dset_eq, E.
      * rewrite dget_dset_ne by done. apply Ht.
    + intros k. rewrite section_line_snoc.
      destruct (decide (bl_name b = k)) as [<-|Hk].
      * rewrite dget_dset_eq. by apply section_text_none in E as ->.
      * rewrite dget_dset_ne by done. rewrite Hl. by destruct (section_line bs k).
Qed.

Lemma run_blocks_spec more : ∀ bs e,
  sections_of bs e → Forall block_ok more →
  ∃ e', for_each more run_block e = (e', Ok tt) ∧ sections_of (bs ++ more) e'.
Proof.
  induction more as [|b more IH]; intros bs e He HF; cbn [for_each].
  - exists e. by rewrite app_nil_r.
  - apply Forall_cons in HF as [Hb HF]. destruct (run_block_spec bs b e He Hb) as (e1 & E1 & H1).
    destruct (IH (bs ++ [b]) e1 H1 HF) as (e' & E' & H'). exists e'.
    unfold mbind, ST_bind. rewrite E1, E'. split; [done|]. by rewrite <- app_assoc in H'.
Qed.
