(* ===== verification/KdocProcess.v ===== *)
(** * KdocProcess: the state machine of [kdoc_parser.py]

    One definition per [process_*] method, the table [state_actions], and the
    loop over the lines of a file. *)

From S2P Require Import Prelude PyStr PyRe PyReSyntax PyReTheory KdocRe CLex Xforms.
From S2P Require Import KdocItem KdocEntry KdocParams KdocStruct KdocDump.

(** ** Regular expressions of the module *)

Definition doc_com_text : string := "\s*\*\s*".
Definition doc_com_body_text : string := "\s*\* ?".
Definition doc_start : pattern := compiled no_flags "^/\*\*\s*$".
Definition doc_end : pattern := compiled no_flags "\*/".
Definition doc_decl : pattern := compiled no_flags (doc_com_text +:+ "(\w+)").
Definition doc_sect : pattern :=
  compiled re_I (doc_com_text +:+ ("\s*(@[.\w]+|@\.\.\.|" +:+ known_section_names
                                   +:+ ")\s*:([^:].*)?$")).
Definition doc_content : pattern := compiled no_flags (doc_com_body_text +:+ "(.*)").
Definition doc_inline_start : pattern := compiled no_flags "^\s*/\*\*\s*$".
Definition doc_inline_sect : pattern := compiled no_flags "\s*\*\s*(@\s*[\w][\w\.]*\s*):(.*)".
Definition doc_inline_end : pattern := compiled no_flags "^\s*\*/\s*$".
Definition doc_inline_oneline : pattern :=
  compiled no_flags "^\s*/\*\*\s*(@\s*[\w][\w\.]*\s*):\s*(.*)\s*\*/\s*$".
Definition export_symbol : pattern :=
  compiled no_flags "^\s*EXPORT_SYMBOL(_GPL)?\s*\(\s*(\w+)\s*\)\s*".
Definition export_symbol_ns : pattern :=
  compiled no_flags
    ("^\s*EXPORT_SYMBOL_NS(_GPL)?\s*\(\s*(\w+)\s*,\s*" +:+ quote +:+ "\S+" +:+ quote +:+ "\)\s*").
Definition doc_block : pattern := compiled no_flags (doc_com_text +:+ "DOC:\s*(.*)?").
Definition doc_begin_data : pattern :=
  compiled no_flags "^\s*\*?\s*(struct|union|enum|typedef|var)\b\s*(\w*)".
Definition doc_begin_func : pattern :=
  compiled no_flags
    (doc_com_text +:+ "(?:\w+\s*\*\s*)?" +:+ "(?:define\s+)?" +:+ "(\w+)\s*(?:\(\w*\))?\s*"
     +:+ "(?:[-:].*)?$").
Definition re_purpose : pattern := compiled no_flags "[-:](.*)".
Definition re_suspicious : pattern := compiled no_flags "\s*\*\s*[a-zA-Z_0-9:.]+\*/".
Definition re_blank_doc : pattern := compiled no_flags "\s*\*\s*$".
Definition re_leading : pattern := compiled no_flags "^(\s+)".

(** [r.search(line)] as a condition. *)
Definition matches (r : pattern) (line : string) : bool := bool_decide (is_Some (re_search r line)).
Definition matches_start (r : pattern) (line : string) : bool :=
  bool_decide (is_Some (re_match r line)).

(** [trim_whitespace(s)] *)
Definition trim_whitespace (s : string) : string := re_sub re_spaces " " (strip s) 0.

(** ** [process_export] *)

(** The symbol exported by the line, without the suffix [_noprof]. *)
Definition export_name (line : string) : option string :=
  let symbol :=
    match re_search export_symbol line with
    | Some m => Some (group_or m 2)
    | None =>
        match re_search export_symbol_ns line with
        | Some m => Some (group_or m 2)
        | None => None
        end
    end in
  (λ s, if endswith "_noprof" s then str_take (String.length s - 7) s else s) <$> symbol.
(** [process_export(function_set, line)] *)
Definition process_export (function_set : list string) (line : string) : list string * bool :=
  match export_name line with
  | Some symbol => (set_add function_set symbol, true)
  | None => (function_set, false)
  end.

(** ** The handlers *)

Definition process_normal (ln : nat) (line source : string) : ST KernelDoc unit :=
  if matches_start doc_start line then reset_state ln ;; set_state NAME else mret tt.

Definition set_identifier (s : string) : ST KernelDoc unit :=
  on_entry (modify (upd_identifier (λ _, Some s))).
Definition set_decl_type (s : string) : ST KernelDoc unit :=
  on_entry (modify (upd_decl_type (λ _, Some s))).
Definition set_purpose (s : string) : ST KernelDoc unit :=
  on_entry (modify (upd_declaration_purpose (λ _, Some s))).
Definition set_prototype (s : string) : ST KernelDoc unit :=
  on_entry (modify (upd_prototype (λ _, s))).

(** The part of [process_name] after the kind of the entry is known. *)
Definition begin_entry (ln : nat) (line : string) : ST KernelDoc unit :=
  set_state BODY ;;
  identifier ← entry_attr ke_identifier "identifier";
  set_identifier (strip_char " " identifier) ;;
  on_entry (begin_section (ln + 1) SECTION_DEFAULT false) ;;
  (match re_search re_purpose line with
   | Some m => set_purpose (trim_whitespace (group_or m 1)) ;; set_state DECLARATION
   | None => set_purpose ""
   end) ;;
  purpose ← entry_attr ke_declaration_purpose "declaration_purpose";
  cfg ← gets kd_config;
  when ((purpose =? "")%string && wshort_desc cfg)
    (emit_msg ln ("missing initial short description on line:" +:+ nl +:+ line)) ;;
  identifier ← entry_attr ke_identifier "identifier";
  decl_type ← entry_attr ke_decl_type "decl_type";
  when ((identifier =? "")%string && negb (decl_type =? "enum")%string)
    (emit_msg ln ("wrong kernel-doc identifier on line:" +:+ nl +:+ line) ;;
     set_state NORMAL) ;;
  when (verbose cfg)
    (emit_info ln ("Scanning doc for " +:+ decl_type +:+ " " +:+ identifier)).

Definition process_name (ln : nat) (line source : string) : ST KernelDoc unit :=
  match re_search doc_block line with
  | Some m =>
      let title := group_or m 1 in
      on_entry (begin_section ln (if (title =? "")%string then "Introduction" else title) false) ;;
      section ← entry_attr ke_section "section";
      set_identifier section ;;
      set_state DOCBLOCK
  | None =>
      match re_search doc_decl line with
      | Some m =>
          set_identifier (group_or m 1) ;;
          match re_search doc_begin_data line with
          | Some m =>
              set_decl_type (group_or m 1) ;;
              set_identifier (group_or m 2) ;;
              begin_entry ln line
          | None =>
              match re_search doc_begin_func line with
              | Some m =>
                  set_identifier (group_or m 1) ;;
                  set_decl_type "function" ;;
                  begin_entry ln line
              | None =>
                  emit_msg ln ("This comment starts with '/**', but isn't a kernel-doc comment. "
                               +:+ "Refer to Documentation/doc-guide/kernel-doc.rst"
                               +:+ nl +:+ line) ;;
                  set_state NORMAL
              end
          end
      | None => emit_msg ln ("Cannot find identifier on line:" +:+ nl +:+ line)
      end
  end.

(** The section a [doc_sect] line opens and the state that reads it. *)
Definition new_section (newsection : string) : res (string * state) :=
  let low := str_lower newsection in
  if (low =? "description")%string then Ok ("Description", BODY)
  else if (low =? "context")%string then Ok ("Context", SPECIAL_SECTION)
  else if smem low ["@return"; "@returns"; "return"; "returns"]
  then Ok ("Return", SPECIAL_SECTION)
  else match newsection with
       | "" => Raise IndexError
       | String c _ => Ok (newsection, if (c =? "@")%char then SPECIAL_SECTION else BODY)
       end.

(** [self.is_new_section(ln, line)] *)
Definition is_new_section (ln : nat) (line : string) : ST KernelDoc bool :=
  match re_search doc_sect line with
  | None => mret false
  | Some m =>
      set_state BODY ;;
      sec ← lift_res (new_section (group_or m 1));
      set_state (snd sec) ;;
      let newcontents := group_or m 2 in
      dump_section ;;
      on_entry (begin_section ln (fst sec) false) ;;
      on_entry (modify (upd_leading_space (λ _, None))) ;;
      on_entry (add_text (lstrip newcontents)) ;;
      mret true
  end.

(** [self.is_comment_end(ln, line)] *)
Definition is_comment_end (ln : nat) (line : string) : ST KernelDoc bool :=
  if matches doc_end line then
    dump_section ;;
    when (matches_start re_suspicious line) (emit_msg ln ("suspicious ending line: " +:+ line)) ;;
    set_prototype "" ;;
    on_entry (assign_new_start_line (ln + 1)) ;;
    set_state PROTO ;;
    mret true
  else mret false.

(** [if self.is_new_section(ln, line) or self.is_comment_end(ln, line): return] *)
Definition unless_section_or_end (ln : nat) (line : string) (m : ST KernelDoc unit)
    : ST KernelDoc unit :=
  b ← is_new_section ln line;
  if b : bool then mret tt
  else b ← is_comment_end ln line; if b : bool then mret tt else m.

Definition bad_line (ln : nat) (line : string) : ST KernelDoc unit :=
  emit_msg ln ("bad line: " +:+ line).

Definition process_decl (ln : nat) (line source : string) : ST KernelDoc unit :=
  unless_section_or_end ln line
    (match re_search doc_content line with
     | Some m =>
         let cont := group_or m 1 in
         if (cont =? "")%string then set_state BODY
         else
           purpose ← entry_attr ke_declaration_purpose "declaration_purpose";
           set_purpose (trim_whitespace (purpose +:+ " " +:+ cont))
     | None => bad_line ln line
     end).

(** The loop over [range(0, leading_space)]: the first position whose character
    is not a blank; [IndexError] when the text is shorter than the range. *)
Fixpoint blank_prefix (cont : string) (n : nat) : res nat :=
  match n with
  | O => Ok 0
  | S n' =>
      match cont with
      | "" => Raise IndexError
      | String c rest =>
          if negb (c =? " ")%char then Ok 0
          else match blank_prefix rest n' with
               | Ok k => Ok (S k)
               | Raise e => Raise e
               end
      end
  end.

(** The text of a continuation line of a special section. *)
Definition add_special (cont : string) : ST KernelEntry unit :=
  leading ← gets ke_leading_space;
  let n := match leading with
           | Some n => n
           | None => match re_match re_leading cont with
                     | Some m => String.length (group_or m 1)
                     | None => 0 end
           end in
  modify (upd_leading_space (λ _, Some n)) ;;
  k ← lift_res (blank_prefix cont n);
  modify (upd_leading_space (λ _, Some k)) ;;
  add_text (str_drop k cont).

Definition process_special (ln : nat) (line source : string) : ST KernelDoc unit :=
  if matches_start re_blank_doc line then
    on_entry (begin_section ln SECTION_DEFAULT true) ;;
    set_state BODY
  else
    unless_section_or_end ln line
      (match re_search doc_content line with
       | Some m => on_entry (add_special (group_or m 1))
       | None => bad_line ln line
       end).

Definition process_body (ln : nat) (line source : string) : ST KernelDoc unit :=
  unless_section_or_end ln line
    (match re_search doc_content line with
     | Some m => on_entry (add_text (group_or m 1))
     | None => bad_line ln line
     end).

(** ** Prototypes *)

Definition re_newlines : pattern := compiled no_flags "[\r\n]+".
Definition re_syscall : pattern := compiled no_flags "SYSCALL_DEFINE.*\(".
Definition re_sys_name : pattern := compiled no_flags "long\s+(sys_.*?),".
Definition re_one_comma : pattern := compiled no_flags ",".
Definition re_close_paren : pattern := compiled no_flags "\)".

(** The loop over the positions: every odd-numbered comma becomes a blank. *)
Definition comma_step (acc : nat * string) (ix : nat) : nat * string :=
  let '(count, proto) := acc in
  match str_drop ix proto with
  | String c rest =>
      if is_comma c then
        let count := S count in
        if count mod 2 =? 1 then (count, str_take ix proto +:+ " " +:+ rest) else (count, proto)
      else (count, proto)
  | "" => (count, proto)      (* not reached: the length does not change *)
  end.
Definition drop_odd_commas (proto : string) : string :=
  snd (fold_left comma_step (seq 0 (String.length proto)) (0, proto)).

(** [self.syscall_munge(ln, proto)] *)
Definition syscall_munge (proto : string) : string :=
  let proto := re_sub re_newlines " " proto 0 in
  let is_void := str_in "SYSCALL_DEFINE0" proto in
  let proto := re_sub re_syscall "long sys_" proto 0 in
  let proto :=
    if matches re_sys_name proto then re_sub re_one_comma "(" proto 1
    else if is_void then re_sub re_close_paren "(void)" proto 1
    else proto in
  if is_void then proto else drop_odd_commas proto.

Definition re_trace_event : pattern := compiled no_flags "TRACE_EVENT\((.*?),".
Definition re_single_event : pattern := compiled no_flags "DEFINE_SINGLE_EVENT\((.*?),".
Definition re_define_event : pattern := compiled no_flags "DEFINE_EVENT\((.*?),(.*?),".
Definition re_tp_proto : pattern := compiled no_flags "TP_PROTO\((.*?)\)".

(** [self.tracepoint_munge(ln, proto)] *)
Definition tracepoint_munge (ln : nat) (proto : string) : ST KernelDoc string :=
  let name := "" in
  let name := match re_search re_trace_event proto with Some m => group_or m 1 | None => name end in
  let name := match re_search re_single_event proto with Some m => group_or m 1 | None => name end in
  let name := match re_search re_define_event proto with Some m => group_or m 2 | None => name end in
  let name := lstrip name in
  let args := match re_search re_tp_proto proto with Some m => group_or m 1 | None => "" end in
  if (name =? "")%string || (args =? "")%string then
    emit_msg ln ("Unrecognized tracepoint format:" +:+ nl +:+ proto +:+ nl) ;;
    mret proto
  else
    identifier ← entry_attr ke_identifier "identifier";
    set_identifier ("trace_" +:+ identifier) ;;
    mret ("static inline void trace_" +:+ name +:+ "(" +:+ args +:+ ")").

(** [KernRe(r"//.*$", re.S)]: the flag is passed as [cache], so there is none. *)
Definition re_c99_comment : pattern := compiled no_flags "//.*$".
Definition re_define_line : pattern := compiled no_flags "\s*#\s*define".
Definition re_until_brace : pattern := compiled no_flags "([^\{]*)".
Definition re_comment : pattern := compiled no_flags "/\*.*\*/".
Definition re_func_pointer : pattern := compiled no_flags "^(\S+\s+)\(\s*\*(\S+)\)".
Definition re_tracepoint : pattern := compiled no_flags "TRACE_EVENT|DEFINE_EVENT|DEFINE_SINGLE_EVENT".

Definition process_proto_function (ln : nat) (line source : string) : ST KernelDoc unit :=
  let line := re_sub re_c99_comment "" line 0 in
  let is_define := matches_start re_define_line line in
  (if is_define then set_prototype line
   else if negb (startswith "#" line) then
     match re_match re_until_brace line with
     | Some m => on_entry (modify (upd_prototype (λ p, p +:+ group_or m 1 +:+ " ")))
     | None => mret tt
     end
   else mret tt) ;;
  if char_in "{" line || char_in ";" line || is_define then
    prototype ← entry_gets ke_prototype;
    let prototype := strip (re_sub re_comment "" prototype 0) in
    let prototype := re_sub re_func_pointer "\1\2" prototype 0 in
    set_prototype prototype ;;
    (if str_in "SYSCALL_DEFINE" prototype then set_prototype (syscall_munge prototype)
     else if matches re_tracepoint prototype then
       prototype ← tracepoint_munge ln prototype;
       set_prototype prototype
     else mret tt) ;;
    prototype ← entry_gets ke_prototype;
    dump_function ln prototype source ;;
    reset_state ln
  else mret tt.

Definition re_chunk : pattern := compiled no_flags "(.*?)([{};])".

(** The loop over the pieces of the line. *)
Fixpoint proto_chunks (ln : nat) (source : string) (chunks : list (option string))
    : ST KernelDoc unit :=
  match chunks with
  | [] => on_entry (modify (upd_prototype (λ p, p +:+ " ")))
  | None :: rest => proto_chunks ln source rest
  | Some "" :: rest => proto_chunks ln source rest
  | Some chunk :: rest =>
      on_entry (modify (upd_prototype (λ p, p +:+ chunk))) ;;
      if (chunk =? "{")%string then
        on_entry (modify (upd_brcount (Z.add 1))) ;;
        proto_chunks ln source rest
      else if (chunk =? "}")%string then
        on_entry (modify (upd_brcount Z.pred)) ;;
        proto_chunks ln source rest
      else
        brcount ← entry_gets ke_brcount;
        if (chunk =? ";")%string && (brcount <=? 0)%Z then
          prototype ← entry_gets ke_prototype;
          dump_declaration ln prototype source ;;
          reset_state ln
        else proto_chunks ln source rest
  end.

Definition process_proto_type (ln : nat) (line source : string) : ST KernelDoc unit :=
  let line := strip (re_sub re_c99_comment "" line 0) in
  if (line =? "")%string then mret tt
  else
    let line := if startswith "#" line then line +:+ ";" else line in
    proto_chunks ln source (re_split re_chunk line).

Definition process_proto (ln : nat) (line source : string) : ST KernelDoc unit :=
  match re_search doc_inline_oneline line with
  | Some m =>
      on_entry (begin_section ln (group_or m 1) false) ;;
      on_entry (add_text (group_or m 2)) ;;
      dump_section
  | None =>
      if matches doc_inline_start line then set_state INLINE_NAME
      else
        decl_type ← entry_attr ke_decl_type "decl_type";
        if (decl_type =? "function")%string then process_proto_function ln line source
        else process_proto_type ln line source
  end.

Definition process_inline_name (ln : nat) (line source : string) : ST KernelDoc unit :=
  match re_search doc_inline_sect line with
  | Some m =>
      on_entry (begin_section ln (group_or m 1) false) ;;
      on_entry (add_text (lstrip (group_or m 2))) ;;
      set_state INLINE_TEXT
  | None =>
      if matches doc_inline_end line then
        dump_section ;;
        set_state PROTO
      else if matches doc_content line then
        emit_msg ln ("Incorrect use of kernel-doc format: " +:+ line) ;;
        set_state PROTO ;;
        process_proto_type ln ("/**" +:+ nl +:+ line) source
      else mret tt
  end.

Definition process_inline_text (ln : nat) (line source : string) : ST KernelDoc unit :=
  if matches doc_inline_end line then
    dump_section ;;
    set_state PROTO
  else
    match re_search doc_content line with
    | Some m => on_entry (add_text (group_or m 1))
    | None => mret tt
    end.

Definition process_docblock (ln : nat) (line source : string) : ST KernelDoc unit :=
  if matches doc_end line then
    dump_section ;;
    identifier ← entry_attr ke_identifier "identifier";
    output_declaration "doc" identifier [("source", VStr source)] ;;
    reset_state ln
  else
    match re_search doc_content line with
    | Some m => on_entry (add_text (group_or m 1))
    | None => mret tt
    end.

(** [state_actions] *)
Definition state_actions (s : state) : nat → string → string → ST KernelDoc unit :=
  match s with
  | NORMAL => process_normal
  | NAME => process_name
  | BODY => process_body
  | DECLARATION => process_decl
  | SPECIAL_SECTION => process_special
  | INLINE_NAME => process_inline_name
  | INLINE_TEXT => process_inline_text
  | PROTO => process_proto
  | DOCBLOCK => process_docblock
  end.

(** ** Files *)

(** [self.parse_export()]; [None] stands for an [IOError] while reading. *)
Definition parse_export (contents : option string) : option (list string) :=
  (λ text, fold_left (λ table line, fst (process_export table line)) (readlines text) [])
  <$> contents.

(** The local variables of [parse_kdoc]. *)
Record locals := Locals {
  l_prev : string;
  l_prev_ln : option nat;
  l_export_table : list string;
  l_source : string;
}.

(** The rest of the loop body, for a whole line. *)
Definition parse_whole_line (v : locals) (ln : nat) (line : string) : ST KernelDoc locals :=
  store_src ← gets kd_store_src;
  st ← gets kd_state;
  let source :=
    if (store_src : bool) then
      if negb (l_source v =? "")%string && bool_decide (st = NORMAL) then ""
      else if negb (bool_decide (st = NORMAL)) then l_source v +:+ line +:+ nl
      else l_source v
    else l_source v in
  let '(table, exported) :=
    if bool_decide (st = NORMAL) then process_export (l_export_table v) line
    else (l_export_table v, false) in
  if exported then mret (Locals (l_prev v) (l_prev_ln v) table source)
  else
    state_actions st ln line source ;;
    st' ← gets kd_state;
    let source :=
      if bool_decide (st = NORMAL) && negb (bool_decide (st' = NORMAL))
      then source +:+ line +:+ nl else source in
    mret (Locals (l_prev v) (l_prev_ln v) table source).

(** The loop body: continuation lines of a prototype are grouped first. *)
Definition parse_line (v : locals) (x : nat * string) : ST KernelDoc locals :=
  let '(ln, line) := x in
  let line := strip_char NL (expandtabs line) in
  st ← gets kd_state;
  if bool_decide (st = PROTO) then
    if endswith "\" line then
      mret (Locals (l_prev v +:+ rstrip_char BACKSLASH line)
              (match l_prev_ln v with None | Some 0 => Some ln | Some _ => l_prev_ln v end)
              (l_export_table v) (l_source v))
    else if negb (l_prev v =? "")%string then
      match l_prev_ln v with
      | Some prev_ln =>
          parse_whole_line (Locals "" None (l_export_table v) (l_source v)) prev_ln
            (l_prev v +:+ line)
      | None => raise (TypeError "prev_ln")
      end
    else parse_whole_line v ln line
  else parse_whole_line v ln line.

(** [self.parse_kdoc()]; [contents] is the text of the file, [None] when it
    cannot be opened.  The result is the export table; the entries stay in the
    object. *)
Definition parse_kdoc (contents : option string) : ST KernelDoc (list string) :=
  set_state NORMAL ;;
  match contents with
  | Some text =>
      v ← for_acc (imap (λ i line, (i, line)) (readlines text)) (Locals "" None [] "") parse_line;
      emit_unused_warnings ;;
      mret (l_export_table v)
  | None =>
      fname ← gets kd_fname;
      log_record (LogError ("Error: Cannot open file " +:+ fname)) ;;
      mret []
  end.
