(* ===== verification/KdocMachine.v ===== *)
(** * KdocMachine: the state machine of the parser is safe

    In every state the entry has the attributes the handler of that state
    reads; every handler keeps this, moves only along the edges of
    [allowed], and raises only the exceptions of [step_error]. *)

From S2P Require Import Prelude PyStr PyRe PyReSyntax PyReTheory KdocRe CLex Xforms.
From S2P Require Import KdocItem KdocEntry KdocParams KdocStruct KdocLoops KdocParamsTheory.
From S2P Require Import KdocDump KdocDumpTheory KdocProcess.

(** ** What an entry has in each state *)

Definition titled (e : KernelEntry) : Prop :=
  described e ∧ is_Some (ke_section e) ∧ is_Some (ke_new_start_line e) ∧ is_Some (ke_identifier e).
Definition decl_types : list string := ["struct"; "union"; "enum"; "typedef"; "var"; "function"].
Definition typed (e : KernelEntry) : Prop :=
  titled e ∧ is_Some (ke_declaration_purpose e) ∧
  ∃ t, ke_decl_type e = Some t ∧ t ∈ decl_types.

(** Membership in a concrete list. *)
Ltac in_list := solve [repeat constructor].
Ltac state_incl := intros ?; rewrite !elem_of_cons; tauto.

(** The table of transformations can make the tokenizer raise. *)
Definition xform_error (table : dict (list (xsearch * string))) (x : exn) : Prop :=
  ∃ kind src log log', apply_table table kind src log = (log', Raise x).

Section Machine.
Context (T : dict (list (xsearch * string))) (E : exn → Prop).

(** What never changes: the table, and the items are of the shape the output
    classes expect. *)
Definition static (d : KernelDoc) : Prop :=
  kd_xforms d = T ∧ Forall (λ it, item_ok it = true) (kd_entries d).

Record at_state (st : state) (P : KernelEntry → Prop) (d : KernelDoc) : Prop := {
  as_static : static d;
  as_state : kd_state d = st;
  as_entry : ∃ e, kd_entry d = Some e ∧ P e;
}.

(** *** Steps of the handlers *)

Lemma hoare_on_entry {A} st (P : KernelEntry → Prop) (Q : A → KernelEntry → Prop) m :
  hoare P m Q E → hoare (at_state st P) (on_entry m) (λ a, at_state st (Q a)) E.
Proof.
  intros H d [Hx Hs (e & He & Hp)]. unfold on_entry. rewrite He.
  specialize (H e Hp). destruct (m e) as [e' [a|x]]; [|done].
  split; [done|done|]. by exists e'.
Qed.

Lemma hoare_attr {A} (P : KernelEntry → Prop) (f : KernelEntry → option A) name :
  (∀ e, P e → is_Some (f e)) → hoare P (attr f name) (λ a e, f e = Some a ∧ P e) E.
Proof.
  intros H e He. unfold attr. run_ST. destruct (H e He) as [a Ha]. by rewrite Ha.
Qed.

Lemma hoare_entry_attr {A} st (P : KernelEntry → Prop) (f : KernelEntry → option A) name :
  (∀ e, P e → is_Some (f e)) →
  hoare (at_state st P) (entry_attr f name) (λ a, at_state st (λ e, f e = Some a ∧ P e)) E.
Proof. intros H. by apply hoare_on_entry, hoare_attr. Qed.

Lemma hoare_entry_gets {A} st P (f : KernelEntry → A) :
  hoare (at_state st P) (entry_gets f) (λ _, at_state st P) E.
Proof. apply hoare_on_entry. by intros e. Qed.

Lemma hoare_set_state st st' P : hoare (at_state st P) (set_state st') (λ _, at_state st' P) E.
Proof. apply hoare_modify. intros d [Hx Hs He]. by split. Qed.

Lemma hoare_doc_gets {A} st P (f : KernelDoc → A) :
  hoare (at_state st P) (gets f) (λ _, at_state st P) E.
Proof. by intros d. Qed.

Lemma hoare_log st P r : hoare (at_state st P) (log_record r) (λ _, at_state st P) E.
Proof. apply hoare_modify. intros d [Hx Hs He]. by split. Qed.

Lemma hoare_config_warning st P msg : hoare (at_state st P) (config_warning msg) (λ _, at_state st P) E.
Proof.
  eapply hoare_seq; [apply hoare_log|]. apply hoare_modify. intros d [Hx Hs He]. by split.
Qed.

(** A property that only depends on the attributes assigned late, the
    parameters and their descriptions. *)
Definition stable (P : KernelEntry → Prop) : Prop := ∀ f e, P e → P (upd_warnings f e).

Lemma hoare_emit_msg st P ln msg :
  stable P → hoare (at_state st P) (emit_msg ln msg) (λ _, at_state st P) E.
Proof.
  intros HP d Hd. pose proof Hd as [Hx Hs (e & He & Hp)]. unfold emit_msg. run_ST. rewrite He.
  unfold on_entry. rewrite He. cbn. split; [done|done|]. eexists; split; [done | by apply HP].
Qed.

Lemma hoare_emit_info st P ln msg :
  hoare (at_state st P) (emit_info ln msg) (λ _, at_state st P) E.
Proof.
  intros d Hd. pose proof Hd as [Hx Hs (e & He & Hp)]. unfold emit_info. run_ST. rewrite He.
  cbn. split; [done|done|]. by exists e.
Qed.

Lemma hoare_with_lex {A} st P (m : Lex A) :
  (∀ l l' x, m l = (l', Raise x) → E x) →
  hoare (at_state st P) (with_lex m) (λ _, at_state st P) E.
Proof.
  intros HE d [Hx Hs He]. unfold with_lex. destruct (m []) as [l [a|x]] eqn:Em; [|by eapply HE].
  by split.
Qed.

Lemma tokenizer_ok s l : ∃ l' toks, CTokenizer.init s l = (l', Ok toks).
Proof. unfold CTokenizer.init. destruct (s =? "")%string; run_ST; eauto. Qed.

Lemma hoare_trim st P text :
  hoare (at_state st P) (with_lex (trim_private_members text)) (λ _, at_state st P) E.
Proof.
  apply hoare_with_lex. intros l l' x. unfold trim_private_members. run_ST.
  destruct (tokenizer_ok text l) as (l1 & toks & ->). done.
Qed.

Lemma hoare_xforms st P kind text :
  (∀ x, xform_error T x → E x) →
  hoare (at_state st P) (xforms_apply kind text) (λ _, at_state st P) E.
Proof.
  intros HE. unfold xforms_apply. intros d Hd. pose proof Hd as [Hx Hs He]. run_ST. rewrite (proj1 Hx).
  revert d Hd Hx Hs He. refine (λ d Hd _ _ _, hoare_with_lex st P _ _ d Hd).
  intros l l' x H. apply HE. by exists kind, text, l, l'.
Qed.

Lemma hoare_lift_ok {A} st P (r : res A) :
  (∃ a, r = Ok a) → hoare (at_state st P) (lift_res r) (λ _, at_state st P) E.
Proof. intros [a ->] d Hd. exact Hd. Qed.

Lemma hoare_dump_section st (P Q : KernelEntry → Prop) :
  hoare P (entry_dump_section true) (λ _, Q) E →
  hoare (at_state st P) dump_section (λ _, at_state st Q) E.
Proof.
  intros H d Hd. pose proof Hd as [Hx Hs (e & He & Hp)]. unfold dump_section. run_ST. rewrite He.
  exact (hoare_on_entry st P (λ _, Q) _ H d Hd).
Qed.

(** *** Entries *)

Lemma described_params e e' :
  ke_parameterlist e' = ke_parameterlist e → ke_parametertypes e' = ke_parametertypes e →
  (∀ p, dmem (ke_parameterdescs e) p = true → dmem (ke_parameterdescs e') p = true) →
  described e → described e'.
Proof.
  unfold described, param_described. intros -> -> Hd H. eapply Forall_impl; [exact H|].
  intros p [[Hp|Hp] Ht]; split; auto.
Qed.

Definition late (e : KernelEntry) :=
  (is_Some (ke_section e), is_Some (ke_new_start_line e), ke_identifier e,
   ke_declaration_purpose e, ke_decl_type e).

Lemma stable_titled : stable titled.
Proof. intros f e H. exact H. Qed.
Lemma stable_typed : stable typed.
Proof. intros f e H. exact H. Qed.
Lemma stable_any : stable (λ _, True).
Proof. done. Qed.
Lemma stable_described : stable described.
Proof. intros f e H. exact H. Qed.

(** [dump_section] keeps what the state needs. *)
Lemma dump_section_keeps (P : KernelEntry → Prop) :
  (∀ e e', P e → (described e → described e') →
     (is_Some (ke_section e) → is_Some (ke_section e')) →
     (is_Some (ke_new_start_line e) → is_Some (ke_new_start_line e')) →
     ke_identifier e' = ke_identifier e → ke_declaration_purpose e' = ke_declaration_purpose e →
     ke_decl_type e' = ke_decl_type e → P e') →
  (∀ e, P e → titled e) →
  hoare P (entry_dump_section true) (λ _, P) E.
Proof.
  intros HP HT e He. destruct (HT e He) as (_ & [s Hs] & [n Hn] & _).
  unfold entry_dump_section, attr, when, assign_section, assign_new_start_line. run_ST. rewrite Hs.
  destruct ((s =? SECTION_DEFAULT)%string && _); [exact He|].
  destruct (re_match type_param s) as [m|].
  - cbn -[group_or contents]. rewrite Hn. cbn -[group_or contents].
    apply (HP e); try done. intros Hd. eapply described_params; [..|exact Hd]; try done.
    intros p Hp. by apply dmem_dset_mono.
  - destruct (dget_or (ke_sections e) s "" =? "")%string; cbn [negb].
    + cbn -[group_or contents]. rewrite Hn. by apply (HP e).
    + destruct (s =? SECTION_DEFAULT)%string; cbn -[group_or contents]; rewrite ?Hn;
        by apply (HP e).
Qed.

Lemma dump_section_titled : hoare titled (entry_dump_section true) (λ _, titled) E.
Proof.
  apply dump_section_keeps; [|done]. unfold titled.
  intros e e' (H1 & H2 & H3 & H4) Hd Hs Hn -> _ _. auto.
Qed.
Lemma dump_section_typed : hoare typed (entry_dump_section true) (λ _, typed) E.
Proof.
  apply dump_section_keeps; [|by intros e []]. unfold typed, titled.
  intros e e' ((H1 & H2 & H3 & H4) & H5 & H6) Hd Hs Hn -> -> ->. auto 8.
Qed.

(** The parameter code. *)
Lemma grown_typed e0 e : typed e0 → grown e0 e → typed e.
Proof.
  intros ((_ & H2 & H3 & H4) & H5 & H6) [Ha _ _ Hd]. unfold other_attrs in Ha.
  injection Ha as Ef Ec Ep Es1 Es2 Es El Eb Ed Esec Enew Eid Edt Epu.
  unfold typed, titled. by rewrite Esec, Enew, Eid, Edt, Epu.
Qed.

Lemma hoare_grown {A} (m : ST KernelEntry A) :
  (∀ e0, hoare (grown e0) m (λ _, grown e0) never) → hoare typed m (λ _, typed) E.
Proof.
  intros H e He. pose proof (H e e (grown_refl e (proj1 (proj1 He)))) as H1.
  destruct (m e) as [e' [a|x]]; [|done]. by eapply grown_typed.
Qed.

Abbreviation any := (λ _ : KernelEntry, True).

Lemma at_state_weaken {A} st (P Q : KernelEntry → Prop) (R : A → KernelDoc → Prop) m :
  hoare (at_state st Q) m R E → (∀ e, P e → Q e) → hoare (at_state st P) m R E.
Proof.
  intros H HPQ. apply (hoare_pre _ _ _ _ _ H). intros d [Hx Hs (e & He & Hp)].
  split; [done|done|]. eauto.
Qed.

(** The item made of an entry that satisfies [P] has the shape of its kind. *)
Definition shaped (P : KernelEntry → Prop) (dtype : string) (args : dict pyval) : Prop :=
  ∀ e, P e → kind_ok dtype args (ke_parameterlist e) (ke_parameterdescs e) = true.

Lemma output_declaration_ok st P dtype name args :
  shaped P dtype args →
  hoare (at_state st P) (output_declaration dtype name args) (λ _, at_state st any) E.
Proof.
  intros HS d [Hx Hs (e & He & Hp)]. unfold output_declaration, entry_gets, on_entry. run_ST.
  rewrite He. cbn -[drop_empty fold_left]. split; [|done|by eexists].
  destruct Hx as [Hx Hi]. split; [exact Hx|]. cbn -[drop_empty fold_left].
  apply Forall_app. split; [exact Hi|]. constructor; [exact (HS e Hp)|constructor].
Qed.

Lemma reset_state_ok st P ln :
  hoare (at_state st P) (reset_state ln) (λ _, at_state NORMAL described) E.
Proof.
  unfold reset_state. eapply hoare_seq with (R := at_state st P).
  { intros d Hd. pose proof Hd as [Hx Hs (e & He & Hp)]. unfold emit_unused_warnings. run_ST. rewrite He.
    exact (hoare_for_each E (at_state st P) _ _ (λ x _, hoare_config_warning st P x) d Hd). }
  eapply hoare_bind; [apply hoare_doc_gets|]. intros fname.
  eapply hoare_seq with (R := at_state st described).
  - apply hoare_modify. intros d [Hx Hs _]. split; [done|done|].
    eexists; split; [reflexivity|]. unfold described. cbn. constructor.
  - apply hoare_set_state.
Qed.

Context (HX : ∀ x, xform_error T x → E x).

Create HintDb machine.
#[local] Hint Resolve hoare_set_state hoare_log hoare_emit_info hoare_trim hoare_xforms
  hoare_doc_gets hoare_entry_gets output_declaration_ok : machine.
#[local] Hint Resolve stable_titled stable_typed stable_any stable_described : machine.

(** A message, after which nothing is needed of the entry. *)
Lemma emit_then_any st P ln msg :
  hoare (at_state st P) (emit_msg ln msg) (λ _, at_state st any) E.
Proof. apply (at_state_weaken st P any); [by apply hoare_emit_msg | done]. Qed.
#[local] Hint Resolve emit_then_any : machine.

Lemma typed_identifier e : typed e → is_Some (ke_identifier e).
Proof. by intros ((_ & _ & _ & ?) & _). Qed.
Lemma typed_purpose e : typed e → is_Some (ke_declaration_purpose e).
Proof. by intros (_ & ? & _). Qed.
Lemma typed_decl_type e : typed e → is_Some (ke_decl_type e).
Proof. intros (_ & _ & t & -> & _). by eexists. Qed.
#[local] Hint Resolve typed_identifier typed_purpose typed_decl_type : machine.

(** Reading an attribute that is there, and going on. *)
Lemma read_attr {A B} st P (f : KernelEntry → option A) name (k : A → ST KernelDoc B) R :
  (∀ e, P e → is_Some (f e)) →
  (∀ a, hoare (at_state st P) (k a) R E) →
  hoare (at_state st P) (entry_attr f name ≫= k) R E.
Proof.
  intros Hf Hk. eapply hoare_bind; [by apply hoare_entry_attr|]. intros a.
  apply (at_state_weaken st _ P); [apply Hk | by intros e [_ ?]].
Qed.

Lemma described_has_desc e :
  described e → forallb (has_desc (ke_parameterdescs e)) (ke_parameterlist e) = true.
Proof.
  intros H. apply forallb_forall. intros p Hp%list_elem_of_In. unfold described in H.
  rewrite Forall_forall in H. unfold has_desc.
  destruct (H p Hp) as [[Hd|[Hd|Hd]] _]; by rewrite Hd, ?orb_true_r.
Qed.

Lemma finish st dtype name args :
  (∀ purpose, shaped typed dtype (args purpose)) →
  hoare (at_state st typed)
    (purpose ← entry_attr ke_declaration_purpose "declaration_purpose";
     output_declaration dtype name (args purpose)) (λ _, at_state st any) E.
Proof. intros HS. apply read_attr; auto with machine. Qed.

Lemma on_entry_typed {A} st (m : ST KernelEntry A) :
  (∀ e0, hoare (grown e0) m (λ _, grown e0) never) →
  hoare (at_state st typed) (on_entry m) (λ _, at_state st typed) E.
Proof. intros H. exact (hoare_on_entry st typed (λ _, typed) m (hoare_grown m H)). Qed.

Lemma params_typed st ln decl_type args splitter name :
  hoare (at_state st typed) (on_entry (create_parameter_list ln decl_type args splitter name))
    (λ _, at_state st typed) E.
Proof. apply on_entry_typed. intros. apply create_parameter_list_grown. Qed.
Lemma checks_typed st ln name decl_type :
  hoare (at_state st typed) (on_entry (check_sections ln name decl_type)) (λ _, at_state st typed) E.
Proof. apply on_entry_typed. intros. apply check_sections_grown. Qed.
Lemma return_typed st b ln name ty :
  hoare (at_state st typed) (on_entry (check_return_section b ln name ty)) (λ _, at_state st typed) E.
Proof. apply on_entry_typed. intros. apply check_return_grown. Qed.
#[local] Hint Resolve params_typed checks_typed return_typed : machine.

Lemma struct_kind proto decl_type name members :
  split_struct_proto proto = Some (decl_type, name, members) → decl_type ∈ ["struct"; "union"].
Proof.
  unfold split_struct_proto.
  destruct (re_search re_struct_proto proto) as [m|] eqn:E1.
  { intros [= <- _ _]. apply (search_group_words _ _ _ 1 _ E1); [done|by vm_compute..]. }
  destruct (re_search re_struct_typedef proto) as [m|] eqn:E2; [|done].
  intros [= <- _ _]. apply (search_group_words _ _ _ 1 _ E2); [done|by vm_compute..].
Qed.

Lemma shaped_struct decl_type source definition purpose :
  decl_type ∈ ["struct"; "union"] →
  shaped typed decl_type
    [("source", VStr source); ("definition", VStr definition); ("purpose", VStr purpose)].
Proof.
  intros Hk e ((He%described_has_desc & _) & _).
  apply elem_of_cons in Hk as [->| ->%list_elem_of_singleton]; exact He.
Qed.

Lemma dump_struct_ok st ln proto source :
  hoare (at_state st typed) (dump_struct ln proto source) (λ _, at_state st any) E.
Proof.
  unfold dump_struct. eapply hoare_bind; [auto with machine|]. intros proto'.
  destruct (split_struct_proto proto') as [[[decl_type name] members]|] eqn:Ek; [|auto with machine].
  apply struct_kind in Ek.
  apply read_attr; [auto with machine|]. intros identifier. apply hoare_if; intros _; [auto with machine|].
  eapply hoare_bind; [auto with machine|]. intros members'. cbn beta.
  eapply hoare_bind.
  { apply hoare_lift_ok.
    destruct (rewrite_loop_ok (S (scount is_lbrace members')) members') as (r & Hr & _); [lia|].
    by exists r. }
  intros r. cbn beta. eapply hoare_seq; [auto with machine|]. eapply hoare_seq; [auto with machine|].
  eapply hoare_bind.
  { apply hoare_lift_ok. destruct (format_struct_decl_ok members') as (r' & Hr & _). by exists r'. }
  intros definition. apply (finish st decl_type name (λ purpose,
    [("source", VStr source); ("definition", VStr definition); ("purpose", VStr purpose)])).
  intros purpose. by apply shaped_struct.
Qed.

(** The listed members of an enum are described. *)
Lemma enum_members_described ln name members e :
  described e →
  let e' := fst (enum_members ln name members e) in
  forallb (has_desc (ke_parameterdescs e')) (ke_parameterlist e') = true.
Proof.
  intros He. destruct (enum_members_spec ln name members e)
    as (e' & miss & -> & _ & Hl & _ & Hm & Hd & _). cbv zeta. cbn [fst]. rewrite Hl, Hd.
  apply described_has_desc in He. rewrite forallb_forall in He.
  apply forallb_forall. intros p Hp%list_elem_of_In. unfold has_desc.
  set (D := with_missing _ miss). assert (dmem D p = true ∨ has_desc (ke_parameterdescs e) p = true) as HD.
  { apply elem_of_app in Hp as [Hp|Hp]; [right; by apply He, list_elem_of_In|left].
    apply with_missing_mem. destruct (dmem (ke_parameterdescs e) p) eqn:Ed; [by left|].
    right. by apply Hm. }
  destruct HD as [->|HD]; [done|]. unfold has_desc in HD.
  destruct (dmem (ke_parameterdescs e) p) eqn:Ed.
  - assert (dmem D p = true) as -> by (apply with_missing_mem; by left). done.
  - cbn [orb] in HD. by rewrite <- orb_assoc, HD, orb_true_r.
Qed.

Lemma dump_enum_ok st ln proto source :
  hoare (at_state st typed) (dump_enum ln proto source) (λ _, at_state st any) E.
Proof.
  unfold dump_enum. eapply hoare_bind; [auto with machine|]. intros proto'. cbn beta zeta.
  destruct (split_enum_proto _) as [[name members]|]; [|auto with machine].
  apply read_attr; [auto with machine|]. intros identifier.
  repeat (apply hoare_if; intros _; auto with machine).
  set (listed e := is_Some (ke_declaration_purpose e) ∧
         forallb (has_desc (ke_parameterdescs e)) (ke_parameterlist e) = true).
  eapply hoare_seq with (R := at_state st listed).
  - apply (hoare_on_entry st typed (λ _, listed)). intros e He.
    pose proof (enum_members_described ln (if (name =? "")%string then "(anonymous)" else name) members e
      (proj1 (proj1 He))) as HD.
    destruct (enum_members_spec ln (if (name =? "")%string then "(anonymous)" else name) members e)
      as (e' & miss & Hr & Ha & _). rewrite Hr in HD |- *.
    unfold other_attrs in Ha. injection Ha as _ _ _ _ _ _ _ _ _ _ _ _ _ Hp. split; [|exact HD].
    rewrite Hp. by apply typed_purpose.
  - apply read_attr; [by intros e []|]. intros purpose. apply output_declaration_ok.
    intros e [_ HD]. exact HD.
Qed.

Lemma dump_var_ok st ln proto source :
  hoare (at_state st typed) (dump_var ln proto source) (λ _, at_state st any) E.
Proof.
  unfold dump_var. eapply hoare_bind with (R := λ _, at_state st typed).
  { apply hoare_if; intros _; [auto with machine | by intros d]. }
  intros proto'. cbn beta zeta. destruct (re_match re_var _) as [m|]; cbn beta iota;
    (apply hoare_if; intros _; [auto with machine|]);
    (apply read_attr; [auto with machine|]); intros purpose; by apply output_declaration_ok.
Qed.

Lemma dump_function_ok st ln proto source :
  hoare (at_state st typed) (dump_function ln proto source) (λ _, at_state st any) E.
Proof.
  unfold dump_function. cbn zeta. eapply hoare_bind with (R := λ _, at_state st typed).
  { apply hoare_if; intros _; [by intros d | auto with machine]. }
  intros prototype. eapply hoare_bind with (R := λ _, at_state st typed).
  { destruct (if negb _ then _ else _) as [m|]; [by intros d|].
    destruct (first_match _ _) as [[[ty name] args]|]; [|by intros d].
    eapply hoare_seq; [auto with machine | by intros d]. }
  intros [[[ty name] macro]|]; [|auto with machine].
  apply read_attr; [auto with machine|]. intros identifier. apply hoare_if; intros _; [auto with machine|].
  eapply hoare_seq; [auto with machine|]. eapply hoare_bind; [auto with machine|]. intros cfg. cbn beta.
  eapply hoare_seq; [auto with machine|]. apply read_attr; [auto with machine|]. intros purpose.
  by apply output_declaration_ok.
Qed.

Lemma dump_typedef_ok st ln proto source :
  hoare (at_state st typed) (dump_typedef ln proto source) (λ _, at_state st any) E.
Proof.
  unfold dump_typedef, wrong_typedef. destruct (first_match _ _) as [[[ty name] args]|].
  - cbn zeta. apply read_attr; [auto with machine|]. intros identifier.
    apply hoare_if; intros _; [auto with machine|].
    eapply hoare_seq; [auto with machine|]. apply read_attr; [auto with machine|]. intros purpose.
    by apply output_declaration_ok.
  - destruct (re_match _ _) as [m|]; [|auto with machine].
    cbn zeta. apply read_attr; [auto with machine|]. intros identifier.
    apply hoare_if; intros _; [auto with machine|]. apply read_attr; [auto with machine|].
    intros purpose. by apply output_declaration_ok.
Qed.

Lemma decl_dispatch t :
  t ∈ decl_types → (t =? "enum")%string = false → (t =? "typedef")%string = false →
  smem t ["union"; "struct"] = false → (t =? "var")%string = false → t = "function".
Proof.
  unfold decl_types. rewrite !elem_of_cons, elem_of_nil.
  intros [->|[->|[->|[->|[->|[->|[]]]]]]] H1 H2 H3 H4; try reflexivity; exfalso;
    [vm_compute in H3 | vm_compute in H3 | vm_compute in H1 | vm_compute in H2 | vm_compute in H4];
    discriminate.
Qed.

(** The last branch of [dump_declaration] is reached for functions only. *)
Lemma dump_declaration_ok st (P : KernelEntry → Prop) ln proto source :
  (∀ e, P e → typed e) → (E (AttributeError "emit_message") ∨ ∀ e, P e → ke_decl_type e ≠ Some "function") →
  hoare (at_state st P) (dump_declaration ln proto source) (λ _, at_state st any) E.
Proof.
  intros HP HF. unfold dump_declaration.
  eapply hoare_bind; [apply hoare_entry_attr; auto with machine|]. intros t. cbn beta.
  pose proof dump_enum_ok as H1. pose proof dump_typedef_ok as H2.
  pose proof dump_struct_ok as H3. pose proof dump_var_ok as H4.
  repeat (apply hoare_if; intros ?; [eapply at_state_weaken; [auto|]; by intros e [_ ?%HP]|]).
  destruct HF as [HF|HF]; [by apply hoare_raise|].
  intros d [_ _ (e & _ & Ht & Hp)]. exfalso. specialize (HF e Hp).
  destruct (HP e Hp) as (_ & _ & u & Hu & Hin). rewrite Ht in Hu. injection Hu as <-.
  apply HF. rewrite Ht. f_equal. by apply decl_dispatch.
Qed.

(** *** The handlers *)

(** What the handler of a state needs of the entry. *)
Definition needs (st : state) : KernelEntry → Prop :=
  match st with
  | NORMAL => any
  | NAME => described
  | DOCBLOCK => titled
  | _ => typed
  end.
(** The object between two lines, in one of the states [l]. *)
Definition ready (l : list state) (d : KernelDoc) : Prop :=
  static d ∧ kd_state d ∈ l ∧
  (kd_state d = NORMAL ∨ ∃ e, kd_entry d = Some e ∧ needs (kd_state d) e).

Lemma at_state_ready st P l d :
  at_state st P d → st ∈ l → (∀ e, P e → needs st e) → ready l d.
Proof.
  intros [Hx Hs (e & He & Hp)] Hin HP. split; [done|]. rewrite Hs. split; [done|].
  right. exists e. auto.
Qed.

Lemma to_ready {A} (Pre : KernelDoc → Prop) st P l (m : ST KernelDoc A) :
  hoare Pre m (λ _, at_state st P) E → st ∈ l → (∀ e, P e → needs st e) →
  hoare Pre m (λ _, ready l) E.
Proof. intros H Hin HP. apply (hoare_post _ _ _ _ _ H). intros _ d Hd. by eapply at_state_ready. Qed.

Lemma hoare_exists {A B} (P : B → KernelDoc → Prop) (m : ST KernelDoc A) Q :
  (∀ x, hoare (P x) m Q E) → hoare (λ d, ∃ x, P x d) m Q E.
Proof. intros H d [x Hx]. by apply (H x d). Qed.

Lemma stay {A} st l (a : A) P :
  st ∈ l → (∀ e, P e → needs st e) → hoare (at_state st P) (mret a) (λ _, ready l) E.
Proof. intros Hin HP d Hd. by eapply at_state_ready. Qed.

(** Assignments to the attributes of the entry. *)
Lemma hoare_assign st (P Q : KernelEntry → Prop) f :
  (∀ e, P e → Q (f e)) → hoare (at_state st P) (on_entry (modify f)) (λ _, at_state st Q) E.
Proof. intros H. apply (hoare_on_entry st P (λ _, Q)). by apply hoare_modify. Qed.

Lemma begin_section_ok st (P Q : KernelEntry → Prop) n title :
  (∀ e, P e → Q (upd_new_start_line (λ _, Some n) (upd_section (λ _, Some title) e))) →
  hoare (at_state st P) (on_entry (begin_section n title false)) (λ _, at_state st Q) E.
Proof. intros H. apply (hoare_on_entry st P (λ _, Q)). intros e He. cbn. by apply H. Qed.

Lemma typed_begin st n title :
  hoare (at_state st typed) (on_entry (begin_section n title false)) (λ _, at_state st typed) E.
Proof.
  apply begin_section_ok. intros e ((H1 & H2 & H3 & H4) & H5 & H6).
  split; [split; [exact H1|split; [by eexists|split; [by eexists|done]]]|done].
Qed.
Lemma typed_text st text :
  hoare (at_state st typed) (on_entry (add_text text)) (λ _, at_state st typed) E.
Proof. by apply hoare_assign. Qed.
Lemma typed_prototype st f :
  hoare (at_state st typed) (on_entry (modify (upd_prototype f))) (λ _, at_state st typed) E.
Proof. by apply hoare_assign. Qed.
Lemma typed_set_prototype st s :
  hoare (at_state st typed) (set_prototype s) (λ _, at_state st typed) E.
Proof. apply typed_prototype. Qed.
Lemma typed_brcount st f :
  hoare (at_state st typed) (on_entry (modify (upd_brcount f))) (λ _, at_state st typed) E.
Proof. by apply hoare_assign. Qed.
Lemma typed_leading st f :
  hoare (at_state st typed) (on_entry (modify (upd_leading_space f))) (λ _, at_state st typed) E.
Proof. by apply hoare_assign. Qed.
Lemma typed_line st n :
  hoare (at_state st typed) (on_entry (assign_new_start_line n)) (λ _, at_state st typed) E.
Proof.
  apply hoare_assign. intros e ((H1 & H2 & H3 & H4) & H5 & H6).
  split; [split; [exact H1|split; [done|split; [by eexists|done]]]|done].
Qed.
Lemma typed_purpose_set st s :
  hoare (at_state st typed) (set_purpose s) (λ _, at_state st typed) E.
Proof.
  apply hoare_assign. intros e (H1 & H5 & H6). split; [exact H1|split; [by eexists|done]].
Qed.
Lemma typed_identifier_set st s :
  hoare (at_state st typed) (set_identifier s) (λ _, at_state st typed) E.
Proof.
  apply hoare_assign. intros e ((H1 & H2 & H3 & H4) & H5 & H6).
  split; [split; [exact H1|split; [done|split; [done|by eexists]]]|done].
Qed.
Lemma typed_dump st : hoare (at_state st typed) dump_section (λ _, at_state st typed) E.
Proof. apply hoare_dump_section, dump_section_typed. Qed.
Lemma typed_msg st ln msg : hoare (at_state st typed) (emit_msg ln msg) (λ _, at_state st typed) E.
Proof. apply hoare_emit_msg, stable_typed. Qed.
#[local] Hint Resolve typed_begin typed_text typed_prototype typed_set_prototype typed_brcount
  typed_leading typed_line typed_purpose_set typed_identifier_set typed_dump typed_msg : machine.

Lemma process_normal_ok ln line source :
  hoare (ready [NORMAL]) (process_normal ln line source) (λ _, ready [NORMAL; NAME]) E.
Proof.
  set (normal d := static d ∧ kd_state d = NORMAL).
  unfold process_normal. apply hoare_if; intros _.
  - apply (hoare_pre _ _ normal); [|by intros d (Hx & Hs%list_elem_of_singleton & _)].
    apply (to_ready _ NAME described); [|by right; left|done].
    unfold reset_state. eapply hoare_seq with (R := at_state NORMAL described); [|apply hoare_set_state].
    eapply hoare_seq with (R := normal).
    + unfold emit_unused_warnings.
      eapply hoare_bind with (R := λ _, normal); [by intros d|]. intros [e|]; [|by intros d].
      apply hoare_for_each. intros w _. by intros d.
    + eapply hoare_bind with (R := λ _, normal); [by intros d|]. intros fname.
      eapply hoare_seq with (R := at_state NORMAL described); [|apply hoare_set_state].
      apply hoare_modify. intros d [Hx Hs]. split; [done|done|].
      eexists; split; [reflexivity|]. unfold described. cbn. constructor.
  - intros d (Hx & Hs%list_elem_of_singleton & _). split; [done|]. rewrite Hs.
    split; [by left|by left].
Qed.

(** *** [process_name] *)

(** The entry once its kind is known. *)
Definition kinded (e : KernelEntry) : Prop :=
  described e ∧ is_Some (ke_identifier e) ∧ ∃ t, ke_decl_type e = Some t ∧ t ∈ decl_types.

Lemma begin_entry_ok ln line l :
  BODY ∈ l → DECLARATION ∈ l → NORMAL ∈ l →
  hoare (at_state NAME kinded) (begin_entry ln line) (λ _, ready l) E.
Proof.
  intros HB HD HN. unfold begin_entry. eapply hoare_seq; [apply hoare_set_state|].
  apply read_attr; [by intros e (_ & ? & _)|]. intros identifier.
  eapply hoare_seq with (R := at_state BODY kinded).
  { apply hoare_assign. intros e (H1 & H2 & H3). by split; [|split; [by eexists|]]. }
  set (begun e := titled e ∧ ∃ t, ke_decl_type e = Some t ∧ t ∈ decl_types).
  eapply hoare_seq with (R := at_state BODY begun).
  { apply begin_section_ok. intros e (H1 & H2 & H3). split; [|done].
    split; [exact H1|split; [by eexists|split; [by eexists|done]]]. }
  assert (∀ st s, hoare (at_state st begun) (set_purpose s) (λ _, at_state st typed) E) as HP.
  { intros st s. apply hoare_assign. intros e [H1 H2]. split; [exact H1|split; [by eexists|done]]. }
  eapply hoare_seq with (R := λ d, ∃ st, (st ∈ l ∧ needs st = typed) ∧ at_state st typed d).
  { destruct (re_search re_purpose line) as [m|].
    - eapply hoare_seq; [apply HP|]. apply (hoare_post _ _ _ _ _ (hoare_set_state _ _ _)).
      intros _ d Hd. by exists DECLARATION.
    - apply (hoare_post _ _ _ _ _ (HP _ _)). intros _ d Hd. by exists BODY. }
  apply hoare_exists. intros st. apply hoare_pure. intros [Hst Hn].
  apply read_attr; [auto with machine|]. intros purpose.
  eapply hoare_bind; [auto with machine|]. intros cfg. cbn beta.
  eapply hoare_seq; [apply hoare_when; auto with machine|].
  apply read_attr; [auto with machine|]. intros identifier'.
  apply read_attr; [auto with machine|]. intros decl_type.
  assert (∀ st', hoare (at_state st' typed)
    (when (verbose cfg) (emit_info ln ("Scanning doc for " +:+ decl_type +:+ " " +:+ identifier')))
    (λ _, at_state st' typed) E) as HV by (intros; apply hoare_when; auto with machine).
  unfold when at 1. destruct ((identifier' =? "")%string && _).
  - eapply hoare_seq with (R := at_state NORMAL typed).
    + eapply hoare_seq; [auto with machine|]. apply hoare_set_state.
    + by apply (to_ready _ NORMAL typed).
  - eapply hoare_seq with (R := at_state st typed); [by intros d|].
    apply (to_ready _ st typed); [done|done|]. by rewrite Hn.
Qed.

Lemma data_kinds line m : re_search doc_begin_data line = Some m → group_or m 1 ∈ decl_types.
Proof.
  intros Hm. assert (group_or m 1 ∈ ["struct"; "union"; "enum"; "typedef"; "var"]) as Hin
    by (apply (search_group_words _ _ _ 1 _ Hm); [done|by vm_compute..]).
  revert Hin. clear. unfold decl_types. rewrite !elem_of_cons, elem_of_nil. tauto.
Qed.

Lemma process_name_ok ln line source :
  hoare (at_state NAME described) (process_name ln line source)
    (λ _, ready [NAME; DOCBLOCK; BODY; DECLARATION; NORMAL]) E.
Proof.
  unfold process_name. destruct (re_search doc_block line) as [m|].
  { cbn zeta. set (sect e := described e ∧ is_Some (ke_section e) ∧ is_Some (ke_new_start_line e)).
    eapply hoare_seq with (R := at_state NAME sect).
    { apply begin_section_ok. intros e H. split; [exact H|]. split; by eexists. }
    apply read_attr; [by intros e (_ & ? & _)|]. intros title.
    apply (to_ready _ DOCBLOCK titled); [|in_list|done].
    eapply hoare_seq with (R := at_state NAME titled); [|apply hoare_set_state].
    apply hoare_assign. intros e (H1 & H2 & H3). split; [exact H1|]. by split; [|split; [|by eexists]]. }
  destruct (re_search doc_decl line) as [m|].
  2:{ apply (to_ready _ NAME described); [|in_list|done]. apply hoare_emit_msg, stable_described. }
  set (named e := described e ∧ is_Some (ke_identifier e)).
  eapply hoare_seq with (R := at_state NAME named).
  { apply hoare_assign. intros e H. split; [exact H|by eexists]. }
  destruct (re_search doc_begin_data line) as [m1|] eqn:Em.
  { eapply hoare_seq with (R := at_state NAME kinded).
    { apply hoare_assign. intros e [H1 H2]. split; [exact H1|]. split; [done|].
      eexists; split; [reflexivity|]. by eapply data_kinds. }
    eapply hoare_seq with (R := at_state NAME kinded).
    { apply hoare_assign. intros e (H1 & H2 & H3). by split; [|split; [by eexists|]]. }
    apply begin_entry_ok; in_list. }
  destruct (re_search doc_begin_func line) as [m1|].
  { eapply hoare_seq with (R := at_state NAME named).
    { apply hoare_assign. intros e [H1 H2]. split; [exact H1|by eexists]. }
    eapply hoare_seq with (R := at_state NAME kinded).
    { apply hoare_assign. intros e [H1 H2]. split; [exact H1|]. split; [done|].
      eexists; split; [reflexivity|]. unfold decl_types. in_list. }
    apply begin_entry_ok; in_list. }
  apply (to_ready _ NORMAL any); [|in_list|done].
  eapply hoare_seq; [auto with machine | apply hoare_set_state].
Qed.

(** *** The comment *)

Lemma new_section_ok name :
  name ≠ "" → ∃ title st, new_section name = Ok (title, st) ∧ (st = BODY ∨ st = SPECIAL_SECTION).
Proof.
  intros Hn. unfold new_section.
  destruct (_ =? "description")%string; [eauto 6|]. destruct (_ =? "context")%string; [eauto 6|].
  destruct (smem _ _); [eauto 6|]. destruct name as [|c name]; [done|].
  destruct (c =? "@")%char; eauto 6.
Qed.

Lemma sect_name_nonempty line m : re_search doc_sect line = Some m → group_or m 1 ≠ "".
Proof.
  intros Hm%re_search_ok. destruct (group_always _ _ _ Hm 1) as [t Ht]; [by vm_compute|].
  assert (1 ≤ String.length t) as Hl by (apply (group_min_len _ _ _ Hm 1 1 t); [by vm_compute|done|done]).
  unfold group_or. rewrite Ht. cbn [default from_option id]. clear -Hl. destruct t; [simpl in Hl; lia|done].
Qed.

Lemma is_new_section_ok st ln line :
  hoare (at_state st typed) (is_new_section ln line)
    (λ b d, if b : bool then ∃ st', (st' = BODY ∨ st' = SPECIAL_SECTION) ∧ at_state st' typed d
            else at_state st typed d) E.
Proof.
  unfold is_new_section. destruct (re_search doc_sect line) as [m|] eqn:Em; [|by intros d].
  eapply hoare_seq; [apply hoare_set_state|].
  destruct (new_section_ok _ (sect_name_nonempty _ _ Em)) as (title & st' & -> & Hst').
  eapply hoare_bind with (R := λ sec d, sec = (title, st') ∧ at_state BODY typed d); [by intros d|].
  intros sec. apply hoare_pure. intros ->. cbn [fst snd].
  eapply hoare_seq; [apply hoare_set_state|]. cbn zeta.
  do 4 (eapply hoare_seq; [auto with machine|]).
  intros d Hd. by exists st'.
Qed.

Lemma is_comment_end_ok st ln line :
  hoare (at_state st typed) (is_comment_end ln line)
    (λ b, if b : bool then at_state PROTO typed else at_state st typed) E.
Proof.
  unfold is_comment_end. apply hoare_if; intros _; [|by intros d].
  eapply hoare_seq; [auto with machine|]. eapply hoare_seq; [apply hoare_when; auto with machine|].
  do 2 (eapply hoare_seq; [auto with machine|]).
  eapply hoare_seq; [apply hoare_set_state|]. by intros d.
Qed.

Lemma unless_ok st l ln line m :
  BODY ∈ l → SPECIAL_SECTION ∈ l → PROTO ∈ l →
  hoare (at_state st typed) m (λ _, ready l) E →
  hoare (at_state st typed) (unless_section_or_end ln line m) (λ _, ready l) E.
Proof.
  intros H1 H2 H3 Hm. unfold unless_section_or_end.
  eapply hoare_bind; [apply is_new_section_ok|]. intros [].
  - intros d (st' & [->| ->] & Hd); by apply (at_state_ready _ typed l d Hd).
  - eapply hoare_bind; [apply is_comment_end_ok|]. intros []; [|exact Hm].
    by apply stay.
Qed.

Lemma process_decl_ok ln line source :
  hoare (at_state DECLARATION typed) (process_decl ln line source)
    (λ _, ready [DECLARATION; BODY; SPECIAL_SECTION; PROTO]) E.
Proof.
  apply unless_ok; [in_list..|]. destruct (re_search doc_content line) as [m|].
  - cbn zeta. apply hoare_if; intros _.
    + apply (to_ready _ BODY typed); [apply hoare_set_state|in_list|done].
    + apply (to_ready _ DECLARATION typed); [|in_list|done].
      apply read_attr; auto with machine.
  - apply (to_ready _ DECLARATION typed); [|in_list|done]. unfold bad_line. auto with machine.
Qed.

Lemma process_body_ok ln line source :
  hoare (at_state BODY typed) (process_body ln line source)
    (λ _, ready [BODY; SPECIAL_SECTION; PROTO]) E.
Proof.
  apply unless_ok; [in_list..|]. apply (to_ready _ BODY typed); [|in_list|done].
  unfold bad_line. destruct (re_search doc_content line); auto with machine.
Qed.

Lemma blank_prefix_error cont n x : blank_prefix cont n = Raise x → x = IndexError.
Proof.
  revert cont. induction n as [|n IH]; intros [|c cont]; cbn [blank_prefix]; try done.
  - by intros [= <-].
  - destruct (negb _); [done|]. destruct (blank_prefix cont n) eqn:Eb; [done|].
    intros [= <-]. by apply (IH cont).
Qed.

Lemma process_special_ok ln line source :
  E IndexError →
  hoare (at_state SPECIAL_SECTION typed) (process_special ln line source)
    (λ _, ready [SPECIAL_SECTION; BODY; PROTO]) E.
Proof.
  intros HE. unfold process_special. apply hoare_if; intros _.
  - apply (to_ready _ BODY typed); [|in_list|done].
    eapply hoare_seq with (R := at_state SPECIAL_SECTION typed); [|apply hoare_set_state].
    apply (hoare_on_entry _ typed (λ _, typed)). unfold begin_section. cbn [when].
    eapply hoare_seq; [apply dump_section_typed|]. intros e ((H1 & H2 & H3 & H4) & H5 & H6). cbn.
    split; [split; [exact H1|split; [by eexists|split; [by eexists|done]]]|done].
  - apply unless_ok; [in_list..|]. apply (to_ready _ SPECIAL_SECTION typed); [|in_list|done].
    unfold bad_line. destruct (re_search doc_content line) as [m|]; [|auto with machine].
    apply (hoare_on_entry _ typed (λ _, typed)). intros e He. unfold add_special. run_ST.
    destruct (blank_prefix _ _) as [k|x] eqn:Eb; [exact He|].
    by apply blank_prefix_error in Eb as ->.
Qed.

Lemma process_docblock_ok ln line source :
  hoare (at_state DOCBLOCK titled) (process_docblock ln line source)
    (λ _, ready [DOCBLOCK; NORMAL]) E.
Proof.
  unfold process_docblock. apply hoare_if; intros _.
  - apply (to_ready _ NORMAL described); [|in_list|done].
    eapply hoare_seq; [apply hoare_dump_section, dump_section_titled|].
    apply read_attr; [by intros e (_ & _ & _ & ?)|]. intros identifier.
    eapply hoare_seq; [by apply output_declaration_ok|]. apply reset_state_ok.
  - apply (to_ready _ DOCBLOCK titled); [|in_list|done].
    destruct (re_search doc_content line) as [m|]; [|by intros d]. by apply hoare_assign.
Qed.

(** *** Prototypes *)

Lemma tracepoint_ok st ln proto :
  hoare (at_state st typed) (tracepoint_munge ln proto) (λ _, at_state st typed) E.
Proof.
  unfold tracepoint_munge. cbn zeta. apply hoare_if; intros _.
  - eapply hoare_seq; [auto with machine | by intros d].
  - apply read_attr; [auto with machine|]. intros identifier.
    eapply hoare_seq; [auto with machine | by intros d].
Qed.

Lemma process_proto_function_ok st ln line source l :
  st ∈ l → NORMAL ∈ l → needs st = typed →
  hoare (at_state st typed) (process_proto_function ln line source) (λ _, ready l) E.
Proof.
  intros Hst HN Hn. unfold process_proto_function. cbn zeta.
  eapply hoare_seq with (R := at_state st typed).
  { apply hoare_if; intros _; [auto with machine|]. apply hoare_if; intros _; [|by intros d].
    destruct (re_match re_until_brace _); [auto with machine | by intros d]. }
  apply hoare_if; intros _; [|by apply stay; [|rewrite Hn]].
  apply (to_ready _ NORMAL described); [|done|done].
  eapply hoare_bind; [apply hoare_entry_gets|]. intros prototype. cbn beta.
  eapply hoare_seq; [auto with machine|]. eapply hoare_seq with (R := at_state st typed).
  { apply hoare_if; intros _; [auto with machine|]. apply hoare_if; intros _; [|by intros d].
    eapply hoare_bind; [apply tracepoint_ok|]. intros p. cbn beta. auto with machine. }
  eapply hoare_bind; [apply hoare_entry_gets|]. intros p. cbn beta.
  eapply hoare_seq; [apply dump_function_ok | apply reset_state_ok].
Qed.

Definition not_function (e : KernelEntry) : Prop := ke_decl_type e ≠ Some "function".

Lemma proto_chunks_ok (P : KernelEntry → Prop) ln source chunks :
  (∀ e, P e → typed e) → (E (AttributeError "emit_message") ∨ ∀ e, P e → not_function e) →
  (∀ f e, P e → P (upd_prototype f e)) → (∀ f e, P e → P (upd_brcount f e)) →
  hoare (at_state PROTO P) (proto_chunks ln source chunks) (λ _, ready [PROTO; NORMAL]) E.
Proof.
  intros HT HF HP HB. assert (∀ f, hoare (at_state PROTO P) (on_entry (modify (upd_prototype f)))
    (λ _, at_state PROTO P) E) as Hpr by (intros f; apply hoare_assign; auto).
  assert (∀ f, hoare (at_state PROTO P) (on_entry (modify (upd_brcount f)))
    (λ _, at_state PROTO P) E) as Hbr by (intros f; apply hoare_assign; auto).
  induction chunks as [|[[|c chunk]|] chunks IH]; cbn [proto_chunks]; [| exact IH | |exact IH].
  { apply (to_ready _ PROTO P); [apply Hpr|by left|exact HT]. }
  eapply hoare_seq; [apply Hpr|].
  apply hoare_if; intros _; [eapply hoare_seq; [apply Hbr | exact IH]|].
  apply hoare_if; intros _; [eapply hoare_seq; [apply Hbr | exact IH]|].
  eapply hoare_bind; [apply hoare_entry_gets|]. intros brcount. cbn beta.
  apply hoare_if; intros _; [|exact IH].
  eapply hoare_bind; [apply hoare_entry_gets|]. intros prototype. cbn beta.
  apply (to_ready _ NORMAL described); [|by right; left|done].
  eapply hoare_seq; [by apply (dump_declaration_ok PROTO P) | apply reset_state_ok].
Qed.

Lemma process_proto_type_ok (P : KernelEntry → Prop) ln line source :
  (∀ e, P e → typed e) → (E (AttributeError "emit_message") ∨ ∀ e, P e → not_function e) →
  (∀ f e, P e → P (upd_prototype f e)) → (∀ f e, P e → P (upd_brcount f e)) →
  hoare (at_state PROTO P) (process_proto_type ln line source) (λ _, ready [PROTO; NORMAL]) E.
Proof.
  intros HT HF HP HB. unfold process_proto_type. cbn zeta. apply hoare_if; intros _.
  - apply stay; [by left|exact HT].
  - by apply proto_chunks_ok.
Qed.

Lemma ready_weaken {A} Pre (m : ST KernelDoc A) l l' :
  hoare Pre m (λ _, ready l) E → (∀ x, x ∈ l → x ∈ l') → hoare Pre m (λ _, ready l') E.
Proof.
  intros H Hl. apply (hoare_post _ _ _ _ _ H). intros _ d (H1 & H2 & H3). split; [done|]. auto.
Qed.

Lemma process_proto_ok ln line source :
  hoare (at_state PROTO typed) (process_proto ln line source)
    (λ _, ready [PROTO; INLINE_NAME; NORMAL]) E.
Proof.
  unfold process_proto. destruct (re_search doc_inline_oneline line) as [m|].
  { apply (to_ready _ PROTO typed); [|by left|done].
    do 2 (eapply hoare_seq; [auto with machine|]). auto with machine. }
  apply hoare_if; intros _.
  { apply (to_ready _ INLINE_NAME typed); [apply hoare_set_state|in_list|done]. }
  eapply hoare_bind; [apply hoare_entry_attr; auto with machine|]. intros t. cbn beta.
  destruct (String.eqb_spec t "function") as [->|Ht].
  - apply (at_state_weaken _ _ typed); [|by intros e [_ ?]].
    by apply process_proto_function_ok; [left|in_list|].
  - apply (ready_weaken _ _ [PROTO; NORMAL]); [|state_incl].
    apply process_proto_type_ok.
    + by intros e [_ ?].
    + right. intros e [He _]. unfold not_function. congruence.
    + done.
    + done.
Qed.

Lemma process_inline_name_ok ln line source :
  E (AttributeError "emit_message") →
  hoare (at_state INLINE_NAME typed) (process_inline_name ln line source)
    (λ _, ready [INLINE_NAME; INLINE_TEXT; PROTO; NORMAL]) E.
Proof.
  intros HE. unfold process_inline_name. destruct (re_search doc_inline_sect line) as [m|].
  { apply (to_ready _ INLINE_TEXT typed); [|in_list|done].
    do 2 (eapply hoare_seq; [auto with machine|]). apply hoare_set_state. }
  apply hoare_if; intros _.
  { apply (to_ready _ PROTO typed); [|in_list|done].
    eapply hoare_seq; [auto with machine|]. apply hoare_set_state. }
  apply hoare_if; intros _; [|apply stay; [by left|done]].
  eapply hoare_seq; [auto with machine|]. eapply hoare_seq; [apply hoare_set_state|].
  apply (ready_weaken _ _ [PROTO; NORMAL]); [|state_incl].
  apply (process_proto_type_ok typed); auto.
Qed.

Lemma process_inline_text_ok ln line source :
  hoare (at_state INLINE_TEXT typed) (process_inline_text ln line source)
    (λ _, ready [INLINE_TEXT; PROTO]) E.
Proof.
  unfold process_inline_text. apply hoare_if; intros _.
  - apply (to_ready _ PROTO typed); [|in_list|done].
    eapply hoare_seq; [auto with machine|]. apply hoare_set_state.
  - apply (to_ready _ INLINE_TEXT typed); [|by left|done].
    destruct (re_search doc_content line); [auto with machine | by intros d].
Qed.
End Machine.

(** ** The whole machine *)

(** The states a handler can lead to. *)
Definition allowed (st : state) : list state :=
  match st with
  | NORMAL => [NORMAL; NAME]
  | NAME => [NAME; DOCBLOCK; BODY; DECLARATION; NORMAL]
  | DECLARATION => [DECLARATION; BODY; SPECIAL_SECTION; PROTO]
  | BODY => [BODY; SPECIAL_SECTION; PROTO]
  | SPECIAL_SECTION => [SPECIAL_SECTION; BODY; PROTO]
  | PROTO => [PROTO; INLINE_NAME; NORMAL]
  | DOCBLOCK => [DOCBLOCK; NORMAL]
  | INLINE_NAME => [INLINE_NAME; INLINE_TEXT; PROTO; NORMAL]
  | INLINE_TEXT => [INLINE_TEXT; PROTO]
  end.

(** The exceptions a handler can raise. *)
Definition step_error (T : dict (list (xsearch * string))) (st : state) (x : exn) : Prop :=
  match st with
  | PROTO => xform_error T x
  | INLINE_NAME => xform_error T x ∨ x = AttributeError "emit_message"
  | SPECIAL_SECTION => x = IndexError
  | _ => False
  end.
Definition parse_error (T : dict (list (xsearch * string))) (x : exn) : Prop :=
  xform_error T x ∨ x = AttributeError "emit_message" ∨ x = IndexError.

Lemma step_parse_error T st x : step_error T st x → parse_error T x.
Proof. unfold parse_error. destruct st; cbn; tauto. Qed.

Lemma ready_at T st d : st ≠ NORMAL → ready T [st] d → at_state T st (needs st) d.
Proof.
  intros Hst (Hx & Hs%list_elem_of_singleton & He). subst st.
  destruct He as [He|(e & He & Hp)]; [done|]. split; [done|done|]. by exists e.
Qed.

Lemma handler_ok T st ln line source :
  hoare (ready T [st]) (state_actions st ln line source) (λ _, ready T (allowed st)) (step_error T st).
Proof.
  destruct (decide (st = NORMAL)) as [->|Hst]; [apply process_normal_ok|].
  eapply hoare_pre; [|intros d Hd; exact (ready_at T st d Hst Hd)].
  destruct st; cbn [state_actions needs allowed]; try done.
  - apply process_name_ok.
  - apply process_decl_ok.
  - apply process_body_ok.
  - by apply process_special_ok.
  - by apply process_proto_ok.
  - apply process_docblock_ok.
  - apply process_inline_name_ok; cbn; auto.
  - apply process_inline_text_ok.
Qed.

Definition all_states : list state :=
  [NORMAL; NAME; DECLARATION; BODY; SPECIAL_SECTION; PROTO; DOCBLOCK; INLINE_NAME; INLINE_TEXT].

Lemma in_all_states st : st ∈ all_states.
Proof. destruct st; unfold all_states; rewrite !elem_of_cons; tauto. Qed.

Lemma hoare_error_weaken {S A} (P : S → Prop) (m : ST S A) Q (E E' : exn → Prop) :
  hoare P m Q E → (∀ x, E x → E' x) → hoare P m Q E'.
Proof. intros H HE s Hs. specialize (H s Hs). destruct (m s) as [s' [a|x]]; auto. Qed.

Lemma parse_whole_line_ok T st v ln line :
  hoare (ready T [st]) (parse_whole_line v ln line)
    (λ v' d, l_prev v' = l_prev v ∧ l_prev_ln v' = l_prev_ln v ∧ ready T (allowed st) d)
    (step_error T st).
Proof.
  intros d Hd. pose proof Hd as (_ & Hs%list_elem_of_singleton & _).
  unfold parse_whole_line. run_ST. rewrite Hs.
  set (source := if kd_store_src d then _ else _).
  pose proof (handler_ok T st ln line source d Hd) as H.
  assert (match state_actions st ln line source d with
    | (s', Ok _) => ready T (allowed st) s' | (_, Raise x) => step_error T st x end →
    match (let (s', r) := state_actions st ln line source d in
      match r with
      | Ok _ => (s', Ok (Locals (l_prev v) (l_prev_ln v) (l_export_table v)
          (if bool_decide (st = NORMAL) && negb (bool_decide (kd_state s' = NORMAL))
           then source +:+ line +:+ nl else source)))
      | Raise e => (s', Raise e) end) with
    | (s', Ok v') => l_prev v' = l_prev v ∧ l_prev_ln v' = l_prev_ln v ∧ ready T (allowed st) s'
    | (_, Raise x) => step_error T st x end) as HK.
  { destruct (state_actions st ln line source d) as [s' [a|x]]; auto. }
  destruct (bool_decide (st = NORMAL)) eqn:EN.
  - unfold process_export. destruct (export_name line) as [symbol|].
    + cbn. bool_facts. split; [done|]. split; [done|]. destruct Hd as (H1 & _ & H3).
      split; [done|]. rewrite EN in Hs |- *. rewrite Hs. split; [by left|by left].
    + cbv beta iota. specialize (HK H). revert HK.
      destruct (state_actions st ln line source d) as [s' [a|x]]; auto.
  - cbv beta iota. specialize (HK H). revert HK.
    destruct (state_actions st ln line source d) as [s' [a|x]]; auto.
Qed.

(** A group of continuation lines knows where it starts. *)
Definition locals_ok (v : locals) : Prop := l_prev v ≠ "" → is_Some (l_prev_ln v).

Lemma parse_line_ok T v x :
  hoare (λ d, locals_ok v ∧ ready T all_states d) (parse_line v x)
    (λ v' d, locals_ok v' ∧ ready T all_states d) (parse_error T).
Proof.
  intros d [Hv (Hx & _ & He)]. destruct x as [ln line]. unfold parse_line. cbn zeta.
  set (line' := strip_char NL (expandtabs line)).
  assert (Hd : ready T [kd_state d] d) by (split; [done|split; [by left|done]]).
  assert (∀ v0 n l, locals_ok v0 →
    match parse_whole_line v0 n l d with
    | (s', Ok v') => locals_ok v' ∧ ready T all_states s' | (_, Raise x) => parse_error T x end) as HW.
  { intros v0 n l Hv0. pose proof (parse_whole_line_ok T (kd_state d) v0 n l d Hd) as H.
    destruct (parse_whole_line v0 n l d) as [s' [v'|e]]; [|by eapply step_parse_error].
    destruct H as (H1 & H2 & H3 & H4 & H5). split; [unfold locals_ok; by rewrite H1, H2|].
    split; [done|]. split; [apply in_all_states | done]. }
  unfold mbind, ST_bind, gets. cbv beta iota.
  destruct (bool_decide (kd_state d = PROTO)); [|by apply HW].
  destruct (endswith "\" line').
  - cbn. split; [|split; [done|split; [apply in_all_states|done]]].
    intros _. cbn. destruct (l_prev_ln v) as [[|n]|]; by eexists.
  - destruct (String.eqb_spec (l_prev v) "") as [E|Hne]; cbn [negb]; [by apply HW|].
    destruct (Hv Hne) as [n ->]. apply HW. by intros [].
Qed.

Lemma for_acc_hoare {A B} (P : A → KernelDoc → Prop) (E : exn → Prop) (l : list B) body :
  (∀ a x, hoare (P a) (body a x) P E) → ∀ a, hoare (P a) (for_acc l a body) P E.
Proof. intros H a. by apply hoare_for_acc. Qed.

Lemma parse_kdoc_ok T contents :
  hoare (static T) (parse_kdoc contents)
    (λ _, ready T all_states) (parse_error T).
Proof.
  unfold parse_kdoc. eapply hoare_seq with (R := ready T all_states).
  { apply hoare_modify. intros d Hx. split; [done|]. cbn. split; [apply in_all_states|by left]. }
  destruct contents as [text|].
  - eapply hoare_bind with (R := λ v d, locals_ok v ∧ ready T all_states d).
    + eapply hoare_pre; [apply (for_acc_hoare (λ v d, locals_ok v ∧ ready T all_states d))|].
      * intros v x. apply parse_line_ok.
      * intros d Hd. split; [by intros ?|done].
    + intros v. eapply hoare_seq with (R := ready T all_states); [|by intros d].
      unfold emit_unused_warnings. eapply hoare_pre with (P' := ready T all_states); [|by intros d []].
      eapply hoare_bind with (R := λ _, ready T all_states); [by intros d|]. intros [e|]; [|by intros d].
      apply hoare_for_each. intros w _ d Hd. exact Hd.
  - eapply hoare_bind with (R := λ _, ready T all_states); [by intros d|]. intros fname.
    eapply hoare_seq with (R := ready T all_states); [by intros d|by intros d].
Qed.
