(* ===== verification/KdocSpec.v ===== *)
(** * KdocSpec: what the parser promises

    The properties of the parser, each with a concrete instance where it has
    hypotheses. *)

From S2P Require Import Prelude PyStr PyRe PyReSyntax PyReTheory KdocRe CLex Xforms.
From S2P Require Import KdocItem KdocEntry KdocParams KdocStruct KdocLoops KdocParamsTheory.
From S2P Require Import KdocDump KdocDumpTheory KdocProcess KdocMachine.

(** ** The state machine *)

(** C6 One line, in any state: if the entry has what the state needs and the
    items stored so far are well formed, the handler of that state ends, moves
    along the edges of the state diagram and leaves an entry that has what the
    new state needs and well-formed items; or it raises one of the exceptions
    known for that state: none at all for [NORMAL], [NAME], [DECLARATION],
    [BODY], [DOCBLOCK] and [INLINE_TEXT]. *)
Theorem handler_transition T st ln line source d :
  ready T [st] d →
  match state_actions st ln line source d with
  | (d', Ok _) => ready T (allowed st) d'
  | (_, Raise x) => step_error T st x
  end.
Proof. exact (handler_ok T st ln line source d). Qed.

Definition new_doc : KernelDoc :=
  fst (KernelDoc_init (Config true true false) "f.c" xforms false false false).

Lemma handler_transition_witness :
  match state_actions NORMAL 0 "/**" "" new_doc with
  | (d', Ok _) => ready xforms (allowed NORMAL) d'
  | (_, Raise x) => step_error xforms NORMAL x
  end.
Proof.
  apply (handler_transition xforms NORMAL 0 "/**" "" new_doc).
  split; [by split|]. split; [by left|by left].
Defined.

(** C1 A whole file: whatever its text, [parse_kdoc] ends in a well-formed
    state, with items that have all that the output classes ask of their kind,
    or raises an exception of the macro table, the [IndexError] of a
    short line in a special section, or the [AttributeError] of the missing
    method [emit_message]; in particular no attribute of the entry is read
    before it was assigned and no loop runs out of fuel. *)
Theorem parse_kdoc_safe T contents d :
  kd_xforms d = T → Forall (λ it, item_ok it = true) (kd_entries d) →
  match parse_kdoc contents d with
  | (d', Ok _) => ready T all_states d'
  | (_, Raise x) => parse_error T x
  end.
Proof. intros H Hi. exact (parse_kdoc_ok T contents d (conj H Hi)). Qed.

Lemma parse_kdoc_safe_witness :
  match parse_kdoc (Some ("/**" +:+ nl +:+ " * f - x" +:+ nl)) new_doc with
  | (d', Ok _) => ready xforms all_states d'
  | (_, Raise x) => parse_error xforms x
  end.
Proof. by apply (parse_kdoc_safe xforms). Defined.

Definition lines (l : list string) : option string := Some (join nl l).
Definition raised (contents : option string) : res (list string) := snd (parse_kdoc contents new_doc).

(** The two exceptions are reached: a continuation line of a special section
    shorter than the indentation remembered for the section raises
    [IndexError], and an inline comment that starts with plain text inside a
    function prototype calls the missing [emit_message]. *)
Theorem parse_kdoc_raises :
  raised (lines ["/**"; " * foo - x"; " * @a: text"; " *    more"; "a * "]) = Raise IndexError ∧
  raised (lines ["/**"; " * foo - x"; " */"; "/**"; " * see foo(); below"])
  = Raise (AttributeError "emit_message").
Proof. split; vm_compute; reflexivity. Qed.

(** A macro of the table called with too few arguments makes the parser log an
    error and raise [IndexError]. *)
Theorem xforms_index_error :
  apply "struct" "DECLARE_BITMAP(x);" []
  = ([LogError "unsigned long \1[BITS_TO_LONGS(\2)] groups are up to 1 instead of 2"], Raise IndexError)
  ∧ xform_error xforms IndexError.
Proof.
  assert (apply "struct" "DECLARE_BITMAP(x);" []
    = ([LogError "unsigned long \1[BITS_TO_LONGS(\2)] groups are up to 1 instead of 2"], Raise IndexError))
    as H by (vm_compute; reflexivity).
  split; [exact H|]. by exists "struct", "DECLARE_BITMAP(x);", [],
    [LogError "unsigned long \1[BITS_TO_LONGS(\2)] groups are up to 1 instead of 2"].
Qed.

(** ** Special sections *)

Definition is_blank (c : ascii) : bool := (c =? " ")%char.

Lemma blank_prefix_spec cont n :
  (∃ k, blank_prefix cont n = Ok k ∧ k ≤ n ∧ k ≤ String.length cont ∧
        sall is_blank (str_take k cont) = true ∧
        (k < n → ∃ c rest, str_drop k cont = String c rest ∧ is_blank c = false)) ∨
  (blank_prefix cont n = Raise IndexError ∧ sall is_blank cont = true ∧ String.length cont < n).
Proof.
  revert n. induction cont as [|c cont IH]; intros [|n]; cbn [blank_prefix].
  - left. exists 0. repeat split; try done; cbn; lia.
  - right. split; [done|]. split; [done|]. cbn. lia.
  - left. exists 0. repeat split; try done; cbn; lia.
  - change (c =? " ")%char with (is_blank c). destruct (is_blank c) eqn:Ec; cbn [negb].
    + destruct (IH n) as [(k & -> & H1 & H2 & H3 & H4)|(-> & H1 & H2)].
      * left. exists (S k). cbn. rewrite Ec. repeat split; try done; try lia.
        intros Hk. apply H4. lia.
      * right. cbn. rewrite Ec. repeat split; try done. lia.
    + left. exists 0. cbn. repeat split; try done; try lia. intros _. by exists c, cont.
Qed.

(** A continuation line of a special section, when an indentation [n] is
    remembered: up to [n] leading blanks are cut from the line, the rest is
    added to the section, and the number cut becomes the indentation; a line
    of fewer than [n] characters, all blank, raises [IndexError]. *)
Theorem add_special_spec e cont n :
  ke_leading_space e = Some n →
  (∃ k e', add_special cont e = (e', Ok tt) ∧ ke_leading_space e' = Some k ∧
     ke__contents e' = ke__contents e ++ [str_drop k cont] ∧ k ≤ n ∧
     sall is_blank (str_take k cont) = true ∧
     (k < n → ∃ c rest, str_drop k cont = String c rest ∧ is_blank c = false)) ∨
  (snd (add_special cont e) = Raise IndexError ∧ sall is_blank cont = true ∧ String.length cont < n).
Proof.
  intros Hn. unfold add_special. run_ST. rewrite Hn.
  destruct (blank_prefix_spec cont n) as [(k & -> & H1 & H2 & H3 & H4)|(-> & H1 & H2)].
  - left. eexists k, _. split; [reflexivity|]. by repeat split.
  - right. by repeat split.
Qed.

Definition special_entry : KernelEntry :=
  upd_leading_space (λ _, Some 3) (KernelEntry_init "f.c" 0).
Lemma add_special_spec_witness :
  ke__contents (fst (add_special "   more" special_entry)) = ["more"] ∧
  snd (add_special " " special_entry) = Raise IndexError.
Proof.
  destruct (add_special_spec special_entry " " 3 eq_refl) as [(k & e' & E & _)|[H _]].
  - vm_compute in E. discriminate E.
  - split; [reflexivity | exact H].
Defined.

(** ** Parameters *)

(** C7 [create_parameter_list] ends normally on any text, for any kind of
    declaration: it only adds parameters at the end of the list and warnings,
    and every listed parameter has a type and a description (but for
    preprocessor lines and names that keep their dots). *)
Theorem create_parameter_list_total e ln decl_type args splitter declaration_name :
  described e →
  ∃ e', create_parameter_list ln decl_type args splitter declaration_name e = (e', Ok tt) ∧ grown e e'.
Proof.
  intros He.
  destruct (hoare_never _ _ _ e (create_parameter_list_grown e ln decl_type args splitter declaration_name)
    (grown_refl e He)) as (e' & [] & H1 & H2).
  by exists e'.
Qed.

Lemma create_parameter_list_total_witness :
  ∃ e', create_parameter_list 1 "function" "int a, char *b, ..." "," "f" (KernelEntry_init "f.c" 0)
        = (e', Ok tt) ∧ grown (KernelEntry_init "f.c" 0) e' ∧ ke_parameterlist e' = ["a"; "b"; "..."].
Proof.
  destruct (create_parameter_list_total (KernelEntry_init "f.c" 0) 1 "function" "int a, char *b, ..."
    "," "f") as (e' & H1 & H2); [constructor|].
  exists e'. split; [exact H1|]. split; [exact H2|].
  assert (e' = fst (create_parameter_list 1 "function" "int a, char *b, ..." "," "f"
    (KernelEntry_init "f.c" 0))) as -> by (by rewrite H1).
  vm_compute. reflexivity.
Defined.

(** The loop that hides the commas of function-pointer arguments ends; nothing
    is left for it to do, and it only turns commas into [#]. *)
Theorem hash_commas_total args :
  ∃ r, hash_commas (S (scount is_comma args)) args = Ok r ∧
       re_search re_arg_expr r = None ∧ hashed r = hashed args.
Proof. apply hash_commas_ok. lia. Qed.

(** ** Structures *)

(** C9 [rewrite_struct_members] ends on every text, each turn of its loop removing
    an opening brace, and leaves no nested structure to rewrite. *)
Theorem rewrite_struct_members_total members :
  ∃ r, rewrite_struct_members members = Ok r ∧ re_finditer re_struct_members r = [] ∧
       scount is_lbrace r ≤ scount is_lbrace members.
Proof. apply rewrite_loop_ok. lia. Qed.

(** [format_struct_decl] ends on every text and changes nothing but its white
    space. *)
Theorem format_struct_decl_whitespace declaration :
  ∃ r, format_struct_decl declaration = Ok r ∧ nospace r = nospace declaration.
Proof. apply format_struct_decl_ok. Qed.

(** ** Enums *)

(** The members of an enum are listed in order; those without a description get
    the default one and one warning each; every description that is not a
    member gets an excess warning; nothing else is warned about. *)
Theorem enum_members_listed ln dn members e :
  ∃ e' miss,
    enum_members ln dn members e = (e', Ok tt) ∧ other_attrs e' = other_attrs e ∧
    ke_parameterlist e' = ke_parameterlist e ++ enum_names members ∧
    NoDup miss ∧ (∀ n, n ∈ miss ↔ n ∈ enum_names members ∧ dmem (ke_parameterdescs e) n = false) ∧
    ke_parameterdescs e' = with_missing (ke_parameterdescs e) miss ∧
    ke_warnings e' = ke_warnings e ++ map (not_described (ke_fname e) ln dn) miss
      ++ map (excess_value (ke_fname e) ln dn)
             (filter (λ k, k ∉ enum_names members) (dkeys (ke_parameterdescs e'))).
Proof. apply enum_members_spec. Qed.

(** ** Sections *)

(** C11 Sections are never lost or mixed: after any sequence of sections read by
    [begin_section], [add_text] and [dump_section], the text recorded for a
    title is that of all the sections with that title, in order, separated by
    a blank line, and its line is the line of the first. *)
Theorem dump_sections_merge blocks e :
  ke__contents e = [] → ke_sections e = [] → ke_sections_start_lines e = [] →
  Forall block_ok blocks →
  ∃ e', for_each blocks run_block e = (e', Ok tt) ∧
        (∀ k, dget (ke_sections e') k = section_text blocks k) ∧
        (∀ k, dget (ke_sections_start_lines e') k = Z.of_nat <$> section_line blocks k).
Proof.
  intros Hc Hs Hl HF.
  destruct (run_blocks_spec blocks [] e) as (e' & H1 & H2); [|done|].
  - split; [done|by intros k; rewrite Hs|by intros k; rewrite Hl].
  - exists e'. destruct H2 as [_ Ht Hln]. by repeat split.
Qed.

Definition sample_blocks : list block :=
  [Block 3 "Return" ["zero"]; Block 5 "Note" ["first"]; Block 7 "Return" ["or one"]].
Lemma dump_sections_merge_witness :
  ∃ e', for_each sample_blocks run_block (KernelEntry_init "f.c" 0) = (e', Ok tt) ∧
        dget (ke_sections e') "Return" = Some (join nl ["zero"; ""; "or one"; ""]) ∧
        dget (ke_sections_start_lines e') "Return" = Some 3%Z.
Proof.
  destruct (dump_sections_merge sample_blocks (KernelEntry_init "f.c" 0)) as (e' & H1 & H2 & H3);
    try reflexivity.
  { repeat (apply Forall_cons; split); [..|apply Forall_nil; exact I];
      (split; [vm_compute; reflexivity | intros H; vm_compute in H; discriminate H]). }
  exists e'. split; [exact H1|]. rewrite H2, H3. split; vm_compute; reflexivity.
Defined.

(** ** Warnings *)

Lemma config_warnings l : ∀ d,
  for_each l config_warning d
  = (upd_errors (λ n, n + length l) (upd_log (λ r, r ++ map LogWarning l) d), Ok tt).
Proof.
  induction l as [|w l IH]; intros d; cbn [for_each].
  - unfold upd_errors, upd_log. destruct d. cbn. by rewrite app_nil_r, Nat.add_0_r.
  - change ((config_warning w ;; for_each l config_warning) d)
      with (for_each l config_warning (upd_errors S (upd_log (λ r, r ++ [LogWarning w]) d))).
    rewrite IH. f_equal. unfold upd_errors, upd_log. destruct d. cbn.
    rewrite <- app_assoc. f_equal. lia.
Qed.

(** [output_declaration] hands all the warnings of the entry to the item, and
    the [reset_state] that follows logs every one of them again and counts it
    as an error: the test [self.entry not in self.entries] never holds them
    back. *)
Theorem output_warnings_twice d e dtype name args ln :
  kd_entry d = Some e →
  let d' := fst ((output_declaration dtype name args ;; reset_state ln) d) in
  (∃ item, kd_entries d' = kd_entries d ++ [item] ∧ it_warnings item = ke_warnings e) ∧
  kd_log d' = kd_log d ++ map LogWarning (ke_warnings e) ∧
  kd_errors d' = kd_errors d + length (ke_warnings e).
Proof.
  intros He. unfold output_declaration, entry_gets, on_entry, reset_state, emit_unused_warnings, set_state.
  run_ST. rewrite He. cbn -[drop_empty fold_left for_each]. rewrite config_warnings.
  destruct d. cbn -[drop_empty fold_left]. split; [|done]. by eexists.
Qed.

Lemma output_warnings_twice_witness :
  let e := upd_warnings (λ _, ["w"]) (KernelEntry_init "f.c" 0) in
  let d := upd_entry (λ _, Some e) new_doc in
  kd_log (fst ((output_declaration "doc" "t" [] ;; reset_state 1) d)) = [LogWarning "w"].
Proof.
  exact (proj1 (proj2 (output_warnings_twice
    (upd_entry (λ _, Some (upd_warnings (λ _, ["w"]) (KernelEntry_init "f.c" 0))) new_doc)
    (upd_warnings (λ _, ["w"]) (KernelEntry_init "f.c" 0)) "doc" "t" [] 1 eq_refl))).
Defined.

(** ** Exports *)

Definition identifier (s : string) : Prop := sall is_word s = true.

Lemma identifier_take n s : identifier s → identifier (str_take n s).
Proof.
  unfold identifier. rewrite <- (str_take_drop n s) at 1. rewrite sall_app. by intros [? _]%andb_prop.
Qed.

Lemma export_name_identifier line s : export_name line = Some s → identifier s.
Proof.
  unfold export_name. intros H.
  assert (∀ p m, re_search p line = Some m → group_charset p 2 is_word = true → identifier (group_or m 2))
    as Hg.
  { intros p m Hm%re_search_ok Hc. unfold group_or. destruct (group m 2) as [t|] eqn:E; [|done].
    by apply (group_chars _ _ _ Hm 2 is_word t Hc). }
  assert (∀ x, identifier x →
    identifier (if endswith "_noprof" x then str_take (String.length x - 7) x else x)) as Hs.
  { intros x Hx. destruct (endswith _ x); [by apply identifier_take | done]. }
  destruct (re_search export_symbol line) as [m|] eqn:E1.
  - cbn in H. injection H as <-. apply Hs. apply (Hg export_symbol); [done|]. by vm_compute.
  - destruct (re_search export_symbol_ns line) as [m|] eqn:E2; [|done].
    cbn in H. injection H as <-. apply Hs. apply (Hg export_symbol_ns); [done|]. by vm_compute.
Qed.

(** The export table of a file. *)
Definition table_ok (t : list string) : Prop := NoDup t ∧ Forall identifier t.

Lemma process_export_ok t line : table_ok t → table_ok (fst (process_export t line)).
Proof.
  intros [Hn Hi]. unfold process_export. destruct (export_name line) as [s|] eqn:E; [|done].
  apply export_name_identifier in E. cbn. split; [by apply set_add_nodup|].
  apply Forall_forall. intros x [->|Hx]%set_add_in; [done|]. by apply (proj1 (Forall_forall _ _) Hi).
Qed.

(** The table of exported symbols of a file has no duplicates and holds
    identifiers only, whatever the text of the file; it has a symbol exactly
    when some line exports it. *)
Theorem parse_export_table text :
  ∃ t, parse_export (Some text) = Some t ∧ NoDup t ∧ Forall identifier t ∧
       ∀ s, s ∈ t ↔ ∃ line, line ∈ readlines text ∧ export_name line = Some s.
Proof.
  unfold parse_export. cbn. set (f := λ table line, fst (process_export table line)).
  assert (∀ ls t, table_ok t → table_ok (fold_left f ls t)) as HT.
  { induction ls as [|l ls IH]; intros t Ht; cbn [fold_left]; [done|]. by apply IH, process_export_ok. }
  assert (∀ ls t s, s ∈ fold_left f ls t ↔ s ∈ t ∨ ∃ line, line ∈ ls ∧ export_name line = Some s) as HS.
  { induction ls as [|l ls IH]; intros t s; cbn [fold_left].
    - split; [by left|]. intros [?|(line & ?%elem_of_nil & _)]; done.
    - rewrite IH. subst f. cbn beta. unfold process_export.
      setoid_rewrite elem_of_cons. destruct (export_name l) as [x|] eqn:E; cbn [fst].
      + rewrite set_add_in. split.
        * intros [[->|?]|(line & ? & ?)]; eauto 6.
        * intros [?|(line & [->|?] & ?)]; [auto| |eauto]. left. left. congruence.
      + split.
        * intros [?|(line & ? & ?)]; eauto 6.
        * intros [?|(line & [->|?] & ?)]; [auto|congruence|eauto]. }
  eexists; split; [reflexivity|]. destruct (HT (readlines text) []) as [H1 H2]; [by split; constructor|].
  split; [done|]. split; [done|]. intros s. rewrite HS. split; [|by right].
  intros [?%elem_of_nil|?]; done.
Qed.

(** ** System calls *)

(** Every other comma, from the first on, as a blank. *)
Fixpoint odd_commas (odd : bool) (s : string) : string :=
  match s with
  | "" => ""
  | String c t =>
      if is_comma c then String (if odd then " "%char else c) (odd_commas (negb odd) t)
      else String c (odd_commas odd t)
  end.

Lemma odd_commas_len s odd : String.length (odd_commas odd s) = String.length s.
Proof. revert odd. induction s as [|c s IH]; intros odd; cbn; [done|]. destruct (is_comma c); cbn; by rewrite IH. Qed.

Lemma odd_commas_count s : ∀ odd,
  scount is_comma (odd_commas odd s) = (scount is_comma s + if odd : bool then 0 else 1) / 2.
Proof.
  induction s as [|c s IH]; intros odd; [by destruct odd|]. cbn [odd_commas scount].
  destruct (is_comma c) eqn:E.
  - destruct odd; cbn [scount negb].
    + change (is_comma " ") with false. rewrite IH.
      by replace (1 + scount is_comma s + 0) with (scount is_comma s + 1) by lia.
    + rewrite E, IH, Nat.add_0_r.
      replace (1 + scount is_comma s + 1) with (scount is_comma s + 1 * 2) by lia.
      rewrite Nat.div_add by lia. lia.
  - cbn [scount]. by rewrite E, IH.
Qed.

Lemma comma_loop s : ∀ pre count,
  fold_left comma_step (seq (String.length pre) (String.length s)) (count, pre +:+ s)
  = (count + scount is_comma s, pre +:+ odd_commas (negb (count mod 2 =? 1)) s).
Proof.
  induction s as [|c s IH]; intros pre count; cbn [String.length seq fold_left].
  - cbn. by rewrite Nat.add_0_r.
  - assert (∀ d, S (String.length pre) = String.length (pre +:+ String d "")) as HL
      by (intros d; rewrite slen_app; cbn; lia).
    assert (∀ d, pre +:+ String d s = (pre +:+ String d "") +:+ s) as HA
      by (intros d; by rewrite sapp_assoc).
    unfold comma_step at 2. rewrite str_drop_app. cbn [odd_commas scount].
    destruct (is_comma c) eqn:E.
    + assert (∀ k, (S k mod 2 =? 1) = negb (k mod 2 =? 1)) as HM.
      { intros k. pose proof (Nat.mod_upper_bound k 2). rewrite <- Nat.add_1_r, <- Nat.Div0.add_mod_idemp_l.
        destruct (k mod 2) as [|[|n]]; [done|done|lia]. }
      rewrite HM. destruct (count mod 2 =? 1) eqn:E2; cbn [negb].
      * rewrite (HL c), (HA c), IH, HM, E2. cbn [negb]. rewrite sapp_assoc. cbn. f_equal. lia.
      * rewrite str_take_app, (HL " "%char).
        change (pre +:+ " " +:+ s) with (pre +:+ String " " s).
        rewrite (HA " "%char), IH, HM, E2. cbn [negb]. rewrite sapp_assoc. cbn. f_equal. lia.
    + rewrite (HL c), (HA c), IH. rewrite sapp_assoc. cbn. done.
Qed.

(** The loop of [syscall_munge] over the positions of the prototype computes
    the text with every other comma blanked: the length is kept and half of
    the commas, rounded down, are left. *)
Theorem syscall_commas proto :
  drop_odd_commas proto = odd_commas true proto ∧
  String.length (drop_odd_commas proto) = String.length proto ∧
  scount is_comma (drop_odd_commas proto) = scount is_comma proto / 2.
Proof.
  assert (drop_odd_commas proto = odd_commas true proto) as E.
  { unfold drop_odd_commas. pose proof (comma_loop proto "" 0) as H. cbn -[fold_left] in H. by rewrite H. }
  rewrite E. split; [done|]. rewrite odd_commas_len, odd_commas_count. by rewrite Nat.add_0_r.
Qed.

(** ** Output *)

Section Keeps.
Context (base : list KdocItem).
Definition has_base (d : KernelDoc) : Prop := base `prefix_of` kd_entries d.
Abbreviation K := (keeps has_base).

Lemma keeps_on_entry {A} (m : ST KernelEntry A) : K (on_entry m).
Proof. intros d Hd. unfold on_entry. destruct (kd_entry d); [|done]. by destruct (m _). Qed.
Lemma keeps_with_lex {A} (m : Lex A) : K (with_lex m).
Proof. intros d Hd. unfold with_lex. by destruct (m []). Qed.
Lemma keeps_set_state s : K (set_state s).
Proof. by intros d. Qed.
Lemma keeps_log r : K (log_record r).
Proof. by intros d. Qed.

Create HintDb keep.
#[local] Hint Resolve keeps_ret keeps_raise keeps_gets keeps_lift keeps_when keeps_for_each
  keeps_for_acc keeps_on_entry keeps_with_lex keeps_set_state keeps_log : keep.
#[local] Hint Extern 2 (keeps _ (_ ≫= _)) => apply keeps_bind; [|intros] : keep.
#[local] Hint Extern 3 (keeps _ (if ?b then _ else _)) => destruct b : keep.
#[local] Hint Extern 3 (keeps _ (match ?b with _ => _ end)) => destruct b : keep.

Ltac keep := cbn zeta; auto 40 with keep.

Lemma keeps_emit_msg ln msg : K (emit_msg ln msg).
Proof. unfold emit_msg. keep. Qed.
Lemma keeps_emit_info ln msg : K (emit_info ln msg).
Proof. unfold emit_info. keep. Qed.
Lemma keeps_dump_section : K dump_section.
Proof. unfold dump_section. keep. Qed.
Lemma keeps_config_warning w : K (config_warning w).
Proof. by intros d. Qed.
#[local] Hint Resolve keeps_emit_msg keeps_emit_info keeps_dump_section keeps_config_warning : keep.
Lemma keeps_unused : K emit_unused_warnings.
Proof. unfold emit_unused_warnings. keep. Qed.
#[local] Hint Resolve keeps_unused : keep.
Lemma keeps_reset ln : K (reset_state ln).
Proof.
  unfold reset_state. apply keeps_bind; [keep|]. intros _. apply keeps_bind; [keep|]. intros f.
  apply keeps_bind; [by intros d | keep].
Qed.
Lemma keeps_output dtype name args : K (output_declaration dtype name args).
Proof.
  unfold output_declaration. unfold entry_gets. repeat (apply keeps_bind; [keep|intros]).
  intros d Hd. unfold has_base in *. cbn. by apply prefix_snoc.
Qed.
#[local] Hint Resolve keeps_reset keeps_output : keep.

Lemma keeps_attr {A} (f : KernelEntry → option A) n : K (entry_attr f n).
Proof. apply keeps_on_entry. Qed.
Lemma keeps_entry_gets {A} (f : KernelEntry → A) : K (entry_gets f).
Proof. apply keeps_on_entry. Qed.
Lemma keeps_xforms k s : K (xforms_apply k s).
Proof. unfold xforms_apply. keep. Qed.
#[local] Hint Resolve keeps_attr keeps_entry_gets keeps_xforms : keep.

Lemma keeps_dump_struct ln proto source : K (dump_struct ln proto source).
Proof. unfold dump_struct. keep. Qed.
Lemma keeps_dump_enum ln proto source : K (dump_enum ln proto source).
Proof. unfold dump_enum. keep. Qed.
Lemma keeps_dump_var ln proto source : K (dump_var ln proto source).
Proof. unfold dump_var. keep. Qed.
Lemma keeps_dump_function ln proto source : K (dump_function ln proto source).
Proof. unfold dump_function. keep. Qed.
Lemma keeps_dump_typedef ln proto source : K (dump_typedef ln proto source).
Proof. unfold dump_typedef, wrong_typedef. keep. Qed.
#[local] Hint Resolve keeps_dump_struct keeps_dump_enum keeps_dump_var keeps_dump_function
  keeps_dump_typedef : keep.
Lemma keeps_dump_declaration ln proto source : K (dump_declaration ln proto source).
Proof. unfold dump_declaration. keep. Qed.
#[local] Hint Resolve keeps_dump_declaration : keep.

Lemma keeps_set_identifier s : K (set_identifier s).
Proof. apply keeps_on_entry. Qed.
Lemma keeps_set_decl_type s : K (set_decl_type s).
Proof. apply keeps_on_entry. Qed.
Lemma keeps_set_purpose s : K (set_purpose s).
Proof. apply keeps_on_entry. Qed.
Lemma keeps_set_prototype s : K (set_prototype s).
Proof. apply keeps_on_entry. Qed.
#[local] Hint Resolve keeps_set_identifier keeps_set_decl_type keeps_set_purpose
  keeps_set_prototype : keep.

Lemma keeps_unless ln line m : K m → K (unless_section_or_end ln line m).
Proof. intros Hm. unfold unless_section_or_end, is_new_section, is_comment_end. keep. Qed.
#[local] Hint Resolve keeps_unless : keep.
Lemma keeps_tracepoint ln proto : K (tracepoint_munge ln proto).
Proof. unfold tracepoint_munge. keep. Qed.
#[local] Hint Resolve keeps_tracepoint : keep.
Lemma keeps_proto_function ln line source : K (process_proto_function ln line source).
Proof. unfold process_proto_function. keep. Qed.
Lemma keeps_proto_type ln line source : K (process_proto_type ln line source).
Proof.
  unfold process_proto_type. cbn zeta. set (l := re_split re_chunk _).
  assert (∀ cs, K (proto_chunks ln source cs)) as H.
  { induction cs as [|[[|c s]|] cs IH]; cbn [proto_chunks]; auto 20 with keep. }
  keep.
Qed.
#[local] Hint Resolve keeps_proto_function keeps_proto_type : keep.

Lemma keeps_handler st ln line source : K (state_actions st ln line source).
Proof.
  destruct st; cbn [state_actions];
    unfold process_normal, process_name, begin_entry, process_decl, process_body, process_special,
      process_proto, process_docblock, process_inline_name, process_inline_text, bad_line; keep.
Qed.
#[local] Hint Resolve keeps_handler : keep.

Lemma keeps_whole_line v ln line : K (parse_whole_line v ln line).
Proof. unfold parse_whole_line. keep. Qed.
#[local] Hint Resolve keeps_whole_line : keep.
Lemma keeps_line v x : K (parse_line v x).
Proof. unfold parse_line. destruct x. keep. Qed.
#[local] Hint Resolve keeps_line : keep.
Lemma keeps_parse contents : K (parse_kdoc contents).
Proof. unfold parse_kdoc. keep. Qed.
End Keeps.

(** Items are only appended: whatever [parse_kdoc] does with a file, even when it
    raises, the items collected before it are still there, in place and
    unchanged. *)
Theorem parse_kdoc_appends contents d :
  ∃ new, kd_entries (fst (parse_kdoc contents d)) = kd_entries d ++ new.
Proof. apply (keeps_parse (kd_entries d) contents d). by exists []; rewrite app_nil_r. Qed.
