(* ===== verification/KdocOutput.v ===== *)
(** * KdocOutput: the output classes of [kdoc_output.py]: filters and ReST

    [OutputFormat] chooses what is shown and dispatches on the kind of the
    item; [RestFormat] writes reStructuredText.  The methods run in
    [ST OutputFormat]: the text built so far is [self.data].  A Python class
    that overrides the virtual methods is a record [format_class]. *)

From S2P Require Import Prelude PyStr PyRe PyReSyntax PyReTheory KdocRe CLex.
From S2P Require Import KdocItem KdocEntry KdocParams.

(** ** Regular expressions of the module *)

Definition function_pointer : KernRe :=
  MkKernRe false (compiled no_flags "([^\(]*\(\*)\s*\)\s*\(([^\)]*)\)") None.
Definition type_constant : pattern := compiled no_flags "\b``([^\`]+)``\b".
Definition type_constant2 : pattern := compiled no_flags "\%([-_*\w]+)".
Definition type_func : pattern := compiled no_flags "(\w+)\(\)".
Definition type_param_ref : pattern :=
  compiled no_flags "([\!~\*]?)\@(\w*((\.\w+)|(->\w+))*(\.\.\.)?)".
Definition type_fp_param : pattern := compiled no_flags "\@(\w+)\(\)".
Definition type_fp_param2 : pattern := compiled no_flags "\@(\w+->\S+)\(\)".
Definition type_env : pattern := compiled no_flags "(\$\w+)".
Definition type_enum : pattern := compiled no_flags "\&(enum\s*([_\w]+))".
Definition type_struct : pattern := compiled no_flags "\&(struct\s*([_\w]+))".
Definition type_typedef : pattern := compiled no_flags "\&(typedef\s*([_\w]+))".
Definition type_union : pattern := compiled no_flags "\&(union\s*([_\w]+))".
Definition type_member_text : string := "\&([_\w]+)(\.|->)([_\w]+)".
Definition type_member : pattern := compiled no_flags type_member_text.
Definition type_fallback : pattern := compiled no_flags "\&([_\w]+)".
Definition type_member_func : pattern := compiled no_flags (type_member_text +:+ "\(\)").

(** ** [OutputFormat] *)

Inductive out_mode_t := OUTPUT_ALL | OUTPUT_INCLUDE | OUTPUT_EXPORTED | OUTPUT_INTERNAL.
#[global] Instance out_mode_eq_dec : EqDecision out_mode_t.
Proof. solve_decision. Defined.

(** The object; [of_log] and [of_errors] are those of its [config], as in the
    parser.  [lineprefix] only exists in [RestFormat]. *)
Record OutputFormat := MkOut {
  of_out_mode : out_mode_t;
  of_enable_lineno : bool;
  of_nosymbol : list string;
  of_function_table : option (list string);
  of_no_doc_sections : bool;
  of_data : string;
  of_lineprefix : string;
  of_log : list logrec;
  of_errors : nat;
}.

Definition upd_data (f : string → string) (o : OutputFormat) : OutputFormat :=
  MkOut (of_out_mode o) (of_enable_lineno o) (of_nosymbol o) (of_function_table o)
    (of_no_doc_sections o) (f (of_data o)) (of_lineprefix o) (of_log o) (of_errors o).
Definition upd_lineprefix (f : string → string) (o : OutputFormat) : OutputFormat :=
  MkOut (of_out_mode o) (of_enable_lineno o) (of_nosymbol o) (of_function_table o)
    (of_no_doc_sections o) (of_data o) (f (of_lineprefix o)) (of_log o) (of_errors o).
Definition upd_out_log (f : list logrec → list logrec) (o : OutputFormat) : OutputFormat :=
  MkOut (of_out_mode o) (of_enable_lineno o) (of_nosymbol o) (of_function_table o)
    (of_no_doc_sections o) (of_data o) (of_lineprefix o) (f (of_log o)) (of_errors o).
Definition upd_out_errors (f : nat → nat) (o : OutputFormat) : OutputFormat :=
  MkOut (of_out_mode o) (of_enable_lineno o) (of_nosymbol o) (of_function_table o)
    (of_no_doc_sections o) (of_data o) (of_lineprefix o) (of_log o) (f (of_errors o)).

(** [RestFormat()] after [set_config]. *)
Definition OutputFormat_init : OutputFormat :=
  MkOut OUTPUT_ALL false [] None false "" "" [] 0.

(** [if l:] for a list of symbols or [None]. *)
Definition given (l : option (list string)) : bool :=
  match l with Some (_ :: _) => true | _ => false end.

(** [self.set_filter(...)]: [nosymbol] is kept when none is given. *)
Definition set_filter (export internal : bool) (symbol nosymbol : option (list string))
    (function_table : list string) (enable_lineno no_doc_sections : bool)
    (o : OutputFormat) : OutputFormat :=
  MkOut
    (if given symbol then OUTPUT_INCLUDE else if export then OUTPUT_EXPORTED
     else if internal then OUTPUT_INTERNAL else OUTPUT_ALL)
    enable_lineno
    (if given nosymbol then default [] nosymbol else of_nosymbol o)
    (Some function_table) no_doc_sections (of_data o) (of_lineprefix o) (of_log o) (of_errors o).

(** [self.highlight_block(block)] with the highlights of the class. *)
Definition highlight_block (highlights : list (pattern * string)) (block : string) : string :=
  fold_left (λ block '(r, sub), re_sub r sub block 0) highlights block.

Abbreviation Out := (ST OutputFormat).

(** [self.data += text] *)
Definition emit (text : string) : Out unit := modify (upd_data (λ d, d +:+ text)).
Definition set_prefix (p : string) : Out unit := modify (upd_lineprefix (λ _, p)).
(** [self.config.log.warning(msg)], and [self.config.warning(msg)], which also
    counts. *)
Definition out_log (r : logrec) : Out unit := modify (upd_out_log (λ l, l ++ [r])).
Definition out_warning (msg : string) : Out unit :=
  out_log (LogWarning msg) ;; modify (upd_out_errors S).

(** [self.out_warnings(args)] *)
Definition out_warnings (args : KdocItem) : Out unit := for_each (it_warnings args) out_warning.

(** [name in self.function_table] *)
Definition in_function_table (name : string) : Out bool :=
  table ← gets of_function_table;
  match table with
  | Some t => mret (smem name t)
  | None => raise (TypeError "argument of type 'NoneType' is not iterable")
  end.

(** [self.check_doc(name, args)] *)
Definition check_doc (name : string) (args : KdocItem) : Out bool :=
  o ← get;
  if of_no_doc_sections o then mret false
  else if smem name (of_nosymbol o) then mret false
  else match of_out_mode o with
  | OUTPUT_ALL => out_warnings args ;; mret true
  | OUTPUT_INCLUDE =>
      listed ← in_function_table name;
      if listed : bool then out_warnings args ;; mret true else mret false
  | _ => mret false
  end.

(** [self.check_declaration(dtype, name, args)] *)
Definition check_declaration (dtype name : string) (args : KdocItem) : Out bool :=
  o ← get;
  if smem name (of_nosymbol o) then mret false
  else match of_out_mode o with
  | OUTPUT_ALL => out_warnings args ;; mret true
  | OUTPUT_INCLUDE | OUTPUT_EXPORTED =>
      listed ← in_function_table name;
      mret listed
  | OUTPUT_INTERNAL =>
      if negb (dtype =? "function")%string then out_warnings args ;; mret true
      else
        listed ← in_function_table name;
        if negb listed then out_warnings args ;; mret true else mret false
  end.

(** The virtual methods. *)
Record format_class := MkClass {
  out_doc : string → KdocItem → Out unit;
  out_function : string → KdocItem → Out unit;
  out_enum : string → KdocItem → Out unit;
  out_var : string → KdocItem → Out unit;
  out_typedef : string → KdocItem → Out unit;
  out_struct : string → KdocItem → Out unit;
}.
(** The base class, whose methods do nothing. *)
Definition BaseFormat : format_class :=
  MkClass (λ _ _, mret tt) (λ _ _, mret tt) (λ _ _, mret tt) (λ _ _, mret tt)
    (λ _ _, mret tt) (λ _ _, mret tt).

Definition result_data : Out (option string) := data ← gets of_data; mret (Some data).

(** [self.msg(fname, name, args)] *)
Definition msg (cls : format_class) (name : string) (args : KdocItem) : Out (option string) :=
  modify (upd_data (λ _, "")) ;;
  let dtype := it_type args in
  if (dtype =? "doc")%string then out_doc cls name args ;; result_data
  else
    shown ← check_declaration dtype name args;
    if negb shown then result_data
    else if (dtype =? "function")%string then out_function cls name args ;; result_data
    else if (dtype =? "enum")%string then out_enum cls name args ;; result_data
    else if (dtype =? "var")%string then out_var cls name args ;; result_data
    else if (dtype =? "typedef")%string then out_typedef cls name args ;; result_data
    else if smem dtype ["struct"; "union"] then out_struct cls name args ;; result_data
    else
      out_log (LogWarning ("doesn't know how to output '" +:+ dtype +:+ "' block")) ;;
      mret None.

(** [str(v)] of a value in an f-string. *)
Definition py_str (v : pyval) : string :=
  match v with
  | VNone => "None" | VBool true => "True" | VBool false => "False" | VStr s => s
  end.
(** The string a string method is called on. *)
Definition as_str (method : string) (v : pyval) : res string :=
  match v with VStr s => Ok s | _ => Raise (AttributeError method) end.
(** The string that is concatenated to another one. *)
Definition str_operand (v : pyval) : res string :=
  match v with VStr s => Ok s | _ => Raise (TypeError "can only concatenate str") end.
(** [d[key]] *)
Definition dict_at {V} (d : dict V) (key : string) : res V :=
  match dget d key with Some v => Ok v | None => Raise (KeyError key) end.
(** The loop of [output_symbols], [self.msg] being [msg_of]: the parser never
    sets the keys ["ln"] and ["type"] of [other_stuff]. *)
Definition output_one (msg_of : string → KdocItem → Out (option string)) (fname out : string)
    (arg : KdocItem) : Out string :=
  m ← msg_of (it_name arg) arg;
  match m with
  | Some m => mret (out +:+ m)
  | None =>
      let ln := match KdocItem_get arg "ln" VNone with VNone => "0" | v => py_str v end in
      out_log (LogWarning (fname +:+ ":" +:+ ln +:+ " Can't handle "
                           +:+ py_str (KdocItem_get arg "type" (VStr "")))) ;;
      mret out
  end.
(** [self.output_symbols(fname, symbols)] *)
Definition output_symbols (cls : format_class) (fname : string) (symbols : list KdocItem)
    : Out string :=
  for_acc symbols "" (output_one (msg cls) fname).

(** ** [RestFormat] *)

Module RestFormat.
Definition highlights : list (pattern * string) := [
  (type_constant, "``\1``");
  (type_constant2, "``\1``");
  (type_member_func, ":c:type:`\1\2\3\\(\\) <\1>`");
  (type_member, ":c:type:`\1\2\3 <\1>`");
  (type_fp_param, "**\1\\(\\)**");
  (type_fp_param2, "**\1\\(\\)**");
  (type_func, "\1()");
  (type_enum, ":c:type:`\1 <\2>`");
  (type_struct, ":c:type:`\1 <\2>`");
  (type_typedef, ":c:type:`\1 <\2>`");
  (type_union, ":c:type:`\1 <\2>`");
  (type_fallback, ":c:type:`\1`");
  (type_param_ref, "**\1\2**")
].
Definition blankline : string := nl.

Definition sphinx_literal : pattern := compiled no_flags "^[^.].*::$".
Definition sphinx_cblock : pattern := compiled no_flags "^\.\.\ +code-block::".
Definition re_indent : pattern := compiled no_flags "^(\s*)".
Definition re_array_tail : pattern := compiled no_flags "\[.*".

(** [self.print_lineno(ln)] for a number. *)
Definition print_lineno (ln : Z) : Out unit :=
  enabled ← gets of_enable_lineno;
  when enabled (emit (".. LINENO " +:+ zint_str (ln + 1) +:+ nl)).

(** The local variables of the loop of [output_highlight]. *)
Record hl_state := HL {
  hl_output : string;
  hl_in_literal : bool;
  hl_litprefix : string;
  hl_block : string;
}.

(** A line that opens a literal block. *)
Definition opens_literal (line : string) : bool :=
  match re_match sphinx_literal line with
  | Some _ => true
  | None => match re_match sphinx_cblock line with Some _ => true | None => false end
  end.

(** The part of the loop body for a line outside of a literal block. *)
Definition hl_text (hs : list (pattern * string)) (line : string) (s : hl_state) : hl_state :=
  let block := hl_block s +:+ line +:+ nl in
  if opens_literal line
  then HL (hl_output s +:+ highlight_block hs block) true "" ""
  else HL (hl_output s) false (hl_litprefix s) block.

Definition hl_step (hs : list (pattern * string)) (s : hl_state) (line : string) : hl_state :=
  if hl_in_literal s then
    let output := hl_output s +:+ line +:+ nl in
    if negb (strip line =? "")%string then
      if (hl_litprefix s =? "")%string then
        let litprefix := match re_match re_indent line with
                         | Some m => "^" +:+ group_or m 1
                         | None => "" end in
        HL output true litprefix (hl_block s)
      else
        match re_match (compiled no_flags (hl_litprefix s)) line with
        | None => hl_text hs line s
        | Some _ => HL output true (hl_litprefix s) (hl_block s)
        end
    else HL output true (hl_litprefix s) (hl_block s)
  else hl_text hs line s.

(** The text that [output_highlight] makes of [input_text], before the line
    prefix. *)
Definition highlighted (hs : list (pattern * string)) (input_text : string) : string :=
  let s := fold_left (hl_step hs) (split_char NL (strip_char NL input_text)) (HL "" false "" "") in
  if (hl_block s =? "")%string then hl_output s else hl_output s +:+ highlight_block hs (hl_block s).

(** [self.output_highlight(args)] *)
Definition output_highlight (args : string) : Out unit :=
  prefix ← gets of_lineprefix;
  for_each (split_char NL (strip_char NL (highlighted highlights args)))
    (λ line, emit (prefix +:+ line +:+ nl)).

(** [self.output_highlight(args.get('purpose', ""))] *)
Definition output_purpose (args : KdocItem) : Out unit :=
  purpose ← lift_res (as_str "strip" (KdocItem_get args "purpose" (VStr "")));
  output_highlight purpose.

Definition bold_section (section : string) : Out unit :=
  prefix ← gets of_lineprefix;
  emit (prefix +:+ "**" +:+ section +:+ "**" +:+ nl +:+ nl).

(** [self.out_section(args, out_docblock)] *)
Definition out_section (args : KdocItem) (out_docblock : bool) : Out unit :=
  for_each (it_sections args) (λ '(section, text),
    o ← get;
    if smem section (of_nosymbol o) then mret tt
    else
      (if out_docblock then
         when (negb (bool_decide (of_out_mode o = OUTPUT_INCLUDE)))
           (emit (".. _" +:+ section +:+ ":" +:+ nl +:+ nl) ;; bold_section section)
       else bold_section section) ;;
      print_lineno (dget_or (it_sections_start_lines args) section 0%Z) ;;
      output_highlight text ;;
      emit nl) ;;
  emit nl.

Definition out_doc (name : string) (args : KdocItem) : Out unit :=
  shown ← check_doc name args;
  if negb shown then mret tt else out_section args true.

(** [function_pointer.group(n)] as the operand of a concatenation. *)
Definition fp_group (r : KernRe) (n : nat) : res string :=
  match KernRe_group r n with
  | Ok (Some s) => Ok s
  | Ok None => Raise (TypeError "can only concatenate str")
  | Raise e => Raise e
  end.

(** One turn of the loop that builds the signature. *)
Definition add_parameter (args : KdocItem) (acc : string * nat) (parameter : string)
    : Out (string * nat) :=
  let '(signature, count) := acc in
  let signature := if negb (count =? 0) then signature +:+ ", " else signature in
  let dtype := dget_or (it_parametertypes args) parameter "" in
  match KernRe_search function_pointer dtype with
  | (r, Some _) =>
      g1 ← lift_res (fp_group r 1);
      g3 ← lift_res (fp_group r 3);
      mret (signature +:+ g1 +:+ parameter +:+ g3, S count)
  | (_, None) => mret (signature +:+ dtype, S count)
  end.

(** The description of a parameter of a function. *)
Definition function_param (args : KdocItem) (parameter : string) : Out unit :=
  let parameter_name := re_sub re_array_tail "" parameter 0 in
  let dtype := dget_or (it_parametertypes args) parameter "" in
  prefix ← gets of_lineprefix;
  emit (prefix +:+ "``" +:+ (if (dtype =? "")%string then parameter else dtype) +:+ "``" +:+ nl) ;;
  print_lineno (dget_or (it_parameterdesc_start_lines args) parameter_name 0%Z) ;;
  set_prefix "    " ;;
  (match dget (it_parameterdescs args) parameter_name with
   | Some desc =>
       if negb (desc =? undescribed)%string then output_highlight desc ;; emit nl
       else prefix ← gets of_lineprefix; emit (prefix +:+ "*undescribed*" +:+ nl +:+ nl)
   | None => prefix ← gets of_lineprefix; emit (prefix +:+ "*undescribed*" +:+ nl +:+ nl)
   end) ;;
  set_prefix "  ".

Definition out_function (name : string) (args : KdocItem) : Out unit :=
  oldprefix ← gets of_lineprefix;
  let func_macro := truth (KdocItem_get args "func_macro" (VBool false)) in
  let functiontype := KdocItem_get args "functiontype" VNone in
  let typedef := truth (KdocItem_get args "typedef" VNone) in
  signature ←
    (if func_macro then mret name
     else
       ty ← (if truth functiontype
             then t ← lift_res (str_operand functiontype); mret (t +:+ " ")
             else mret "");
       mret (ty +:+ name +:+ " ("));
  let ln := Z.of_nat (it_declaration_start_line args) in
  acc ← for_acc (it_parameterlist args) (signature, 0) (add_parameter args);
  let signature := if func_macro then fst acc else fst acc +:+ ")" in
  print_lineno ln ;;
  (if typedef || negb (truth functiontype) then
     emit (".. c:macro:: " +:+ name +:+ nl +:+ nl) ;;
     if typedef then
       emit "   **Typedef**: " ;;
       set_prefix "" ;;
       output_purpose args ;;
       emit (nl +:+ nl +:+ "**Syntax**" +:+ nl +:+ nl) ;;
       emit ("  ``" +:+ signature +:+ "``" +:+ nl +:+ nl)
     else emit ("``" +:+ signature +:+ "``" +:+ nl +:+ nl)
   else emit (".. c:function:: " +:+ signature +:+ nl +:+ nl)) ;;
  when (negb typedef)
    (print_lineno ln ;;
     set_prefix "   " ;;
     output_purpose args ;;
     emit nl) ;;
  set_prefix "  " ;;
  when (match it_parameterlist args with [] => false | _ => true end)
    (emit (".. container:: kernelindent" +:+ nl +:+ nl) ;;
     bold_section "Parameters") ;;
  for_each (it_parameterlist args) (function_param args) ;;
  out_section args false ;;
  set_prefix oldprefix.

(** The description of a constant of an enum. *)
Definition enum_param (args : KdocItem) (outer parameter : string) : Out unit :=
  emit (outer +:+ "``" +:+ parameter +:+ "``" +:+ nl) ;;
  (if negb (dget_or (it_parameterdescs args) parameter "" =? undescribed)%string
   then desc ← lift_res (dict_at (it_parameterdescs args) parameter); output_highlight desc
   else prefix ← gets of_lineprefix; emit (prefix +:+ "*undescribed*" +:+ nl +:+ nl)) ;;
  emit nl.

Definition out_enum (name : string) (args : KdocItem) : Out unit :=
  oldprefix ← gets of_lineprefix;
  emit (nl +:+ nl +:+ ".. c:enum:: " +:+ name +:+ nl +:+ nl) ;;
  print_lineno (Z.of_nat (it_declaration_start_line args)) ;;
  set_prefix "  " ;;
  output_purpose args ;;
  emit nl ;;
  emit (".. container:: kernelindent" +:+ nl +:+ nl) ;;
  prefix ← gets of_lineprefix;
  let outer := prefix +:+ "  " in
  set_prefix (outer +:+ "  ") ;;
  emit (outer +:+ "**Constants**" +:+ nl +:+ nl) ;;
  for_each (it_parameterlist args) (enum_param args outer) ;;
  set_prefix oldprefix ;;
  out_section args false.

(** [lineprefix] is not restored. *)
Definition out_var (name : string) (args : KdocItem) : Out unit :=
  let full_proto := KdocItem_get args "full_proto" VNone in
  if negb (truth full_proto)
  then raise (KeyError ("Can't find full proto for " +:+ name +:+ " variable"))
  else
    set_prefix "  " ;;
    prefix ← gets of_lineprefix;
    emit (nl +:+ nl +:+ ".. c:macro:: " +:+ name +:+ nl +:+ nl +:+ prefix +:+ "``"
          +:+ py_str full_proto +:+ "``" +:+ nl +:+ nl) ;;
    print_lineno (Z.of_nat (it_declaration_start_line args)) ;;
    output_purpose args ;;
    emit nl ;;
    default_val ← lift_res (dict_at (it_other_stuff args) "default_val");
    when (truth default_val)
      (bold_section "Initialization" ;;
       output_highlight ("default: ``" +:+ py_str default_val +:+ "``")) ;;
    out_section args false.

Definition out_typedef (name : string) (args : KdocItem) : Out unit :=
  oldprefix ← gets of_lineprefix;
  emit (nl +:+ nl +:+ ".. c:type:: " +:+ name +:+ nl +:+ nl) ;;
  print_lineno (Z.of_nat (it_declaration_start_line args)) ;;
  set_prefix "   " ;;
  output_purpose args ;;
  emit nl ;;
  set_prefix oldprefix ;;
  out_section args false.

(** [s.split("[", maxsplit=1)[0]] *)
Definition before_bracket (s : string) : string := default "" (head (split_char "[" s)).

(** The description of a member of a structure. *)
Definition struct_param (args : KdocItem) (parameter : string) : Out unit :=
  if (parameter =? "")%string || startswith "#" parameter then mret tt
  else
    let parameter_name := before_bracket parameter in
    if bool_decide (dget (it_parameterdescs args) parameter_name = Some undescribed) then mret tt
    else
      print_lineno (dget_or (it_parameterdesc_start_lines args) parameter_name 0%Z) ;;
      prefix ← gets of_lineprefix;
      emit (prefix +:+ "``" +:+ parameter +:+ "``" +:+ nl) ;;
      set_prefix "    " ;;
      desc ← lift_res (dict_at (it_parameterdescs args) parameter_name);
      output_highlight desc ;;
      set_prefix "  " ;;
      emit nl.

Definition out_struct (name : string) (args : KdocItem) : Out unit :=
  let purpose := KdocItem_get args "purpose" (VStr "") in
  let declaration := KdocItem_get args "definition" (VStr "") in
  let dtype := it_type args in
  emit (nl +:+ nl +:+ ".. c:" +:+ dtype +:+ ":: " +:+ name +:+ nl +:+ nl) ;;
  print_lineno (Z.of_nat (it_declaration_start_line args)) ;;
  oldprefix ← gets of_lineprefix;
  set_prefix (oldprefix +:+ "  ") ;;
  purpose ← lift_res (as_str "strip" purpose);
  output_highlight purpose ;;
  emit nl ;;
  emit (".. container:: kernelindent" +:+ nl +:+ nl) ;;
  prefix ← gets of_lineprefix;
  emit (prefix +:+ "**Definition**::" +:+ nl +:+ nl) ;;
  let prefix := prefix +:+ "  " in
  set_prefix prefix ;;
  declaration ← lift_res (as_str "replace" declaration);
  let declaration := replace tab prefix declaration in
  emit (prefix +:+ dtype +:+ " " +:+ name +:+ " {" +:+ nl) ;;
  emit (declaration +:+ prefix +:+ "};" +:+ nl +:+ nl) ;;
  set_prefix "  " ;;
  bold_section "Members" ;;
  for_each (it_parameterlist args) (struct_param args) ;;
  emit nl ;;
  set_prefix oldprefix ;;
  out_section args false.

Definition cls : format_class :=
  MkClass out_doc out_function out_enum out_var out_typedef out_struct.
End RestFormat.
