(* ===== verification/KdocOutputTheory.v ===== *)
(** * KdocOutputTheory: lemmas on the output classes *)

From S2P Require Import Prelude PyStr PyRe PyReSyntax PyReTheory KdocRe CLex.
From S2P Require Import KdocItem KdocEntry KdocParams KdocOutput.

(** ** Indentation patterns

    [output_highlight] builds the pattern [^] followed by white space; it
    matches the lines that start with that white space. *)

Fixpoint lits (s : string) : re :=
  match s with
  | "" => REmpty
  | String c t => match lits t with REmpty => lit no_flags c | r => RSeq (lit no_flags c) r end
  end.

Lemma parse_space_atom f g c t :
  is_space c = true → parse_atom no_flags (S f) g (String c t) = Some (lit no_flags c, g, t).
Proof. destruct c as [[] [] [] [] [] [] [] []]; intros H; try discriminate H; reflexivity. Qed.

Lemma parse_quant_space r s : sall is_space s = true → parse_quant r s = Some (r, s).
Proof.
  destruct s as [|c t]; [done|]. cbn [sall]. intros [H _]%andb_prop.
  destruct c as [[] [] [] [] [] [] [] []]; try discriminate H; reflexivity.
Qed.

Lemma parse_seq_space f g c t :
  is_space c = true →
  parse_seq no_flags (S f) g (String c t)
  = ('(a, g1, s1) ← parse_atom no_flags f g (String c t);
     '(q, s2) ← parse_quant a s1;
     '(r, g2, s3) ← parse_seq no_flags f g1 s2;
     Some (match r with REmpty => q | _ => RSeq q r end, g2, s3)).
Proof. destruct c as [[] [] [] [] [] [] [] []]; intros H; try discriminate H; reflexivity. Qed.

Lemma parse_spaces s : ∀ f g,
  sall is_space s = true → 2 * String.length s < f → parse_seq no_flags f g s = Some (lits s, g, "").
Proof.
  induction s as [|c t IH]; intros f g H Hf; [by destruct f; [lia|]|].
  cbn [sall] in H. apply andb_prop in H as [H1 H2]. cbn [String.length] in Hf.
  destruct f as [|[|f]]; [lia|lia|]. rewrite parse_seq_space by done.
  rewrite parse_space_atom by done. cbn [mbind option_bind].
  rewrite parse_quant_space by done. cbn [mbind option_bind].
  rewrite IH by (done || lia). cbn [mbind option_bind lits]. by destruct (lits t).
Qed.

Lemma compile_indent i :
  sall is_space i = true →
  compiled no_flags ("^" +:+ i)
  = Pattern ("^" +:+ i) no_flags (match lits i with REmpty => RBol false | r => RSeq (RBol false) r end)
      0 [].
Proof.
  intros H. with_strategy transparent [compiled] unfold compiled. unfold re_compile.
  replace (3 * String.length ("^" +:+ i) + 3) with (S (S (S (3 * String.length i + 3))))
    by (cbn [String.append String.length]; lia).
  change (parse_alt no_flags (S (S (S (3 * String.length i + 3)))) (PSt 0 []) ("^" +:+ i))
    with ('(r, g1, s1) ← parse_seq no_flags (S (S (3 * String.length i + 3))) (PSt 0 []) (String "^" i);
          match s1 with
          | String "|" t => '(r', g2, s2) ← parse_alt no_flags (S (S (3 * String.length i + 3))) g1 t;
                            Some (RAlt r r', g2, s2)
          | _ => Some (r, g1, s1) end).
  assert (parse_seq no_flags (S (S (3 * String.length i + 3))) (PSt 0 []) (String "^" i)
    = Some (match lits i with REmpty => RBol false | r => RSeq (RBol false) r end, PSt 0 [], "")) as ->.
  { change (parse_seq no_flags (S (S (3 * String.length i + 3))) (PSt 0 []) (String "^" i))
      with ('(q, s2) ← parse_quant (RBol false) i;
            '(r, g2, s3) ← parse_seq no_flags (S (3 * String.length i + 3)) (PSt 0 []) s2;
            Some (match r with REmpty => q | _ => RSeq q r end, g2, s3)).
    rewrite parse_quant_space by done. cbn [mbind option_bind].
    rewrite parse_spaces by (done || lia). cbn [mbind option_bind]. by destruct (lits i). }
  done.
Qed.

Fixpoint skip (s : string) (st : mst) : mst :=
  match s, m_rest st with
  | String c s', String _ t => skip s' (advance st c t)
  | _, _ => st
  end.

Lemma lit_match c d : cset_match false (CSet false [CRange c c]) d = (d =? c)%char.
Proof.
  unfold cset_match, items_match. cbn [existsb citem_match andb].
  unfold in_range, code. destruct (Ascii.eqb_spec d c) as [->|Hne].
  - by rewrite N.leb_refl.
  - destruct ((N_of_ascii c <=? N_of_ascii d)%N && (N_of_ascii d <=? N_of_ascii c)%N) eqn:E; [|done].
    apply andb_prop in E as [H1%N.leb_le H2%N.leb_le].
    exfalso. apply Hne. rewrite <- (ascii_N_embedding d), <- (ascii_N_embedding c). f_equal. lia.
Qed.

Lemma m_run_lit c st k :
  m_run (lit no_flags c) st k
  = match m_rest st with
    | String d t => if (d =? c)%char then k (advance st d t) else None
    | "" => None
    end.
Proof. unfold lit. cbn [m_run]. destruct (m_rest st) as [|d t]; [done|]. by rewrite lit_match. Qed.

Lemma m_run_lits s : ∀ st k,
  m_run (lits s) st k = if startswith s (m_rest st) then k (skip s st) else None.
Proof.
  induction s as [|c s IH]; intros st k; [done|].
  assert (m_run (lits (String c s)) st k = m_run (lit no_flags c) st (λ st', m_run (lits s) st' k)) as ->.
  { cbn [lits]. by destruct (lits s). }
  rewrite m_run_lit. cbn [startswith skip]. destruct (m_rest st) as [|d t]; [done|].
  rewrite Ascii.eqb_sym. destruct (Ascii.eqb_spec c d) as [->|]; [|done]. cbn [andb].
  by rewrite IH.
Qed.

(** The pattern of an indentation matches the lines that start with it. *)
Lemma match_indent i l :
  sall is_space i = true →
  bool_decide (is_Some (re_match (compiled no_flags ("^" +:+ i)) l)) = startswith i l.
Proof.
  intros H. rewrite compile_indent by done. unfold re_match, match_at. cbn [p_prog].
  set (st := mst_at 0 None l).
  assert (m_run (match lits i with REmpty => RBol false | r => RSeq (RBol false) r end) st
            (accept false (m_pos st))
          = m_run (lits i) st (accept false (m_pos st))) as -> by (by destruct (lits i)).
  rewrite m_run_lits. cbn [m_rest st mst_at]. destruct (startswith i l); cbn [accept andb].
  - by apply bool_decide_eq_true, is_Some_alt.
  - apply bool_decide_eq_false. intros [? [=]].
Qed.

(** The white space a line starts with. *)
Fixpoint indent (l : string) : string :=
  match l with String c t => if is_space c then String c (indent t) else "" | "" => "" end.

Lemma indent_space l : sall is_space (indent l) = true.
Proof. induction l as [|c l IH]; [done|]. cbn. destruct (is_space c) eqn:E; [|done]. cbn. by rewrite E. Qed.
Lemma indent_startswith l : startswith (indent l) l = true.
Proof.
  induction l as [|c l IH]; [done|]. cbn. destruct (is_space c); [|done]. cbn. by rewrite Ascii.eqb_refl.
Qed.

Definition space_chr : re := RChr false (CSet false [CSpace false]).

Lemma m_run_space st k :
  m_run space_chr st k
  = match m_rest st with
    | String d t => if is_space d then k (advance st d t) else None
    | "" => None
    end.
Proof. cbn. destruct (m_rest st) as [|d t]; [done|]. by destruct (is_space d). Qed.

(** A greedy loop over white space takes all of it. *)
Lemma loop_space (k : mst → option mst) s : (∀ st, is_Some (k st)) → ∀ fuel count last st,
  m_rest st = s → same_pos last (m_pos st) = false → String.length s < fuel →
  rep_loop (m_run space_chr) true 0 None k fuel count last st = k (skip (indent s) st).
Proof.
  intros Hk. induction s as [|c s IH]; intros [|fuel] count last st Hs Hp Hf; try (simpl in Hf; lia);
    cbn [rep_loop Nat.ltb Nat.leb below andb indent]; rewrite Hp; cbn [negb]; rewrite m_run_space, Hs.
  - destruct st as [? ? r ? ?]. cbn in Hs |- *. by subst r.
  - destruct (is_space c); [|by destruct (Hk st)].
    rewrite IH; cbn [advance m_rest m_pos same_pos].
    + cbn [skip]. rewrite Hs. destruct (Hk (skip (indent s) (advance st c s))) as [x ->]. done.
    + done.
    + apply Nat.eqb_neq. lia.
    + simpl in Hf. lia.
Qed.

Lemma skip_pos s : ∀ st, startswith s (m_rest st) = true →
  m_pos (skip s st) = m_pos st + String.length s.
Proof.
  induction s as [|c s IH]; intros st H; cbn [skip String.length]; [lia|].
  destruct (m_rest st) as [|d t] eqn:E; [done|]. cbn [startswith] in H. apply andb_prop in H as [_ H].
  rewrite IH by done. cbn. lia.
Qed.

Lemma match_re_indent l :
  ∃ m, re_match RestFormat.re_indent l = Some m ∧ group_or m 1 = indent l.
Proof.
  assert (p_prog RestFormat.re_indent = RSeq (RBol false) (RGroup 1 (RRep true 0 None space_chr))) as Hr
    by (vm_compute; reflexivity).
  unfold re_match, match_at. rewrite Hr. set (st := mst_at 0 None l).
  cbn [m_run at_bol m_prev st mst_at]. fold st.
  set (k := λ st', accept false (m_pos st) (set_cap 1 (m_pos st) st')).
  rewrite (loop_space k l); [|by intros|done|done|unfold rep_fuel; cbn; lia].
  eexists. split; [reflexivity|]. unfold group_or, group, to_match. cbn [r_caps r_src snd fst].
  cbn [set_cap m_caps cap_find]. rewrite Nat.eqb_refl. cbn [default].
  pose proof (skip_pos (indent l) st (indent_startswith l)) as Hp. rewrite Hp. cbn [st mst_at m_pos].
  destruct (proj1 (startswith_iff _ _) (indent_startswith l)) as [t Ht]. rewrite Ht at 2.
  exact (str_slice_app "" (indent l) t).
Qed.

(** ** What [output_highlight] makes of a text

    A reference by blocks of lines.  The lines of a literal block: blank lines,
    and lines with at least the indentation of its first line that is not
    blank ([None] before that line). *)

Definition text_of (ls : list string) : string := sconcat (map (λ l, l +:+ nl) ls).
Definition blank (l : string) : bool := (strip l =? "")%string.

Fixpoint literal_run (ind : option string) (ls : list string) : list string * list string :=
  match ls with
  | [] => ([], [])
  | l :: ls' =>
      if blank l then let '(a, b) := literal_run ind ls' in (l :: a, b)
      else match ind with
           | None => let '(a, b) := literal_run (Some (indent l)) ls' in (l :: a, b)
           | Some i => if startswith i l
                       then let '(a, b) := literal_run ind ls' in (l :: a, b) else ([], ls)
           end
  end.

Definition plain (ls : list string) : Prop := Forall (λ l, RestFormat.opens_literal l = false) ls.

(** Text is highlighted up to the line that opens a literal block; the lines
    of the block are copied. *)
Inductive rendered (hs : list (pattern * string)) : list string → string → Prop :=
| rendered_text ls :
    plain ls →
    rendered hs ls (match ls with [] => "" | _ => highlight_block hs (text_of ls) end)
| rendered_block ls l rest lit rest' out :
    plain ls → RestFormat.opens_literal l = true →
    literal_run None rest = (lit, rest') → rendered hs rest' out →
    rendered hs (ls ++ l :: rest) (highlight_block hs (text_of (ls ++ [l])) +:+ text_of lit +:+ out).

Lemma text_of_snoc ls l : text_of (ls ++ [l]) = text_of ls +:+ l +:+ nl.
Proof. unfold text_of. rewrite map_app, sconcat_app. cbn [map]. by rewrite sconcat_cons, sapp_nil_r. Qed.
Lemma text_of_cons l ls : text_of (l :: ls) = l +:+ nl +:+ text_of ls.
Proof. unfold text_of. cbn [map]. by rewrite sconcat_cons, sapp_assoc. Qed.

Section Render.
Import RestFormat.
Context (hs : list (pattern * string)).

Definition hl_finish (s : hl_state) : string :=
  if (hl_block s =? "")%string then hl_output s else hl_output s +:+ highlight_block hs (hl_block s).
Definition prefix_of_ind (ind : option string) : string :=
  match ind with None => "" | Some i => "^" +:+ i end.
Definition ind_ok (ind : option string) : Prop :=
  match ind with None => True | Some i => sall is_space i = true end.

(** A run from outside of a literal block, [done] being the pending lines. *)
Definition text_run (ls : list string) : Prop := ∀ out pre done,
  plain done → ∃ R, rendered hs (done ++ ls) R ∧
    hl_finish (fold_left (hl_step hs) ls (HL out false pre (text_of done))) = out +:+ R.
(** A run from inside. *)
Definition block_run (ls : list string) : Prop := ∀ out ind lit rest',
  ind_ok ind → literal_run ind ls = (lit, rest') → ∃ R, rendered hs rest' R ∧
    hl_finish (fold_left (hl_step hs) ls (HL out true (prefix_of_ind ind) "")) = out +:+ text_of lit +:+ R.

Lemma text_of_empty ls : text_of ls = "" → ls = [].
Proof. destruct ls as [|l ls]; [done|]. rewrite text_of_cons. intros [_ H]%sapp_eq_nil. discriminate H. Qed.

Lemma text_run_nil : text_run [].
Proof.
  intros out pre done Hd. rewrite app_nil_r. eexists. split; [by constructor|].
  cbn [fold_left]. unfold hl_finish. cbn [hl_block hl_output].
  destruct (String.eqb_spec (text_of done) "") as [E|E].
  - by rewrite (text_of_empty _ E), sapp_nil_r.
  - by destruct done.
Qed.

Lemma block_run_nil : block_run [].
Proof.
  intros out ind lit rest' _ [= <- <-]. exists "". split; [by apply (rendered_text hs []); constructor|].
  cbn. by rewrite !sapp_nil_r.
Qed.

Lemma text_run_cons l ls : text_run ls → block_run ls → text_run (l :: ls).
Proof.
  intros HT HB out pre done Hd. cbn [fold_left].
  change (hl_step hs (HL out false pre (text_of done)) l) with (hl_text hs l (HL out false pre (text_of done))).
  unfold hl_text. cbn [hl_block hl_output hl_litprefix]. rewrite <- text_of_snoc.
  destruct (opens_literal l) eqn:E.
  - destruct (literal_run None ls) as [lit rest'] eqn:El.
    destruct (HB (out +:+ highlight_block hs (text_of (done ++ [l]))) None lit rest' I El) as (R & H1 & H2).
    eexists. split; [by eapply rendered_block|]. cbn [prefix_of_ind] in H2. by rewrite H2, !sapp_assoc.
  - destruct (HT out pre (done ++ [l])) as (R & H1 & H2).
    + apply Forall_app. by repeat constructor.
    + exists R. by rewrite <- app_assoc in H1.
Qed.

Lemma hl_step_in out ind l :
  ind_ok ind →
  hl_step hs (HL out true (prefix_of_ind ind) "") l
  = if blank l then HL (out +:+ l +:+ nl) true (prefix_of_ind ind) ""
    else match ind with
         | None => HL (out +:+ l +:+ nl) true (prefix_of_ind (Some (indent l))) ""
         | Some i => if startswith i l then HL (out +:+ l +:+ nl) true (prefix_of_ind ind) ""
                     else hl_step hs (HL out false (prefix_of_ind ind) "") l
         end.
Proof.
  intros Hi. unfold hl_step, blank. cbn [hl_in_literal hl_output hl_block hl_litprefix].
  destruct (strip l =? "")%string; cbn [negb]; [done|].
  destruct ind as [i|]; cbn [prefix_of_ind].
  - change (("^" +:+ i =? "")%string) with false. cbn match.
    pose proof (match_indent i l Hi) as Hm. rewrite <- Hm. destruct (re_match _ l); done.
  - rewrite String.eqb_refl. destruct (match_re_indent l) as (m & -> & ->). done.
Qed.

Lemma block_run_cons l ls : block_run ls → text_run (l :: ls) → block_run (l :: ls).
Proof.
  intros HB HT out ind lit rest' Hi H. cbn [fold_left]. rewrite hl_step_in by done.
  assert (∀ ind' a b, ind_ok ind' → literal_run ind' ls = (a, b) → ∃ R, rendered hs b R ∧
    hl_finish (fold_left (hl_step hs) ls (HL (out +:+ l +:+ nl) true (prefix_of_ind ind') ""))
    = out +:+ text_of (l :: a) +:+ R) as HB'.
  { intros ind' a b Hi' Hr. destruct (HB (out +:+ l +:+ nl) ind' a b Hi' Hr) as (R & H1 & H2).
    exists R. split; [done|]. by rewrite H2, text_of_cons, !sapp_assoc. }
  cbn [literal_run] in H. destruct (blank l).
  { destruct (literal_run ind ls) as [a b] eqn:Er. injection H as <- <-. by apply HB'. }
  destruct ind as [i|].
  - destruct (startswith i l).
    + destruct (literal_run (Some i) ls) as [a b] eqn:Er. injection H as <- <-. by apply HB'.
    + injection H as <- <-. exact (HT out _ [] (List.Forall_nil _)).
  - destruct (literal_run (Some (indent l)) ls) as [a b] eqn:Er. injection H as <- <-.
    apply HB'; [apply indent_space | done].
Qed.

Lemma runs ls : text_run ls ∧ block_run ls.
Proof.
  induction ls as [|l ls [HT HB]]; [split; [apply text_run_nil | apply block_run_nil]|].
  pose proof (text_run_cons l ls HT HB). split; [done|]. by apply block_run_cons.
Qed.

Lemma highlighted_rendered text :
  rendered hs (split_char NL (strip_char NL text)) (highlighted hs text).
Proof.
  destruct (runs (split_char NL (strip_char NL text))) as [HT _].
  destruct (HT "" "" []) as (R & H1 & H2); [constructor|]. cbn in H2.
  unfold highlighted. cbn zeta. change (text_of []) with "" in H2. unfold hl_finish in H2.
  by rewrite H2.
Qed.
End Render.

(** ** The writing methods

    From an object that only differs from [o0] by more text and by the line
    prefix [p], a writing method ends in such an object again. *)

(** The exceptions an item of the right shape can cause in [RestFormat]. *)
Inductive render_error (it : KdocItem) : exn → Prop :=
| fp_parameter p :
    it_type it = "function" → p ∈ it_parameterlist it →
    is_Some (snd (KernRe_search function_pointer (dget_or (it_parametertypes it) p ""))) →
    render_error it IndexError
| no_enum_desc p :
    it_type it = "enum" → p ∈ it_parameterlist it → dmem (it_parameterdescs it) p = false →
    render_error it (KeyError p)
| no_full_proto name :
    it_type it = "var" → KdocItem_get it "full_proto" VNone = VStr "" →
    render_error it (KeyError ("Can't find full proto for " +:+ name +:+ " variable"))
| no_member_desc p :
    it_type it ∈ ["struct"; "union"] → p ∈ it_parameterlist it →
    dmem (it_parameterdescs it) (RestFormat.before_bracket p) = false →
    render_error it (KeyError (RestFormat.before_bracket p)).

Section Writes.
Context (o0 : OutputFormat) (E : exn → Prop).

Definition at_prefix (p : string) (o : OutputFormat) : Prop :=
  ∃ s, o = upd_data (λ d, d +:+ s) (upd_lineprefix (λ _, p) o0).

Abbreviation writes p m q := (hoare (at_prefix p) m (λ _ : unit, at_prefix q) E).

Lemma at_prefix_refl : at_prefix (of_lineprefix o0) o0.
Proof. exists "". destruct o0. unfold upd_data, upd_lineprefix. cbn. by rewrite sapp_nil_r. Qed.

Lemma writes_emit p t : writes p (emit t) p.
Proof.
  apply hoare_modify. intros o [s ->]. exists (s +:+ t). unfold upd_data. cbn. by rewrite sapp_assoc.
Qed.
Lemma writes_set p q : writes p (set_prefix q) q.
Proof. apply hoare_modify. intros o [s ->]. by exists s. Qed.
Lemma writes_ret p : writes p (mret tt) p.
Proof. by intros o. Qed.
Lemma writes_prefix {A} p (k : string → Out A) Q :
  hoare (at_prefix p) (k p) Q E → hoare (at_prefix p) (gets of_lineprefix ≫= k) Q E.
Proof. intros H o Ho. pose proof Ho as [s ->]. exact (H _ Ho). Qed.
Lemma writes_gets {A B} p (f : OutputFormat → A) (k : A → Out B) Q :
  (∀ a, hoare (at_prefix p) (k a) Q E) → hoare (at_prefix p) (gets f ≫= k) Q E.
Proof. intros H o Ho. exact (H _ o Ho). Qed.
Lemma writes_get {B} p (k : OutputFormat → Out B) Q :
  (∀ a, hoare (at_prefix p) (k a) Q E) → hoare (at_prefix p) (get ≫= k) Q E.
Proof. intros H o Ho. exact (H _ o Ho). Qed.
Lemma writes_lift {A B} p (r : res A) (k : A → Out B) Q :
  (match r with Ok a => hoare (at_prefix p) (k a) Q E | Raise x => E x end) →
  hoare (at_prefix p) (lift_res r ≫= k) Q E.
Proof. intros H o Ho. destruct r as [a|x]; [exact (H o Ho) | exact H]. Qed.
Lemma writes_seq {B} p q (m : Out unit) (k : Out B) Q :
  writes p m q → hoare (at_prefix q) k Q E → hoare (at_prefix p) (m ;; k) Q E.
Proof. apply hoare_seq. Qed.
Lemma writes_when p b m : writes p m p → writes p (when b m) p.
Proof. apply hoare_when. Qed.
Lemma writes_for_each {A} p (l : list A) body : (∀ x, writes p (body x) p) → writes p (for_each l body) p.
Proof. intros H. apply hoare_for_each. intros x _. apply H. Qed.
Lemma writes_if p q (b : bool) m1 m2 : writes p m1 q → writes p m2 q → writes p (if b then m1 else m2) q.
Proof. by destruct b. Qed.

Create HintDb writes.
#[local] Hint Resolve writes_emit writes_ret writes_when writes_for_each writes_if : writes.
#[local] Hint Extern 1 (hoare _ (gets of_lineprefix ≫= _) _ _) => apply writes_prefix : writes.
#[local] Hint Extern 2 (hoare _ (gets _ ≫= _) _ _) => apply writes_gets; intros ? : writes.
#[local] Hint Extern 2 (hoare _ (get ≫= _) _ _) => apply writes_get; intros ? : writes.
#[local] Hint Extern 3 (hoare _ (_ ≫= _) _ _) => eapply writes_seq : writes.
#[local] Hint Resolve writes_set : writes.

Lemma writes_lineno p ln : writes p (RestFormat.print_lineno ln) p.
Proof. unfold RestFormat.print_lineno. eauto with writes. Qed.
Lemma writes_highlight p text : writes p (RestFormat.output_highlight text) p.
Proof. unfold RestFormat.output_highlight. eauto with writes. Qed.
Lemma writes_bold p section : writes p (RestFormat.bold_section section) p.
Proof. unfold RestFormat.bold_section. eauto with writes. Qed.
#[local] Hint Resolve writes_lineno writes_highlight writes_bold : writes.

Lemma writes_section p args b : writes p (RestFormat.out_section args b) p.
Proof.
  unfold RestFormat.out_section. eapply writes_seq; [|apply writes_emit].
  apply writes_for_each. intros [section text]. apply writes_get. intros o.
  apply writes_if; [apply writes_ret|].
  eapply writes_seq; [|eauto 8 with writes]. apply writes_if; eauto 6 with writes.
Qed.
#[local] Hint Resolve writes_section : writes.

(** [purpose] is a string. *)
Lemma str_at_get args key s : str_at args key = true →
  ∃ t, dget args key = Some (VStr t) ∧ dget_or args key s = VStr t.
Proof.
  unfold str_at, dget_or. destruct (dget args key) as [[|b|t]|]; try done. intros _. by exists t.
Qed.

Lemma writes_purpose p args :
  str_at (it_other_stuff args) "purpose" = true → writes p (RestFormat.output_purpose args) p.
Proof.
  intros H. unfold RestFormat.output_purpose, KdocItem_get.
  destruct (str_at_get _ "purpose" (VStr "") H) as (t & _ & ->).
  apply writes_lift. cbn [as_str]. apply writes_highlight.
Qed.
#[local] Hint Resolve writes_purpose : writes.

(** An object with any prefix, before one is assigned. *)
Lemma writes_reset {B} p q (m : Out unit) (k : Out B) Q :
  (hoare (at_prefix p) m (λ _ o, ∃ r, at_prefix r o) E) → hoare (at_prefix q) k Q E →
  hoare (at_prefix p) (m ;; set_prefix q ;; k) Q E.
Proof.
  intros Hm Hk. eapply hoare_seq; [exact Hm|]. intros o [r Ho].
  exact (writes_seq r q _ k Q (writes_set r q) Hk o Ho).
Qed.
Lemma writes_some p q m : writes p m q → hoare (at_prefix p) m (λ _ o, ∃ r, at_prefix r o) E.
Proof. intros H. apply (hoare_post _ _ _ _ _ H). intros _ o Ho. by exists q. Qed.

Lemma writes_for_each_in {A} p (l : list A) body :
  (∀ x, x ∈ l → writes p (body x) p) → writes p (for_each l body) p.
Proof. apply hoare_for_each. Qed.

(** *** The kinds *)

Lemma fp_groups dtype r m :
  KernRe_search function_pointer dtype = (r, Some m) →
  (∃ s, RestFormat.fp_group r 1 = Ok s) ∧ RestFormat.fp_group r 3 = Raise IndexError.
Proof.
  assert (p_ngroups (kr_regex function_pointer) = 2) as Hn by (vm_compute; reflexivity).
  assert (always_sets 1 (p_prog (kr_regex function_pointer)) = true) as Ha by (vm_compute; reflexivity).
  revert Hn Ha. generalize function_pointer. intros fp Hn Ha. unfold KernRe_search.
  intros [= <- Hm]. unfold RestFormat.fp_group, KernRe_group. cbn [kr_last_match kr_regex].
  rewrite Hm, Hn. cbn [Nat.leb]. split; [|done]. apply re_search_ok in Hm.
  destruct (group_always _ _ _ Hm 1 Ha) as [t ->]. by exists t.
Qed.

Lemma add_parameter_ok pre it acc p :
  (is_Some (snd (KernRe_search function_pointer (dget_or (it_parametertypes it) p ""))) → E IndexError) →
  hoare (at_prefix pre) (RestFormat.add_parameter it acc p) (λ _, at_prefix pre) E.
Proof.
  intros HE. unfold RestFormat.add_parameter. destruct acc as [signature count]. cbn zeta.
  destruct (KernRe_search function_pointer _) as [r [m|]] eqn:Em; [|by intros o].
  destruct (fp_groups _ _ _ Em) as [[s ->] ->]. apply writes_lift. apply writes_lift.
  apply HE. cbn. by eexists.
Qed.

Lemma function_param_ok it p :
  hoare (at_prefix "  ") (RestFormat.function_param it p) (λ _, at_prefix "  ") E.
Proof.
  unfold RestFormat.function_param. cbn zeta. apply writes_prefix.
  eapply writes_seq; [apply writes_emit|]. eapply writes_seq; [apply writes_lineno|].
  eapply writes_seq; [apply writes_set|]. eapply writes_seq; [|apply writes_set].
  destruct (dget _ _) as [desc|]; [apply writes_if|]; eauto 6 with writes.
Qed.

Lemma out_function_ok p name it :
  it_type it = "function" → item_ok it = true → (∀ x, render_error it x → E x) →
  hoare (at_prefix p) (RestFormat.out_function name it) (λ _, at_prefix p) E.
Proof.
  intros Hk Ho HE. apply item_ok_shape in Ho. unfold item_shape in Ho. rewrite Hk in Ho. cbn -[str_at] in Ho.
  apply andb_prop in Ho as [Hp Hf]. unfold RestFormat.out_function. cbn zeta.
  set (ft := KdocItem_get it "functiontype" VNone).
  destruct (str_at_get _ "functiontype" VNone Hf) as (t & _ & Ht). fold (KdocItem_get it "functiontype" VNone) in Ht.
  fold ft in Ht. rewrite Ht. apply writes_prefix.
  eapply hoare_bind with (R := λ _, at_prefix p).
  { apply hoare_if; intros _; [by intros o|]. eapply hoare_bind with (R := λ _, at_prefix p).
    - apply hoare_if; intros _; by intros o.
    - intros ty. by intros o. }
  intros signature. eapply hoare_bind with (R := λ _, at_prefix p).
  { apply (hoare_for_acc_in E (λ _, at_prefix p)). intros acc q Hq. apply add_parameter_ok.
    intros Hs. apply HE. by eapply fp_parameter. }
  intros acc. eapply writes_seq; [apply writes_lineno|].
  set (typedef := truth (KdocItem_get it "typedef" VNone)).
  eapply hoare_seq with (R := λ o, ∃ r, at_prefix r o).
  { destruct typedef; cbn [orb].
    - apply (writes_some p ""). eauto 12 with writes.
    - apply (writes_some p p). eauto 12 with writes. }
  intros o [r Hr]. revert o Hr. apply (writes_reset r "  ").
  { apply hoare_if; intros _; [|exact (writes_some r r _ (writes_ret r))].
    apply (writes_some r "   "). eauto 12 with writes. }
  eapply writes_seq; [apply writes_when; eauto 12 with writes|].
  eapply writes_seq; [apply writes_for_each; apply function_param_ok|].
  eauto with writes.
Qed.

Lemma dict_at_ok {V} (d : dict V) k : dmem d k = true → ∃ v, dict_at d k = Ok v.
Proof. unfold dmem, dict_at. destruct (dget d k) as [v|]; [by exists v | done]. Qed.

Lemma enum_param_ok it outer p q :
  (dmem (it_parameterdescs it) q = false → E (KeyError q)) →
  writes p (RestFormat.enum_param it outer q) p.
Proof.
  intros HE. unfold RestFormat.enum_param. eapply writes_seq; [apply writes_emit|].
  eapply writes_seq; [|apply writes_emit]. apply writes_if; [|eauto with writes].
  destruct (dmem (it_parameterdescs it) q) eqn:Ed.
  - destruct (dict_at_ok _ _ Ed) as [v ->]. apply writes_lift. apply writes_highlight.
  - unfold dict_at. unfold dmem in Ed. destruct (dget _ q); [done|]. apply writes_lift. by apply HE.
Qed.

Lemma out_enum_ok p name it :
  it_type it = "enum" → item_ok it = true → (∀ x, render_error it x → E x) →
  writes p (RestFormat.out_enum name it) p.
Proof.
  intros Hk Ho HE. apply item_ok_shape in Ho. unfold item_shape in Ho. rewrite Hk in Ho. cbn -[str_at] in Ho.
  apply andb_prop in Ho as [Hp _]. unfold RestFormat.out_enum. cbn zeta.
  apply writes_prefix. eapply writes_seq; [apply writes_emit|]. eapply writes_seq; [apply writes_lineno|].
  eapply writes_seq; [apply writes_set|]. eapply writes_seq; [by apply writes_purpose|].
  eapply writes_seq; [apply writes_emit|]. eapply writes_seq; [apply writes_emit|].
  apply writes_prefix. eapply writes_seq; [apply writes_set|]. eapply writes_seq; [apply writes_emit|].
  eapply writes_seq; [|eauto with writes]. apply writes_for_each_in. intros q Hq.
  apply enum_param_ok. intros Hd. apply HE. by apply no_enum_desc.
Qed.

(** The line prefix is left at two blanks. *)
Lemma out_var_ok p name it :
  it_type it = "var" → item_ok it = true → (∀ x, render_error it x → E x) →
  writes p (RestFormat.out_var name it) "  ".
Proof.
  intros Hk Ho HE. apply item_ok_shape in Ho. unfold item_shape in Ho. rewrite Hk in Ho. cbn -[str_at dmem] in Ho.
  apply andb_prop in Ho as [Hp Ho]. apply andb_prop in Ho as [Hf Hd]. unfold RestFormat.out_var.
  destruct (str_at_get _ "full_proto" VNone Hf) as (t & _ & Ht). change (dget_or _ _ _) with
    (KdocItem_get it "full_proto" VNone) in Ht. rewrite Ht. cbn [truth]. rewrite negb_involutive.
  destruct (String.eqb_spec t "") as [->|Hne].
  { apply hoare_raise. apply HE. by apply no_full_proto. }
  eapply writes_seq; [apply writes_set|]. apply writes_prefix.
  eapply writes_seq; [apply writes_emit|]. eapply writes_seq; [apply writes_lineno|].
  eapply writes_seq; [by apply writes_purpose|]. eapply writes_seq; [apply writes_emit|].
  destruct (dict_at_ok _ _ Hd) as [v ->]. apply writes_lift.
  eapply writes_seq; [|apply writes_section]. apply writes_when. eauto with writes.
Qed.

Lemma out_typedef_ok p name it :
  str_at (it_other_stuff it) "purpose" = true → writes p (RestFormat.out_typedef name it) p.
Proof. intros Hp. unfold RestFormat.out_typedef. eauto 20 with writes. Qed.

Lemma struct_param_ok it q :
  (dmem (it_parameterdescs it) (RestFormat.before_bracket q) = false →
   E (KeyError (RestFormat.before_bracket q))) →
  writes "  " (RestFormat.struct_param it q) "  ".
Proof.
  intros HE. unfold RestFormat.struct_param. cbn zeta.
  apply writes_if; [apply writes_ret|]. apply writes_if; [apply writes_ret|].
  eapply writes_seq; [apply writes_lineno|]. apply writes_prefix.
  eapply writes_seq; [apply writes_emit|]. eapply writes_seq; [apply writes_set|].
  apply writes_lift. destruct (dict_at _ _) as [v|x] eqn:Ed; [eauto with writes|].
  unfold dict_at in Ed. unfold dmem in HE. destruct (dget _ _) as [v|]; [done|].
  injection Ed as <-. by apply HE.
Qed.

Lemma out_struct_ok p name it :
  it_type it ∈ ["struct"; "union"] → item_ok it = true → (∀ x, render_error it x → E x) →
  writes p (RestFormat.out_struct name it) p.
Proof.
  intros Hk Ho HE.
  assert (str_at (it_other_stuff it) "purpose" = true ∧ str_at (it_other_stuff it) "definition" = true)
    as [Hp Hd].
  { apply item_ok_shape in Ho. unfold item_shape in Ho. apply elem_of_cons in Hk as [Hk|Hk%list_elem_of_singleton];
      rewrite Hk in Ho; cbn -[str_at smem forallb] in Ho;
      repeat (apply andb_prop in Ho as [? Ho] || apply andb_prop in H0 as [? H0]); split; try done;
      bool_facts; done. }
  unfold RestFormat.out_struct. cbn zeta.
  destruct (str_at_get _ "purpose" (VStr "") Hp) as (t & _ & Ht).
  destruct (str_at_get _ "definition" (VStr "") Hd) as (u & _ & Hu).
  unfold KdocItem_get. rewrite Ht, Hu.
  eapply writes_seq; [apply writes_emit|]. eapply writes_seq; [apply writes_lineno|].
  apply writes_prefix. eapply writes_seq; [apply writes_set|]. apply writes_lift. cbn [as_str].
  eapply writes_seq; [apply writes_highlight|]. eapply writes_seq; [apply writes_emit|].
  eapply writes_seq; [apply writes_emit|]. apply writes_prefix. eapply writes_seq; [apply writes_emit|].
  eapply writes_seq; [apply writes_set|]. apply writes_lift.
  do 2 (eapply writes_seq; [apply writes_emit|]). eapply writes_seq; [apply writes_set|].
  eapply writes_seq; [apply writes_bold|].
  eapply writes_seq; [|eauto with writes]. apply writes_for_each_in. intros q Hq.
  apply struct_param_ok. intros Hm. apply HE. by apply no_member_desc.
Qed.
End Writes.
