(* ===== verification/KdocOutputSpec.v ===== *)
(** * KdocOutputSpec: what the output classes promise

    The filters of [OutputFormat], for every class that obeys the laws of
    [FormatLaws], and the ReST output of the items of the parser. *)

From S2P Require Import Prelude PyStr PyRe PyReSyntax PyReTheory KdocRe CLex Xforms.
From S2P Require Import KdocItem KdocEntry KdocParams KdocDump KdocProcess KdocMachine.
From S2P Require Import KdocOutput KdocOutputTheory.

(** ** Filters *)

Definition filters (o : OutputFormat) :=
  (of_out_mode o, of_enable_lineno o, of_nosymbol o, of_function_table o, of_no_doc_sections o).
Definition erase (o : OutputFormat) : OutputFormat := upd_data (λ _, "") o.

(** The items that are displayed, given the table of functions. *)
Definition shown (o : OutputFormat) (table : list string) (it : KdocItem) : bool :=
  let name := it_name it in
  negb (smem name (of_nosymbol o)) &&
  if (it_type it =? "doc")%string then
    negb (of_no_doc_sections o) &&
    match of_out_mode o with
    | OUTPUT_ALL => true
    | OUTPUT_INCLUDE => smem name table
    | _ => false
    end
  else
    match of_out_mode o with
    | OUTPUT_ALL => true
    | OUTPUT_INCLUDE | OUTPUT_EXPORTED => smem name table
    | OUTPUT_INTERNAL => negb (it_type it =? "function")%string || negb (smem name table)
    end.

(** The warnings of an item are logged and counted. *)
Definition with_warnings (it : KdocItem) (o : OutputFormat) : OutputFormat :=
  upd_out_errors (λ n, n + length (it_warnings it))
    (upd_out_log (λ l, l ++ map LogWarning (it_warnings it)) o).

Lemma out_warnings_eq it o : out_warnings it o = (with_warnings it o, Ok tt).
Proof.
  unfold out_warnings, with_warnings. generalize (it_warnings it). intros l. revert o.
  induction l as [|w l IH]; intros o; cbn [for_each].
  - unfold upd_out_errors, upd_out_log. destruct o. cbn. by rewrite app_nil_r, Nat.add_0_r.
  - change ((out_warning w ;; for_each l out_warning) o)
      with (for_each l out_warning (upd_out_errors S (upd_out_log (λ r, r ++ [LogWarning w]) o))).
    rewrite IH. f_equal. unfold upd_out_errors, upd_out_log. destruct o. cbn.
    rewrite <- app_assoc. f_equal. lia.
Qed.

Definition selects_by_name (m : out_mode_t) : bool :=
  match m with OUTPUT_INCLUDE | OUTPUT_EXPORTED => true | _ => false end.

Lemma check_declaration_eq o t it :
  of_function_table o = Some t → (it_type it =? "doc")%string = false →
  check_declaration (it_type it) (it_name it) it o
  = (if shown o t it && negb (selects_by_name (of_out_mode o)) then with_warnings it o else o,
     Ok (shown o t it)).
Proof.
  intros Ht Hd. unfold check_declaration, shown, in_function_table. rewrite Hd. run_ST.
  destruct (smem (it_name it) (of_nosymbol o)); [done|]. cbn [negb andb].
  destruct (of_out_mode o) eqn:Em; rewrite ?Ht.
  - cbn. by rewrite out_warnings_eq.
  - by destruct (smem _ t).
  - by destruct (smem _ t).
  - destruct (it_type it =? "function")%string; cbn [negb orb].
    + rewrite Ht. destruct (smem _ t); [done|]. cbn. by rewrite out_warnings_eq.
    + by rewrite out_warnings_eq.
Qed.

Lemma check_doc_eq o t it :
  of_function_table o = Some t → it_type it = "doc" →
  check_doc (it_name it) it o
  = (if shown o t it then with_warnings it o else o, Ok (shown o t it)).
Proof.
  intros Ht Hd. unfold check_doc, shown, in_function_table. rewrite Hd, String.eqb_refl. run_ST.
  destruct (of_no_doc_sections o); [by rewrite andb_false_r|].
  destruct (smem (it_name it) (of_nosymbol o)); [done|]. cbn [negb andb].
  destruct (of_out_mode o) eqn:Em; try done; rewrite ?Ht.
  - by rewrite out_warnings_eq.
  - destruct (smem _ t); [|done]. by rewrite out_warnings_eq.
Qed.

(** ** The laws of an output class

    Its methods leave the filters alone, and the one for DOC blocks does
    nothing when the block is not displayed. *)

Class FormatLaws (cls : format_class) : Prop := {
  keeps_doc F name it : keeps (λ o, filters o = F) (out_doc cls name it);
  keeps_function F name it : keeps (λ o, filters o = F) (out_function cls name it);
  keeps_enum F name it : keeps (λ o, filters o = F) (out_enum cls name it);
  keeps_var F name it : keeps (λ o, filters o = F) (out_var cls name it);
  keeps_typedef F name it : keeps (λ o, filters o = F) (out_typedef cls name it);
  keeps_struct F name it : keeps (λ o, filters o = F) (out_struct cls name it);
  hidden_doc o t it :
    of_function_table o = Some t → it_type it = "doc" → shown o t it = false →
    out_doc cls (it_name it) it o = (o, Ok tt);
}.

(** Proves that a method built from reads, writes and messages keeps the
    filters. *)
Ltac keep_filters :=
  repeat match goal with
  | |- keeps _ (_ ≫= _) => apply keeps_bind; [|intros ?]
  | |- keeps _ (mret _) => apply keeps_ret
  | |- keeps _ (raise _) => apply keeps_raise
  | |- keeps _ (gets _) => apply keeps_gets
  | |- keeps _ get => apply (keeps_gets _ (λ o, o))
  | |- keeps _ (lift_res _) => apply keeps_lift
  | |- keeps _ (when _ _) => apply keeps_when
  | |- keeps _ (for_each _ _) => apply keeps_for_each; intros ?
  | |- keeps _ (for_acc _ _ _) => apply keeps_for_acc; intros ? ?
  | |- keeps _ (emit _) => by apply keeps_modify
  | |- keeps _ (set_prefix _) => by apply keeps_modify
  | |- keeps _ (out_log _) => by apply keeps_modify
  | |- keeps _ (modify _) => by apply keeps_modify
  | |- keeps _ (match ?x with _ => _ end) => destruct x
  | |- keeps _ ((λ x, _) _) => cbv beta
  | |- keeps _ (let _ := _ in _) => cbv zeta
  end.

#[global] Instance BaseFormat_laws : FormatLaws BaseFormat.
Proof. split; intros; cbn; by keep_filters || done. Qed.

Section RestLaws.
Import RestFormat.
Context (F : out_mode_t * bool * list string * option (list string) * bool).
Abbreviation kept m := (keeps (λ o, filters o = F) m).

Lemma kept_check_doc name it : kept (check_doc name it).
Proof. unfold check_doc, in_function_table, out_warnings, out_warning. by keep_filters. Qed.
Lemma kept_lineno ln : kept (print_lineno ln).
Proof. unfold print_lineno. by keep_filters. Qed.
Lemma kept_highlight text : kept (output_highlight text).
Proof. unfold output_highlight. by keep_filters. Qed.
Lemma kept_purpose it : kept (output_purpose it).
Proof. unfold output_purpose. keep_filters. apply kept_highlight. Qed.
Lemma kept_bold s : kept (bold_section s).
Proof. unfold bold_section. by keep_filters. Qed.

Create HintDb kept.
#[local] Hint Resolve kept_check_doc kept_lineno kept_highlight kept_purpose kept_bold : kept.
Ltac kept := keep_filters; eauto with kept.

Lemma kept_section it b : kept (out_section it b).
Proof. unfold out_section. kept. Qed.
#[local] Hint Resolve kept_section : kept.
Lemma kept_function name it : kept (RestFormat.out_function name it).
Proof. unfold RestFormat.out_function, add_parameter, function_param. kept. Qed.
Lemma kept_enum name it : kept (RestFormat.out_enum name it).
Proof. unfold RestFormat.out_enum, enum_param. kept. Qed.
Lemma kept_var name it : kept (RestFormat.out_var name it).
Proof. unfold RestFormat.out_var. kept. Qed.
Lemma kept_typedef name it : kept (RestFormat.out_typedef name it).
Proof. unfold RestFormat.out_typedef. kept. Qed.
Lemma kept_struct name it : kept (RestFormat.out_struct name it).
Proof. unfold RestFormat.out_struct, struct_param. kept. Qed.
Lemma kept_doc name it : kept (RestFormat.out_doc name it).
Proof. unfold RestFormat.out_doc. kept. Qed.
End RestLaws.

#[global] Instance RestFormat_laws : FormatLaws RestFormat.cls.
Proof.
  split; intros; cbn; auto using kept_doc, kept_function, kept_enum, kept_var, kept_typedef, kept_struct.
  unfold RestFormat.out_doc, mbind, ST_bind. rewrite (check_doc_eq o t it) by done. by rewrite H1.
Qed.

(** ** Filtering an item out is the same as not having it *)

Section Filtering.
Context (cls : format_class) `{!FormatLaws cls} (fname : string).

Lemma msg_erase name it o1 o2 : erase o1 = erase o2 → msg cls name it o1 = msg cls name it o2.
Proof.
  intros H. unfold msg. assert (∀ o, modify (upd_data (λ _, "")) o = (erase o, Ok tt)) as HM by done.
  unfold mbind, ST_bind. by rewrite !HM, H.
Qed.

Lemma msg_filters name it F : keeps (λ o, filters o = F) (msg cls name it).
Proof.
  pose proof (keeps_doc (cls := cls) F) as Hd. pose proof (keeps_function (cls := cls) F) as Hf.
  pose proof (keeps_enum (cls := cls) F) as He. pose proof (keeps_var (cls := cls) F) as Hv.
  pose proof (keeps_typedef (cls := cls) F) as Ht. pose proof (keeps_struct (cls := cls) F) as Hs.
  unfold msg, result_data, check_declaration, in_function_table, out_warnings, out_warning.
  keep_filters; auto.
Qed.

(** A hidden item gives the empty text and changes nothing else. *)
Lemma msg_hidden it o t :
  of_function_table o = Some t → shown o t it = false →
  msg cls (it_name it) it o = (erase o, Ok (Some "")).
Proof.
  intros Ht Hs. unfold msg, mbind, ST_bind.
  assert (modify (upd_data (λ _, "")) o = (erase o, Ok tt)) as -> by done. cbv beta iota zeta.
  destruct (String.eqb_spec (it_type it) "doc") as [Hd|Hd].
  - rewrite (hidden_doc (cls := cls) (erase o) t it); done.
  - apply String.eqb_neq in Hd. rewrite (check_declaration_eq (erase o) t it); [|done..].
    change (shown (erase o) t it) with (shown o t it). by rewrite Hs.
Qed.

Lemma output_one_filters it out F : keeps (λ o, filters o = F) (output_one (msg cls) fname out it).
Proof. unfold output_one. apply keeps_bind; [apply msg_filters|]. intros m. keep_filters. Qed.

Lemma output_filtered syms : ∀ t out o1 o2,
  of_function_table o1 = Some t → erase o1 = erase o2 →
  let r1 := for_acc syms out (output_one (msg cls) fname) o1 in
  let r2 := for_acc (filter (λ it, shown o1 t it = true) syms) out (output_one (msg cls) fname) o2 in
  snd r1 = snd r2 ∧ erase (fst r1) = erase (fst r2).
Proof.
  induction syms as [|it syms IH]; intros t out o1 o2 Ht He; [done|]. cbv zeta in *.
  assert (∀ o, filters o = filters o1 → of_function_table o = Some t ∧ shown o t = shown o1 t) as HF.
  { unfold filters, shown. intros o [= -> _ -> -> ->]. done. }
  cbn [for_acc]. rewrite filter_cons. destruct (shown o1 t it) eqn:Es.
  - destruct (decide (true = true)) as [_|]; [|done]. cbn [for_acc].
    assert (output_one (msg cls) fname out it o1 = output_one (msg cls) fname out it o2) as HE.
    { unfold output_one, mbind, ST_bind. by rewrite (msg_erase _ it o1 o2 He). }
    unfold mbind, ST_bind. rewrite <- HE.
    assert (filters (fst (output_one (msg cls) fname out it o1)) = filters o1) as HK.
    { exact (output_one_filters it out (filters o1) o1 eq_refl). }
    destruct (output_one (msg cls) fname out it o1) as [o' [a|x]]; [|done].
    cbn [fst] in HK. destruct (HF o' HK) as [Ht' Hs']. pose proof (IH t a o' o' Ht' eq_refl) as H.
    by rewrite Hs' in H.
  - destruct (decide (false = true)) as [|_]; [done|].
    assert (output_one (msg cls) fname out it o1 = (erase o1, Ok out)) as HE.
    { unfold output_one, mbind, ST_bind. rewrite (msg_hidden it o1 t Ht Es). cbv beta iota.
      unfold mret, ST_ret. by rewrite sapp_nil_r. }
    unfold mbind, ST_bind. rewrite HE.
    exact (IH t out (erase o1) o2 Ht He).
Qed.
End Filtering.

(** ** Properties *)

(** The decision of [check_declaration], in each of the four modes: an item
    in [nosymbol] is never shown; the modes for given symbols and for exported
    symbols show what is in the table, the mode for internal symbols what is
    not a function of the table.  The warnings of a shown item are logged and
    counted in the modes that do not select by name, those of any other item
    are not. *)
Theorem check_declaration_spec o t it :
  of_function_table o = Some t → (it_type it =? "doc")%string = false →
  check_declaration (it_type it) (it_name it) it o
  = (if shown o t it && negb (selects_by_name (of_out_mode o)) then with_warnings it o else o,
     Ok (shown o t it)).
Proof. exact (check_declaration_eq o t it). Qed.

(** C10 Filtering is compositional: for every output class that obeys the laws
    (the base class and [RestFormat] do), the output of a list of items, the
    exception it may raise, and the object it leaves are those of the list
    without the items that are not shown. *)
Theorem output_symbols_filters cls `{!FormatLaws cls} fname symbols o t :
  of_function_table o = Some t →
  let r1 := output_symbols cls fname symbols o in
  let r2 := output_symbols cls fname (filter (λ it, shown o t it = true) symbols) o in
  snd r1 = snd r2 ∧ erase (fst r1) = erase (fst r2).
Proof. intros Ht. exact (output_filtered cls fname symbols t "" o o Ht eq_refl). Qed.

(** C8 The text of [output_highlight]: it is written line by line behind the
    line prefix, and the lines of the text are all there and in order: text up
    to a line that opens a literal block is highlighted as a whole, the lines
    of the literal block (blank, or indented as its first line is) are copied
    unchanged. *)
Theorem output_highlight_spec text o :
  ∃ out, rendered RestFormat.highlights (split_char NL (strip_char NL text)) out ∧
    RestFormat.output_highlight text o
    = (upd_data (λ d, d +:+ sconcat (map (λ l, of_lineprefix o +:+ l +:+ nl)
                                         (split_char NL (strip_char NL out)))) o, Ok tt).
Proof.
  eexists. split; [apply highlighted_rendered|].
  unfold RestFormat.output_highlight. run_ST. generalize (of_lineprefix o). intros p.
  generalize (split_char NL (strip_char NL (RestFormat.highlighted RestFormat.highlights text))).
  intros ls. revert o. induction ls as [|l ls IH]; intros o; cbn [for_each map].
  - unfold sconcat, upd_data. destruct o. cbn. by rewrite sapp_nil_r.
  - unfold mbind, ST_bind, emit, modify. rewrite IH, sconcat_cons. unfold upd_data. cbn.
    by rewrite !sapp_assoc.
Qed.

(** The prefix a method leaves. *)
Definition prefix_after (it : KdocItem) (p : string) : string :=
  if (it_type it =? "var")%string then "  " else p.

Lemma rest_kind_ok o it (E : exn → Prop) (m : Out unit) :
  hoare (at_prefix o (of_lineprefix o)) m (λ _, at_prefix o (prefix_after it (of_lineprefix o))) E →
  of_data o = "" →
  match (m ;; result_data) o with
  | (o', Ok r) => r = Some (of_data o') ∧ of_lineprefix o' = prefix_after it (of_lineprefix o)
                  ∧ of_log o' = of_log o
  | (_, Raise x) => E x
  end.
Proof.
  intros H Hd. specialize (H o (at_prefix_refl o)). unfold mbind, ST_bind.
  destruct (m o) as [o' [[]|x]]; [|done]. destruct H as [s ->]. cbn. done.
Qed.

Lemma item_type_cases it : item_ok it = true → it_type it ≠ "doc" →
  it_type it ∈ ["function"; "enum"; "var"; "typedef"; "struct"; "union"].
Proof.
  intros H%item_ok_shape Hd. revert H. unfold item_shape. intros H. apply String.eqb_neq in Hd. rewrite Hd in H.
  apply andb_prop in H as [_ H]. rewrite !elem_of_cons.
  destruct (String.eqb_spec (it_type it) "function") as [|_]; [by left|].
  destruct (String.eqb_spec (it_type it) "enum") as [|_]; [tauto|].
  destruct (String.eqb_spec (it_type it) "var") as [|_]; [tauto|].
  destruct (String.eqb_spec (it_type it) "typedef") as [|_]; [tauto|].
  apply andb_prop in H as [H _]. apply andb_prop in H as [H _]. apply smem_iff in H.
  rewrite !elem_of_cons in H. tauto.
Qed.

Lemma item_purpose it : item_ok it = true → it_type it ≠ "doc" →
  str_at (it_other_stuff it) "purpose" = true.
Proof.
  intros H%item_ok_shape Hd. revert H. unfold item_shape. intros H. apply String.eqb_neq in Hd. rewrite Hd in H.
  by apply andb_prop in H as [? _].
Qed.

Lemma rest_shown it o :
  item_ok it = true → it_type it ≠ "doc" → of_data o = "" →
  match (let dtype := it_type it in let name := it_name it in
         if (dtype =? "function")%string then RestFormat.out_function name it ;; result_data
         else if (dtype =? "enum")%string then RestFormat.out_enum name it ;; result_data
         else if (dtype =? "var")%string then RestFormat.out_var name it ;; result_data
         else if (dtype =? "typedef")%string then RestFormat.out_typedef name it ;; result_data
         else if smem dtype ["struct"; "union"] then RestFormat.out_struct name it ;; result_data
         else out_log (LogWarning ("doesn't know how to output '" +:+ dtype +:+ "' block")) ;;
              mret None) o with
  | (o', Ok r) => r = Some (of_data o') ∧ of_lineprefix o' = prefix_after it (of_lineprefix o)
                  ∧ of_log o' = of_log o
  | (_, Raise x) => render_error it x
  end.
Proof.
  intros Hok Hd Ho. pose proof (item_type_cases it Hok Hd) as Ht. pose proof (item_purpose it Hok Hd) as Hp.
  cbv zeta. assert (it_type it ∈ ["struct"; "union"] →
    match (RestFormat.out_struct (it_name it) it ;; result_data) o with
    | (o', Ok r) => r = Some (of_data o') ∧ of_lineprefix o' = prefix_after it (of_lineprefix o)
                    ∧ of_log o' = of_log o
    | (_, Raise x) => render_error it x end) as HS.
  { intros Hk. apply rest_kind_ok; [|done].
    assert (prefix_after it (of_lineprefix o) = of_lineprefix o) as ->.
    { unfold prefix_after. apply elem_of_cons in Hk as [->| ->%list_elem_of_singleton]; done. }
    by apply out_struct_ok. }
  rewrite !elem_of_cons, elem_of_nil in Ht.
  destruct Ht as [Ht|[Ht|[Ht|[Ht|[Ht|[Ht|[]]]]]]]; rewrite Ht.
  - apply (rest_kind_ok o it _ (RestFormat.out_function (it_name it) it)); [|done].
    unfold prefix_after. rewrite Ht. by apply out_function_ok.
  - apply (rest_kind_ok o it _ (RestFormat.out_enum (it_name it) it)); [|done].
    unfold prefix_after. rewrite Ht. by apply out_enum_ok.
  - apply (rest_kind_ok o it _ (RestFormat.out_var (it_name it) it)); [|done].
    unfold prefix_after. rewrite Ht. by apply out_var_ok.
  - apply (rest_kind_ok o it _ (RestFormat.out_typedef (it_name it) it)); [|done].
    unfold prefix_after. rewrite Ht. by apply out_typedef_ok.
  - rewrite Ht in HS. apply HS. by left.
  - rewrite Ht in HS. apply HS. by right; left.
Qed.

Lemma rest_msg_ok it o t :
  of_function_table o = Some t → item_ok it = true →
  match msg RestFormat.cls (it_name it) it o with
  | (o', Ok r) => r = Some (of_data o') ∧
      of_lineprefix o' = (if shown o t it then prefix_after it (of_lineprefix o) else of_lineprefix o)
  | (_, Raise x) => shown o t it = true ∧ render_error it x
  end.
Proof.
  intros Ht Hok. destruct (shown o t it) eqn:Es.
  2:{ rewrite (msg_hidden RestFormat.cls it o t Ht Es). done. }
  unfold msg. unfold mbind at 1, ST_bind at 1. unfold modify at 1. cbv beta iota zeta.
  set (o1 := upd_data (λ _, "") o). assert (shown o1 t it = true) as Es1 by exact Es.
  destruct (String.eqb_spec (it_type it) "doc") as [Hd|Hd].
  - cbn [out_doc RestFormat.cls]. unfold RestFormat.out_doc.
    pose proof (check_doc_eq o1 t it Ht Hd) as HC. rewrite Es1 in HC.
    unfold mbind, ST_bind. rewrite HC. cbv beta iota.
    pose proof (writes_section (with_warnings it o1) never (of_lineprefix o1) it true
      (with_warnings it o1) (at_prefix_refl _)) as HW.
    cbn [negb]. destruct (RestFormat.out_section it true (with_warnings it o1)) as [o' [[]|x]]; [|done].
    destruct HW as [s ->]. unfold prefix_after. rewrite Hd. done.
  - pose proof (proj2 (String.eqb_neq _ _) Hd) as Hd'.
    unfold mbind at 1, ST_bind at 1. rewrite (check_declaration_eq o1 t it) by done. rewrite Es1.
    cbv beta iota. cbn [negb andb].
    set (o2 := if negb (selects_by_name (of_out_mode o1)) then with_warnings it o1 else o1).
    assert (of_data o2 = "" ∧ of_lineprefix o2 = of_lineprefix o) as [H1 H2]
      by (unfold o2; by destruct (negb _)).
    pose proof (rest_shown it o2 Hok Hd H1) as HR. rewrite H2 in HR. cbv zeta in HR.
    cbn [RestFormat.cls out_function out_enum out_var out_typedef out_struct].
    assert (∀ R : OutputFormat * res (option string),
      match R with
      | (o', Ok r) => r = Some (of_data o') ∧ of_lineprefix o' = prefix_after it (of_lineprefix o)
                      ∧ of_log o' = of_log o2
      | (_, Raise x) => render_error it x end →
      match R with
      | (o', Ok r) => r = Some (of_data o') ∧ of_lineprefix o' = prefix_after it (of_lineprefix o)
      | (_, Raise x) => true = true ∧ render_error it x end) as HG.
    { intros [o' [r|x]]; [by intros (? & ? & _) | done]. }
    exact (HG _ HR).
Qed.

(** C26 One item of the shape the parser gives, in [RestFormat]: the text is
    written, and the line prefix is back to what it was, except after a
    variable, which leaves two blanks; or the item is displayed and one of
    four exceptions is raised: [IndexError] for a function parameter whose
    type looks like an unnamed function pointer, or [KeyError] for a missing
    description or prototype. *)
Theorem rest_msg_safe it o t :
  of_function_table o = Some t → item_ok it = true →
  match msg RestFormat.cls (it_name it) it o with
  | (o', Ok r) => r = Some (of_data o') ∧
      of_lineprefix o' = (if shown o t it then prefix_after it (of_lineprefix o) else of_lineprefix o)
  | (_, Raise x) => shown o t it = true ∧ render_error it x
  end.
Proof. exact (rest_msg_ok it o t). Qed.

Lemma output_all_ok symbols fname : ∀ out o t,
  of_function_table o = Some t → Forall (λ it, item_ok it = true) symbols →
  match for_acc symbols out (output_one (msg RestFormat.cls) fname) o with
  | (_, Ok _) => True
  | (_, Raise x) => ∃ it, it ∈ symbols ∧ shown o t it = true ∧ render_error it x
  end.
Proof.
  induction symbols as [|it symbols IH]; intros out o t Ht HF; [done|].
  apply Forall_cons in HF as [Hit HF]. cbn [for_acc]. unfold mbind, ST_bind.
  assert (match output_one (msg RestFormat.cls) fname out it o with
          | (o', Ok _) => filters o' = filters o
          | (_, Raise x) => shown o t it = true ∧ render_error it x end) as H1.
  { pose proof (output_one_filters RestFormat.cls fname it out (filters o) o eq_refl) as HK. revert HK.
    unfold output_one, mbind, ST_bind. pose proof (rest_msg_ok it o t Ht Hit) as HM.
    destruct (msg RestFormat.cls (it_name it) it o) as [o1 [r|x]]; [|by intros _].
    destruct HM as [-> _]. by intros HK. }
  destruct (output_one (msg RestFormat.cls) fname out it o) as [o' [a|x]].
  - assert (of_function_table o' = Some t ∧ shown o' t = shown o t) as [Ht' Hs'].
    { unfold filters in H1. injection H1 as Hm _ Hn Hf Hd. unfold shown. rewrite Hm, Hn, Hf, Hd. done. }
    specialize (IH a o' t Ht' HF). rewrite Hs' in IH.
    destruct (for_acc symbols a (output_one (msg RestFormat.cls) fname) o') as [o'' [b|x]]; [done|].
    destruct IH as (it' & H & ?). exists it'. split; [by right|done].
  - exists it. split; [by left|done].
Qed.

(** ** Witnesses *)

Definition a_doc : KernelDoc :=
  fst (KernelDoc_init (Config true true false) "f.c" xforms false false false).
Definition all_symbols : OutputFormat :=
  set_filter false false None None [] false false OutputFormat_init.
Definition a_file : option string :=
  Some (join nl ["/**"; " * foo - do &struct bar"; " * @a: the a"; " */"; "int foo(int a)"; "{"; "}"]).
Definition foo_items : list KdocItem := kd_entries (fst (parse_kdoc a_file a_doc)).
Definition foo_item : KdocItem :=
  default (KdocItem_init "" "" "" 0 []) (head foo_items).

Lemma check_declaration_spec_witness :
  snd (check_declaration "function" "foo" foo_item all_symbols) = Ok true.
Proof.
  assert (it_type foo_item = "function") as <- by (vm_compute; reflexivity).
  assert (it_name foo_item = "foo") as <- by (vm_compute; reflexivity).
  rewrite (check_declaration_spec all_symbols [] foo_item); vm_compute; reflexivity.
Defined.

Lemma output_symbols_filters_witness :
  let o := set_filter false false None (Some ["foo"]) [] false false OutputFormat_init in
  snd (output_symbols RestFormat.cls "f.c" foo_items o) = Ok "".
Proof.
  cbv zeta. set (o := set_filter _ _ _ _ _ _ _ _).
  destruct (output_symbols_filters RestFormat.cls "f.c" foo_items o []) as [H _]; [reflexivity|].
  rewrite H. vm_compute. reflexivity.
Defined.

Lemma rest_msg_safe_witness :
  match msg RestFormat.cls "foo" foo_item all_symbols with
  | (o', Ok r) => r = Some (of_data o') ∧ of_lineprefix o' = ""
  | (_, Raise x) => render_error foo_item x
  end.
Proof.
  pose proof (rest_msg_safe foo_item all_symbols [] eq_refl) as H.
  assert (it_name foo_item = "foo") as Hn by (vm_compute; reflexivity). rewrite Hn in H.
  assert (shown all_symbols [] foo_item = true) as Hs by (vm_compute; reflexivity). rewrite Hs in H.
  assert (prefix_after foo_item (of_lineprefix all_symbols) = "") as Hp by (vm_compute; reflexivity).
  rewrite Hp in H. specialize (H ltac:(vm_compute; reflexivity)).
  destruct (msg RestFormat.cls "foo" foo_item all_symbols) as [o' [r|x]]; [exact H | exact (proj2 H)].
Defined.

Definition callback_file : option string :=
  Some (join nl ["/**"; " * foo - do it"; " * @cb: call back"; " */"; "int foo(void (" +:+ "*)(int))"; "{"; "}"]).

(** The [IndexError] is reached: a function with an unnamed callback
    parameter, which the parser accepts, cannot be output: the code asks for a
    third group of a pattern that has two. *)
Theorem rest_unnamed_callback :
  ∃ d', parse_kdoc callback_file a_doc = (d', Ok []) ∧
        snd (output_symbols RestFormat.cls "f.c" (kd_entries d') all_symbols) = Raise IndexError.
Proof.
  exists (fst (parse_kdoc callback_file a_doc)). split; vm_compute; reflexivity.
Qed.
