(* ===== verification/KdocText.v ===== *)
(** * KdocText: what the text of an item contains

    The pieces that [RestFormat] writes for an item, in order, and the proof that it
    writes them: nothing of an item that is displayed is lost on the way. *)

From S2P Require Import Prelude PyStr PyRe PyReSyntax PyReTheory KdocRe CLex Xforms.
From S2P Require Import KdocItem KdocEntry KdocParams KdocDump KdocProcess KdocMachine.
From S2P Require Import KdocOutput KdocOutputTheory KdocOutputSpec.

(** ** Pieces *)

(** The pieces are in the text, one after the other. *)
Fixpoint in_order (ps : list string) (s : string) : Prop :=
  match ps with
  | [] => True
  | p :: ps => ∃ a b, s = a +:+ p +:+ b ∧ in_order ps b
  end.

Lemma in_order_prefix ps a s : in_order ps s → in_order ps (a +:+ s).
Proof.
  destruct ps as [|p ps]; [done|]. intros (b & c & -> & H). exists (a +:+ b), c. by rewrite sapp_assoc.
Qed.
Lemma in_order_suffix ps : ∀ s b, in_order ps s → in_order ps (s +:+ b).
Proof.
  induction ps as [|p ps IH]; intros s b; [done|]. intros (a & c & -> & H).
  exists a, (c +:+ b). rewrite !sapp_assoc. split; [done|]. by apply IH.
Qed.
Lemma in_order_app ps qs : ∀ s t, in_order ps s → in_order qs t → in_order (ps ++ qs) (s +:+ t).
Proof.
  induction ps as [|p ps IH]; intros s t; [intros _; apply in_order_prefix|].
  intros (a & b & -> & H) Ht. exists a, (b +:+ t). rewrite !sapp_assoc. split; [done|]. by apply IH.
Qed.
Lemma in_order_part p a b : in_order [p] (a +:+ p +:+ b).
Proof. by exists a, b. Qed.
Lemma in_order_end p a : in_order [p] (a +:+ p).
Proof. exists a, "". by rewrite sapp_nil_r. Qed.
Lemma in_order_all p : in_order [p] p.
Proof. exact (in_order_end p ""). Qed.
Lemma in_order_part2 p q a b c : in_order [p; q] (a +:+ p +:+ b +:+ q +:+ c).
Proof. exists a, (b +:+ q +:+ c). split; [done|]. apply in_order_part. Qed.

Lemma in_order_cons p ps b s : in_order ps s → in_order (p :: ps) (p +:+ b +:+ s).
Proof. intros H. exists "", (b +:+ s). split; [done|]. by apply in_order_prefix. Qed.
Lemma in_order_join sep l : in_order l (join sep l).
Proof.
  induction l as [|x l IH]; [done|]. destruct l as [|y l]; [apply in_order_all|].
  rewrite join_cons. by apply in_order_cons.
Qed.
Lemma split_char_nonempty sep s : split_char sep s ≠ [].
Proof. destruct s as [|c s]; [done|]. cbn [split_char]. destruct (_ =? _)%char; [done|]. by destruct (split_char sep s). Qed.
Lemma replace_tab new s : replace tab new s = join new (split_char TAB s).
Proof.
  unfold replace, tab. induction s as [|c s IH]; [done|]. cbn [replace_skip split_char startswith].
  rewrite andb_true_r, (Ascii.eqb_sym TAB).
  destruct (c =? TAB)%char; cbn [String.length Nat.sub]; rewrite IH.
  - pose proof (split_char_nonempty TAB s). by destruct (split_char TAB s).
  - by destruct (split_char TAB s) as [|x [|y l]].
Qed.

(** The lines of a text, highlighted; each stands behind the line prefix. *)
Definition described (text : string) : list string :=
  map (λ l, l +:+ nl) (split_char NL (strip_char NL (RestFormat.highlighted RestFormat.highlights text))).
Definition purpose_pieces (it : KdocItem) : list string :=
  match KdocItem_get it "purpose" (VStr "") with VStr t => described t | _ => [] end.
Definition heading (section : string) : string := "**" +:+ section +:+ "**" +:+ nl +:+ nl.
(** The sections, but for those whose titles are excluded. *)
Definition section_pieces (excluded : list string) (headings : bool) (it : KdocItem) : list string :=
  flat_map (λ '(section, text),
    if smem section excluded then [] else (if headings then [heading section] else []) ++ described text)
    (it_sections it).
Definition no_description : string := "*undescribed*" +:+ nl +:+ nl.
Definition literal (s : string) : string := "``" +:+ s +:+ "``" +:+ nl.

Definition param_type (it : KdocItem) (p : string) : string := dget_or (it_parametertypes it) p "".
(** The parameter of a function, with its description. *)
Definition param_pieces (it : KdocItem) (p : string) : list string :=
  literal (if (param_type it p =? "")%string then p else param_type it p)
  :: match dget (it_parameterdescs it) (re_sub RestFormat.re_array_tail "" p 0) with
     | Some desc => if (desc =? undescribed)%string then [no_description] else described desc
     | None => [no_description]
     end.
Definition is_macro (it : KdocItem) : bool := truth (KdocItem_get it "func_macro" (VBool false)).
Definition is_typedef (it : KdocItem) : bool := truth (KdocItem_get it "typedef" VNone).
Definition signature (it : KdocItem) : string :=
  (if is_macro it then it_name it
   else (match KdocItem_get it "functiontype" VNone with
         | VStr (String _ _ as t) => t +:+ " " | _ => "" end) +:+ it_name it +:+ " (")
  +:+ join ", " (map (param_type it) (it_parameterlist it)) +:+ (if is_macro it then "" else ")").
Definition function_pieces (excluded : list string) (it : KdocItem) : list string :=
  let ft := truth (KdocItem_get it "functiontype" VNone) in
  (if is_typedef it || negb ft
   then [".. c:macro:: " +:+ it_name it +:+ nl +:+ nl] ++ (if is_typedef it then purpose_pieces it else [])
        ++ ["``" +:+ signature it +:+ "``" +:+ nl +:+ nl]
   else [".. c:function:: " +:+ signature it +:+ nl +:+ nl])
  ++ (if is_typedef it then [] else purpose_pieces it)
  ++ (match it_parameterlist it with [] => [] | _ => [heading "Parameters"] end)
  ++ flat_map (param_pieces it) (it_parameterlist it)
  ++ section_pieces excluded true it.
(** A constant of an enum. *)
Definition constant_pieces (it : KdocItem) (p : string) : list string :=
  literal p :: (let desc := dget_or (it_parameterdescs it) p "" in
                if (desc =? undescribed)%string then [no_description] else described desc).
Definition enum_pieces (excluded : list string) (it : KdocItem) : list string :=
  [".. c:enum:: " +:+ it_name it +:+ nl +:+ nl] ++ purpose_pieces it ++ [heading "Constants"]
  ++ flat_map (constant_pieces it) (it_parameterlist it) ++ section_pieces excluded true it.
Definition var_pieces (excluded : list string) (it : KdocItem) : list string :=
  [".. c:macro:: " +:+ it_name it +:+ nl +:+ nl;
   "``" +:+ py_str (KdocItem_get it "full_proto" VNone) +:+ "``" +:+ nl +:+ nl]
  ++ purpose_pieces it
  ++ (let v := dget_or (it_other_stuff it) "default_val" VNone in
      if truth v then heading "Initialization" :: described ("default: ``" +:+ py_str v +:+ "``") else [])
  ++ section_pieces excluded true it.
Definition typedef_pieces (excluded : list string) (it : KdocItem) : list string :=
  [".. c:type:: " +:+ it_name it +:+ nl +:+ nl] ++ purpose_pieces it ++ section_pieces excluded true it.
(** A member of a structure: those without a description are left out. *)
Definition member_pieces (it : KdocItem) (p : string) : list string :=
  if (p =? "")%string || startswith "#" p then []
  else
    let desc := dget_or (it_parameterdescs it) (RestFormat.before_bracket p) "" in
    if (desc =? undescribed)%string then [] else literal p :: described desc.
(** Its definition: a tabulation is replaced by the line prefix. *)
Definition definition_pieces (it : KdocItem) : list string :=
  match KdocItem_get it "definition" (VStr "") with VStr t => split_char TAB t | _ => [] end.
Definition struct_pieces (excluded : list string) (it : KdocItem) : list string :=
  [".. c:" +:+ it_type it +:+ ":: " +:+ it_name it +:+ nl +:+ nl] ++ purpose_pieces it
  ++ ["**Definition**::" +:+ nl +:+ nl] ++ [it_type it +:+ " " +:+ it_name it +:+ " {" +:+ nl]
  ++ definition_pieces it ++ ["};" +:+ nl +:+ nl] ++ [heading "Members"]
  ++ flat_map (member_pieces it) (it_parameterlist it) ++ section_pieces excluded true it.

(** What the text of an item has, in order, for the object [o]. *)
Definition item_pieces (o : OutputFormat) (it : KdocItem) : list string :=
  let dtype := it_type it in
  if (dtype =? "doc")%string
  then section_pieces (of_nosymbol o) (negb (bool_decide (of_out_mode o = OUTPUT_INCLUDE))) it
  else if (dtype =? "function")%string then function_pieces (of_nosymbol o) it
  else if (dtype =? "enum")%string then enum_pieces (of_nosymbol o) it
  else if (dtype =? "var")%string then var_pieces (of_nosymbol o) it
  else if (dtype =? "typedef")%string then typedef_pieces (of_nosymbol o) it
  else struct_pieces (of_nosymbol o) it.
(** The text of some items: one text for each, with its pieces. *)
Definition items_text (o : OutputFormat) (items : list KdocItem) (text : string) : Prop :=
  ∃ texts, text = sconcat texts ∧ Forall2 (λ it s, in_order (item_pieces o it) s) items texts.

(** ** The judgement

    A normal end of [m], from an object with the filters of [o0], has a value that
    satisfies [Q], keeps the filters, and adds a text with the pieces [ps]. *)
Section Prints.
Context (o0 : OutputFormat).
Definition prints_val {A} (ps : list string) (m : Out A) (Q : A → Prop) : Prop :=
  ∀ o o' a, filters o = filters o0 → m o = (o', Ok a) →
    Q a ∧ filters o' = filters o0 ∧ ∃ s, of_data o' = of_data o +:+ s ∧ in_order ps s.
Abbreviation prints ps m := (prints_val ps m (λ _, True)).

Lemma prints_bind {A B} ps qs (m : Out A) (k : A → Out B) Q R :
  prints_val ps m Q → (∀ a, Q a → prints_val qs (k a) R) → prints_val (ps ++ qs) (m ≫= k) R.
Proof.
  intros Hm Hk o o' b Ho. unfold mbind, ST_bind. destruct (m o) as [o1 [a|x]] eqn:E; [|done].
  destruct (Hm o o1 a Ho E) as (Ha & Ho1 & s & Hs & Hps). intros Hb.
  destruct (Hk a Ha o1 o' b Ho1 Hb) as (Hr & Ho' & t & Ht & Hqs). split; [done|]. split; [done|].
  exists (s +:+ t). rewrite Ht, Hs, sapp_assoc. split; [done|]. by apply in_order_app.
Qed.
Lemma prints_weaken {A} ps (m : Out A) Q : prints_val ps m Q → prints_val [] m Q.
Proof.
  intros H o o' a Ho E. destruct (H o o' a Ho E) as (Hq & Hf & s & Hs & _). split; [done|]. split; [done|].
  by exists s.
Qed.
Lemma prints_skip {A B} ps qs (m : Out A) (k : A → Out B) Q R :
  prints_val ps m Q → (∀ a, Q a → prints_val qs (k a) R) → prints_val qs (m ≫= k) R.
Proof. intros Hm. exact (prints_bind [] qs m k Q R (prints_weaken _ _ _ Hm)). Qed.
Lemma prints_ret {A} (a : A) (Q : A → Prop) : Q a → prints_val [] (mret a) Q.
Proof. intros Ha o o' b Ho [= <- <-]. split; [done|]. split; [done|]. exists "". by rewrite sapp_nil_r. Qed.
Lemma prints_raise {A} ps x (Q : A → Prop) : prints_val ps (raise x) Q.
Proof. done. Qed.
Lemma prints_gets {A} (f : OutputFormat → A) (Q : A → Prop) : (∀ a, Q a) → prints_val [] (gets f) Q.
Proof. intros HQ o o' b Ho [= <- <-]. split; [done|]. split; [done|]. exists "". by rewrite sapp_nil_r. Qed.
Lemma prints_get {B} ps (k : OutputFormat → Out B) Q :
  (∀ o, filters o = filters o0 → prints_val ps (k o) Q) → prints_val ps (get ≫= k) Q.
Proof. intros H o o' b Ho E. exact (H o Ho o o' b Ho E). Qed.
Lemma prints_lift {A} (r : res A) : prints_val [] (lift_res r) (λ a, r = Ok a).
Proof. intros o o' b Ho [= <- ->]. split; [done|]. split; [done|]. exists "". by rewrite sapp_nil_r. Qed.
Lemma prints_emit ps text : in_order ps text → prints ps (emit text).
Proof. intros H o o' [] Ho [= <-]. split; [done|]. split; [done|]. by exists text. Qed.
Lemma prints_modify f : (∀ o, filters (f o) = filters o) → (∀ o, of_data (f o) = of_data o) → prints [] (modify f).
Proof.
  intros Hf Hd o o' [] Ho [= <-]. split; [done|]. split; [by rewrite Hf|]. exists "". by rewrite Hd, sapp_nil_r.
Qed.
Lemma prints_set p : prints [] (set_prefix p).
Proof. by apply prints_modify. Qed.
Lemma prints_when (b : bool) (m : Out unit) ps : prints ps m → prints (if b then ps else []) (when b m).
Proof. intros H. destruct b; [exact H | by apply prints_ret]. Qed.
Lemma prints_for_each {A} (l : list A) (ps : A → list string) body :
  (∀ x, x ∈ l → prints (ps x) (body x : Out unit)) → prints (flat_map ps l) (for_each l body).
Proof.
  induction l as [|x l IH]; intros H; cbn [flat_map for_each]; [by apply prints_ret|].
  eapply prints_bind; [apply H; left | intros _ _; apply IH; intros; apply H; by right].
Qed.
Lemma prints_lineno ln : prints [] (RestFormat.print_lineno ln).
Proof.
  unfold RestFormat.print_lineno. eapply prints_skip; [by apply (prints_gets _ (λ _, True))|]. intros b _.
  pose proof (prints_when b (emit (".. LINENO " +:+ zint_str (ln + 1) +:+ nl)) []) as H.
  destruct b; apply H; by apply prints_emit.
Qed.
Lemma prints_highlight text : prints (described text) (RestFormat.output_highlight text).
Proof.
  unfold RestFormat.output_highlight, described. eapply prints_skip; [by apply (prints_gets _ (λ _, True))|].
  intros prefix _. generalize (split_char NL (strip_char NL (RestFormat.highlighted RestFormat.highlights text))).
  intros l. induction l as [|x l IH]; cbn [map for_each]; [by apply prints_ret|].
  apply (prints_bind [_] _ _ _ (λ _, True)); [|done]. apply prints_emit.
  exists prefix, "". by rewrite sapp_nil_r.
Qed.
Lemma prints_bold section : prints [heading section] (RestFormat.bold_section section).
Proof.
  unfold RestFormat.bold_section. eapply prints_skip; [by apply (prints_gets _ (λ _, True))|]. intros prefix _.
  apply prints_emit. exists prefix, "". by rewrite sapp_nil_r.
Qed.

Lemma prints_then {A B} ps (m : Out A) (k : A → Out B) Q R :
  prints_val ps m Q → (∀ a, Q a → prints_val [] (k a) R) → prints_val ps (m ≫= k) R.
Proof. intros Hm Hk. rewrite <- (app_nil_r ps). by apply (prints_bind ps [] m k Q). Qed.
(** Steps that write no piece. *)
Lemma prints_set_k {B} ps p (k : Out B) Q : prints_val ps k Q → prints_val ps (set_prefix p ;; k) Q.
Proof. intros H. eapply prints_skip; [apply prints_set|]. by intros _ _. Qed.
Lemma prints_lineno_k {B} ps ln (k : Out B) Q :
  prints_val ps k Q → prints_val ps (RestFormat.print_lineno ln ;; k) Q.
Proof. intros H. eapply prints_skip; [apply prints_lineno|]. by intros _ _. Qed.
Lemma prints_text_k {B} ps t (k : Out B) Q : prints_val ps k Q → prints_val ps (emit t ;; k) Q.
Proof. intros H. eapply prints_skip; [by apply (prints_emit [])|]. by intros _ _. Qed.
Lemma prints_prefix_k {B} ps (k : string → Out B) Q :
  (∀ p, prints_val ps (k p) Q) → prints_val ps (gets of_lineprefix ≫= k) Q.
Proof. intros H. eapply prints_skip; [by apply (prints_gets _ (λ _, True))|]. intros p _. apply H. Qed.
Lemma prints_lift_k {A B} ps (r : res A) (k : A → Out B) Q :
  (∀ a, r = Ok a → prints_val ps (k a) Q) → prints_val ps (lift_res r ≫= k) Q.
Proof. intros H. eapply prints_skip; [apply prints_lift | exact H]. Qed.
(** One that writes [ps]. *)
Lemma prints_seq {B} ps qs (m : Out unit) (k : Out B) Q :
  prints ps m → prints_val qs k Q → prints_val (ps ++ qs) (m ;; k) Q.
Proof. intros Hm Hk. apply (prints_bind ps qs m _ (λ _, True)); [done|]. by intros _ _. Qed.
Lemma prints_end ps (m k : Out unit) : prints ps m → prints [] k → prints ps (m ;; k).
Proof. intros Hm Hk. apply (prints_then ps m _ (λ _, True)); [done|]. by intros _ _. Qed.
Lemma prints_tail p a : prints [p] (emit (a +:+ p)).
Proof. apply prints_emit, in_order_end. Qed.

(** Skips the steps that write no piece. *)
Ltac prints_go :=
  repeat match goal with
  | |- prints_val _ (set_prefix _ ;; _) _ => apply prints_set_k
  | |- prints_val _ (RestFormat.print_lineno _ ;; _) _ => apply prints_lineno_k
  | |- prints_val _ (gets of_lineprefix ≫= _) _ => apply prints_prefix_k; intros ?
  end.

Lemma prints_section it (b : bool) :
  prints (section_pieces (of_nosymbol o0)
            (if b then negb (bool_decide (of_out_mode o0 = OUTPUT_INCLUDE)) else true) it)
    (RestFormat.out_section it b).
Proof.
  unfold RestFormat.out_section, section_pieces. apply prints_end; [|by apply prints_emit].
  apply prints_for_each. intros [section text] _. apply prints_get. intros o Ho.
  unfold filters in Ho. injection Ho as Hm _ Hn _ _. rewrite Hm, Hn.
  destruct (smem section (of_nosymbol o0)); [by apply prints_ret|].
  apply prints_seq.
  - destruct b; [|apply prints_bold]. destruct (negb _); [|by apply prints_ret].
    apply prints_text_k, prints_bold.
  - prints_go. apply prints_end; [apply prints_highlight | by apply prints_emit].
Qed.

Lemma prints_purpose it : prints (purpose_pieces it) (RestFormat.output_purpose it).
Proof.
  unfold RestFormat.output_purpose, purpose_pieces. apply prints_lift_k. intros t.
  destruct (KdocItem_get it "purpose" (VStr "")) as [|b|s]; intros [= <-]. apply prints_highlight.
Qed.

(** *** Functions *)

Lemma prints_parameters it l : ∀ sig count,
  prints_val [] (for_acc l (sig, count) (RestFormat.add_parameter it))
    (λ acc, fst acc = sig +:+ (match count, l with S _, _ :: _ => ", " | _, _ => "" end)
                          +:+ join ", " (map (param_type it) l)).
Proof.
  induction l as [|p l IH]; intros sig count; cbn [for_acc].
  { apply prints_ret. cbn. destruct count; by rewrite !sapp_nil_r. }
  apply (prints_skip [] [] _ _ (λ acc, acc = (sig +:+ (match count with 0 => "" | S _ => ", " end)
                                                  +:+ param_type it p, S count))).
  - unfold RestFormat.add_parameter. fold (param_type it p).
    destruct (KernRe_search function_pointer (param_type it p)) as [r [m|]] eqn:Em.
    + destruct (fp_groups _ _ _ Em) as [[s ->] ->]. done.
    + apply prints_ret. destruct count; [done|]. cbn. by rewrite !sapp_assoc.
  - intros acc ->. intros o o' a Ho E. destruct (IH _ _ o o' a Ho E) as (H & H').
    split; [|exact H']. rewrite H. destruct l as [|q l]; cbn [map].
    + cbn [join]. rewrite !sapp_nil_r. by destruct count.
    + rewrite join_cons, !sapp_assoc. by destruct count.
Qed.

Lemma prints_param it p : prints (param_pieces it p) (RestFormat.function_param it p).
Proof.
  unfold RestFormat.function_param, param_pieces. fold (param_type it p).
  apply prints_prefix_k. intros prefix.
  apply (prints_seq [_]); [apply prints_tail|]. prints_go. apply prints_end; [|apply prints_set].
  destruct (dget _ _) as [desc|].
  - destruct (desc =? undescribed)%string; cbn [negb]; prints_go; [apply prints_tail|].
    apply prints_end; [apply prints_highlight | by apply prints_emit].
  - prints_go. apply prints_tail.
Qed.

(** The first part of the signature. *)
Lemma prints_start name it :
  it_name it = name →
  prints_val []
    (if is_macro it then mret name
     else ty ← (if truth (KdocItem_get it "functiontype" VNone)
                then t ← lift_res (str_operand (KdocItem_get it "functiontype" VNone)); mret (t +:+ " ")
                else mret "");
          mret (ty +:+ name +:+ " (") : Out string)
    (λ s, s +:+ join ", " (map (param_type it) (it_parameterlist it))
            +:+ (if is_macro it then "" else ")") = signature it).
Proof.
  intros <-. unfold signature. destruct (is_macro it); [by apply prints_ret|].
  apply (prints_skip [] [] _ _ (λ ty, ty = match KdocItem_get it "functiontype" VNone with
                                           | VStr (String _ _ as t) => t +:+ " " | _ => "" end)).
  - destruct (KdocItem_get it "functiontype" VNone) as [|[]|[|c t]]; try by apply prints_ret.
    done.
  - intros ty ->. apply prints_ret. by rewrite !sapp_assoc.
Qed.

Lemma prints_function it :
  prints (function_pieces (of_nosymbol o0) it) (RestFormat.out_function (it_name it) it).
Proof.
  unfold RestFormat.out_function, function_pieces. cbv zeta. apply prints_prefix_k. intros oldprefix.
  fold (is_macro it) (is_typedef it). eapply prints_skip; [by apply (prints_start (it_name it))|].
  intros start Hstart. cbv beta in Hstart.
  eapply prints_skip; [apply (prints_parameters it (it_parameterlist it) start 0)|].
  intros acc Hacc. cbv beta in Hacc. cbn match in Hacc. change ("" +:+ ?s) with s in Hacc.
  assert ((if is_macro it then fst acc else fst acc +:+ ")") = signature it) as ->.
  { rewrite <- Hstart, Hacc. destruct (is_macro it); by rewrite ?sapp_nil_r, ?sapp_assoc. }
  apply prints_lineno_k. apply prints_seq.
  { destruct (is_typedef it); cbn [orb].
    - apply (prints_seq [_]); [by apply prints_emit, in_order_all|]. apply prints_text_k, prints_set_k.
      apply prints_seq; [apply prints_purpose|]. apply prints_text_k. apply (prints_tail _ "  ").
    - destruct (negb _); [|by apply prints_emit, in_order_all].
      apply (prints_seq [_]); by apply prints_emit, in_order_all. }
  apply prints_seq.
  { destruct (is_typedef it); cbn [negb]; [by apply prints_ret|]. cbn [when]. prints_go.
    apply prints_end; [apply prints_purpose | by apply prints_emit]. }
  apply prints_set_k. apply prints_seq.
  { destruct (it_parameterlist it); [by apply prints_ret|]. cbn [when].
    apply prints_text_k, prints_bold. }
  apply prints_seq; [apply prints_for_each; intros ? _; apply prints_param|].
  apply prints_end; [apply (prints_section it false) | apply prints_set].
Qed.

(** *** The other kinds *)

Lemma prints_constant it outer p : prints (constant_pieces it p) (RestFormat.enum_param it outer p).
Proof.
  unfold RestFormat.enum_param, constant_pieces. apply (prints_seq [_]); [apply prints_tail|].
  apply prints_end; [|by apply prints_emit].
  destruct (dget_or _ p "" =? undescribed)%string; cbn [negb]; [prints_go; apply prints_tail|].
  apply prints_lift_k. intros desc. unfold dict_at, dget_or. destruct (dget _ p); intros [= <-].
  apply prints_highlight.
Qed.

Lemma prints_enum it : prints (enum_pieces (of_nosymbol o0) it) (RestFormat.out_enum (it_name it) it).
Proof.
  unfold RestFormat.out_enum, enum_pieces. apply prints_prefix_k. intros oldprefix.
  apply prints_seq; [apply (prints_tail _ (nl +:+ nl))|]. prints_go.
  apply prints_seq; [apply prints_purpose|]. do 2 apply prints_text_k. prints_go.
  apply prints_seq; [apply prints_tail|].
  apply prints_seq; [apply prints_for_each; intros ? _; apply prints_constant|]. prints_go.
  apply (prints_section it false).
Qed.

Lemma prints_var it : prints (var_pieces (of_nosymbol o0) it) (RestFormat.out_var (it_name it) it).
Proof.
  unfold RestFormat.out_var, var_pieces. cbv zeta. destruct (negb _); [done|]. prints_go.
  apply prints_seq.
  { apply prints_emit. exists (nl +:+ nl). eexists. split; [by rewrite !sapp_assoc|].
    apply in_order_end. }
  prints_go. apply prints_seq; [apply prints_purpose|]. apply prints_text_k.
  apply prints_lift_k. intros v Hv. unfold dict_at in Hv. unfold dget_or.
  destruct (dget _ _); [|done]. injection Hv as ->. cbn [from_option id].
  apply prints_seq; [|apply (prints_section it false)]. destruct (truth v); [|by apply prints_ret].
  apply (prints_seq [_]); [apply prints_bold | apply prints_highlight].
Qed.

Lemma prints_typedef it :
  prints (typedef_pieces (of_nosymbol o0) it) (RestFormat.out_typedef (it_name it) it).
Proof.
  unfold RestFormat.out_typedef, typedef_pieces. prints_go.
  apply prints_seq; [apply (prints_tail _ (nl +:+ nl))|]. prints_go.
  apply prints_seq; [apply prints_purpose|]. apply prints_text_k. prints_go.
  apply (prints_section it false).
Qed.

Lemma prints_member it p : prints (member_pieces it p) (RestFormat.struct_param it p).
Proof.
  unfold RestFormat.struct_param, member_pieces. destruct (_ || _); [by apply prints_ret|]. cbv zeta.
  unfold dict_at, dget_or. destruct (dget _ _) as [desc|]; cbn [from_option id].
  - destruct (String.eqb_spec desc undescribed) as [->|Hne].
    { rewrite bool_decide_eq_true_2 by done. by apply prints_ret. }
    rewrite bool_decide_eq_false_2 by congruence. prints_go.
    apply (prints_seq [_]); [apply prints_tail|]. prints_go. apply prints_lift_k. intros ? [= <-].
    apply prints_end; [apply prints_highlight|]. prints_go. by apply prints_emit.
  - rewrite bool_decide_eq_false_2 by done. prints_go.
    intros o o' [] Ho. done.
Qed.

Lemma prints_struct it :
  prints (struct_pieces (of_nosymbol o0) it) (RestFormat.out_struct (it_name it) it).
Proof.
  unfold RestFormat.out_struct, struct_pieces. cbv zeta.
  apply prints_seq; [apply (prints_tail _ (nl +:+ nl))|]. prints_go. apply prints_lift_k. intros purpose Hp.
  apply prints_seq.
  { unfold purpose_pieces. destruct (KdocItem_get it "purpose" _); try done. injection Hp as ->.
    apply prints_highlight. }
  do 2 apply prints_text_k. prints_go. apply prints_seq; [apply prints_tail|]. prints_go.
  apply prints_lift_k. intros decl Hd. apply prints_seq; [apply prints_tail|].
  unfold definition_pieces. destruct (KdocItem_get it "definition" _); try done. injection Hd as ->.
  rewrite (app_assoc (split_char TAB decl)). apply prints_seq.
  { apply prints_emit. rewrite replace_tab. apply in_order_app; [apply in_order_join | apply in_order_end]. }
  prints_go. apply prints_seq; [apply prints_bold|].
  apply prints_seq; [apply prints_for_each; intros ? _; apply prints_member|].
  apply prints_text_k. prints_go. apply (prints_section it false).
Qed.
End Prints.

(** ** The output of a list of items *)

Lemma prints_result (o0 : OutputFormat) ps (m : Out unit) o o' r :
  prints_val o0 ps m (λ _, True) → filters o = filters o0 → of_data o = "" →
  (m ;; result_data) o = (o', Ok r) →
  filters o' = filters o0 ∧ ∃ s, r = Some s ∧ in_order ps s.
Proof.
  intros H Ho Hd. unfold mbind, ST_bind. destruct (m o) as [o1 [[]|x]] eqn:E; [|done].
  destruct (H o o1 tt Ho E) as (_ & H1 & s & Hs & Hps). rewrite Hd in Hs.
  unfold result_data, mbind, ST_bind, gets, mret, ST_ret. intros [= <- <-]. split; [done|].
  exists (of_data o1). split; [done|]. by rewrite Hs.
Qed.

Lemma item_pieces_struct o it : it_type it ∈ ["struct"; "union"] →
  item_pieces o it = struct_pieces (of_nosymbol o) it.
Proof. intros [H| H%list_elem_of_singleton]%elem_of_cons; unfold item_pieces; by rewrite H. Qed.

(** An item that is displayed has its pieces. *)
Lemma msg_prints it o0 t o o' r :
  of_function_table o0 = Some t → item_ok it = true → shown o0 t it = true → filters o = filters o0 →
  msg RestFormat.cls (it_name it) it o = (o', Ok r) →
  filters o' = filters o0 ∧ ∃ s, r = Some s ∧ in_order (item_pieces o0 it) s.
Proof.
  intros Ht Hok Hs Ho. set (o1 := upd_data (λ _, "") o).
  assert (of_function_table o1 = Some t ∧ shown o1 t it = true ∧ filters o1 = filters o0) as (Ht1 & Hs1 & Ho1).
  { revert Ho. unfold filters, shown. intros [= Hm Hl Hn Hf Hd]. unfold shown in Hs. cbn.
    by rewrite Hm, Hl, Hn, Hf, Hd. }
  unfold msg. unfold mbind at 1, ST_bind at 1. unfold modify at 1. cbv beta iota zeta. fold o1.
  destruct (String.eqb_spec (it_type it) "doc") as [Hd|Hd].
  - cbn [out_doc RestFormat.cls]. intros H.
    apply (prints_result o0 (item_pieces o0 it) (RestFormat.out_section it true) (with_warnings it o1)); try done.
    + unfold item_pieces. rewrite Hd. exact (prints_section o0 it true).
    + revert H. unfold RestFormat.out_doc. pose proof (check_doc_eq o1 t it Ht1 Hd) as HC.
      rewrite Hs1 in HC. unfold mbind, ST_bind. by rewrite HC.
  - pose proof (proj2 (String.eqb_neq _ _) Hd) as Hd'.
    unfold mbind at 1, ST_bind at 1. rewrite (check_declaration_eq o1 t it) by done. rewrite Hs1.
    cbv beta iota. cbn [negb andb].
    set (o2 := if negb (selects_by_name (of_out_mode o1)) then with_warnings it o1 else o1).
    assert (filters o2 = filters o0 ∧ of_data o2 = "") as [Ho2 Hd2] by (unfold o2; by destruct (negb _)).
    cbn [RestFormat.cls out_function out_enum out_var out_typedef out_struct].
    pose proof (item_type_cases it Hok Hd) as Hk. rewrite !elem_of_cons, elem_of_nil in Hk.
    pose proof (prints_struct o0 it) as HS. pose proof (item_pieces_struct o0 it) as HP. unfold item_pieces in *.
    destruct Hk as [Hk|[Hk|[Hk|[Hk|[Hk|[Hk|[]]]]]]]; rewrite Hk in HP |- *; apply prints_result; try done.
    + apply prints_function.
    + apply prints_enum.
    + apply prints_var.
    + apply prints_typedef.
Qed.

Lemma output_prints fname o0 t symbols : of_function_table o0 = Some t →
  Forall (λ it, item_ok it = true) symbols → ∀ out o o' text, filters o = filters o0 →
  for_acc symbols out (output_one (msg RestFormat.cls) fname) o = (o', Ok text) →
  ∃ texts, text = out +:+ sconcat texts ∧
    Forall2 (λ it s, in_order (item_pieces o0 it) s) (filter (λ it, shown o0 t it = true) symbols) texts.
Proof.
  intros Ht. induction 1 as [|it symbols Hit _ IH]; intros out o o' text Ho; cbn [for_acc].
  { intros [= <- <-]. exists []. split; [by rewrite sapp_nil_r | constructor]. }
  unfold mbind, ST_bind. destruct (output_one _ _ _ _ o) as [o1 [out1|x]] eqn:E; [|done]. intros H.
  assert (∃ s, filters o1 = filters o0 ∧ out1 = out +:+ s ∧
    if shown o0 t it then in_order (item_pieces o0 it) s else s = "") as (s & Ho1 & -> & Hs).
  { revert E. unfold output_one, mbind, ST_bind.
    destruct (msg RestFormat.cls (it_name it) it o) as [o2 [r|x]] eqn:Em; [|done].
    destruct (shown o0 t it) eqn:Es.
    - destruct (msg_prints it o0 t o o2 r Ht Hit Es Ho Em) as (Ho2 & s & -> & Hp).
      intros [= <- <-]. by exists s.
    - assert (of_function_table o = Some t ∧ shown o t it = false) as [Ht' Hs'].
      { revert Ho. unfold filters, shown. intros [= Hm Hl Hn Hf Hd]. unfold shown in Es. cbn.
        by rewrite Hm, Hn, Hf, Hd. }
      rewrite (msg_hidden RestFormat.cls it o t Ht' Hs') in Em. injection Em as <- <-.
      intros [= <- <-]. by exists "". }
  destruct (IH _ _ _ _ Ho1 H) as (texts & -> & HF). rewrite filter_cons. destruct (shown o0 t it).
  - destruct (decide (true = true)); [|done]. exists (s :: texts).
    rewrite sconcat_cons, sapp_assoc. split; [done|]. by constructor.
  - destruct (decide (false = true)); [done|]. exists texts. subst s. by rewrite sapp_nil_r.
Qed.

(** ** Messages do not matter

    The text does not depend on what has been output or logged before. *)

Definition quiet (o : OutputFormat) : OutputFormat := upd_out_log (λ _, []) (upd_out_errors (λ _, 0) o).
Definition agrees {A} (m : Out A) : Prop := ∀ o1 o2, quiet o1 = quiet o2 →
  snd (m o1) = snd (m o2) ∧ quiet (fst (m o1)) = quiet (fst (m o2)).

Lemma agrees_ret {A} (a : A) : agrees (mret a).
Proof. by intros o1 o2 H. Qed.
Lemma agrees_raise {A} x : agrees (raise (A := A) x).
Proof. by intros o1 o2 H. Qed.
Lemma agrees_lift {A} (r : res A) : agrees (lift_res r).
Proof. by intros o1 o2 H. Qed.
Lemma agrees_gets {A} (f : OutputFormat → A) : (∀ o, f (quiet o) = f o) → agrees (gets f).
Proof. intros Hf o1 o2 H. cbn. by rewrite <- (Hf o1), <- (Hf o2), H. Qed.
Lemma agrees_modify f : (∀ o, quiet (f (quiet o)) = quiet (f o)) → agrees (modify f).
Proof. intros Hf o1 o2 H. cbn. by rewrite <- (Hf o1), <- (Hf o2), H. Qed.
Lemma agrees_bind {A B} (m : Out A) (k : A → Out B) : agrees m → (∀ a, agrees (k a)) → agrees (m ≫= k).
Proof.
  intros Hm Hk o1 o2 H. destruct (Hm o1 o2 H) as [Hr Ho]. unfold mbind, ST_bind.
  destruct (m o1) as [p1 r1], (m o2) as [p2 r2]. cbn in Hr, Ho. subst r2.
  destruct r1 as [a|x]; [exact (Hk a p1 p2 Ho)|done].
Qed.
Lemma agrees_get {B} (k : OutputFormat → Out B) :
  (∀ o, k (quiet o) = k o) → (∀ o, agrees (k o)) → agrees (get ≫= k).
Proof.
  intros Hq Hk o1 o2 H. unfold mbind, ST_bind, get. rewrite <- (Hq o1), <- (Hq o2), H.
  exact (Hk (quiet o2) o1 o2 H).
Qed.
Lemma agrees_for_each {A} (l : list A) (body : A → Out unit) :
  (∀ x, agrees (body x)) → agrees (for_each l body).
Proof. intros H. induction l; cbn [for_each]; [apply agrees_ret | by apply agrees_bind]. Qed.
Lemma agrees_for_acc {A B} (l : list B) (body : A → B → Out A) :
  (∀ a x, agrees (body a x)) → ∀ a, agrees (for_acc l a body).
Proof. intros H. induction l; intros a'; cbn [for_acc]; [apply agrees_ret | by apply agrees_bind]. Qed.

(** Proves that a method built from reads and writes agrees. *)
Ltac agree :=
  repeat match goal with
  | |- agrees (get ≫= _) => apply agrees_get; [done|intros ?]
  | |- agrees (_ ≫= _) => apply agrees_bind; [|intros ?]
  | |- agrees (mret _) => apply agrees_ret
  | |- agrees (raise _) => apply agrees_raise
  | |- agrees (gets _) => by apply agrees_gets
  | |- agrees (lift_res _) => apply agrees_lift
  | |- agrees (when ?b _) => destruct b; cbn [when]
  | |- agrees (for_each _ _) => apply agrees_for_each; intros ?
  | |- agrees (for_acc _ _ _) => apply agrees_for_acc; intros ? ?
  | |- agrees (emit _) => by apply agrees_modify
  | |- agrees (set_prefix _) => by apply agrees_modify
  | |- agrees (out_log _) => by apply agrees_modify
  | |- agrees (modify _) => by apply agrees_modify
  | |- agrees (match ?x with _ => _ end) => destruct x
  | |- agrees ((λ x, _) _) => cbv beta
  | |- agrees (let _ := _ in _) => cbv zeta
  end.

Section Agree.
Import RestFormat.
Lemma agrees_check_doc name it : agrees (check_doc name it).
Proof. unfold check_doc, in_function_table, out_warnings, out_warning. by agree. Qed.
Lemma agrees_declaration dtype name it : agrees (check_declaration dtype name it).
Proof. unfold check_declaration, in_function_table, out_warnings, out_warning. by agree. Qed.
Lemma agrees_lineno ln : agrees (print_lineno ln).
Proof. unfold print_lineno. by agree. Qed.
Lemma agrees_highlight text : agrees (output_highlight text).
Proof. unfold output_highlight. by agree. Qed.
Lemma agrees_purpose it : agrees (output_purpose it).
Proof. unfold output_purpose. agree. apply agrees_highlight. Qed.
Lemma agrees_bold s : agrees (bold_section s).
Proof. unfold bold_section. by agree. Qed.

Create HintDb agrees.
#[local] Hint Resolve agrees_check_doc agrees_lineno agrees_highlight agrees_purpose agrees_bold : agrees.
Ltac all_agree := agree; eauto with agrees.

Lemma agrees_section it b : agrees (out_section it b).
Proof. unfold out_section. all_agree. Qed.
#[local] Hint Resolve agrees_section : agrees.
Lemma agrees_rest_doc name it : agrees (RestFormat.out_doc name it).
Proof. unfold RestFormat.out_doc. all_agree. Qed.
Lemma agrees_rest_function name it : agrees (RestFormat.out_function name it).
Proof. unfold RestFormat.out_function, add_parameter, function_param. all_agree. Qed.
Lemma agrees_rest_enum name it : agrees (RestFormat.out_enum name it).
Proof. unfold RestFormat.out_enum, enum_param. all_agree. Qed.
Lemma agrees_rest_var name it : agrees (RestFormat.out_var name it).
Proof. unfold RestFormat.out_var. all_agree. Qed.
Lemma agrees_rest_typedef name it : agrees (RestFormat.out_typedef name it).
Proof. unfold RestFormat.out_typedef. all_agree. Qed.
Lemma agrees_rest_struct name it : agrees (RestFormat.out_struct name it).
Proof. unfold RestFormat.out_struct, struct_param. all_agree. Qed.
End Agree.

Lemma agrees_msg name it o1 o2 : quiet (erase o1) = quiet (erase o2) →
  snd (msg RestFormat.cls name it o1) = snd (msg RestFormat.cls name it o2) ∧
  quiet (fst (msg RestFormat.cls name it o1)) = quiet (fst (msg RestFormat.cls name it o2)).
Proof.
  intros H. rewrite (msg_erase RestFormat.cls name it o1 (erase o1)), (msg_erase RestFormat.cls name it o2 (erase o2))
    by done.
  revert H. generalize (erase o1), (erase o2). change (agrees (msg RestFormat.cls name it)).
  unfold msg, result_data. cbn [RestFormat.cls out_doc out_function out_enum out_var out_typedef out_struct].
  agree; auto using agrees_rest_doc, agrees_rest_function, agrees_rest_enum, agrees_rest_var, agrees_rest_typedef,
    agrees_rest_struct, agrees_declaration.
Qed.

(** The text of a list of items. *)
Lemma output_quiet fname symbols o1 o2 : quiet (erase o1) = quiet (erase o2) →
  snd (output_symbols RestFormat.cls fname symbols o1) = snd (output_symbols RestFormat.cls fname symbols o2).
Proof.
  unfold output_symbols. generalize "" as out. revert o1 o2.
  induction symbols as [|it symbols IH]; intros o1 o2 out H; [done|]. cbn [for_acc].
  unfold mbind, ST_bind, output_one, mbind, ST_bind.
  destruct (agrees_msg (it_name it) it o1 o2 H) as [Hr Ho].
  destruct (msg RestFormat.cls (it_name it) it o1) as [p1 r1], (msg RestFormat.cls (it_name it) it o2) as [p2 r2].
  cbn in Hr, Ho. subst r2.
  assert (∀ p1 p2, quiet p1 = quiet p2 → quiet (erase p1) = quiet (erase p2)) as He.
  { intros q1 q2 Hq. change (erase (quiet q1) = erase (quiet q2)). by rewrite Hq. }
  destruct r1 as [[text|]|x]; [| |done]; apply IH, He; [done|]. exact Ho.
Qed.

(** ** Properties *)

(** C2 From the text of a file to the ReST output: whenever the parser accepts
    the file, the output of its items, with any filters, either ends with a
    text: the concatenation, in order, of one text for each item that is
    displayed, with the declaration, the purpose, the parameters, members or
    constants with their descriptions, and the sections that are not excluded
    of that item, in order and highlighted; or it ends with one of the
    exceptions of [render_error] for an item that is displayed. *)
Theorem parse_then_output contents d d' exports fname o t :
  kd_entries d = [] → parse_kdoc contents d = (d', Ok exports) → of_function_table o = Some t →
  match output_symbols RestFormat.cls fname (kd_entries d') o with
  | (_, Ok text) => items_text o (filter (λ it, shown o t it = true) (kd_entries d')) text
  | (_, Raise x) => ∃ it, it ∈ kd_entries d' ∧ shown o t it = true ∧ render_error it x
  end.
Proof.
  intros He Hp Ht. pose proof (parse_kdoc_ok (kd_xforms d) contents d) as HK.
  rewrite Hp in HK. destruct HK as [[_ HF] _].
  { split; [done|]. rewrite He. constructor. }
  unfold output_symbols. pose proof (output_all_ok (kd_entries d') fname "" o t Ht HF) as HE.
  destruct (for_acc _ _ _ _) as [o' [text|x]] eqn:E; [|exact HE].
  exact (output_prints fname o t (kd_entries d') Ht HF "" o o' text eq_refl E).
Qed.

(** ** Witnesses *)

Definition foo_text : string :=
  match snd (output_symbols RestFormat.cls "f.c" foo_items all_symbols) with Ok s => s | _ => "" end.

Lemma parse_then_output_witness :
  snd (output_symbols RestFormat.cls "f.c" foo_items all_symbols) = Ok foo_text ∧
  in_order [".. c:function:: int foo (int a)" +:+ nl +:+ nl; "do :c:type:`struct bar <bar>`" +:+ nl;
            "**Parameters**" +:+ nl +:+ nl; "``int a``" +:+ nl; "the a" +:+ nl] foo_text.
Proof.
  pose proof (parse_then_output a_file a_doc (fst (parse_kdoc a_file a_doc)) [] "f.c" all_symbols []
    eq_refl ltac:(vm_compute; reflexivity) eq_refl) as H.
  change (kd_entries (fst (parse_kdoc a_file a_doc))) with foo_items in H. unfold foo_text.
  assert (filter (λ it, shown all_symbols [] it = true) foo_items = [foo_item]) as HF
    by (vm_compute; reflexivity).
  rewrite HF in H. destruct (output_symbols _ _ _ _) as [o [text|x]] eqn:E.
  - split; [done|]. destruct H as (texts & -> & H).
    apply Forall2_cons_inv_l in H as (s & ? & H & ->%Forall2_nil_inv_l & ->).
    rewrite sconcat_cons. change (sconcat []) with "". rewrite sapp_nil_r.
    assert (item_pieces all_symbols foo_item
      = [".. c:function:: int foo (int a)" +:+ nl +:+ nl; "do :c:type:`struct bar <bar>`" +:+ nl;
         "**Parameters**" +:+ nl +:+ nl; "``int a``" +:+ nl; "the a" +:+ nl]) as HP
      by (vm_compute; reflexivity).
    by rewrite HP in H.
  - exfalso. assert (match snd (output_symbols RestFormat.cls "f.c" foo_items all_symbols) with
                     Ok _ => True | _ => False end) as HO by (vm_compute; exact I). by rewrite E in HO.
Defined.
