(* ===== verification/KdocMan.v ===== *)
(** * KdocMan: [ManFormat], the output as man pages

    The attributes of the object beside those of [OutputFormat] do not change
    while the symbols of a file are written: they are the parameters of the
    section.  The date, one of them, is computed by [man_date] when the object
    is made. *)

From S2P Require Import Prelude PyStr PyRe PyReSyntax PyReTheory PyDate KdocRe CLex.
From S2P Require Import KdocItem KdocEntry KdocParams KdocOutput.

Module ManFormat.

Definition highlights : list (pattern * string) := [
  (type_constant, "\1");
  (type_constant2, "\1");
  (type_func, "\\fB\1\\fP");
  (type_enum, "\\fI\1\\fP");
  (type_struct, "\\fI\1\\fP");
  (type_typedef, "\\fI\1\\fP");
  (type_union, "\\fI\1\\fP");
  (type_param, "\\fI\1\\fP");
  (type_param_ref, "\\fI\1\2\\fP");
  (type_member, "\\fI\1\2\3\\fP");
  (type_fallback, "\\fI\1\\fP")
].
Definition blankline : string := "".

Definition date_formats : list string := [
  "%a %b %d %H:%M:%S %Z %Y";
  "%a %b %d %H:%M:%S %Y";
  "%Y-%m-%d";
  "%b %d %Y";
  "%B %d %Y";
  "%m %d %Y"].
(** The loop of [__init__] over the formats: the first that fits. *)
Fixpoint first_date (zones formats : list string) (tstamp : string) : option datetime :=
  match formats with
  | [] => None
  | fmt :: formats =>
      match strptime zones fmt tstamp with
      | Some dt => Some dt
      | None => first_date zones formats tstamp
      end
  end.
(** [self.date]: [tstamp] is the variable [KBUILD_BUILD_TIMESTAMP], [now] the
    clock. *)
Definition man_date (zones : list string) (tstamp : option string) (now : datetime) : string :=
  let dt := match tstamp with
            | Some (String _ _ as s) => first_date zones date_formats s
            | _ => None
            end in
  month_and_year (default now dt).

Definition re_grid_row : pattern := compiled no_flags "^\s*\|.*\|\s*$".
Definition re_grid_header : pattern := compiled no_flags "^\+\=[\+\=]+\+\s*$".
Definition re_grid_rule : pattern := compiled no_flags "^\s*\+[-+]+\+.*$".
Definition re_columns : pattern := compiled no_flags "\=+".
Definition re_simple_end : pattern := compiled no_flags "^\s*[\=]+[ \t\=]+$".
Definition re_simple_header : pattern := compiled no_flags "^[\s=]+$".
Definition re_nonspace : pattern := compiled no_flags "\S".
Definition re_leading : pattern := compiled no_flags "^\s*".
Definition re_grid_start : pattern := compiled no_flags "^\+\-[-+]+\+.*$".
Definition re_simple_start : pattern := compiled no_flags "^\=+[ \t]\=[ \t\=]+$".
Definition re_cblock : pattern := compiled no_flags "\.\.\s+code-block.*::".
Definition re_bullet : pattern := compiled no_flags "^[-*]\s+".
Definition re_enumerated : pattern := compiled no_flags "^(\d+|a-z)[\.\)]\s+".
Definition re_array_tail : pattern := compiled no_flags "\[.*".
Definition re_not_pointer : pattern := compiled no_flags "([^\*])$".
Definition re_newline : pattern := compiled no_flags "\n".

(** [r.match(line)] as a condition. *)
Definition is_match (r : pattern) (line : string) : bool :=
  bool_decide (is_Some (re_match r line)).

(** ** Tables *)

(** [self.emit_table(colspec_row, rows)]; [None] and [[]] are both false. *)
Definition emit_table (colspec_row : list string) (rows : list (list string)) : string :=
  match rows with
  | [] => ""
  | row0 :: _ =>
      let colspec := join tab (map (λ _, "l") row0) in
      nl +:+ ".TS" +:+ nl +:+ "box;" +:+ nl +:+ colspec +:+ "." +:+ nl
      +:+ (match colspec_row with
           | [] => ""
           | _ => join tab (map (λ text, "\fB" +:+ text +:+ "\fP") colspec_row)
                  +:+ nl +:+ "_" +:+ nl
           end)
      +:+ sconcat (map (λ r, join tab r +:+ nl) rows)
      +:+ ".TE" +:+ nl
  end.

(** [[row[j] for row in rows]] *)
Fixpoint column (rows : list (list string)) (j : nat) : res (list string) :=
  match rows with
  | [] => Ok []
  | row :: rows' =>
      match row !! j with
      | None => Raise IndexError
      | Some x => match column rows' j with Ok l => Ok (x :: l) | Raise e => Raise e end
      end
  end.
(** The loop over [range(0, len(rows[0]))] that fills [colspec_row], from [j]
    on, [n] columns left. *)
Fixpoint fill_header (rows : list (list string)) (colspec_row : list string) (n j : nat)
    : res (list string) :=
  match n with
  | O => Ok colspec_row
  | S n' =>
      match column rows j with
      | Raise e => Raise e
      | Ok content =>
          if j <? length colspec_row
          then fill_header rows (<[j := join " " content]> colspec_row) n' (S j)
          else Raise IndexError
      end
  end.
(** A header rule: the rows so far become the header. *)
Definition take_header (rows : list (list string)) (colspec_row : list string)
    : res (list string * list (list string)) :=
  match rows with
  | (_ :: _) as row0 :: _ =>
      let colspec_row := match colspec_row with [] => map (λ _, "") row0 | _ => colspec_row end in
      match fill_header rows colspec_row (length row0) 0 with
      | Ok h => Ok (h, [])
      | Raise e => Raise e
      end
  | _ => Ok (colspec_row, rows)
  end.

(** The loop of [grid_table] over the lines from [i] on. *)
Fixpoint grid_loop (rest : list string) (i : nat) (rows : list (list string))
    (colspec_row : list string) : res (nat * string) :=
  match rest with
  | [] => Ok (i, emit_table colspec_row rows)
  | line :: rest' =>
      if is_match re_grid_row line then
        let parts := map strip (split_char "|" (strip_char "|" line)) in
        grid_loop rest' (S i) (rows ++ [parts]) colspec_row
      else if is_match re_grid_header line then
        match take_header rows colspec_row with
        | Ok (h, rows) => grid_loop rest' (S i) rows h
        | Raise e => Raise e
        end
      else if is_match re_grid_rule line then grid_loop rest' (S i) rows colspec_row
      else Ok (i, emit_table colspec_row rows)
  end.
(** [self.grid_table(lines, start)] *)
Definition grid_table (lines : list string) (start : nat) : res (nat * string) :=
  grid_loop (skipn (S start) lines) (S start) [] [].

(** [line[start:end]] of each column. *)
Definition simple_row (pos : list (nat * nat)) (line : string) : list string :=
  map (λ '(a, b), strip (str_slice a b line)) pos.

Fixpoint simple_loop (pos : list (nat * nat)) (rest : list string) (i : nat)
    (rows : list (list string)) (colspec_row : list string) : res (nat * string) :=
  match rest with
  | [] => Ok (i, emit_table colspec_row rows)
  | line :: rest' =>
      if is_match re_simple_end line then Ok (S i, emit_table colspec_row rows)
      else if is_match re_simple_header line then
        match take_header rows colspec_row with
        | Ok (h, rows) => simple_loop pos rest' (S i) rows h
        | Raise e => Raise e
        end
      else simple_loop pos rest' (S i) (rows ++ [simple_row pos line]) colspec_row
  end.
(** [self.simple_table(lines, start)]: a column goes from the start of a run of
    [=] to its last character, exclusive. *)
Definition simple_table (lines : list string) (start : nat) : res (nat * string) :=
  match lines !! start with
  | None => Raise IndexError
  | Some line =>
      let pos := map (λ m, (r_start m, r_end m - 1)) (re_finditer re_columns line) in
      simple_loop pos (skipn (S start) lines) (S start) [] []
  end.

(** ** Code blocks *)

(** [line[2:-1]] and [line[:-1]] *)
Definition drop_last (s : string) : string := str_take (String.length s - 1) s.

Definition code_block_start (line : string) : string :=
  if str_in "code-block" line then nl +:+ ".nf" +:+ nl
  else if startswith ".." line && endswith "::" line then
    nl +:+ ".nf" +:+ nl +:+ "\fB" +:+ str_upper (strip (str_drop 2 (drop_last line))) +:+ "\fP" +:+ nl
  else if endswith "::" line then drop_last line +:+ nl +:+ ".nf" +:+ nl
  else nl +:+ ".nf" +:+ nl.

Definition code_end : string := nl +:+ ".fi" +:+ nl.

(** The loop of [code_block]; [ident] is [None] or a column. *)
Fixpoint code_loop (start : nat) (rest : list string) (i : nat) (ident : option nat) (out : string)
    : nat * string :=
  match rest with
  | [] => (i, out +:+ code_end)
  | line :: rest' =>
      match re_match re_nonspace line with
      | None => code_loop start rest' (S i) ident (out +:+ line +:+ nl)
      | Some m =>
          let pos := r_start m in
          let compare (ident : nat) :=
            if ident <=? pos
            then code_loop start rest' (S i) (Some ident) (out +:+ line +:+ nl)
            else (i, out +:+ code_end) in
          match ident with
          | Some (S n) => compare (S n)
          | _ =>
              if 0 <? pos then compare pos
              else
                if S start <? i then (i - 1, out +:+ code_end) else (i, out +:+ code_end)
          end
      end
  end.
(** [self.code_block(lines, start)] *)
Definition code_block (lines : list string) (start : nat) : res (nat * string) :=
  match lines !! start with
  | None => Raise IndexError
  | Some line => Ok (code_loop start (skipn (S start) lines) (S start) None (code_block_start line))
  end.

(** ** [output_highlight] *)

(** One turn of the loop at line [i]: the next line and the text. *)
Definition highlight_line (lines : list string) (i : nat) (org_line : string) : res (nat * string) :=
  let line := re_sub re_leading "" org_line 0 in
  match line with
  | "" => Ok (S i, ".PP" +:+ nl +:+ nl)
  | String c _ =>
      if is_match re_grid_start line then grid_table lines i
      else if is_match re_simple_start line then simple_table lines i
      else if endswith "::" line || is_match re_cblock line then code_block lines i
      else if (c =? ".")%char then Ok (S i, "\&" +:+ line +:+ nl)
      else
        let line := re_sub re_bullet ".IP \[bu]\n" line 0 in
        let line := re_sub re_enumerated ".IP \1\n" line 0 in
        Ok (S i, line +:+ nl)
  end.
Fixpoint highlight_loop (fuel : nat) (lines : list string) (i : nat) : Out unit :=
  match lines !! i with
  | None => mret tt
  | Some org_line =>
      match fuel with
      | O => raise (OutOfFuel "output_highlight")
      | S fuel' =>
          r ← lift_res (highlight_line lines i org_line);
          emit (snd r) ;;
          highlight_loop fuel' lines (fst r)
      end
  end.
(** [self.output_highlight(block)] for a string: every turn of the loop takes
    at least one line. *)
Definition output_highlight (block : string) : Out unit :=
  let contents := highlight_block highlights block in
  let lines := split_char NL (strip_char NL contents) in
  highlight_loop (length lines) lines 0.
(** The same for a value that may be [None]. *)
Definition output_highlight_opt (block : option string) : Out unit :=
  match block with
  | Some block => output_highlight block
  | None => raise (TypeError "expected string or bytes-like object")
  end.

(** ** The methods *)

Section Man.
Context (_modulename : option string) (section date manual : string) (symbols : list KdocItem).

Definition modulename (args : KdocItem) : string :=
  match _modulename with
  | Some (String _ _ as m) => m
  | _ => dirname (it_fname args)
  end.

Definition emit_th (name : string) (args : KdocItem) : Out unit :=
  let title := strip name in
  let module := modulename args in
  emit (".TH " +:+ quote +:+ title +:+ quote +:+ " " +:+ section +:+ " " +:+ quote +:+ date
        +:+ quote +:+ " ") ;;
  emit (quote +:+ module +:+ quote +:+ " " +:+ quote +:+ manual +:+ quote +:+ nl).

(** [self.arg_name(args, name)] *)
Definition arg_name (args : KdocItem) (name : string) : string :=
  let dtype := it_type args in
  if (dtype =? "doc")%string then name
  else if smem dtype ["function"; "typedef"] then name
  else dtype +:+ " " +:+ name.

(** The names of the other symbols, as [out_tail] lists them. *)
Definition related (cur_name : string) : list string :=
  map (λ out_name, "\fB" +:+ out_name +:+ "\fR(9)")
    (filter (λ out_name, cur_name ≠ out_name) (map (λ arg, arg_name arg (it_name arg)) symbols)).
Definition out_tail (name : string) (args : KdocItem) : Out unit :=
  emit (".SH " +:+ quote +:+ "SEE ALSO" +:+ quote +:+ nl +:+ ".PP" +:+ nl) ;;
  emit ("Kernel file \fB" +:+ it_fname args +:+ "\fR" +:+ nl) ;;
  when (2 <=? length symbols)
    (emit (join ("," +:+ nl) (related (arg_name args name)) +:+ nl)).

(** [.SH "title"] and the text of a section. *)
Definition out_sections (title : string → string) (args : KdocItem) : Out unit :=
  for_each (it_sections args) (λ '(section, text),
    emit (".SH " +:+ quote +:+ title section +:+ quote +:+ nl) ;;
    output_highlight text).

Definition out_doc (name : string) (args : KdocItem) : Out unit :=
  shown ← check_doc name args;
  if negb shown then mret tt
  else
    let out_name := arg_name args name in
    emit_th out_name args ;;
    out_sections id args.

(** [f"{args['purpose']}"] *)
Definition purpose_str (args : KdocItem) : string := py_str (KdocItem_getitem args "purpose").

Definition fp_group (r : KernRe) (n : nat) : res string :=
  match KernRe_group r n with
  | Ok (Some s) => Ok s
  | Ok None => Ok "None"
  | Raise e => Raise e
  end.

(** One turn of the loop over the parameters of the synopsis. *)
Definition synopsis_param (args : KdocItem) (acc : nat * string * string) (parameter : string)
    : Out (nat * string * string) :=
  let '(count, parenth, post) := acc in
  let post := if count =? length (it_parameterlist args) - 1 then ");" else post in
  let dtype := dget_or (it_parametertypes args) parameter "" in
  (match KernRe_match function_pointer dtype with
   | (r, Some _) =>
       g1 ← lift_res (fp_group r 1);
       g2 ← lift_res (fp_group r 2);
       emit (quote +:+ ".BI " +:+ quote +:+ parenth +:+ g1 +:+ quote +:+ " " +:+ quote +:+ " "
             +:+ quote +:+ ") (" +:+ g2 +:+ ")" +:+ post +:+ quote +:+ nl)
   | (_, None) =>
       let dtype := re_sub re_not_pointer "\1 " dtype 0 in
       emit (".BI " +:+ quote +:+ parenth +:+ dtype +:+ quote +:+ "  " +:+ quote +:+ post
             +:+ quote +:+ nl)
   end) ;;
  mret (S count, "", post).

Definition parameter_name (parameter : string) : string := re_sub re_array_tail "" parameter 0.
Definition described_param (args : KdocItem) (parameter : string) : Out unit :=
  emit (".IP " +:+ quote +:+ parameter +:+ quote +:+ " 12" +:+ nl) ;;
  output_highlight (dget_or (it_parameterdescs args) (parameter_name parameter) "").

Definition out_function (name : string) (args : KdocItem) : Out unit :=
  emit_th (arg_name args name) args ;;
  emit (".SH NAME" +:+ nl) ;;
  emit (name +:+ " \- " +:+ purpose_str args +:+ nl) ;;
  emit (".SH SYNOPSIS" +:+ nl) ;;
  let functiontype := KdocItem_get args "functiontype" (VStr "") in
  (if truth functiontype
   then emit (".B " +:+ quote +:+ py_str functiontype +:+ quote +:+ " " +:+ name +:+ nl)
   else emit (".B " +:+ quote +:+ name +:+ nl)) ;;
  for_acc (it_parameterlist args) (0, "(", ",") (synopsis_param args) ;;
  when (match it_parameterlist args with [] => false | _ => true end)
    (emit (".SH ARGUMENTS" +:+ nl)) ;;
  for_each (it_parameterlist args) (described_param args) ;;
  out_sections str_upper args.

(** One turn of the loop over the values of the synopsis of an enum. *)
Definition enum_value (args : KdocItem) (count : nat) (parameter : string) : Out nat :=
  emit (".br" +:+ nl +:+ ".BI " +:+ quote +:+ "    " +:+ parameter +:+ quote +:+ nl) ;;
  (if count =? length (it_parameterlist args) - 1 then emit (nl +:+ "};" +:+ nl)
   else emit (", " +:+ nl +:+ ".br" +:+ nl)) ;;
  mret (S count).

Definition out_enum (name : string) (args : KdocItem) : Out unit :=
  emit_th (arg_name args name) args ;;
  emit (".SH NAME" +:+ nl) ;;
  emit ("enum " +:+ name +:+ " \- " +:+ purpose_str args +:+ nl) ;;
  emit (".SH SYNOPSIS" +:+ nl) ;;
  emit ("enum " +:+ name +:+ " {" +:+ nl) ;;
  for_acc (it_parameterlist args) 0 (enum_value args) ;;
  emit (".SH Constants" +:+ nl) ;;
  for_each (it_parameterlist args) (described_param args) ;;
  out_sections id args.

Definition out_var (name : string) (args : KdocItem) : Out unit :=
  full_proto ← lift_res (dict_at (it_other_stuff args) "full_proto");
  emit_th (arg_name args name) args ;;
  emit (".SH NAME" +:+ nl) ;;
  emit (name +:+ " \- " +:+ purpose_str args +:+ nl) ;;
  emit (".SH SYNOPSIS" +:+ nl) ;;
  emit (py_str full_proto +:+ nl) ;;
  default_val ← lift_res (dict_at (it_other_stuff args) "default_val");
  when (truth default_val)
    (emit (".SH " +:+ quote +:+ "Initialization" +:+ quote +:+ nl) ;;
     output_highlight ("default: " +:+ py_str default_val)) ;;
  out_sections id args.

Definition out_typedef (name : string) (args : KdocItem) : Out unit :=
  emit_th (arg_name args name) args ;;
  emit (".SH NAME" +:+ nl) ;;
  emit ("typedef " +:+ name +:+ " \- " +:+ purpose_str args +:+ nl) ;;
  out_sections id args.

(** The description of a member of a structure. *)
Definition struct_member (args : KdocItem) (parameter : string) : Out unit :=
  if startswith "#" parameter then mret tt
  else
    let name := parameter_name parameter in
    if bool_decide (dget (it_parameterdescs args) name = Some undescribed) then mret tt
    else
      emit (".IP " +:+ quote +:+ parameter +:+ quote +:+ " 12" +:+ nl) ;;
      output_highlight_opt (dget (it_parameterdescs args) name).

Definition out_struct (name : string) (args : KdocItem) : Out unit :=
  emit_th (arg_name args name) args ;;
  emit (".SH NAME" +:+ nl) ;;
  emit (it_type args +:+ " " +:+ name +:+ " \- " +:+ purpose_str args +:+ nl) ;;
  definition ← lift_res (as_str "replace" (KdocItem_getitem args "definition"));
  let declaration := replace tab "  " definition in
  let declaration :=
    re_sub re_newline (quote +:+ nl +:+ ".br" +:+ nl +:+ ".BI " +:+ quote) declaration 0 in
  emit (".SH SYNOPSIS" +:+ nl) ;;
  emit (it_type args +:+ " " +:+ name +:+ " {" +:+ nl +:+ ".br" +:+ nl) ;;
  emit (".BI " +:+ quote +:+ declaration +:+ nl +:+ "};" +:+ nl +:+ ".br" +:+ nl +:+ nl) ;;
  emit (".SH Members" +:+ nl) ;;
  for_each (it_parameterlist args) (struct_member args) ;;
  out_sections id args.

Definition cls : format_class :=
  MkClass out_doc out_function out_enum out_var out_typedef out_struct.

(** [ManFormat.msg]: the tail comes whatever the base class answered. *)
Definition man_msg (name : string) (args : KdocItem) : Out (option string) :=
  msg cls name args ;;
  out_tail name args ;;
  result_data.
End Man.

(** [output_symbols] of a [ManFormat]; [set_symbols] stores the list first. *)
Definition man_output_symbols (_modulename : option string) (section date manual fname : string)
    (symbols : list KdocItem) : Out string :=
  for_acc symbols "" (output_one (man_msg _modulename section date manual symbols) fname).

End ManFormat.
