(* ===== verification/KdocManSpec.v ===== *)
(** * KdocManSpec: what the man-page output promises *)

From S2P Require Import Prelude PyStr PyRe PyReSyntax PyReTheory PyDate KdocRe CLex Xforms.
From S2P Require Import KdocItem KdocEntry KdocParams KdocDump KdocProcess KdocMachine.
From S2P Require Import KdocOutput KdocOutputTheory KdocOutputSpec KdocMan.
Import ManFormat.

(** ** Progress of the loop over the lines *)

(** A step from line [i]: it goes forward, or raises [IndexError]. *)
Definition forward (i : nat) (r : res (nat * string)) : Prop :=
  match r with Ok (j, _) => i ≤ j | Raise x => x = IndexError end.

Lemma column_ok rows j : match column rows j with Ok _ => True | Raise x => x = IndexError end.
Proof.
  induction rows as [|row rows IH]; cbn; [done|]. destruct (row !! j); [|done].
  by destruct (column rows j).
Qed.
Lemma fill_header_ok rows n : ∀ colspec j,
  match fill_header rows colspec n j with Ok _ => True | Raise x => x = IndexError end.
Proof.
  induction n as [|n IH]; intros colspec j; cbn [fill_header]; [done|]. pose proof (column_ok rows j) as H.
  destruct (column rows j); [|done]. destruct (j <? length colspec); [apply IH | done].
Qed.
Lemma take_header_ok rows colspec :
  match take_header rows colspec with Ok _ => True | Raise x => x = IndexError end.
Proof.
  unfold take_header. destruct rows as [|[|c row] rows]; [done|done|].
  pose proof (fill_header_ok ((c :: row) :: rows) (length (c :: row))
    (match colspec with [] => map (λ _, "") (c :: row) | _ => colspec end) 0) as H.
  by destruct (fill_header _ _ _ _).
Qed.

Lemma grid_loop_forward rest : ∀ i rows colspec, forward i (grid_loop rest i rows colspec).
Proof.
  induction rest as [|line rest IH]; intros i rows colspec; cbn [grid_loop]; [cbn; lia|].
  assert (∀ rows colspec, forward i (grid_loop rest (S i) rows colspec)) as IH'.
  { intros rows' cs'. specialize (IH (S i) rows' cs').
    destruct (grid_loop rest (S i) rows' cs') as [[j t]|x]; cbn in *; [lia|done]. }
  destruct (is_match re_grid_row line); [apply IH'|].
  destruct (is_match re_grid_header line).
  - pose proof (take_header_ok rows colspec) as H.
    destruct (take_header rows colspec) as [[h rows']|x]; [apply IH' | exact H].
  - destruct (is_match re_grid_rule line); [apply IH' | cbn; lia].
Qed.

Lemma simple_loop_forward pos rest : ∀ i rows colspec, forward i (simple_loop pos rest i rows colspec).
Proof.
  induction rest as [|line rest IH]; intros i rows colspec; cbn [simple_loop]; [cbn; lia|].
  assert (∀ rows colspec, forward i (simple_loop pos rest (S i) rows colspec)) as IH'.
  { intros rows' cs'. specialize (IH (S i) rows' cs').
    destruct (simple_loop pos rest (S i) rows' cs') as [[j t]|x]; cbn in *; [lia|done]. }
  destruct (is_match re_simple_end line); [cbn; lia|].
  destruct (is_match re_simple_header line); [|apply IH'].
  pose proof (take_header_ok rows colspec) as H.
  destruct (take_header rows colspec) as [[h rows']|x]; [apply IH' | exact H].
Qed.

(** ** Code blocks *)

(** A line that starts with a character other than white space. *)
Definition starts_text (line : string) : bool :=
  match line with String c _ => negb (is_space c) | "" => false end.

Lemma match_nonspace line :
  match re_match re_nonspace line with
  | Some m => starts_text line = true ∧ r_start m = 0
  | None => starts_text line = false
  end.
Proof.
  assert (p_prog re_nonspace = RChr false (CSet false [CSpace true])) as Hr by (vm_compute; reflexivity).
  unfold re_match, match_at. rewrite Hr. destruct line as [|c line]; [done|]. cbn.
  by destruct (is_space c).
Qed.

(** The lines of a code block: up to the first that starts with text. *)
Fixpoint code_lines (ls : list string) : list string * list string :=
  match ls with
  | [] => ([], [])
  | l :: ls' => if starts_text l then ([], ls) else let '(a, b) := code_lines ls' in (l :: a, b)
  end.

Lemma code_lines_app ls a b : code_lines ls = (a, b) → ls = a ++ b.
Proof.
  revert a b. induction ls as [|l ls IH]; intros a b; cbn; [by intros [= <- <-]|].
  destruct (starts_text l); [by intros [= <- <-]|].
  destruct (code_lines ls) as [a' b'] eqn:E. intros [= <- <-]. cbn. f_equal. by apply IH.
Qed.

Lemma code_loop_spec start rest : ∀ i out a b,
  code_lines rest = (a, b) →
  code_loop start rest i None out
  = (match b with
     | [] => i + length a
     | _ => if S start <? i + length a then i + length a - 1 else i + length a
     end, out +:+ text_of a +:+ code_end).
Proof.
  induction rest as [|l rest IH]; intros i out a b; cbn [code_lines code_loop].
  - intros [= <- <-]. cbn [length]. by rewrite Nat.add_0_r.
  - pose proof (match_nonspace l) as H. destruct (re_match re_nonspace l) as [m|].
    + destruct H as [-> ->]. intros [= <- <-]. cbn [length]. rewrite Nat.add_0_r.
      change (0 <? 0) with false. cbv iota beta zeta. by destruct (S start <? i).
    + rewrite H. destruct (code_lines rest) as [a' b'] eqn:E. intros [= <- <-].
      rewrite (IH (S i) _ a' b' eq_refl), text_of_cons, !sapp_assoc. cbn [length].
      by replace (S i + length a') with (i + S (length a')) by lia.
Qed.

Lemma code_block_forward lines i line : lines !! i = Some line → forward (S i) (code_block lines i).
Proof.
  intros Hl. unfold code_block. rewrite Hl.
  destruct (code_lines (skipn (S i) lines)) as [a b] eqn:E.
  rewrite (code_loop_spec i _ (S i) (code_block_start line) a b E). cbn [forward].
  destruct b; [lia|]. destruct (S i <? S i + length a) eqn:El; [|lia].
  apply Nat.ltb_lt in El. lia.
Qed.

Lemma highlight_line_forward lines i line :
  lines !! i = Some line → forward (S i) (highlight_line lines i line).
Proof.
  intros Hl. unfold highlight_line. destruct (re_sub re_leading "" line 0) as [|c s]; [cbn; lia|].
  destruct (is_match re_grid_start _); [apply grid_loop_forward|].
  destruct (is_match re_simple_start _).
  { unfold simple_table. rewrite Hl. apply simple_loop_forward. }
  destruct (_ || _); [by eapply code_block_forward|].
  destruct (c =? ".")%char; cbn; lia.
Qed.

(** ** The writing methods *)

Section Man.
Context (o0 : OutputFormat) (E : exn → Prop) (HE : E IndexError) (p : string).
Abbreviation same m := (hoare (at_prefix o0 p) m (λ _, at_prefix o0 p) E).

Lemma highlight_loop_ok fuel : ∀ lines i, length lines - i ≤ fuel → same (highlight_loop fuel lines i).
Proof.
  induction fuel as [|fuel IH]; intros lines i Hf; cbn [highlight_loop].
  - destruct (lines !! i) eqn:El; [|by intros o]. apply lookup_lt_Some in El. lia.
  - destruct (lines !! i) as [line|] eqn:El; [|by intros o].
    pose proof (highlight_line_forward lines i line El) as HF.
    apply writes_lift. destruct (highlight_line lines i line) as [[j t]|x]; cbn in HF; [|by subst x].
    eapply writes_seq; [apply writes_emit|]. apply IH. cbn. lia.
Qed.

Lemma highlight_ok block : same (output_highlight block).
Proof. unfold output_highlight. cbn zeta. apply highlight_loop_ok. lia. Qed.

Context (_modulename : option string) (section date manual : string) (symbols : list KdocItem).

Lemma emit_th_ok name it : same (emit_th _modulename section date manual name it).
Proof. unfold emit_th. cbn zeta. eapply writes_seq; apply writes_emit. Qed.
Lemma sections_ok title it : same (out_sections title it).
Proof.
  apply writes_for_each. intros [s text]. eapply writes_seq; [apply writes_emit | apply highlight_ok].
Qed.
Lemma described_param_ok it q : same (described_param it q).
Proof. eapply writes_seq; [apply writes_emit | apply highlight_ok]. Qed.
Lemma out_tail_ok name it : same (out_tail symbols name it).
Proof.
  unfold out_tail. do 2 (eapply writes_seq; [apply writes_emit|]). apply writes_when, writes_emit.
Qed.

Create HintDb man.
#[local] Hint Resolve emit_th_ok sections_ok described_param_ok highlight_ok out_tail_ok : man.
#[local] Hint Resolve writes_emit writes_ret writes_when writes_for_each writes_if : man.
#[local] Hint Extern 3 (hoare _ (_ ≫= _) _ _) => eapply writes_seq : man.

Lemma man_fp_groups dtype r m n :
  KernRe_match function_pointer dtype = (r, Some m) → n = 1 ∨ n = 2 → ∃ s, fp_group r n = Ok s.
Proof.
  assert (p_ngroups (kr_regex function_pointer) = 2) as Hn by (vm_compute; reflexivity).
  revert Hn. generalize function_pointer. intros fp Hn. unfold KernRe_match.
  intros [= <- Hm] H. unfold fp_group, KernRe_group. cbn [kr_last_match kr_regex].
  rewrite Hm, Hn. destruct H as [->| ->]; cbn [Nat.leb]; by destruct (group m _); eexists.
Qed.

Lemma synopsis_param_ok it acc q :
  hoare (at_prefix o0 p) (synopsis_param it acc q) (λ _, at_prefix o0 p) E.
Proof.
  unfold synopsis_param. destruct acc as [[count parenth] post]. cbn zeta.
  eapply hoare_seq with (R := at_prefix o0 p); [|by intros o].
  destruct (KernRe_match function_pointer _) as [r [m|]] eqn:Em; [|apply writes_emit].
  destruct (man_fp_groups _ _ _ 1 Em) as [g1 ->]; [by left|].
  destruct (man_fp_groups _ _ _ 2 Em) as [g2 ->]; [by right|].
  do 2 apply writes_lift. apply writes_emit.
Qed.

Lemma man_function_ok name it : same (out_function _modulename section date manual name it).
Proof.
  unfold out_function. cbn zeta. do 4 (eapply writes_seq; [auto with man|]).
  eapply writes_seq; [auto with man|]. eapply hoare_bind with (R := λ _, at_prefix o0 p).
  { apply (hoare_for_acc E (λ _, at_prefix o0 p)). intros. apply synopsis_param_ok. }
  intros _. eauto 8 with man.
Qed.

Lemma man_enum_ok name it : same (out_enum _modulename section date manual name it).
Proof.
  unfold out_enum. do 5 (eapply writes_seq; [auto with man|]).
  eapply hoare_bind with (R := λ _, at_prefix o0 p).
  { apply (hoare_for_acc E (λ _, at_prefix o0 p)). intros n q. unfold enum_value.
    eapply writes_seq; [auto with man|]. eapply hoare_seq with (R := at_prefix o0 p); [auto with man|].
    by intros o. }
  intros _. eauto 8 with man.
Qed.

Lemma man_typedef_ok name it : same (out_typedef _modulename section date manual name it).
Proof. unfold out_typedef. eauto 8 with man. Qed.

Lemma man_var_ok name it :
  it_type it = "var" → item_ok it = true → same (out_var _modulename section date manual name it).
Proof.
  intros Hk Ho. apply item_ok_shape in Ho. unfold item_shape in Ho. rewrite Hk in Ho. cbn -[str_at dmem] in Ho.
  apply andb_prop in Ho as [_ Ho]. apply andb_prop in Ho as [Hf Hd]. unfold out_var.
  destruct (str_at_get _ "full_proto" VNone Hf) as (t & Ht & _). 
  assert (dict_at (it_other_stuff it) "full_proto" = Ok (VStr t)) as -> by (unfold dict_at; by rewrite Ht).
  apply writes_lift. destruct (dict_at_ok _ _ Hd) as [v Hv].
  do 5 (eapply writes_seq; [auto with man|]). rewrite Hv. apply writes_lift. eauto 8 with man.
Qed.

Lemma man_struct_ok name it :
  it_type it ∈ ["struct"; "union"] → item_ok it = true →
  (∀ q, q ∈ it_parameterlist it → dmem (it_parameterdescs it) (parameter_name q) = false →
        E (TypeError "expected string or bytes-like object")) →
  same (out_struct _modulename section date manual name it).
Proof.
  intros Hk Ho HT.
  assert (str_at (it_other_stuff it) "definition" = true) as Hd.
  { apply item_ok_shape in Ho. unfold item_shape in Ho. apply elem_of_cons in Hk as [Hk|Hk%list_elem_of_singleton];
      rewrite Hk in Ho; cbn -[str_at smem forallb] in Ho; bool_facts; done. }
  unfold out_struct. do 3 (eapply writes_seq; [auto with man|]).
  unfold KdocItem_getitem, KdocItem_get.
  destruct (str_at_get _ "definition" VNone Hd) as (u & _ & Hu). rewrite Hu. apply writes_lift.
  cbn [as_str]. cbn zeta. do 4 (eapply writes_seq; [auto with man|]).
  eapply writes_seq; [|auto with man]. apply writes_for_each_in. intros q Hq. unfold struct_member.
  cbn zeta. apply writes_if; [auto with man|]. apply writes_if; [auto with man|].
  eapply writes_seq; [auto with man|]. unfold output_highlight_opt.
  specialize (HT q Hq). unfold dmem in HT. destruct (dget _ _); [auto with man|].
  apply hoare_raise. by apply HT.
Qed.
End Man.

(** ** The laws of the class *)

Section ManLaws.
Context (F : out_mode_t * bool * list string * option (list string) * bool).
Context (_modulename : option string) (section date manual : string).
Abbreviation kept m := (keeps (λ o, filters o = F) m).

Lemma kept_man_highlight block : kept (output_highlight block).
Proof.
  unfold output_highlight. cbn zeta. generalize 0. generalize (length (split_char NL
    (strip_char NL (highlight_block highlights block)))) at 1.
  intros fuel. induction fuel as [|fuel IH]; intros i; cbn [highlight_loop]; keep_filters. apply IH.
Qed.
Create HintDb kept.
#[local] Hint Resolve kept_man_highlight kept_check_doc : kept.
Ltac kept := keep_filters; eauto with kept.

Lemma kept_man_th name it : kept (emit_th _modulename section date manual name it).
Proof. unfold emit_th. kept. Qed.
Lemma kept_man_sections title it : kept (out_sections title it).
Proof. unfold out_sections. kept. Qed.
#[local] Hint Resolve kept_man_th kept_man_sections : kept.
Lemma kept_man_param it q : kept (described_param it q).
Proof. unfold described_param. kept. Qed.
#[local] Hint Resolve kept_man_param : kept.

Lemma kept_man_cls name it :
  let c := ManFormat.cls _modulename section date manual in
  kept (KdocOutput.out_doc c name it) ∧ kept (KdocOutput.out_function c name it) ∧
  kept (KdocOutput.out_enum c name it) ∧ kept (KdocOutput.out_var c name it) ∧
  kept (KdocOutput.out_typedef c name it) ∧ kept (KdocOutput.out_struct c name it).
Proof.
  cbn. unfold out_doc, out_function, out_enum, out_var, out_typedef, out_struct,
    synopsis_param, enum_value, struct_member, output_highlight_opt. repeat split; kept.
Qed.
End ManLaws.

#[global] Instance ManFormat_laws m s dt ml : FormatLaws (ManFormat.cls m s dt ml).
Proof.
  split; [intros F name it; by destruct (kept_man_cls F m s dt ml name it) as (?&?&?&?&?&?)..|].
  intros o t it Ht Hd Hs. cbn. unfold out_doc, mbind, ST_bind. rewrite (check_doc_eq o t it) by done.
  by rewrite Hs.
Qed.

(** ** One item *)

(** The exceptions an item of the right shape can cause in [ManFormat]. *)
Inductive man_error (it : KdocItem) : exn → Prop :=
| uneven_table : man_error it IndexError
| no_man_member q :
    it_type it ∈ ["struct"; "union"] → q ∈ it_parameterlist it →
    dmem (it_parameterdescs it) (parameter_name q) = false →
    man_error it (TypeError "expected string or bytes-like object").

Section ManMsg.
Context (_modulename : option string) (section date manual : string) (symbols : list KdocItem).
Abbreviation cls := (ManFormat.cls _modulename section date manual).

Lemma man_kind_ok o it : item_ok it = true → it_type it ≠ "doc" →
  let name := it_name it in let dtype := it_type it in
  hoare (at_prefix o (of_lineprefix o))
    (if (dtype =? "function")%string then KdocOutput.out_function cls name it ;; result_data
     else if (dtype =? "enum")%string then KdocOutput.out_enum cls name it ;; result_data
     else if (dtype =? "var")%string then KdocOutput.out_var cls name it ;; result_data
     else if (dtype =? "typedef")%string then KdocOutput.out_typedef cls name it ;; result_data
     else if smem dtype ["struct"; "union"] then KdocOutput.out_struct cls name it ;; result_data
     else out_log (LogWarning ("doesn't know how to output '" +:+ dtype +:+ "' block")) ;;
          mret None)
    (λ _, at_prefix o (of_lineprefix o)) (man_error it).
Proof.
  intros Hok Hd. pose proof (item_type_cases it Hok Hd) as Ht. cbv zeta.
  assert (∀ m : Out unit, hoare (at_prefix o (of_lineprefix o)) m (λ _, at_prefix o (of_lineprefix o)) (man_error it) →
    hoare (at_prefix o (of_lineprefix o)) (m ;; result_data) (λ _, at_prefix o (of_lineprefix o))
      (man_error it)) as HR.
  { intros m Hm. eapply hoare_seq; [exact Hm|]. by intros o'. }
  cbn [KdocOutput.out_function KdocOutput.out_enum KdocOutput.out_var KdocOutput.out_typedef
       KdocOutput.out_struct ManFormat.cls].
  apply hoare_if; intros H1; [apply HR, man_function_ok, uneven_table|].
  apply hoare_if; intros H2; [apply HR, man_enum_ok, uneven_table|].
  apply hoare_if; intros H3; [apply String.eqb_eq in H3; apply HR, man_var_ok; [apply uneven_table|done..]|].
  apply hoare_if; intros H4; [apply HR, man_typedef_ok, uneven_table|].
  apply hoare_if; intros H5; bool_facts.
  - apply smem_iff in H5. apply HR, man_struct_ok; [apply uneven_table|done|done|].
    intros q Hq Hm. by eapply no_man_member.
  - exfalso. assert (it_type it ∈ ["struct"; "union"]) as Hin.
    { revert Ht. rewrite !elem_of_cons. tauto. }
    apply smem_iff in Hin. congruence.
Qed.

Lemma man_base_ok it o t :
  of_function_table o = Some t → item_ok it = true → shown o t it = true →
  match msg cls (it_name it) it o with (_, Ok _) => True | (_, Raise x) => man_error it x end.
Proof.
  intros Ht Hok Es. unfold msg. unfold mbind at 1, ST_bind at 1. unfold modify at 1. cbv beta iota zeta.
  set (o1 := upd_data (λ _, "") o). assert (shown o1 t it = true) as Es1 by exact Es.
  destruct (String.eqb_spec (it_type it) "doc") as [Hd|Hd].
  - cbn [KdocOutput.out_doc ManFormat.cls]. unfold out_doc. cbn zeta.
    pose proof (check_doc_eq o1 t it Ht Hd) as HC. rewrite Es1 in HC.
    unfold mbind at 2, ST_bind at 2. unfold mbind at 1, ST_bind at 1. rewrite HC. cbv beta iota. cbn [negb].
    set (o2 := with_warnings it o1).
    assert (hoare (at_prefix o2 (of_lineprefix o2))
      (emit_th _modulename section date manual (arg_name it (it_name it)) it ;; out_sections id it)
      (λ _, at_prefix o2 (of_lineprefix o2)) (man_error it)) as HH.
    { eapply writes_seq; [apply emit_th_ok | apply sections_ok, uneven_table]. }
    specialize (HH o2 (at_prefix_refl o2)).
    destruct ((emit_th _modulename section date manual (arg_name it (it_name it)) it ;;
      out_sections id it) o2) as [o' [[]|x]]; done.
  - pose proof (proj2 (String.eqb_neq _ _) Hd) as Hd'.
    unfold mbind at 1, ST_bind at 1. rewrite (check_declaration_eq o1 t it) by done. rewrite Es1.
    cbv beta iota. cbn [negb andb].
    set (o2 := if negb (selects_by_name (of_out_mode o1)) then with_warnings it o1 else o1).
    pose proof (man_kind_ok o2 it Hok Hd o2 (at_prefix_refl o2)) as HR. cbv zeta in HR.
    assert (∀ R : OutputFormat * res (option string),
      match R with (o', Ok _) => at_prefix o2 (of_lineprefix o2) o' | (_, Raise x) => man_error it x end →
      match R with (_, Ok _) => True | (_, Raise x) => man_error it x end) as HG
      by (by intros [o' [r|x]]).
    exact (HG _ HR).
Qed.

Lemma man_msg_ok it o t :
  of_function_table o = Some t → item_ok it = true →
  match man_msg _modulename section date manual symbols (it_name it) it o with
  | (o', Ok r) => r = Some (of_data o') ∧ filters o' = filters o
  | (_, Raise x) => shown o t it = true ∧ man_error it x
  end.
Proof.
  intros Ht Hok. unfold man_msg.
  assert (∀ o1, match (out_tail symbols (it_name it) it ;; result_data) o1 with
    | (o', Ok r) => r = Some (of_data o') ∧ filters o' = filters o1 | _ => False end) as HT.
  { intros o1. unfold mbind, ST_bind.
    pose proof (out_tail_ok o1 never (of_lineprefix o1) symbols (it_name it) it o1 (at_prefix_refl _)) as HW.
    destruct (out_tail symbols (it_name it) it o1) as [o' [[]|x]]; [|done]. destruct HW as [s ->]. done. }
  pose proof (msg_filters cls (it_name it) it (filters o) o eq_refl) as HK.
  unfold mbind at 1, ST_bind at 1. destruct (shown o t it) eqn:Es.
  - pose proof (man_base_ok it o t Ht Hok Es) as HM.
    destruct (msg cls (it_name it) it o) as [o1 [r|x]]; [|done].
    specialize (HT o1). cbn [fst] in HK. rewrite <- HK. by destruct ((out_tail symbols (it_name it) it ;; result_data) _) as [o' [r'|x]].
  - rewrite (msg_hidden cls it o t Ht Es) in HK |- *. specialize (HT (erase o)).
    cbn [fst] in HK. rewrite <- HK. by destruct ((out_tail symbols (it_name it) it ;; result_data) _) as [o' [r'|x]].
Qed.
End ManMsg.

(** ** Properties *)

(** C21 [output_highlight] ends on every text: each turn of its loop, a table or
    a code block included, takes at least one line, so the number of lines is
    enough fuel.  It only adds text to the output; the one exception is the
    [IndexError] of a table with rows of different lengths. *)
Theorem man_highlight_total block o :
  match output_highlight block o with
  | (o', Ok _) => ∃ s, o' = upd_data (λ d, d +:+ s) o
  | (_, Raise x) => x = IndexError
  end.
Proof.
  pose proof (highlight_ok o (λ x, x = IndexError) eq_refl (of_lineprefix o) block o (at_prefix_refl o)) as H.
  destruct (output_highlight block o) as [o' [[]|x]]; [|exact H].
  destruct H as [s ->]. exists s. by destruct o.
Qed.

(** A code block: its first line gives the request that turns filling off,
    then come, unchanged, all the lines up to the first one that starts with
    text, and the request that turns filling on.  When there are such lines
    and text follows, the index returned is that of the last line of the
    block, which is thus read a second time. *)
Theorem man_code_block_spec lines start line body rest :
  lines !! start = Some line →
  skipn (S start) lines = body ++ rest →
  Forall (λ l, starts_text l = false) body →
  (∀ l rest', rest = l :: rest' → starts_text l = true) →
  code_block lines start
  = Ok (match rest, body with
        | [], _ | _, [] => S start + length body
        | _, _ => start + length body
        end, code_block_start line +:+ text_of body +:+ code_end).
Proof.
  intros Hl Hs Hb Hr. unfold code_block. rewrite Hl, Hs.
  assert (code_lines (body ++ rest) = (body, rest)) as HC.
  { clear Hs. induction Hb as [|l body Hl' Hb IH]; cbn.
    - destruct rest as [|l rest]; [done|]. cbn. by rewrite (Hr l rest eq_refl).
    - by rewrite Hl', IH. }
  rewrite (code_loop_spec start _ (S start) (code_block_start line) body rest HC).
  f_equal. f_equal. destruct rest as [|l rest]; [done|].
  destruct body as [|b body]; cbn [length].
  - rewrite Nat.add_0_r, Nat.ltb_irrefl. done.
  - rewrite (proj2 (Nat.ltb_lt (S start) (S start + S (length body)))) by lia. lia.
Qed.

Lemma man_code_block_spec_witness :
  code_block ["Code::"; ""; "  a"; "  b"; "text"] 0
  = Ok (3, code_block_start "Code::" +:+ text_of [""; "  a"; "  b"] +:+ code_end).
Proof.
  apply (man_code_block_spec _ 0 "Code::" [""; "  a"; "  b"] ["text"]); try reflexivity.
  - repeat (apply Forall_cons; split; [vm_compute; reflexivity|]). apply Forall_nil. exact I.
  - intros l rest' H. injection H as <- _. reflexivity.
Defined.

(** The date of a page is a month and a year: those of the first format that fits
    the time stamp, or of the clock. *)
Lemma strptime_valid zones format s dt : strptime zones format s = Some dt → valid dt = true.
Proof.
  unfold strptime. destruct (format_re zones false format) as [r ds].
  destruct (re_compile re_I _) as [p|]; [|done]. cbn. destruct (re_match p s) as [m|]; [|done]. cbn.
  destruct (r_end m =? _); [|done]. destruct (set_fields _ _ _ _) as [dt'|]; [|done]. cbn.
  destruct (valid dt') eqn:E; [|done]. by intros [= ->].
Qed.
Lemma man_date_month zones tstamp now : valid now = true → ∃ dt c month,
  full_months !! dt_month dt = Some (String c month) ∧ valid dt = true ∧
  man_date zones tstamp now = String (upper c) month +:+ " " +:+ zint_str (dt_year dt).
Proof.
  intros Hnow. unfold man_date.
  assert (∀ formats s dt, first_date zones formats s = Some dt → valid dt = true) as Hf.
  { induction formats as [|f formats IH]; intros s dt; cbn [first_date]; [done|].
    destruct (strptime zones f s) as [dt'|] eqn:E; [intros [= <-]; by eapply strptime_valid|apply IH]. }
  set (dt := default now _).
  assert (valid dt = true) as Hv.
  { unfold dt. destruct tstamp as [[|c s]|]; [done| |done].
    destruct (first_date zones date_formats (String c s)) as [d|] eqn:E; [by eapply Hf|done]. }
  assert (∃ c month, full_months !! dt_month dt = Some (String c month)) as (c & month & Hm).
  { unfold valid in Hv. apply andb_prop in Hv as [_ Hv].
    clearbody dt. destruct (dt_month dt) as [|n]; [by eexists _, _|].
    do 11 (destruct n as [|n]; [by eexists _, _|]). done. }
  exists dt, c, month. split; [done|]. split; [done|]. unfold month_and_year. by rewrite Hm.
Qed.

(** C40 One item of the shape the parser gives, in [ManFormat]: a page is
    written, or the item is displayed and one of two exceptions is raised. *)
Theorem man_msg_safe m section date manual symbols it o t :
  of_function_table o = Some t → item_ok it = true →
  match man_msg m section date manual symbols (it_name it) it o with
  | (o', Ok r) => r = Some (of_data o') ∧ filters o' = filters o
  | (_, Raise x) => shown o t it = true ∧ man_error it x
  end.
Proof. exact (man_msg_ok m section date manual symbols it o t). Qed.

Lemma man_msg_safe_witness :
  match man_msg None "9" "May 2025" "Kernel API Manual" foo_items (it_name foo_item) foo_item all_symbols with
  | (o', Ok r) => r = Some (of_data o') ∧ filters o' = filters all_symbols
  | (_, Raise x) => shown all_symbols [] foo_item = true ∧ man_error foo_item x
  end.
Proof.
  apply (man_msg_safe None "9" "May 2025" "Kernel API Manual" foo_items foo_item all_symbols []).
  - reflexivity.
  - vm_compute. reflexivity.
Defined.

(** The tail of the page of an item. *)
Definition tail_text (symbols : list KdocItem) (it : KdocItem) : string :=
  ".SH " +:+ quote +:+ "SEE ALSO" +:+ quote +:+ nl +:+ ".PP" +:+ nl
  +:+ "Kernel file \fB" +:+ it_fname it +:+ "\fR" +:+ nl
  +:+ (if 2 <=? length symbols
       then join ("," +:+ nl) (related symbols (arg_name it (it_name it))) +:+ nl else "").

(** An item that the filters hide still gets the tail of a page: the
    override of [msg] writes it whatever the base class decided. *)
Theorem man_hidden_tail m section date manual symbols it o t :
  of_function_table o = Some t → shown o t it = false →
  snd (man_msg m section date manual symbols (it_name it) it o) = Ok (Some (tail_text symbols it)).
Proof.
  intros Ht Hs. unfold man_msg. unfold mbind at 1, ST_bind at 1.
  rewrite (msg_hidden (ManFormat.cls m section date manual) it o t Ht Hs).
  unfold tail_text, out_tail, when, emit, result_data. run_ST. cbn [erase upd_data of_data].
  destruct (2 <=? length symbols); cbn [fst snd of_data upd_data];
    by rewrite ?sapp_nil_r, <- ?sapp_assoc.
Qed.

Lemma man_hidden_tail_witness :
  let o := set_filter false false None (Some ["foo"]) [] false false OutputFormat_init in
  snd (man_msg None "9" "" "" foo_items (it_name foo_item) foo_item o) = Ok (Some (tail_text foo_items foo_item)).
Proof. apply (man_hidden_tail None "9" "" "" foo_items foo_item _ []); vm_compute; reflexivity. Defined.

(** A simple table of the ReST syntax is not read as one: the last character
    of every column is cut, and the rule under the header ends the table. *)
Theorem man_simple_table_cut :
  simple_table ["==== ===="; "abcd efgh"; "==== ===="; "1234 5678"; "==== ===="] 0
  = Ok (3, emit_table [] [["abc"; "efg"]]).
Proof. vm_compute. reflexivity. Qed.
