(* ===== verification/KdocYaml.v ===== *)
(** * KdocYaml: [KDocTestFile] of [kdoc_yaml_file.py]

    With a test file, what [KernelFiles] would output is stored instead: each
    symbol of each file becomes a test, with the source text of the comment and
    the declaration, the item as a dictionary, and the texts the output classes
    make of it.  The items are changed on the way (their line numbers become
    relative to the test and their source text is dropped), and the dictionary
    stored is the one of the item itself, so the model gives the changed items
    back. *)

From S2P Require Import Prelude PyStr PyNum PyPath PyRe PyReSyntax PyReTheory KdocRe CLex.
From S2P Require Import KdocItem KdocEntry KdocParams KdocOutput KdocMan.

(** An output object of [self.out_style], a [ManFormat] or a [RestFormat]. *)
Inductive style :=
| StMan (o : OutputFormat)
| StRst (o : OutputFormat).
Definition style_key (s : style) : string := match s with StMan _ => "man" | StRst _ => "rst" end.
Definition style_state (s : style) : OutputFormat := match s with StMan o | StRst o => o end.
Definition upd_style (f : OutputFormat → OutputFormat) (s : style) : style :=
  match s with StMan o => StMan (f o) | StRst o => StRst (f o) end.

(** A test; [expected_dict] is the last two fields. *)
Record test := MkTest {
  t_name : string;
  t_description : string;
  t_fname : string;
  t_source : pyval;
  t_kdoc_item : option (dict plain);
  t_outputs : dict string;
}.

Record KDocTestFile := MkTestFile {
  tf_test_file : string;
  tf_yaml_content : list string;
  tf_test_names : list string;
  tf_tests : list test;
  tf_out_style : list style;
}.

Definition upd_test_names (f : list string → list string) (t : KDocTestFile) : KDocTestFile :=
  MkTestFile (tf_test_file t) (tf_yaml_content t) (f (tf_test_names t)) (tf_tests t) (tf_out_style t).
Definition upd_tests (f : list test → list test) (t : KDocTestFile) : KDocTestFile :=
  MkTestFile (tf_test_file t) (tf_yaml_content t) (tf_test_names t) (f (tf_tests t)) (tf_out_style t).
Definition upd_styles (f : list style → list style) (t : KDocTestFile) : KDocTestFile :=
  MkTestFile (tf_test_file t) (tf_yaml_content t) (tf_test_names t) (tf_tests t) (f (tf_out_style t)).

(** [KDocTestFile(config, yaml_file, yaml_content)].  [has_yaml] tells if the
    package is installed.  The module does not import [sys]. *)
Definition KDocTestFile_init (has_yaml : bool) (home : string → option string)
    (isdir : string → bool) (yaml_file : string) (yaml_content : list string) : res KDocTestFile :=
  if negb has_yaml then Raise (NameError "sys")
  else
    let test_file := expanduser home yaml_file in
    let out_dir := dirname test_file in
    if negb (out_dir =? "")%string && negb (isdir out_dir) then Raise (NameError "sys")
    else
      Ok (MkTestFile test_file yaml_content [] []
        ((if smem "man" yaml_content then [StMan OutputFormat_init] else [])
         ++ (if smem "rst" yaml_content then [StRst OutputFormat_init] else []))).

(** [self.set_filter(...)] *)
Definition yaml_set_filter (export internal : bool) (symbol nosymbol : option (list string))
    (function_table : list string) (enable_lineno no_doc_sections : bool) (t : KDocTestFile)
    : KDocTestFile :=
  upd_styles (map (upd_style
    (set_filter export internal symbol nosymbol function_table enable_lineno no_doc_sections))) t.

(** [get_kdoc_item(arg, start_line)]: the lines of sections and parameters
    move with the line of the declaration. *)
Definition shift_lines (by_ : Z) (d : dict Z) : dict Z := map (λ '(k, ln), (k, ln + by_)%Z) d.
Definition get_kdoc_item (start_line : nat) (arg : KdocItem) : KdocItem :=
  match it_declaration_start_line arg with
  | 0 => arg
  | decl =>
      let by_ := (Z.of_nat start_line - Z.of_nat decl)%Z in
      MkKdocItem (it_name arg) (it_fname arg) (it_type arg) start_line
        (it_sections arg) (shift_lines by_ (it_sections_start_lines arg))
        (it_parameterlist arg) (shift_lines by_ (it_parameterdesc_start_lines arg))
        (it_parameterdescs arg) (it_parametertypes arg) (it_warnings arg) (it_other_stuff arg)
  end.
(** The lines [msg = self.get_kdoc_item(arg)] to [del other_stuff["source"]]. *)
Definition stored_item (arg : KdocItem) : KdocItem :=
  let arg := get_kdoc_item 1 arg in
  KdocItem_set_other_stuff (ddel (it_other_stuff arg) "source") arg.

(** [base_name.lower().replace(".", "_").replace("/", "_")] *)
Definition base_of (name fname : string) : string :=
  let base_name := if (name =? "")%string then fname else name in
  replace "/" "_" (replace "." "_" (str_lower base_name)).
(** [f"{base_name}_{i:03d}"] *)
Definition numbered (base_name : string) (i : nat) : string := base_name +:+ "_" +:+ pad0 3 i.
(** [while name in self.test_names: ...] *)
Fixpoint fresh_name (fuel : nat) (test_names : list string) (base_name : string) (i : nat)
    (name : string) : res string :=
  if smem name test_names then
    match fuel with
    | 0 => Raise (OutOfFuel "output_symbols")
    | S fuel => fresh_name fuel test_names base_name (S i) (numbered base_name (S i))
    end
  else Ok name.

Section Symbols.
Context (date : string).

(** [out_style.output_symbols(fname, [arg]).strip()] *)
Definition style_output (fname : string) (arg : KdocItem) (s : style) : style * res string :=
  let '(o, r) := match s with
    | StMan o => ManFormat.man_output_symbols None "9" date "Kernel API Manual" fname [arg] o
    | StRst o => output_symbols RestFormat.cls fname [arg] o end in
  (upd_style (λ _, o) s, match r with Ok text => Ok (strip text) | Raise e => Raise e end).
(** [for out_style in self.out_style: ...] fills [expected_dict]. *)
Fixpoint style_outputs (fname : string) (arg : KdocItem) (styles : list style)
    (expected : dict string) : list style * res (dict string) :=
  match styles with
  | [] => ([], Ok expected)
  | s :: styles =>
      match style_output fname arg s with
      | (s, Ok text) =>
          let '(styles, r) := style_outputs fname arg styles (dset expected (style_key s) text) in
          (s :: styles, r)
      | (s, Raise e) => (s :: styles, Raise e)
      end
  end.

(** The loop body of [output_symbols], [arg] being already changed. *)
Definition add_test (fname : string) (source : pyval) (arg : KdocItem) : ST KDocTestFile unit :=
  names ← gets tf_test_names;
  let base_name := base_of (it_name arg) fname in
  name ← lift_res (fresh_name (S (length names)) names base_name 0 base_name);
  modify (upd_test_names (λ l, set_add l name)) ;;
  content ← gets tf_yaml_content;
  styles ← gets tf_out_style;
  let '(styles, r) := style_outputs fname arg styles [] in
  modify (upd_styles (λ _, styles)) ;;
  outputs ← lift_res r;
  modify (upd_tests (λ l, l ++ [
    MkTest name (fname +:+ " line " +:+ int_str (it_declaration_start_line arg)) fname source
      (if smem "KdocItem" content then Some (item_vars arg) else None) outputs])).

(** [self.output_symbols(fname, symbols)]; gives the symbols as they are
    afterwards, also when it raises. *)
Fixpoint yaml_output_symbols (fname : string) (symbols : list KdocItem) (t : KDocTestFile)
    : KDocTestFile * list KdocItem * res unit :=
  match symbols with
  | [] => (t, [], Ok tt)
  | arg :: symbols =>
      let source := KdocItem_get arg "source" (VStr "") in
      let arg := if smem "KdocItem" (tf_yaml_content t) then stored_item arg else arg in
      match add_test fname source arg t with
      | (t, Ok _) =>
          let '(t, symbols, r) := yaml_output_symbols fname symbols t in (t, arg :: symbols, r)
      | (t, Raise e) => (t, arg :: symbols, Raise e)
      end
  end.
End Symbols.

(** [str_presenter]: the style of a scalar. *)
Definition str_presenter (data : string) : option string :=
  if char_in NL data then Some "|" else None.
(** [self.write()]: what is handed to [yaml.dump], under the key ["tests"], and
    the file it goes to. *)
Definition yaml_write (t : KDocTestFile) : string * dict (list test) :=
  (tf_test_file t, [("tests", tf_tests t)]).
