(* ===== verification/KdocYamlSpec.v ===== *)
(** * KdocYamlSpec: what a test file holds *)

From S2P Require Import Prelude PyStr PyNum PyRe PyReSyntax PyReTheory KdocRe CLex.
From S2P Require Import KdocItem KdocEntry KdocParams KdocOutput KdocMan KdocYaml.

(** ** Names of tests *)

(** The names tried, in order. *)
Definition candidate (base : string) (i : nat) : string :=
  match i with 0 => base | _ => numbered base i end.

Lemma numbered_inj base i j : numbered base i = numbered base j → i = j.
Proof. unfold numbered. intros H. by simplify_eq. Qed.
Lemma numbered_ne base i : numbered base i ≠ base.
Proof.
  unfold numbered. intros H. apply (f_equal String.length) in H.
  rewrite !slen_app in H. cbn [String.length] in H. lia.
Qed.
#[global] Instance candidate_inj base : Inj (=) (=) (candidate base).
Proof.
  intros [|i] [|j]; cbn [candidate]; [done| | |by apply numbered_inj].
  - intros H. by destruct (numbered_ne base (S j)).
  - intros H. by destruct (numbered_ne base (S i)).
Qed.

Lemma fresh_name_run names base fuel : ∀ i,
  (∃ k, fresh_name fuel names base i (candidate base i) = Ok (candidate base k) ∧
        (candidate base k ∉ names) ∧ (∀ j, i ≤ j < k → candidate base j ∈ names)) ∨
  (∀ j, i ≤ j ≤ i + fuel → candidate base j ∈ names).
Proof.
  induction fuel as [|fuel IH]; intros i; cbn [fresh_name];
    destruct (smem (candidate base i) names) eqn:E.
  - right. intros j Hj. assert (j = i) as -> by lia. by apply smem_iff.
  - left. exists i. split; [done|]. split; [|lia]. intros H%smem_iff. congruence.
  - apply smem_iff in E. destruct (IH (S i)) as [(k & Hr & Hk & Hj)|Hall]; [left|right].
    + exists k. split; [exact Hr|]. split; [exact Hk|]. intros j Hlt.
      destruct (decide (j = i)) as [->|]; [done|]. apply Hj. lia.
    + intros j Hj. destruct (decide (j = i)) as [->|]; [done|]. apply Hall. lia.
  - left. exists i. split; [done|]. split; [|lia]. intros H%smem_iff. congruence.
Qed.

Lemma fresh_name_found names base : ∃ k,
  fresh_name (S (length names)) names base 0 base = Ok (candidate base k) ∧
  (candidate base k ∉ names) ∧ (∀ j, j < k → candidate base j ∈ names).
Proof.
  destruct (fresh_name_run names base (S (length names)) 0) as [(k & Hr & Hk & Hj)|Hall].
  - exists k. split; [exact Hr|]. split; [exact Hk|]. intros j Hlt. apply Hj. lia.
  - exfalso. set (l := candidate base <$> seq 0 (S (length names))).
    assert (NoDup l) as Hd by (apply NoDup_fmap; [apply _|apply NoDup_seq]).
    assert (l ⊆ names) as Hs.
    { intros x Hx. apply list_elem_of_fmap in Hx as (j & -> & Hj%elem_of_seq). apply Hall. lia. }
    pose proof (submseteq_length _ _ (NoDup_submseteq _ _ Hd Hs)) as HL.
    unfold l in HL. rewrite length_fmap, length_seq in HL. lia.
Qed.

(** ** The invariant of the object *)

(** A stored item can be loaded again, and gives the same dictionary. *)
Definition reloads (d : dict plain) : Prop :=
  ∃ item, from_dict d = Some (Ok item) ∧ item_vars item = d.
Definition test_ok (x : test) : Prop :=
  match t_kdoc_item x with Some d => reloads d | None => True end.
Record tests_ok (t : KDocTestFile) : Prop := {
  to_nodup : NoDup (map t_name (tf_tests t));
  to_names : ∀ x, x ∈ tf_tests t → t_name x ∈ tf_test_names t;
  to_tests : Forall test_ok (tf_tests t);
}.
Definition fine (item : KdocItem) : Prop := stuff_ok (it_other_stuff item).

Lemma fine_reloads item : fine item → reloads (item_vars item).
Proof. intros H. exists item. split; [by apply from_dict_vars|done]. Qed.

Lemma stored_fine item : fine item → fine (stored_item item).
Proof.
  intros [Hd Hr]. unfold stored_item, fine, get_kdoc_item.
  assert (stuff_ok (ddel (it_other_stuff item) "source")) as H.
  { split; [by apply dkeys_nodup_ddel|]. rewrite Forall_forall in Hr |- *. intros k Hk.
    apply Hr. eapply elem_of_submseteq; [exact Hk|]. apply sublist_submseteq, dkeys_ddel_sub. }
  by destruct (it_declaration_start_line item).
Qed.

Section Symbols.
Context (date : string).

(** The test of one symbol. *)
Definition test_of (fname name : string) (source : pyval) (content : list string) (arg : KdocItem)
    (outputs : dict string) : test :=
  MkTest name (fname +:+ " line " +:+ int_str (it_declaration_start_line arg)) fname source
    (if smem "KdocItem" content then Some (item_vars arg) else None) outputs.

Lemma add_test_run fname source arg t : ∃ k styles r,
  let name := candidate (base_of (it_name arg) fname) k in
  (name ∉ tf_test_names t) ∧
  style_outputs date fname arg (tf_out_style t) [] = (styles, r) ∧
  add_test date fname source arg t
  = match r with
    | Ok outputs =>
        (MkTestFile (tf_test_file t) (tf_yaml_content t) (tf_test_names t ++ [name])
           (tf_tests t ++ [test_of fname name source (tf_yaml_content t) arg outputs]) styles, Ok tt)
    | Raise e =>
        (MkTestFile (tf_test_file t) (tf_yaml_content t) (tf_test_names t ++ [name])
           (tf_tests t) styles, Raise e)
    end.
Proof.
  destruct (fresh_name_found (tf_test_names t) (base_of (it_name arg) fname)) as (k & Hr & Hk & _).
  destruct (style_outputs date fname arg (tf_out_style t) []) as [styles r] eqn:Es.
  exists k, styles, r. split; [exact Hk|]. split; [done|].
  unfold add_test. run_ST. rewrite Hr. unfold upd_test_names, set_add.
  destruct (smem _ (tf_test_names t)) eqn:E; [by apply smem_iff in E|].
  cbn. rewrite Es. by destruct r.
Qed.

Lemma add_test_ok fname source arg t : fine arg → tests_ok t →
  tests_ok (fst (add_test date fname source arg t)).
Proof.
  intros Hf [Hd Hn Ht]. destruct (add_test_run fname source arg t) as (k & styles & r & Hk & _ & ->).
  destruct r as [outputs|e]; split; cbn [fst tf_tests tf_test_names].
  - rewrite map_app. apply NoDup_app. split; [done|]. split; [|apply NoDup_singleton].
    intros n Hin ->%list_elem_of_singleton. apply Hk.
    apply list_elem_of_fmap in Hin as (x & Hx & Hin). cbn [t_name test_of] in Hx. rewrite Hx. by apply Hn.
  - intros x. rewrite !elem_of_app, !list_elem_of_singleton. intros [Hx| ->]; [left; by apply Hn|by right].
  - apply Forall_app. split; [done|]. constructor; [|constructor]. unfold test_ok, test_of.
    cbn [t_kdoc_item]. destruct (smem "KdocItem" _); [by apply fine_reloads|done].
  - done.
  - intros x Hx. apply elem_of_app. left. by apply Hn.
  - done.
Qed.

Lemma add_test_content fname source arg t :
  tf_yaml_content (fst (add_test date fname source arg t)) = tf_yaml_content t.
Proof.
  destruct (add_test_run fname source arg t) as (k & styles & r & _ & _ & ->). by destruct r.
Qed.

Lemma yaml_symbols_ok fname symbols : ∀ t, Forall fine symbols → tests_ok t →
  let '(t', symbols', _) := yaml_output_symbols date fname symbols t in
  tests_ok t' ∧ Forall fine symbols'.
Proof.
  induction symbols as [|arg symbols IH]; intros t HF Ht; cbn [yaml_output_symbols]; [done|].
  inversion HF as [|? ? Ha HF']; subst.
  set (arg' := if smem "KdocItem" (tf_yaml_content t) then stored_item arg else arg).
  assert (fine arg') as Ha'.
  { unfold arg'. destruct (smem _ _); [by apply stored_fine|done]. }
  pose proof (add_test_ok fname (KdocItem_get arg "source" (VStr "")) arg' t Ha' Ht) as Ht1.
  destruct (add_test _ _ _ _ _) as [t1 [[]|e]]; cbn [fst] in Ht1.
  - specialize (IH t1 HF' Ht1). destruct (yaml_output_symbols date fname symbols t1) as [[t2 s2] r].
    destruct IH as [H2 H3]. split; [done|]. by constructor.
  - split; [done|]. by constructor.
Qed.

(** What a run that returns adds: a test for each symbol, in order. *)
Definition stored (content : list string) (arg : KdocItem) : KdocItem :=
  if smem "KdocItem" content then stored_item arg else arg.
Definition test_for (fname : string) (content : list string) (arg : KdocItem) (x : test) : Prop :=
  ∃ k outputs styles styles',
    x = test_of fname (candidate (base_of (it_name arg) fname) k)
          (KdocItem_get arg "source" (VStr "")) content (stored content arg) outputs ∧
    style_outputs date fname (stored content arg) styles [] = (styles', Ok outputs).

Lemma stored_name arg : it_name (stored_item arg) = it_name arg.
Proof. unfold stored_item, get_kdoc_item. by destruct (it_declaration_start_line arg). Qed.

Lemma yaml_symbols_tests fname symbols : ∀ t t' symbols' r,
  yaml_output_symbols date fname symbols t = (t', symbols', r) →
  (∃ added, tf_tests t' = tf_tests t ++ added ∧
    Forall2 (test_for fname (tf_yaml_content t)) (take (length added) symbols) added ∧
    (r = Ok tt → length added = length symbols ∧
                 symbols' = map (stored (tf_yaml_content t)) symbols)) ∧
  (tf_out_style t = [] → r = Ok tt).
Proof.
  induction symbols as [|arg symbols IH]; intros t t' symbols' r; cbn [yaml_output_symbols].
  { intros [= <- <- <-]. split; [|done]. exists []. by rewrite app_nil_r. }
  fold (stored (tf_yaml_content t) arg).
  destruct (add_test_run fname (KdocItem_get arg "source" (VStr "")) (stored (tf_yaml_content t) arg) t)
    as (k & styles & r0 & _ & Hs & ->).
  destruct r0 as [outputs|e].
  2: { intros [= <- <- <-]. split; [|intros H0; rewrite H0 in Hs; done].
       exists []. cbn. rewrite app_nil_r. done. }
  match goal with |- context [yaml_output_symbols date fname symbols ?t1] => set (t1' := t1) end.
  destruct (yaml_output_symbols date fname symbols t1') as [[t2 s2] r2] eqn:E. intros [= <- <- <-].
  destruct (IH t1' t2 s2 r2 E) as [(added & Ht & HF & Hr) H0]. split.
  - eexists (_ :: added). split; [|split].
    + rewrite Ht. unfold t1'. cbn [tf_tests]. by rewrite <- app_assoc.
    + cbn [length take]. constructor; [|exact HF]. exists k, outputs, (tf_out_style t), styles.
      split; [|exact Hs]. f_equal. unfold stored. destruct (smem _ _); [|done]. by rewrite stored_name.
    + intros H. destruct (Hr H) as [Hl ->]. cbn. by rewrite Hl.
  - intros He. apply H0. cbn. rewrite He in Hs. by injection Hs.
Qed.
End Symbols.

(** Storing an item again changes nothing: what was stored of it stays true
    when its file is output twice. *)
Lemma shift_zero d : shift_lines 0 d = d.
Proof. induction d as [|[k n] d IH]; [done|]. cbn. unfold shift_lines in IH. by rewrite IH, Z.add_0_r. Qed.
Lemma ddel_absent {V} (d : dict V) k : dmem d k = false → ddel d k = d.
Proof.
  unfold dmem. induction d as [|[k' v] d IH]; [done|]. cbn.
  destruct (k' =? k)%string; [done|]. intros H. by rewrite IH.
Qed.
Lemma stored_idempotent arg : fine arg → stored_item (stored_item arg) = stored_item arg.
Proof.
  intros [Hd _].
  assert (ddel (ddel (it_other_stuff arg) "source") "source" = ddel (it_other_stuff arg) "source") as H.
  { apply ddel_absent. unfold dmem. by rewrite dget_ddel_eq. }
  unfold stored_item, get_kdoc_item. destruct (it_declaration_start_line arg) as [|n] eqn:E.
  - cbn. rewrite E. cbn. unfold KdocItem_set_other_stuff. cbn. by rewrite H.
  - cbn -[shift_lines ddel Z.of_nat]. unfold KdocItem_set_other_stuff.
    cbn -[shift_lines ddel Z.of_nat]. by rewrite H, Z.sub_diag, !shift_zero.
Qed.

(** The distance of a section or a parameter from the declaration is kept. *)
Lemma stored_lines arg key ln : it_declaration_start_line arg ≠ 0 →
  dget (it_sections_start_lines arg) key = Some ln →
  it_declaration_start_line (stored_item arg) = 1 ∧
  dget (it_sections_start_lines (stored_item arg)) key
  = Some (1 + (ln - Z.of_nat (it_declaration_start_line arg)))%Z.
Proof.
  unfold stored_item, get_kdoc_item. destruct (it_declaration_start_line arg) as [|n]; [done|].
  intros _ Hk. cbn. split; [done|]. unfold shift_lines. revert Hk. generalize (it_sections_start_lines arg).
  intros d. induction d as [|[k v] d IH]; cbn; [done|].
  destruct (k =? key)%string; [intros [= ->]; f_equal; lia|exact IH].
Qed.

(** ** Properties *)

(** The name of a test is always found, within one try more than there are
    names: the first of the base name and the base name with a number that no
    test has yet. *)
Theorem test_name_found names base : ∃ k,
  fresh_name (S (length names)) names base 0 base = Ok (candidate base k) ∧
  (candidate base k ∉ names) ∧ (∀ j, j < k → candidate base j ∈ names).
Proof. exact (fresh_name_found names base). Qed.

(** The test of a symbol holds the source of the symbol, an item dictionary from
    which [from_dict] builds the item with its lines relative to the test and
    without the source, and the texts that item is output as. *)
Definition reloaded (date fname : string) (arg : KdocItem) (x : test) : Prop :=
  t_fname x = fname ∧ t_source x = KdocItem_get arg "source" (VStr "") ∧
  ∃ d styles styles', t_kdoc_item x = Some d ∧
    from_dict d = Some (Ok (stored_item arg)) ∧
    style_outputs date fname (stored_item arg) styles [] = (styles', Ok (t_outputs x)).

(** C37 Round trip of the items through a test file: the tests stored are those
    of the first symbols, in order, and each is loaded as the item it was made
    from, with lines relative to the test and without the source.  All the
    symbols are stored unless an output class raises, so always when only the
    items are asked for. *)
Theorem yaml_roundtrip date fname symbols t t' symbols' r :
  Forall fine symbols → "KdocItem" ∈ tf_yaml_content t →
  yaml_output_symbols date fname symbols t = (t', symbols', r) →
  (∃ added, tf_tests t' = tf_tests t ++ added ∧
    Forall2 (reloaded date fname) (take (length added) symbols) added ∧
    (r = Ok tt → length added = length symbols ∧ symbols' = map stored_item symbols)) ∧
  (tf_out_style t = [] → r = Ok tt).
Proof.
  intros HF Hc%smem_iff Hrun.
  assert (∀ x, stored (tf_yaml_content t) x = stored_item x) as Hst by (intros x; unfold stored; by rewrite Hc).
  destruct (yaml_symbols_tests date fname symbols t t' symbols' r Hrun) as [(added & Ht & H2 & Hr) H0].
  split; [|exact H0]. exists added. split; [exact Ht|]. split.
  - eapply Forall2_impl_in; [exact H2|]. intros arg x Ha _ (k & outputs & styles & styles' & -> & Hs).
    rewrite Hst in Hs. split; [done|]. split; [done|].
    exists (item_vars (stored_item arg)), styles, styles'. split.
    + unfold test_of. cbn [t_kdoc_item]. by rewrite Hc, Hst.
    + split; [|exact Hs]. apply from_dict_vars, stored_fine. rewrite Forall_forall in HF. apply HF.
      eapply elem_of_submseteq; [exact Ha|]. apply submseteq_take.
  - intros H. destruct (Hr H) as [Hl ->]. split; [exact Hl|]. apply map_ext. exact Hst.
Qed.

Definition an_item : KdocItem :=
  KdocItem_set_sections [("Description", "text")] [("Description", 12%Z)]
    (KdocItem_init "foo" "foo.c" "function" 10
       [("source", VStr "int foo(void);"); ("functiontype", VStr "int"); ("purpose", VStr "does it");
        ("typedef", VBool false); ("func_macro", VBool false)]).
Definition item_tests : KDocTestFile :=
  MkTestFile "out.yaml" ["KdocItem"; "rst"] [] [] [StRst (set_filter false false None None [] false false OutputFormat_init)].
Definition item_tests_run : KDocTestFile * list KdocItem * res unit :=
  yaml_output_symbols "now" "foo.c" [an_item; an_item] item_tests.

Lemma yaml_roundtrip_witness :
  (∃ added, tf_tests (fst (fst item_tests_run)) = [] ++ added ∧
    Forall2 (reloaded "now" "foo.c") (take (length added) [an_item; an_item]) added ∧
    (snd item_tests_run = Ok tt → length added = 2 ∧
       snd (fst item_tests_run) = map stored_item [an_item; an_item])) ∧
  snd item_tests_run = Ok tt ∧
  map t_name (tf_tests (fst (fst item_tests_run))) = ["foo"; "foo_001"].
Proof.
  split; [|split; vm_compute; reflexivity].
  refine (proj1 (yaml_roundtrip "now" "foo.c" [an_item; an_item] item_tests
    (fst (fst item_tests_run)) (snd (fst item_tests_run)) (snd item_tests_run) _ _ _)).
  - assert (fine an_item) as H by (apply stuff_okb_iff; vm_compute; reflexivity).
    constructor; [exact H|]. constructor; [exact H|constructor].
  - apply smem_iff. vm_compute. reflexivity.
  - unfold item_tests_run. by destruct (yaml_output_symbols _ _ _ _) as [[? ?] ?].
Defined.
