(* ===== verification/KdocFiles.v ===== *)
(** * KdocFiles: [GlobSourceFiles] and [KernelFiles] of [kdoc_files.py]

    The entry point: files are found, parsed once each, and output through the
    filters.  The file system is a parameter: [fs] gives the node at a path and
    [read] the decoded text of a file.  The output class is the parameter
    [out_symbols], its method [output_symbols].  With a test file the output
    goes there instead ([KdocYaml]); [date] is that of its man pages. *)

From S2P Require Import Prelude PyStr PyNum PyRe PyReSyntax PyReTheory KdocRe CLex Xforms.
From S2P Require Import KdocItem KdocEntry KdocParams KdocDump KdocProcess KdocOutput KdocYaml.

(** ** Finding files *)

(** A node of the file system: what [os.scandir] tells of an entry, a link to a
    file being a [File].  The node at a path that is looked up is what the links lead
    to, so a [DirLink] is always an entry. *)
Inductive node :=
| File
| Dir (entries : list (string * node))
| DirLink
| Other.

Definition c_extensions : list string := [".c"; ".h"].
Definition has_extension (extensions : list string) (name : string) : bool :=
  existsb (λ x, endswith x name) extensions.

(** [self._parse_dir(dirname)] *)
Fixpoint _parse_dir (extensions : list string) (dirname : string) (d : node) {struct d} : list string :=
  match d with
  | Dir entries =>
      flat_map (λ '(entry_name, entry),
        let name := path_join dirname entry_name in
        match entry with
        | Dir _ => _parse_dir extensions name entry
        | File => if has_extension extensions entry_name then [name] else []
        | DirLink | Other => []
        end) entries
  | _ => []
  end.

(** What the generator [parse_files] does, in order. *)
Inductive event := Yield (fname : string) | NotFound (fname : string).

Definition files_of (fs : string → option node) (extensions : list string) (srctree : option string)
    (fname : string) : list event :=
  let f := match srctree with
           | Some (String _ _ as t) => path_join t fname
           | _ => fname end in
  match fs f with
  | Some (Dir entries) => map Yield (_parse_dir extensions f (Dir entries))
  | Some File => [Yield f]
  | _ => [NotFound fname]
  end.
(** [self.parse_files(file_list, file_not_found_cb)] *)
Definition parse_files (fs : string → option node) (extensions : list string)
    (srctree : option string) (file_list : list string) : list event :=
  flat_map (files_of fs extensions srctree) file_list.

(** ** [KernelFiles] *)

Record KernelFiles := MkFiles {
  kf_config : config;
  kf_werror : bool;
  kf_xforms : dict (list (xsearch * string));
  kf_src_tree : option string;
  kf_out_style : OutputFormat;
  kf_errors : nat;
  kf_results : dict (list KdocItem);
  kf_files : list string;
  kf_export_files : list string;
  kf_export_table : dict (list string);
  kf_log : list logrec;
  kf_yielded : list (string * string);   (** what [msg] has yielded *)
  kf_test_file : option KDocTestFile;
  kf_written : list (string * dict (list test));   (** what it has written *)
}.

Definition upd_out_style (f : OutputFormat → OutputFormat) (k : KernelFiles) : KernelFiles :=
  MkFiles (kf_config k) (kf_werror k) (kf_xforms k) (kf_src_tree k) (f (kf_out_style k))
    (kf_errors k) (kf_results k) (kf_files k) (kf_export_files k) (kf_export_table k)
    (kf_log k) (kf_yielded k) (kf_test_file k) (kf_written k).
Definition upd_messages (log : list logrec) (errors : nat) (k : KernelFiles) : KernelFiles :=
  MkFiles (kf_config k) (kf_werror k) (kf_xforms k) (kf_src_tree k) (kf_out_style k)
    (kf_errors k + errors) (kf_results k) (kf_files k) (kf_export_files k) (kf_export_table k)
    (kf_log k ++ log) (kf_yielded k) (kf_test_file k) (kf_written k).
Definition upd_yielded (f : list (string * string) → list (string * string)) (k : KernelFiles)
    : KernelFiles :=
  MkFiles (kf_config k) (kf_werror k) (kf_xforms k) (kf_src_tree k) (kf_out_style k)
    (kf_errors k) (kf_results k) (kf_files k) (kf_export_files k) (kf_export_table k)
    (kf_log k) (f (kf_yielded k)) (kf_test_file k) (kf_written k).
Definition upd_results (f : dict (list KdocItem) → dict (list KdocItem)) (k : KernelFiles)
    : KernelFiles :=
  MkFiles (kf_config k) (kf_werror k) (kf_xforms k) (kf_src_tree k) (kf_out_style k)
    (kf_errors k) (f (kf_results k)) (kf_files k) (kf_export_files k) (kf_export_table k)
    (kf_log k) (kf_yielded k) (kf_test_file k) (kf_written k).
Definition upd_test_file (f : option KDocTestFile → option KDocTestFile) (k : KernelFiles)
    : KernelFiles :=
  MkFiles (kf_config k) (kf_werror k) (kf_xforms k) (kf_src_tree k) (kf_out_style k)
    (kf_errors k) (kf_results k) (kf_files k) (kf_export_files k) (kf_export_table k)
    (kf_log k) (kf_yielded k) (f (kf_test_file k)) (kf_written k).
Definition upd_written (f : list (string * dict (list test)) → list (string * dict (list test)))
    (k : KernelFiles) : KernelFiles :=
  MkFiles (kf_config k) (kf_werror k) (kf_xforms k) (kf_src_tree k) (kf_out_style k)
    (kf_errors k) (kf_results k) (kf_files k) (kf_export_files k) (kf_export_table k)
    (kf_log k) (kf_yielded k) (kf_test_file k) (f (kf_written k)).
(** The results of one file. *)
Definition add_results (fname : string) (export_table : list string) (entries : list KdocItem)
    (k : KernelFiles) : KernelFiles :=
  MkFiles (kf_config k) (kf_werror k) (kf_xforms k) (kf_src_tree k) (kf_out_style k)
    (kf_errors k) (dset (kf_results k) fname entries) (set_add (kf_files k) fname)
    (set_add (kf_export_files k) fname) (dset (kf_export_table k) fname export_table)
    (kf_log k) (kf_yielded k) (kf_test_file k) (kf_written k).

(** [self.error(msg)], and [self.config.log.warning(msg)], which is not
    counted. *)
Definition kf_error (msg : string) : ST KernelFiles unit := modify (upd_messages [LogError msg] 1).
Definition kf_log_warning (msg : string) : ST KernelFiles unit :=
  modify (upd_messages [LogWarning msg] 0).
(** [self.file_not_found_cb(fname)] *)
Definition file_not_found_cb (fname : string) : ST KernelFiles unit :=
  kf_error ("Cannot find file " +:+ fname).

(** [bool(int(s))], [None] for the [ValueError]. *)
Definition int_bool (s : string) : option bool := (λ n, negb (n =? 0)%Z) <$> py_int s.
Definition re_werror : pattern := compiled no_flags "(\s|^)-Werror(\s|$)/".
Definition given_str (o : option string) : bool :=
  match o with Some (String _ _) => true | _ => false end.

(** The object, once the test file is made. *)
Definition KernelFiles_with (verbose werror wreturn wshort_desc : bool)
    (xforms : dict (list (xsearch * string)))
    (kbuild_verbose kcflags kdoc_werror srctree : option string)
    (test_file : option KDocTestFile) : KernelFiles :=
  let verbose :=
    if verbose then true
    else match kbuild_verbose with
         | None => false
         | Some s => default false (int_bool s) end in
  let werror :=
    if werror then true
    else
      (match kcflags with
       | Some (String _ _ as f) => bool_decide (is_Some (re_search re_werror f))
       | _ => false end)
      || given_str kdoc_werror in
  MkFiles (Config wreturn wshort_desc verbose) werror xforms srctree OutputFormat_init
    0 [] [] [] [] [] [] test_file [].
(** [KernelFiles(...)]; the environment variables are arguments, and so is what
    the test file asks of the system. *)
Definition KernelFiles_init (verbose werror wreturn wshort_desc : bool)
    (xforms : dict (list (xsearch * string))) (yaml_file : option string)
    (yaml_content : list string)
    (kbuild_verbose kcflags kdoc_werror srctree : option string)
    (has_yaml : bool) (home : string → option string) (isdir : string → bool) : res KernelFiles :=
  let object := KernelFiles_with verbose werror wreturn wshort_desc xforms
                  kbuild_verbose kcflags kdoc_werror srctree in
  match yaml_file with
  | Some (String _ _ as f) =>
      match KDocTestFile_init has_yaml home isdir f yaml_content with
      | Ok t => Ok (object (Some t))
      | Raise e => Raise e
      end
  | _ => Ok (object None)
  end.

Section Files.
Context (fs : string → option node) (read : string → option string).
Context (out_symbols : string → list KdocItem → Out string).
Context (date : string).

(** [self.parse_file(fname)]: what the parser logs and counts goes to the
    logger and the counter of this object.  The interpreter is not an old one,
    so the parser does not warn about it. *)
Definition parse_file (fname : string) : ST KernelFiles unit :=
  files ← gets kf_files;
  if smem fname files then mret tt
  else
    k ← get;
    let store_src := bool_decide (is_Some (kf_test_file k)) in
    let doc := fst (KernelDoc_init (kf_config k) fname (kf_xforms k) store_src false false) in
    let '(doc, r) := parse_kdoc (read fname) doc in
    modify (upd_messages (kd_log doc) (kd_errors doc)) ;;
    export_table ← lift_res r;
    modify (add_results fname export_table (kd_entries doc)).

(** [self.process_export_file(fname)]: the call of [KernelDoc] lacks the
    argument [xforms]. *)
Definition process_export_file (fname : string) : ST KernelFiles unit :=
  done ← gets kf_export_files;
  if smem fname done then mret tt
  else raise (TypeError "KernelDoc.__init__() missing 1 required positional argument: 'xforms'").

Definition consume (body : string → ST KernelFiles unit) (e : event) : ST KernelFiles unit :=
  match e with Yield f => body f | NotFound f => file_not_found_cb f end.

(** [self.parse(file_list, export_file)] *)
Definition parse (file_list export_file : list string) : ST KernelFiles unit :=
  srctree ← gets kf_src_tree;
  for_each (parse_files fs c_extensions srctree file_list) (consume parse_file) ;;
  for_each (parse_files fs c_extensions srctree export_file) (consume process_export_file).

(** [function_table |= self.export_table[f]] for the files of [export_file]. *)
Definition add_exports (export_file : list string) : ST KernelFiles (list string) :=
  srctree ← gets kf_src_tree;
  for_acc (parse_files fs c_extensions srctree export_file) [] (λ table e,
    match e with
    | NotFound f => file_not_found_cb f ;; mret table
    | Yield f =>
        exports ← gets kf_export_table;
        t ← lift_res (dict_at exports f);
        mret (fold_left set_add t table)
    end).

(** A method of [self.out_style]. *)
Definition on_style {A} (m : Out A) : ST KernelFiles A := λ k,
  let '(o, r) := m (kf_out_style k) in (upd_out_style (λ _, o) k, r).

Record msg_args := MsgArgs {
  a_enable_lineno : bool;
  a_export : bool;
  a_internal : bool;
  a_symbol : option (list string);
  a_nosymbol : option (list string);
  a_no_doc_sections : bool;
}.

(** [self.test_file.output_symbols(fname, symbols)]: the list and the items are
    those of [self.results]. *)
Definition store_tests (fname : string) (symbols : list KdocItem) (t : KDocTestFile)
    : ST KernelFiles unit := λ k,
  let '(t, symbols, r) := yaml_output_symbols date fname symbols t in
  (upd_results (λ d, dset d fname symbols) (upd_test_file (λ _, Some t) k), r).

(** The end of the loop body of [msg]: the symbols of a file are output, or
    stored in the test file. *)
Definition msg_symbols (a : msg_args) (fname : string) (symbols : list KdocItem)
    (function_table : list string) : ST KernelFiles unit :=
  test_file ← gets kf_test_file;
  match test_file with
  | Some t =>
      store_tests fname symbols
        (yaml_set_filter (a_export a) (a_internal a) (a_symbol a) (a_nosymbol a)
           function_table (a_enable_lineno a) (a_no_doc_sections a) t)
  | None =>
      on_style (modify (set_filter (a_export a) (a_internal a) (a_symbol a) (a_nosymbol a)
                          function_table (a_enable_lineno a) (a_no_doc_sections a))) ;;
      text ← on_style (out_symbols fname symbols);
      when (negb (text =? "")%string) (modify (upd_yielded (λ l, l ++ [(fname, text)])))
  end.

(** The loop body of [msg].  The local variable [export_file] outlives it. *)
Definition msg_file (a : msg_args) (export_file : list string) (fname : string)
    : ST KernelFiles (list string) :=
  let export_file :=
    if a_internal a || a_export a
    then match export_file with [] => [fname] | _ => export_file end
    else export_file in
  function_table ← (if a_internal a || a_export a then add_exports export_file else mret []);
  let function_table :=
    if given (a_symbol a) then fold_left set_add (default [] (a_symbol a)) function_table
    else function_table in
  results ← gets kf_results;
  (match dget results fname with
   | None => kf_log_warning ("No kernel-doc for file " +:+ fname)
   | Some symbols => msg_symbols a fname symbols function_table
   end) ;;
  mret export_file.

(** [self.msg(...)], consumed to the end. *)
Definition msg (a : msg_args) (filenames export_file : list string) : ST KernelFiles unit :=
  results ← gets kf_results;
  let filenames := match filenames with [] => sort_by id (dkeys results) | _ => filenames end in
  for_acc filenames export_file (msg_file a) ;;
  test_file ← gets kf_test_file;
  match test_file with
  | Some t => modify (upd_written (λ l, l ++ [yaml_write t]))
  | None => mret tt
  end.

(** [self.out_msg(fname, name, arg)], [msg_of] being the method [msg]. *)
Definition out_msg (msg_of : string → string → KdocItem → Out (option string))
    (fname name : string) (arg : KdocItem) : ST KernelFiles (option string) :=
  on_style (msg_of fname name arg).
End Files.
