(* ===== verification/KdocFilesSpec.v ===== *)
(** * KdocFilesSpec: what [KernelFiles] promises *)

From S2P Require Import Prelude PyStr PyRe PyReSyntax PyReTheory KdocRe CLex Xforms.
From S2P Require Import KdocItem KdocEntry KdocParams KdocDump KdocProcess KdocMachine.
From S2P Require Import KdocOutput KdocOutputTheory KdocOutputSpec KdocYaml KdocYamlSpec KdocFiles.

(** ** Directories *)

(** The C files below a directory. *)
Inductive below_dir (extensions : list string) : string → node → string → Prop :=
| file_here dirname entries n :
    (n, File) ∈ entries → has_extension extensions n = true →
    below_dir extensions dirname (Dir entries) (path_join dirname n)
| file_below dirname entries n sub p :
    (n, Dir sub) ∈ entries → below_dir extensions (path_join dirname n) (Dir sub) p →
    below_dir extensions dirname (Dir entries) p.

(** Induction on a tree, with the hypothesis for every entry. *)
Section NodeInd.
Context (P : node → Prop).
Context (HF : P File) (HL : P DirLink) (HO : P Other).
Context (HD : ∀ entries, Forall (λ e, P (snd e)) entries → P (Dir entries)).
Fixpoint node_tree_ind (d : node) : P d :=
  match d with
  | File => HF
  | DirLink => HL
  | Other => HO
  | Dir entries =>
      HD entries
        ((fix go (l : list (string * node)) : Forall (λ e, P (snd e)) l :=
            match l with
            | [] => @List.Forall_nil _ _
            | e :: l' => @List.Forall_cons _ _ e l' (node_tree_ind (snd e)) (go l')
            end) entries)
  end.
End NodeInd.

Lemma parse_dir_iff extensions d : ∀ dirname p,
  p ∈ _parse_dir extensions dirname d ↔ below_dir extensions dirname d p.
Proof.
  induction d as [| | |entries IH] using node_tree_ind; intros dirname p.
  - cbn. rewrite elem_of_nil. split; [done|]. intros H. inversion H.
  - cbn. rewrite elem_of_nil. split; [done|]. intros H. inversion H.
  - cbn. rewrite elem_of_nil. split; [done|]. intros H. inversion H.
  - cbn [_parse_dir]. rewrite list_elem_of_In, in_flat_map. rewrite Forall_forall in IH. split.
    + intros ([n e] & He%list_elem_of_In & Hp). destruct e as [|sub| |]; [| |done|done].
      * destruct (has_extension extensions n) eqn:Ee; [|done]. destruct Hp as [<-|[]].
        by apply file_here.
      * eapply file_below; [exact He|]. apply (IH _ He). by apply list_elem_of_In.
    + intros H. inversion H as [? ? n Hn He|? ? n sub ? Hn Hp]; subst.
      * exists (n, File). split; [by apply list_elem_of_In|]. rewrite He. by left.
      * exists (n, Dir sub). split; [by apply list_elem_of_In|].
        apply list_elem_of_In. by apply (IH _ Hn).
Qed.

(** ** The cache of results *)

Section Files.
Context (fs : string → option node) (read : string → option string).

(** The parser on one file. *)
Definition fresh_parse (cfg : config) (xf : dict (list (xsearch * string))) (store_src : bool)
    (fname : string) : KernelDoc * res (list string) :=
  parse_kdoc (read fname) (fst (KernelDoc_init cfg fname xf store_src false false)).

Record kf_ok (cfg : config) (xf : dict (list (xsearch * string))) (store_src : bool)
    (k : KernelFiles) : Prop := {
  ko_config : kf_config k = cfg;
  ko_xforms : kf_xforms k = xf;
  ko_store_src : bool_decide (is_Some (kf_test_file k)) = store_src;
  ko_nodup : NoDup (kf_files k);
  ko_results : ∀ f, f ∈ kf_files k ↔ dmem (kf_results k) f = true;
  ko_sub : ∀ f, f ∈ kf_files k → f ∈ kf_export_files k;
  ko_exports : ∀ f, f ∈ kf_export_files k ↔ dmem (kf_export_table k) f = true;
  ko_fresh : ∀ f items, dget (kf_results k) f = Some items →
    Forall (λ it, item_ok it = true) items ∧
    ∃ doc exports, fresh_parse cfg xf store_src f = (doc, Ok exports) ∧ kd_entries doc = items;
}.

Context (cfg : config) (xf : dict (list (xsearch * string))) (store_src : bool).

Lemma dmem_dset_iff {V} (d : dict V) k k' v : dmem (dset d k v) k' = true ↔ k' = k ∨ dmem d k' = true.
Proof.
  unfold dmem. destruct (decide (k = k')) as [->|Hne].
  - rewrite dget_dset_eq. tauto.
  - rewrite dget_dset_ne by done. split; [by right|]. by intros [->|].
Qed.

Lemma kf_ok_messages log n k : kf_ok cfg xf store_src k → kf_ok cfg xf store_src (upd_messages log n k).
Proof. by intros []. Qed.

Lemma fresh_items fname doc exports :
  fresh_parse cfg xf store_src fname = (doc, Ok exports) → Forall (λ it, item_ok it = true) (kd_entries doc).
Proof.
  intros H. unfold fresh_parse in H.
  set (d := fst (KernelDoc_init cfg fname xf store_src false false)) in H.
  pose proof (parse_kdoc_ok xf (read fname) d) as HK. rewrite H in HK.
  destruct HK as [[_ HF] _]; [|exact HF]. split; [done|constructor].
Qed.

Lemma add_results_ok fname doc exports k :
  fresh_parse cfg xf store_src fname = (doc, Ok exports) → fname ∉ kf_files k → kf_ok cfg xf store_src k →
  kf_ok cfg xf store_src (add_results fname exports (kd_entries doc) k).
Proof.
  intros Hp Hn [Hc Hx Ht Hd Hr Hs He Hf]. split; [done|done|exact Ht|cbn..].
  - by apply set_add_nodup.
  - intros f. rewrite set_add_in, dmem_dset_iff, Hr. done.
  - intros f. rewrite !set_add_in. intros [->|H]; [by left|right; by apply Hs].
  - intros f. rewrite set_add_in, dmem_dset_iff, He. done.
  - intros f items. destruct (decide (fname = f)) as [<-|Hne].
    + rewrite dget_dset_eq. intros [= <-]. split; [by eapply fresh_items|]. by exists doc, exports.
    + rewrite dget_dset_ne by done. apply Hf.
Qed.

Lemma parse_file_unfold fname k : kf_ok cfg xf store_src k → fname ∉ kf_files k →
  parse_file read fname k
  = match fresh_parse cfg xf store_src fname with
    | (doc, Ok exports) =>
        (add_results fname exports (kd_entries doc) (upd_messages (kd_log doc) (kd_errors doc) k), Ok tt)
    | (doc, Raise x) => (upd_messages (kd_log doc) (kd_errors doc) k, Raise x)
    end.
Proof.
  intros [Hc Hx Ht _ _ _ _ _] Hn. unfold parse_file. run_ST.
  destruct (smem fname (kf_files k)) eqn:Es; [by apply smem_iff in Es|].
  rewrite Hc, Hx, Ht. unfold fresh_parse. destruct (parse_kdoc _ _) as [doc [exports|x]]; done.
Qed.

Lemma parse_file_keeps fname : keeps (kf_ok cfg xf store_src) (parse_file read fname).
Proof.
  intros k Hk. destruct (decide (fname ∈ kf_files k)) as [Hin|Hn].
  - unfold parse_file. run_ST. rewrite (proj2 (smem_iff _ _) Hin). done.
  - rewrite parse_file_unfold by done. destruct (fresh_parse cfg xf store_src fname) as [doc [exports|x]] eqn:E;
      cbn [fst]; [|by apply kf_ok_messages].
    apply add_results_ok; [done|done|by apply kf_ok_messages].
Qed.

Lemma process_export_keeps fname : keeps (kf_ok cfg xf store_src) (process_export_file fname).
Proof. intros k Hk. unfold process_export_file. run_ST. by destruct (smem _ _). Qed.

Lemma consume_keeps body e :
  (∀ f, keeps (kf_ok cfg xf store_src) (body f)) → keeps (kf_ok cfg xf store_src) (consume body e).
Proof.
  intros H. destruct e; [apply H|]. apply keeps_modify. intros k. apply kf_ok_messages.
Qed.

Lemma parse_keeps file_list export_file : keeps (kf_ok cfg xf store_src) (parse fs read file_list export_file).
Proof.
  unfold parse. apply keeps_bind; [apply keeps_gets|]. intros srctree.
  apply keeps_bind; [|intros _]; apply keeps_for_each; intros e; apply consume_keeps;
    [apply parse_file_keeps | apply process_export_keeps].
Qed.

(** *** Parsing again *)

Lemma parse_file_adds fname k k' : kf_ok cfg xf store_src k → parse_file read fname k = (k', Ok tt) →
  ∀ f, f ∈ kf_files k' ↔ f = fname ∨ f ∈ kf_files k.
Proof.
  intros Hk. destruct (decide (fname ∈ kf_files k)) as [Hin|Hn].
  - unfold parse_file. run_ST. rewrite (proj2 (smem_iff _ _) Hin). intros [= <-] f.
    split; [by right|]. by intros [->|].
  - rewrite parse_file_unfold by done. destruct (fresh_parse cfg xf store_src fname) as [doc [exports|x]]; [|done].
    intros [= <-] f. cbn. apply set_add_in.
Qed.

Lemma parse_list_files fnames : ∀ k k', kf_ok cfg xf store_src k →
  for_each (map Yield fnames) (consume (parse_file read)) k = (k', Ok tt) →
  (∀ f, f ∈ kf_files k' ↔ f ∈ fnames ∨ f ∈ kf_files k) ∧ kf_src_tree k' = kf_src_tree k.
Proof.
  induction fnames as [|f0 fnames IH]; intros k k' Hk; cbn [map for_each].
  - intros [= <-]. split; [|done]. intros f. rewrite elem_of_nil. tauto.
  - unfold mbind, ST_bind. cbn [consume]. destruct (parse_file read f0 k) as [k1 [[]|x]] eqn:E; [|done].
    intros H. assert (kf_ok cfg xf store_src k1) as Hk1.
    { pose proof (parse_file_keeps f0 k Hk) as H1. by rewrite E in H1. }
    assert (kf_src_tree k1 = kf_src_tree k) as Hsrc.
    { revert E. unfold parse_file. run_ST. destruct (smem f0 (kf_files k)); [by intros [= <-]|].
      destruct (parse_kdoc _ _) as [doc [exports|x]]; [|done]. by intros [= <-]. }
    destruct (IH k1 k' Hk1 H) as [H2 H3]. split; [|by rewrite H3].
    intros f. rewrite H2, elem_of_cons, (parse_file_adds f0 k k1 Hk E). tauto.
Qed.

Lemma parse_list_again fnames k : (∀ f, f ∈ fnames → f ∈ kf_files k) →
  for_each (map Yield fnames) (consume (parse_file read)) k = (k, Ok tt).
Proof.
  induction fnames as [|f0 fnames IH]; intros H; cbn [map for_each]; [done|].
  unfold mbind, ST_bind. cbn [consume]. unfold parse_file at 1. run_ST.
  rewrite (proj2 (smem_iff _ _) (H f0 ltac:(by left))). apply IH. intros f Hf. apply H. by right.
Qed.
End Files.

(** ** Test files *)

(** What [write] has written: tests with distinct names, whose items load. *)
Definition written_ok (w : string * dict (list test)) : Prop :=
  ∃ tests, snd w = [("tests", tests)] ∧ NoDup (map t_name tests) ∧ Forall test_ok tests.
Record stores (k : KernelFiles) : Prop := {
  st_results : ∀ f items, dget (kf_results k) f = Some items → Forall fine items;
  st_tests : ∀ t, kf_test_file k = Some t → tests_ok t;
  st_written : Forall written_ok (kf_written k);
}.

Section Stores.
Context (fs : string → option node) (read : string → option string).
Context (out_symbols : string → list KdocItem → Out string) (date : string).

Lemma stores_results k fname items :
  stores k → Forall fine items → stores (upd_results (λ d, dset d fname items) k).
Proof.
  intros [Hr Ht Hw] HF. split; [cbn|done|done]. intros f its.
  destruct (decide (fname = f)) as [<-|Hne].
  - rewrite dget_dset_eq. by intros [= <-].
  - rewrite dget_dset_ne by done. apply Hr.
Qed.

Lemma parse_file_stores fname : keeps stores (parse_file read fname).
Proof.
  intros k Hk. unfold parse_file. run_ST. destruct (smem fname (kf_files k)); [done|].
  set (st := bool_decide _).
  destruct (parse_kdoc _ _) as [doc [exports|x]] eqn:E; cbn [fst]; [|by destruct Hk].
  assert (Forall fine (kd_entries doc)) as HF.
  { pose proof (fresh_items read (kf_config k) (kf_xforms k) st fname doc exports E) as HF.
    eapply Forall_impl; [exact HF|]. intros it. apply item_ok_stuff. }
  destruct (stores_results k fname (kd_entries doc) Hk HF) as [Hr Ht Hw]. by split.
Qed.

Lemma messages_stores log n : keeps stores (modify (upd_messages log n)).
Proof. apply keeps_modify. by intros k []. Qed.
Lemma not_found_stores fname : keeps stores (file_not_found_cb fname).
Proof. apply messages_stores. Qed.

Lemma parse_stores file_list export_file : keeps stores (parse fs read file_list export_file).
Proof.
  assert (∀ body e, (∀ f, keeps stores (body f)) → keeps stores (consume body e)) as Hc.
  { intros body [f|f] H; [apply H|apply not_found_stores]. }
  unfold parse. apply keeps_bind; [apply keeps_gets|]. intros srctree.
  apply keeps_bind; [|intros _]; apply keeps_for_each; intros e; apply Hc; [apply parse_file_stores|].
  intros f k Hk. unfold process_export_file. run_ST. by destruct (smem _ _).
Qed.

Lemma add_exports_stores export_file : keeps stores (add_exports fs export_file).
Proof.
  unfold add_exports. apply keeps_bind; [apply keeps_gets|]. intros srctree.
  apply keeps_for_acc. intros table [f|f].
  - apply keeps_bind; [apply keeps_gets|]. intros exports. apply keeps_bind; [apply keeps_lift|].
    intros t. apply keeps_ret.
  - apply keeps_bind; [apply not_found_stores|]. intros _. apply keeps_ret.
Qed.

Lemma on_style_stores {A} (m : Out A) : keeps stores (on_style m).
Proof. intros k []. unfold on_style. destruct (m (kf_out_style k)). by split. Qed.

Lemma store_tests_stores fname symbols t k :
  stores k → Forall fine symbols → tests_ok t → stores (fst (store_tests date fname symbols t k)).
Proof.
  intros Hk HF Ht. unfold store_tests. pose proof (yaml_symbols_ok date fname symbols t HF Ht) as H.
  destruct (yaml_output_symbols date fname symbols t) as [[t' s'] r]. destruct H as [Ht' HF'].
  apply stores_results; [|done]. destruct Hk as [Hr Hk Hw]. split; [done| |done].
  cbn. by intros t0 [= <-].
Qed.

Lemma msg_symbols_stores a fname symbols table k :
  stores k → Forall fine symbols → stores (fst (msg_symbols out_symbols date a fname symbols table k)).
Proof.
  intros Hk HF. unfold msg_symbols, mbind at 1, ST_bind at 1, gets.
  destruct (kf_test_file k) as [t|] eqn:Et.
  - apply store_tests_stores; [done|done|]. destruct (st_tests k Hk t Et) as [Hd Hn Ht]. by split.
  - revert k Hk Et. intros k Hk _. revert k Hk. change (keeps stores
      (on_style (modify (set_filter (a_export a) (a_internal a) (a_symbol a) (a_nosymbol a)
                          table (a_enable_lineno a) (a_no_doc_sections a))) ;;
       text ← on_style (out_symbols fname symbols);
       when (negb (text =? "")%string) (modify (upd_yielded (λ l, l ++ [(fname, text)]))))).
    apply keeps_bind; [apply on_style_stores|]. intros _.
    apply keeps_bind; [apply on_style_stores|]. intros text. apply keeps_when, keeps_modify. by intros k [].
Qed.

Lemma msg_file_stores a export_file fname :
  keeps stores (msg_file fs out_symbols date a export_file fname).
Proof.
  unfold msg_file. cbv zeta. apply keeps_bind.
  { destruct (_ || _); [apply add_exports_stores|apply keeps_ret]. }
  intros table k Hk. unfold mbind at 1, ST_bind at 1, gets.
  destruct (dget (kf_results k) fname) as [symbols|] eqn:E.
  - pose proof (msg_symbols_stores a fname symbols
      (if given (a_symbol a) then fold_left set_add (default [] (a_symbol a)) table else table)
      k Hk (st_results k Hk _ _ E)) as H.
    unfold mbind, ST_bind. by destruct (msg_symbols _ _ _ _ _ _ k) as [k' [[]|x]].
  - revert k Hk E. intros k Hk _. revert k Hk.
    apply keeps_bind; [apply messages_stores|]. intros _. apply keeps_ret.
Qed.

Lemma msg_stores a filenames export_file :
  keeps stores (msg fs out_symbols date a filenames export_file).
Proof.
  unfold msg. apply keeps_bind; [apply keeps_gets|]. intros results. cbv zeta.
  apply keeps_bind; [apply keeps_for_acc; intros; apply msg_file_stores|]. intros _ k Hk.
  unfold mbind, ST_bind, gets. destruct (kf_test_file k) as [t|] eqn:E; [|done].
  destruct Hk as [Hr Ht Hw]. split; [done|done|]. cbn. apply Forall_app. split; [done|].
  constructor; [|constructor]. destruct (Ht t E) as [Hd _ HF]. by exists (tf_tests t).
Qed.

(** The states an object goes through: made, then used by any calls, each to its
    end or to the exception it raises. *)
Inductive used : KernelFiles → Prop :=
| used_init verbose werror wreturn wshort_desc xforms yaml_file yaml_content
    kbuild_verbose kcflags kdoc_werror srctree has_yaml home isdir k :
    KernelFiles_init verbose werror wreturn wshort_desc xforms yaml_file yaml_content
      kbuild_verbose kcflags kdoc_werror srctree has_yaml home isdir = Ok k → used k
| used_parse k file_list export_file :
    used k → used (fst (parse fs read file_list export_file k))
| used_msg k a filenames export_file :
    used k → used (fst (msg fs out_symbols date a filenames export_file k)).

Lemma used_stores k : used k → stores k.
Proof.
  induction 1 as [v w wr ws xf [[|c f]|] content kb kc kw src has home isdir k H
                 |k fl ef _ IH|k a fl ef _ IH].
  - injection H as <-. split; cbn; [done|done|constructor].
  - revert H. cbn -[KDocTestFile_init]. destruct (KDocTestFile_init _ _ _ _ _) as [t|e] eqn:Et; [|done].
    intros [= <-]. split; cbn; [done| |constructor]. intros t0 [= <-]. revert Et.
    unfold KDocTestFile_init. destruct (negb has); [done|]. cbv zeta. destruct (_ && _); [done|].
    intros [= <-]. split; cbn; [constructor|by intros x Hx%elem_of_nil|constructor].
  - injection H as <-. split; cbn; [done|done|constructor].
  - by apply parse_stores.
  - by apply msg_stores.
Qed.
End Stores.

(** ** Properties *)

(** [_parse_dir] yields exactly the files below a directory, at any depth,
    whose name has one of the extensions. *)
Theorem parse_dir_spec extensions dirname d p :
  p ∈ _parse_dir extensions dirname d ↔ below_dir extensions dirname d p.
Proof. exact (parse_dir_iff extensions d dirname p). Qed.

(** C15 Parsing any lists of files, even when it ends with an exception, keeps
    the object coherent: the files with results are those recorded as parsed,
    each once; those recorded for exports are those with an export table; and
    the results of each file are the items, all well formed, that a fresh
    parser gives on its text. *)
Theorem parse_coherent fs read cfg xf store_src k file_list export_file :
  kf_ok read cfg xf store_src k →
  kf_ok read cfg xf store_src (fst (parse fs read file_list export_file k)).
Proof. exact (parse_keeps fs read cfg xf store_src file_list export_file k). Qed.

(** Nothing is parsed twice: after a list of existing files has been parsed,
    parsing it again changes nothing. *)
Theorem parse_cached fs read cfg xf store_src k k' file_list fnames :
  kf_ok read cfg xf store_src k →
  parse_files fs c_extensions (kf_src_tree k) file_list = map Yield fnames →
  parse fs read file_list [] k = (k', Ok tt) →
  parse fs read file_list [] k' = (k', Ok tt).
Proof.
  intros Hk He. unfold parse, mbind, ST_bind, gets. rewrite He.
  destruct (for_each (map Yield fnames) (consume (parse_file read)) k) as [k1 [[]|x]] eqn:E; [|done].
  cbn [parse_files flat_map for_each]. intros [= <-].
  destruct (parse_list_files fs read cfg xf store_src fnames k k1 Hk E) as [H1 H2].
  rewrite H2, He, parse_list_again; [done|]. intros f Hf. apply H1. by left.
Qed.

(** C23 Whatever calls are made of the object, and however they end, the test
    files it has written are well formed: the names of the tests are distinct,
    and each item stored is loaded by [from_dict], to an item with the same
    dictionary. *)
Theorem test_files_load fs read out_symbols date k w :
  used fs read out_symbols date k → w ∈ kf_written k →
  ∃ tests, snd w = [("tests", tests)] ∧ NoDup (map t_name tests) ∧
    ∀ x d, x ∈ tests → t_kdoc_item x = Some d →
      ∃ item, from_dict d = Some (Ok item) ∧ item_vars item = d.
Proof.
  intros Hu Hw. pose proof (st_written k (used_stores _ _ _ _ k Hu)) as HF.
  rewrite Forall_forall in HF. destruct (HF w Hw) as (tests & Hd & Hn & Ht).
  exists tests. split; [done|]. split; [done|]. intros x d Hx E.
  rewrite Forall_forall in Ht. specialize (Ht x Hx). unfold test_ok in Ht. by rewrite E in Ht.
Qed.

(** *** Exported symbols *)

Definition foo_c : string :=
  join nl ["/**"; " * foo - do it"; " */"; "void foo(void)"; "{"; "}"; "EXPORT_SYMBOL(foo);"; ""].
Definition bar_c : string :=
  join nl ["/**"; " * bar - do that"; " */"; "void bar(void)"; "{"; "}"; "EXPORT_SYMBOL(bar);"; ""].
Definition two_files (path : string) : option node :=
  if smem path ["bar.c"; "foo.c"] then Some File else None.
Definition two_texts (path : string) : option string :=
  if (path =? "foo.c")%string then Some foo_c
  else if (path =? "bar.c")%string then Some bar_c else None.
Definition new_files : KernelFiles :=
  KernelFiles_with false false false false xforms None None None None None.
Definition parsed_files : KernelFiles :=
  fst (parse two_files two_texts ["foo.c"; "bar.c"] [] new_files).
Definition rest_symbols (fname : string) (items : list KdocItem) : Out string :=
  output_symbols RestFormat.cls fname items.
(** No man page is made here. *)
Definition no_date : string := "".
Definition exported_of (filenames : list string) : list string :=
  map fst (kf_yielded (fst (msg two_files rest_symbols no_date
    (MsgArgs false true false None None false) filenames [] parsed_files))).

(** [msg] with [export] and without [export_file]: the variable keeps the
    name of the first file, so every later file is filtered with the exported
    symbols of the first.  Each of two files that export their documented
    function is output when it comes first, and is left out when it comes
    second. *)
Theorem msg_exports_of_first_file :
  exported_of ["foo.c"; "bar.c"] = ["foo.c"] ∧ exported_of ["bar.c"; "foo.c"] = ["bar.c"] ∧
  ∀ fs out_symbols date a export_file fname k k' r,
    msg_file fs out_symbols date a export_file fname k = (k', Ok r) →
    r = (if a_internal a || a_export a
         then match export_file with [] => [fname] | _ => export_file end else export_file).
Proof.
  split; [vm_compute; reflexivity|]. split; [vm_compute; reflexivity|].
  intros fs out_symbols date a export_file fname k k' r. unfold msg_file. cbv zeta.
  set (ef := if a_internal a || a_export a then _ else _). generalize ef. clear ef. intros ef.
  unfold mbind, ST_bind.
  destruct ((if a_internal a || a_export a then add_exports fs ef else mret []) k) as [k1 [t|x]]; [|done].
  unfold gets. cbv beta iota.
  match goal with |- context [ let (s', r0) := ?m k1 in _ ] => destruct (m k1) as [k2 [[]|x]] end; [|done].
  by intros [= _ <-].
Qed.

(** A file that is only wanted for its exported symbols cannot be read: the
    constructor of the parser is called without one of its arguments, which
    raises [TypeError]. *)
Theorem process_export_raises fs read srctree fname k :
  kf_src_tree k = srctree → parse_files fs c_extensions srctree [fname] = [Yield fname] →
  fname ∉ kf_export_files k →
  ∃ msg, parse fs read [] [fname] k = (k, Raise (TypeError msg)).
Proof.
  intros Hs He Hn. eexists. unfold parse. run_ST. rewrite Hs, He.
  change (parse_files fs c_extensions srctree []) with (@nil event). cbn [for_each consume]. unfold process_export_file. run_ST.
  destruct (smem fname (kf_export_files k)) eqn:E; [by apply smem_iff in E|]. done.
Qed.

(** *** Witnesses *)

Lemma new_files_ok : kf_ok two_texts (Config false false false) xforms false new_files.
Proof.
  split; cbn; try done.
  - constructor.
  - intros f. rewrite elem_of_nil. done.
  - intros f. rewrite elem_of_nil. done.
Qed.

Lemma parse_coherent_witness :
  kf_ok two_texts (Config false false false) xforms false parsed_files ∧
  kf_files parsed_files = ["foo.c"; "bar.c"].
Proof.
  split; [|vm_compute; reflexivity].
  exact (parse_coherent two_files two_texts _ _ _ new_files ["foo.c"; "bar.c"] [] new_files_ok).
Defined.

Lemma parse_cached_witness :
  parse two_files two_texts ["foo.c"; "bar.c"] [] parsed_files = (parsed_files, Ok tt).
Proof.
  apply (parse_cached two_files two_texts (Config false false false) xforms false new_files parsed_files
    ["foo.c"; "bar.c"] ["foo.c"; "bar.c"] new_files_ok); vm_compute; reflexivity.
Defined.

Lemma process_export_raises_witness :
  ∃ msg, parse two_files two_texts [] ["foo.c"] new_files = (new_files, Raise (TypeError msg)).
Proof.
  apply (process_export_raises two_files two_texts None "foo.c" new_files);
    [reflexivity | vm_compute; reflexivity | apply not_elem_of_nil].
Defined.

(** Both files, stored in one test file. *)
Definition yaml_files : KernelFiles :=
  match KernelFiles_init false false false false xforms (Some "~/out.yaml") ["KdocItem"]
          None None None None true (λ _, Some "/home/me") (λ _, true) with
  | Ok k => k
  | Raise _ => new_files
  end.
Definition no_filter : msg_args := MsgArgs false false false None None false.
Definition yaml_stored : KernelFiles :=
  fst (msg two_files rest_symbols no_date no_filter [] []
    (fst (parse two_files two_texts ["foo.c"; "bar.c"] [] yaml_files))).
Definition yaml_output : string * dict (list test) :=
  hd ("", []) (kf_written yaml_stored).

Lemma test_files_load_witness :
  fst yaml_output = "/home/me/out.yaml" ∧
  map (map t_description ∘ snd) (snd yaml_output) = [["bar.c line 1"; "foo.c line 1"]] ∧
  ∃ tests, snd yaml_output = [("tests", tests)] ∧ NoDup (map t_name tests) ∧
    ∀ x d, x ∈ tests → t_kdoc_item x = Some d →
      ∃ item, from_dict d = Some (Ok item) ∧ item_vars item = d.
Proof.
  split; [vm_compute; reflexivity|]. split; [vm_compute; reflexivity|].
  apply (test_files_load two_files two_texts rest_symbols no_date yaml_stored).
  - apply used_msg, used_parse.
    apply (used_init _ _ _ _ false false false false xforms (Some "~/out.yaml") ["KdocItem"]
             None None None None true (λ _, Some "/home/me") (λ _, true)).
    reflexivity.
  - apply list_elem_of_In. vm_compute. by left.
Defined.
