(* ===== verification/ParseData.v ===== *)
(** * ParseData: [ParseDataStructs] of [parse_data_structs.py]

    Turns a C header into a parsed literal with cross references, or into a
    table of contents of its symbols.  Files are given by their decoded text;
    the messages printed when [debug] is set are those of [debug_lines], the
    other ones are left out. *)

From S2P Require Import Prelude PyStr PyRe PyReSyntax PyReTheory KdocRe CLex.

Definition RE_ENUMS : list pattern := map (compiled no_flags) [
  "^\s*enum\s+([\w_]+)\s*\{";
  "^\s*enum\s+([\w_]+)\s*$";
  "^\s*typedef\s*enum\s+([\w_]+)\s*\{";
  "^\s*typedef\s*enum\s+([\w_]+)\s*$"
].
Definition RE_STRUCTS : list pattern := map (compiled no_flags) [
  "^\s*struct\s+([_\w][\w\d_]+)\s*\{";
  "^\s*struct\s+([_\w][\w\d_]+)$";
  "^\s*typedef\s*struct\s+([_\w][\w\d_]+)\s*\{";
  "^\s*typedef\s*struct\s+([_\w][\w\d_]+)$"
].

(** One entry of [DEF_SYMBOL_TYPES]: the prefix and suffix are the same
    for all types. *)
Record symbol_type_t := MkSymbolType { st_ref_type : string; st_description : string }.
Definition affix : string := "\ ".
Definition DEF_SYMBOL_TYPES : dict symbol_type_t := [
  ("ioctl", MkSymbolType ":ref" "IOCTL Commands");
  ("define", MkSymbolType ":ref" "Macros and Definitions");
  ("symbol", MkSymbolType ":ref" "Enumeration values");
  ("typedef", MkSymbolType ":c:type" "Type Definitions");
  ("enum", MkSymbolType ":c:type" "Enumerations");
  ("struct", MkSymbolType ":c:type" "Structures")
].

(** A reference and the line of its symbol. *)
Abbreviation refs_t := (dict (string * nat)).

Record ParseDataStructs := MkPDS {
  pd_data : string;
  pd_symbols : dict refs_t;
  pd_namespace : option string;
  pd_ignore : list (nat * string * string);
  pd_replace : list (nat * string * string * string);
}.

Definition upd_pd_data (f : string → string) (p : ParseDataStructs) : ParseDataStructs :=
  MkPDS (f (pd_data p)) (pd_symbols p) (pd_namespace p) (pd_ignore p) (pd_replace p).
Definition upd_symbols (f : dict refs_t → dict refs_t) (p : ParseDataStructs) : ParseDataStructs :=
  MkPDS (pd_data p) (f (pd_symbols p)) (pd_namespace p) (pd_ignore p) (pd_replace p).
Definition add_ignore (r : nat * string * string) (p : ParseDataStructs) : ParseDataStructs :=
  MkPDS (pd_data p) (pd_symbols p) (pd_namespace p) (pd_ignore p ++ [r]) (pd_replace p).
Definition add_replace (r : nat * string * string * string) (p : ParseDataStructs)
    : ParseDataStructs :=
  MkPDS (pd_data p) (pd_symbols p) (pd_namespace p) (pd_ignore p) (pd_replace p ++ [r]).
Definition set_namespace (s : string) (p : ParseDataStructs) : ParseDataStructs :=
  MkPDS (pd_data p) (pd_symbols p) (Some s) (pd_ignore p) (pd_replace p).

(** [ParseDataStructs()] *)
Definition ParseDataStructs_init : ParseDataStructs :=
  MkPDS "" (map (λ x, (fst x, [])) DEF_SYMBOL_TYPES) None [] [].

(** [self.symbols[c_type]], every type being a key since [__init__]. *)
Definition refs_of (p : ParseDataStructs) (c_type : string) : refs_t := dget_or (pd_symbols p) c_type [].
Definition upd_refs (c_type : string) (f : refs_t → refs_t) (p : ParseDataStructs) : ParseDataStructs :=
  upd_symbols (λ d, dset d c_type (f (dget_or d c_type []))) p.

(** ** Exceptions to the rules *)

Definition re_ignore : pattern := compiled no_flags "^ignore\s+(\w+)\s+(\S+)".
Definition re_replace : pattern := compiled no_flags "^replace\s+(\S+)\s+(\S+)\s+(\S+)".
Definition re_namespace : pattern := compiled no_flags "^namespace\s+(\S+)".
Definition re_c_ref : pattern := compiled no_flags "^\:c\:(\w+)\:\`(.+)\`".
Definition re_ref : pattern := compiled no_flags "(\:ref)\:\`(.+)\`".

Definition read_rule (name : string) (x : nat * string) : ST ParseDataStructs unit :=
  let ln := S (fst x) in
  let line := strip (snd x) in
  if (line =? "")%string || startswith "#" line then mret tt
  else
    match re_match re_ignore line with
    | Some m => modify (add_ignore (ln, group_or m 1, group_or m 2))
    | None =>
        match re_match re_replace line with
        | Some m => modify (add_replace (ln, group_or m 1, group_or m 2, group_or m 3))
        | None =>
            match re_match re_namespace line with
            | Some m => modify (set_namespace (group_or m 1))
            | None => raise (SystemExit (name +:+ ":" +:+ int_str ln +:+ ": invalid line: " +:+ line))
            end
        end
    end.
(** [self.read_exceptions(fname)]; [None] when no file is given. *)
Definition read_exceptions (file : option (string * string)) : ST ParseDataStructs unit :=
  match file with
  | None => mret tt
  | Some (fname, text) =>
      for_each (imap (λ i line, (i, line)) (readlines text)) (read_rule (basename fname))
  end.

(** The name [name] is not defined in [apply_exceptions]. *)
Definition no_name {A} : ST ParseDataStructs A := raise (NameError "name").

Definition apply_ignore (r : nat * string * string) : ST ParseDataStructs unit :=
  let '(ln, c_type, symbol) := r in
  if negb (dmem DEF_SYMBOL_TYPES c_type) then no_name
  else modify (upd_refs c_type (λ d, if dmem d symbol then ddel d symbol else d)).

(** The reference type and the target of a replacement. *)
Definition parse_ref (c_type new : string) : string * string :=
  match re_match re_c_ref new with
  | Some m => (":c:" +:+ group_or m 1, group_or m 2)
  | None =>
      match re_search re_ref new with
      | Some m => (group_or m 1, group_or m 2)
      | None =>
          (match dget DEF_SYMBOL_TYPES c_type with Some t => st_ref_type t | None => "" end, new)
      end
  end.
Definition apply_replace (r : nat * string * string * string) : ST ParseDataStructs unit :=
  let '(ln, c_type, old, new) := r in
  if negb (dmem DEF_SYMBOL_TYPES c_type) then no_name
  else
    let '(reftype, new) := parse_ref c_type new in
    let new_ref := reftype +:+ ":`" +:+ old +:+ " <" +:+ new +:+ ">`" in
    p ← get;
    match dget (refs_of p c_type) old with
    | Some (_, ln) => modify (upd_refs c_type (λ d, dset d old (new_ref, ln)))
    | None => no_name
    end.
(** [self.apply_exceptions()] *)
Definition apply_exceptions : ST ParseDataStructs unit :=
  ignore ← gets pd_ignore;
  for_each ignore apply_ignore ;;
  replace ← gets pd_replace;
  for_each replace apply_replace.

(** ** Symbols *)

(** The reference that [store_type] builds; [ref_name] is [""] when not given. *)
Definition symbol_ref (namespace : option string) (t : symbol_type_t) (symbol ref_name : string)
    (replace_underscores : bool) : string :=
  let ref_type := st_ref_type t in
  let ref_name := if (ref_name =? "")%string then str_lower symbol else ref_name in
  let ref_name :=
    if (ref_type =? ":ref")%string && replace_underscores then replace "_" "-" ref_name else ref_name in
  let ref_name :=
    if startswith ":c:" ref_type then
      match namespace with
      | Some (String _ _ as ns) => ns +:+ "." +:+ ref_name
      | _ => ref_name end
    else ref_name in
  affix +:+ (ref_type +:+ ":`" +:+ symbol +:+ " <" +:+ ref_name +:+ ">`") +:+ affix.
(** [self.store_type(ln, symbol_type, symbol, ref_name, replace_underscores)] *)
Definition store_type (ln : nat) (symbol_type symbol ref_name : string) (replace_underscores : bool)
    : ST ParseDataStructs unit :=
  match dget DEF_SYMBOL_TYPES symbol_type with
  | None => raise (KeyError symbol_type)
  | Some t =>
      namespace ← gets pd_namespace;
      modify (upd_refs symbol_type
        (λ d, dset d symbol (symbol_ref namespace t symbol ref_name replace_underscores, ln)))
  end.

(** The text [store_line] adds. *)
Definition stored_line (line : string) : string := rstrip_char " " ("    " +:+ expandtabs line).
(** [self.store_line(line)] *)
Definition store_line (line : string) : ST ParseDataStructs unit :=
  modify (upd_pd_data (λ d, d +:+ stored_line line)).

(** ** [parse_file] *)

Record locals := Locals { is_enum : bool; is_comment : bool; multiline : string }.

Definition re_comment_open : pattern := compiled no_flags "/\*.*".
Definition re_c99 : pattern := compiled no_flags "(//.*)".
Definition re_comment_close : pattern := compiled no_flags ".*\*/".
Definition re_comment_whole : pattern := compiled no_flags "(/\*.*\*/)".
Definition re_enum_symbol : pattern := compiled no_flags "^\s*([_\w][\w\d_]+)\s*[\,=]?".
Definition re_ioctl : pattern := compiled no_flags "^\s*#\s*define\s+([\w_]+)\s+_IO".
Definition re_define : pattern := compiled no_flags "^\s*#\s*define\s+([\w_]+)(\s+|$)".
Definition re_typedef : pattern :=
  compiled no_flags "^\s*typedef\s+([_\w][\w\d_]+)\s+(.*)\s+([_\w][\w\d_]+);".

(** The first expression that matches, and its first group. *)
Fixpoint first_group (rs : list pattern) (line : string) : option string :=
  match rs with
  | [] => None
  | r :: rs' => match re_match r line with Some m => Some (group_or m 1) | None => first_group rs' line end
  end.

(** The rest of the loop body, for a statement without comments. *)
Definition parse_statement (line_no : nat) (line : string) (v : locals) : ST ParseDataStructs locals :=
  if is_enum v then
    (match re_match re_enum_symbol line with
     | Some m => store_type line_no "symbol" (group_or m 1) "" true
     | None => mret tt
     end) ;;
    mret (Locals (negb (char_in "}" line)) (is_comment v) (multiline v))
  else
    match re_match re_ioctl line with
    | Some m => store_type line_no "ioctl" (group_or m 1) "" false ;; mret v
    | None =>
        match re_match re_define line with
        | Some m => store_type line_no "define" (group_or m 1) "" true ;; mret v
        | None =>
            match re_match re_typedef line with
            | Some m =>
                store_type line_no "typedef" (group_or m 3) (strip (group_or m 2)) true ;; mret v
            | None =>
                v ← (match first_group RE_ENUMS line with
                     | Some name =>
                         store_type line_no "enum" name "" true ;;
                         mret (Locals true (is_comment v) (multiline v))
                     | None => mret v
                     end);
                (match first_group RE_STRUCTS line with
                 | Some name => store_type line_no "struct" name "" true
                 | None => mret tt
                 end) ;;
                mret v
            end
        end
    end.

(** What is left of a line once comments are taken out: the statement to
    parse, if there is one, and the variables. *)
Definition strip_comments (line : string) (v : locals) : option string * locals :=
  let line := multiline v +:+ line in
  let v := Locals (is_enum v) (is_comment v) "" in
  let '(is_comment, line) :=
    if negb (is_comment v) then
      match re_search re_comment_open line with
      | Some _ => (true, line)
      | None => (false, re_sub re_c99 "" line 0)
      end
    else (true, line) in
  let closed := bool_decide (is_Some (re_search re_comment_close line)) in
  if is_comment && negb closed then (None, Locals (is_enum v) true line)
  else
    let line := re_sub re_comment_whole "" line 0 in
    (if (strip line =? "")%string then None else Some line, Locals (is_enum v) false "").

(** The loop body; [r"\\"] is two backslashes. *)
Definition parse_line (v : locals) (x : nat * string) : ST ParseDataStructs locals :=
  let '(line_no, line) := x in
  store_line line ;;
  let line := strip_char NL line in
  if endswith "\\" line then
    mret (Locals (is_enum v) (is_comment v)
            (multiline v +:+ str_drop (String.length line - 1) line))
  else
    match strip_comments line v with
    | (None, v) => mret v
    | (Some line, v) => parse_statement line_no line v
    end.

(** [self.parse_file(file_in, exceptions)] *)
Definition parse_file (text : string) (exceptions : option (string * string))
    : ST ParseDataStructs unit :=
  modify (upd_pd_data (λ _, "")) ;;
  read_exceptions exceptions ;;
  for_acc (imap (λ i line, (i, line)) (readlines text)) (Locals false false "") parse_line ;;
  apply_exceptions.

(** ** Output *)

(** [self.debug_print()], as the lines printed when [debug] is set. *)
Definition debug_lines (p : ParseDataStructs) : list string :=
  flat_map (λ '(c_type, refs),
    match refs with
    | [] => []
    | _ => [c_type +:+ ":"]
           ++ map (λ '(symbol, (ref, ln)),
                     "  #" +:+ ljust 5 (int_str ln) +:+ " " +:+ symbol +:+ " -> " +:+ ref)
                  (sort_by fst refs)
           ++ [""]
    end) (pd_symbols p).

Definition re_trailing : pattern := compiled no_flags "\s+$".
Definition re_blank_lines : pattern := compiled no_flags "\n\s+\n".
Definition re_sphinx_special : pattern :=
  compiled no_flags "([\_\`\*\<\>\&\\\\:\/\|\%\$\#\{\}\~\^])".
Definition re_deprecated : pattern := compiled no_flags "DEPRECATED".
Definition re_symbol_special : pattern := compiled no_flags "([\_\`\*\<\>\&\\\\:\/])".
Definition re_affix_end : pattern := compiled no_flags "\\ ([\n ])".
Definition re_affix_mid : pattern := compiled no_flags " \\ ".
Definition start_delim : string := "([ \n\t\(=\*\@])".
Definition end_delim : string := "(\s|,|\\=|\\:|\;|\)|\}|\{)".

(** [re.sub(pat, repl, text)] for a pattern and a template computed at run time. *)
Definition max_group (t : list tpl) : nat :=
  foldr (λ x n, match x with TGroup k => max k n | TLit _ => n end) 0 t.
Definition dynamic_sub (pat repl text : string) : res string :=
  match re_compile no_flags pat with
  | None => Raise (ReError pat)
  | Some r =>
      match tpl_parse repl with
      | None => Raise (ReError repl)
      | Some t =>
          if p_ngroups r <? max_group t then Raise (ReError repl)
          else Ok (re_sub r repl text 0)
      end
  end.

(** The text before the references are put in. *)
Definition escaped_text (data : string) : string :=
  let text := re_sub re_trailing "" data 0 +:+ nl in
  let text := re_sub re_blank_lines (nl +:+ nl) text 0 in
  let text := re_sub re_sphinx_special "\\\1" text 0 in
  re_sub re_deprecated "**DEPRECATED**" text 0.

Fixpoint replace_refs (refs : refs_t) (text : string) : res string :=
  match refs with
  | [] => Ok text
  | (symbol, (replacement, _)) :: refs' =>
      let symbol := re_escape (re_sub re_symbol_special "\\\1" symbol 0) in
      match dynamic_sub (start_delim +:+ symbol +:+ end_delim) ("\1" +:+ replacement +:+ "\2") text with
      | Ok text => replace_refs refs' text
      | Raise e => Raise e
      end
  end.
(** [self.gen_output()] *)
Definition gen_output (p : ParseDataStructs) : res string :=
  match replace_refs (concat (map snd (pd_symbols p))) (escaped_text (pd_data p)) with
  | Raise e => Raise e
  | Ok text =>
      let text := re_sub re_affix_end "\1" text 0 in
      Ok (re_sub re_affix_mid " " text 0)
  end.

(** The entries of one category. *)
Definition toc_section (description : string) (refs : refs_t) : list string :=
  match refs with
  | [] => []
  | _ =>
      [description; str_mul (String.length description) "-"; ""]
      ++ map (λ '(symbol, (ref, ln)), "- LINENO_" +:+ int_str ln +:+ ": " +:+ ref) (sort_by fst refs)
      ++ [""]
  end.
(** [self.gen_toc()] *)
Definition gen_toc (p : ParseDataStructs) : string :=
  let symbol_descriptions :=
    sort_by fst (map (λ '(k, v), (st_description v, k)) DEF_SYMBOL_TYPES) in
  join nl (flat_map (λ '(description, c_type), toc_section description (refs_of p c_type))
             symbol_descriptions).

(** [self.write_output(file_in, file_out, toc)]: the text of the file. *)
Definition write_output (file_in : string) (toc : bool) (p : ParseDataStructs) : res string :=
  let title := basename file_in in
  match (if toc then Ok (gen_toc p) else gen_output p) with
  | Raise e => Raise e
  | Ok text =>
      Ok (".. -*- coding: utf-8; mode: rst -*-" +:+ nl +:+ nl
          +:+ title +:+ nl +:+ str_mul (String.length title) "=" +:+ nl +:+ nl
          +:+ (if toc then "" else ".. parsed-literal::" +:+ nl +:+ nl)
          +:+ text)
  end.
