(* ===== verification/ParseDataSpec.v ===== *)
(** * ParseDataSpec: what [ParseDataStructs] promises *)

From S2P Require Import Prelude PyStr PyRe PyReSyntax PyReTheory KdocRe CLex ParseData.

(** ** Well-formed symbol tables *)

(** A symbol is a word. *)
Definition word (s : string) : Prop := s ≠ "" ∧ sall is_word s = true.

(** Each symbol once, on one of the first [n] lines. *)
Record refs_ok (n : nat) (refs : refs_t) : Prop := {
  ro_nodup : NoDup (dkeys refs);
  ro_words : ∀ s r ln, dget refs s = Some (r, ln) → word s ∧ ln < n;
}.
(** The six types, in the order of the table. *)
Record symbols_ok (n : nat) (d : dict refs_t) : Prop := {
  so_keys : dkeys d = dkeys DEF_SYMBOL_TYPES;
  so_refs : ∀ c, refs_ok n (dget_or d c []);
}.

Lemma refs_ok_nil n : refs_ok n [].
Proof. split; [constructor|done]. Qed.

Lemma symbols_ok_init n : symbols_ok n (pd_symbols ParseDataStructs_init).
Proof.
  split; [done|]. intros c. assert (∀ d : dict refs_t, Forall (λ x, snd x = []) d → dget_or d c [] = []) as H.
  { induction 1 as [|[k v] d Hv _ IH]; [done|]. unfold dget_or in *. cbn [dget snd] in *.
    destruct (k =? c)%string; [exact Hv | exact IH]. }
  rewrite H; [apply refs_ok_nil|]. repeat constructor.
Qed.

Lemma refs_ok_dset n refs s r ln : refs_ok n refs → word s → ln < n → refs_ok n (dset refs s (r, ln)).
Proof.
  intros [Hd Hw] Hs Hl. split; [by apply dkeys_nodup_dset|]. intros s' r' ln'.
  destruct (decide (s = s')) as [<-|Hne].
  - rewrite dget_dset_eq. by intros [= <- <-].
  - rewrite dget_dset_ne by done. apply Hw.
Qed.

Lemma dget_ddel_some {V} (d : dict V) k k' v :
  NoDup (dkeys d) → dget (ddel d k) k' = Some v → k' ≠ k ∧ dget d k' = Some v.
Proof.
  intros Hd H. destruct (decide (k = k')) as [<-|Hne].
  - by rewrite dget_ddel_eq in H.
  - by rewrite dget_ddel_ne in H.
Qed.
Lemma refs_ok_ddel n refs s : refs_ok n refs → refs_ok n (ddel refs s).
Proof.
  intros [Hd Hw]. split; [by apply dkeys_nodup_ddel|]. intros s' r ln H.
  apply (dget_ddel_some _ _ _ _ Hd) in H as [_ H]. by apply (Hw s' r).
Qed.

Lemma symbols_ok_upd n d c f :
  symbols_ok n d → dmem DEF_SYMBOL_TYPES c = true →
  (refs_ok n (dget_or d c []) → refs_ok n (f (dget_or d c []))) →
  symbols_ok n (dset d c (f (dget_or d c []))).
Proof.
  intros [Hk Hr] Hc Hf. split.
  - rewrite dkeys_dset_mem; [done|]. apply dmem_In. rewrite Hk. by apply dmem_In.
  - intros c'. unfold dget_or at 1. destruct (decide (c = c')) as [<-|Hne].
    + rewrite dget_dset_eq. apply Hf, Hr.
    + rewrite dget_dset_ne by done. apply Hr.
Qed.

(** ** Words found by the expressions *)

(** Group [n] of [r] always takes part and is a word, by evaluation. *)
Definition word_group (n : nat) (r : pattern) : bool :=
  negb (n =? 0) && always_sets n (p_prog r) && group_charset r n is_word && group_width r n 1.

Lemma match_word n r s m : re_match r s = Some m → word_group n r = true → word (group_or m n).
Proof.
  unfold word_group. intros [Hm _]%re_match_ok H. apply andb_prop in H as [H Hw].
  apply andb_prop in H as [H Hc]. apply andb_prop in H as [Hn Ha]. bool_facts.
  destruct (group_always _ _ _ Hm n Ha) as [t Ht]. unfold group_or. rewrite Ht.
  change (word t). split; [|by apply (group_chars _ _ _ Hm n is_word t Hc)].
  pose proof (group_min_len _ _ _ Hm n 1 t Hw Hn Ht) as Hl. intros ->. cbn in Hl. lia.
Qed.

Lemma first_group_word rs s name :
  forallb (word_group 1) rs = true → first_group rs s = Some name → word name.
Proof.
  induction rs as [|r rs IH]; cbn [first_group forallb]; [done|]. intros [Hr Hrs]%andb_prop.
  destruct (re_match r s) as [m|] eqn:E; [|by apply IH]. intros [= <-]. by eapply match_word.
Qed.

(** ** The loop over the lines *)

(** What a step keeps: the rules, and the well-formed symbols. *)
Record step_ok (n : nat) (p p' : ParseDataStructs) : Prop := {
  sk_rules : (pd_namespace p', pd_ignore p', pd_replace p')
             = (pd_namespace p, pd_ignore p, pd_replace p);
  sk_symbols : symbols_ok n (pd_symbols p) → symbols_ok n (pd_symbols p');
}.
Lemma step_ok_refl n p : step_ok n p p.
Proof. by split. Qed.
Lemma step_ok_trans n p1 p2 p3 : step_ok n p1 p2 → step_ok n p2 p3 → step_ok n p1 p3.
Proof. intros [H1 H2] [H3 H4]. split; [by rewrite H3 | auto]. Qed.

(** A computation that returns, adds [text] to the data and keeps the rest. *)
Definition adds {A} (n : nat) (text : string) (m : ST ParseDataStructs A) : Prop := ∀ p,
  ∃ p' a, m p = (p', Ok a) ∧ pd_data p' = pd_data p +:+ text ∧ step_ok n p p'.

Lemma adds_ret {A} n (a : A) : adds n "" (mret a).
Proof. intros p. exists p, a. split; [done|]. split; [by rewrite sapp_nil_r | apply step_ok_refl]. Qed.
Lemma adds_bind {A B} n t1 t2 (m : ST ParseDataStructs A) (k : A → ST ParseDataStructs B) :
  adds n t1 m → (∀ a, adds n t2 (k a)) → adds n (t1 +:+ t2) (m ≫= k).
Proof.
  intros Hm Hk p. destruct (Hm p) as (p1 & a & H1 & H2 & H3).
  destruct (Hk a p1) as (p2 & b & H4 & H5 & H6). exists p2, b. unfold mbind, ST_bind.
  rewrite H1. split; [done|]. split; [by rewrite H5, H2, sapp_assoc | by eapply step_ok_trans].
Qed.
Lemma adds_seq {A B} n (m : ST ParseDataStructs A) (k : A → ST ParseDataStructs B) :
  adds n "" m → (∀ a, adds n "" (k a)) → adds n "" (m ≫= k).
Proof. apply (adds_bind n "" ""). Qed.

Lemma adds_store n ln c symbol ref_name b :
  dmem DEF_SYMBOL_TYPES c = true → word symbol → ln < n → adds n "" (store_type ln c symbol ref_name b).
Proof.
  intros Hc Hs Hl p. unfold store_type. unfold dmem in Hc.
  destruct (dget DEF_SYMBOL_TYPES c) as [t|] eqn:E; [|done]. run_ST.
  eexists _, tt. split; [reflexivity|]. split; [by rewrite sapp_nil_r|]. split; [done|].
  intros H. cbn. apply (symbols_ok_upd n _ c (λ d, dset d symbol _)); [done|unfold dmem; by rewrite E|].
  intros Hr. by apply refs_ok_dset.
Qed.

Lemma adds_statement n line_no line v :
  line_no < n → adds n "" (parse_statement line_no line v).
Proof.
  intros Hl. unfold parse_statement.
  assert (∀ r c k ref_name b m, re_match r line = Some m → word_group k r = true →
    dmem DEF_SYMBOL_TYPES c = true → adds n "" (store_type line_no c (group_or m k) ref_name b)) as HS.
  { intros r c k ref_name b m Hm Hw Hc. apply adds_store; [done|by eapply match_word|done]. }
  destruct (is_enum v).
  { apply adds_seq; [|intros _; apply adds_ret].
    destruct (re_match re_enum_symbol line) as [m|] eqn:E; [|apply adds_ret].
    apply (HS _ _ _ _ _ _ E); [by vm_compute|done]. }
  destruct (re_match re_ioctl line) as [m|] eqn:E1.
  { apply adds_seq; [|intros _; apply adds_ret]. apply (HS _ _ _ _ _ _ E1); [by vm_compute|done]. }
  destruct (re_match re_define line) as [m|] eqn:E2.
  { apply adds_seq; [|intros _; apply adds_ret]. apply (HS _ _ _ _ _ _ E2); [by vm_compute|done]. }
  destruct (re_match re_typedef line) as [m|] eqn:E3.
  { apply adds_seq; [|intros _; apply adds_ret]. apply (HS _ _ _ _ _ _ E3); [by vm_compute|done]. }
  clear HS E1 E2 E3. apply adds_seq.
  - destruct (first_group RE_ENUMS line) as [name|] eqn:E; [|apply adds_ret].
    apply adds_seq; [|intros _; apply adds_ret]. apply adds_store; [done| |done].
    apply (first_group_word RE_ENUMS line); [by vm_compute|done].
  - intros v'. apply adds_seq; [|intros _; apply adds_ret].
    destruct (first_group RE_STRUCTS line) as [name|] eqn:E; [|apply adds_ret].
    apply adds_store; [done| |done]. apply (first_group_word RE_STRUCTS line); [by vm_compute|done].
Qed.

Lemma adds_line n v x : fst x < n → adds n (stored_line (snd x)) (parse_line v x).
Proof.
  destruct x as [line_no line]. cbn [fst snd]. intros Hl. unfold parse_line.
  rewrite <- (sapp_nil_r (stored_line line)). apply adds_bind.
  - intros p. eexists _, tt. split; [reflexivity|]. split; [done|]. by split.
  - intros _. cbn zeta. destruct (endswith "\\" _); [apply adds_ret|].
    destruct (strip_comments _ v) as [[line'|] v']; [by apply adds_statement | apply adds_ret].
Qed.

Lemma adds_lines n (l : list (nat * string)) : ∀ v, (∀ x, x ∈ l → fst x < n) →
  adds n (sconcat (map (λ x, stored_line (snd x)) l)) (for_acc l v parse_line).
Proof.
  induction l as [|x l IH]; intros v H; cbn [for_acc map]; [apply adds_ret|].
  rewrite sconcat_cons. apply adds_bind; [apply adds_line, H; by left|].
  intros v'. apply IH. intros y Hy. apply H. by right.
Qed.

(** ** The rules *)

(** The entry of a symbol. *)
Definition look (p : ParseDataStructs) (c s : string) : option (string * nat) := dget (refs_of p c) s.
Definition rules (p : ParseDataStructs) := (pd_namespace p, pd_ignore p, pd_replace p).

Lemma refs_of_upd p c f c' :
  refs_of (upd_refs c f p) c' = if decide (c = c') then f (refs_of p c) else refs_of p c'.
Proof.
  unfold refs_of, upd_refs, upd_symbols. cbn [pd_symbols]. unfold dget_or at 1.
  destruct (decide (c = c')) as [<-|Hne]; [by rewrite dget_dset_eq | by rewrite dget_dset_ne].
Qed.

(** What the rules keep, from [p] to [p']. *)
Record rules_keep (n : nat) (p p' : ParseDataStructs) : Prop := {
  rk_data : pd_data p' = pd_data p;
  rk_rules : rules p' = rules p;
  rk_symbols : symbols_ok n (pd_symbols p');
}.

Definition valid_type (c : string) : bool := dmem DEF_SYMBOL_TYPES c.

Lemma ignore_ok n ln c s p : symbols_ok n (pd_symbols p) → valid_type c = true →
  ∃ p', apply_ignore (ln, c, s) p = (p', Ok tt) ∧ rules_keep n p p' ∧ look p' c s = None ∧
        ∀ c' s', (c', s') ≠ (c, s) → look p' c' s' = look p c' s'.
Proof.
  intros Hp Hc. pose proof (so_refs _ _ Hp c) as Hr. unfold apply_ignore. fold (valid_type c). rewrite Hc.
  set (f := λ d : refs_t, if dmem d s then ddel d s else d).
  assert (Hf : ∀ d, refs_ok n d → refs_ok n (f d) ∧ dget (f d) s = None ∧
    ∀ s', s' ≠ s → dget (f d) s' = dget d s').
  { intros d Hd. unfold f. destruct (dmem d s) eqn:E.
    - split; [by apply refs_ok_ddel|]. split; [apply dget_ddel_eq, Hd|]. intros s' Hs. by apply dget_ddel_ne.
    - split; [done|]. split; [|done]. unfold dmem in E. by destruct (dget d s). }
  destruct (Hf _ Hr) as (H1 & H2 & H3).
  exists (upd_refs c f p). split; [done|]. split; [|split].
  - split; [done|done|]. by apply (symbols_ok_upd n _ c f).
  - unfold look. rewrite refs_of_upd, decide_True by done. exact H2.
  - intros c' s' Hne. unfold look. rewrite refs_of_upd. destruct (decide (c = c')) as [<-|]; [|done].
    apply H3. congruence.
Qed.

Lemma ignore_all_ok n l : ∀ p, symbols_ok n (pd_symbols p) → Forall (λ r, valid_type (snd (fst r)) = true) l →
  ∃ p', for_each l apply_ignore p = (p', Ok tt) ∧ rules_keep n p p' ∧
        (∀ ln c s, (ln, c, s) ∈ l → look p' c s = None) ∧
        (∀ c s, (∀ ln, (ln, c, s) ∉ l) → look p' c s = look p c s) ∧
        (∀ c s, look p c s = None → look p' c s = None).
Proof.
  induction l as [|[[ln c] s] l IH]; intros p Hp HF; cbn [for_each].
  - exists p. split; [done|]. split; [by split|]. split; [by intros ? ? ? ?%elem_of_nil|]. done.
  - apply Forall_cons in HF as [Hc HF]. destruct (ignore_ok n ln c s p Hp Hc) as (p1 & E & [Hd1 Hr1 Hs1] & HN & HO).
    destruct (IH p1 Hs1 HF) as (p2 & E2 & [Hd2 Hr2 Hs2] & HN2 & HO2 & HK2).
    exists p2. unfold mbind, ST_bind. rewrite E. split; [exact E2|]. split; [split; congruence|].
    split; [|split].
    + intros ln' c' s' [Heq|Hin]%elem_of_cons; [injection Heq as -> -> ->; by apply HK2 | by eapply HN2].
    + intros c' s' Hno. rewrite HO2 by (intros ln' Hin; apply (Hno ln'); by right).
      apply HO. intros [= -> ->]. apply (Hno ln). by left.
    + intros c' s' HL. apply HK2. destruct (decide ((c', s') = (c, s))) as [[= -> ->]|Hne]; [done|].
      by rewrite HO.
Qed.

Lemma ignore_all_bad l : ∀ p, ¬ Forall (λ r, valid_type (snd (fst r)) = true) l →
  snd (for_each l apply_ignore p) = Raise (NameError "name").
Proof.
  induction l as [|[[ln c] s] l IH]; intros p HF; [by destruct HF|]. cbn [for_each].
  unfold mbind, ST_bind. unfold apply_ignore at 1. fold (valid_type c).
  destruct (valid_type c) eqn:Ec; cbn [negb]; [|done]. cbn [modify]. apply IH. intros H. apply HF.
  by constructor.
Qed.

Lemma replace_ok n ln c old new p : symbols_ok n (pd_symbols p) → valid_type c = true →
  is_Some (look p c old) →
  ∃ p', apply_replace (ln, c, old, new) p = (p', Ok tt) ∧ rules_keep n p p' ∧
        ∀ c' s', is_Some (look p' c' s') ↔ is_Some (look p c' s').
Proof.
  intros Hp Hc [[r ln'] HL]. pose proof (so_refs _ _ Hp c) as Hr. unfold apply_replace.
  fold (valid_type c). rewrite Hc. cbn [negb]. destruct (parse_ref c new) as [reftype new'].
  unfold mbind, ST_bind, get. unfold look in HL. cbv beta iota zeta. rewrite HL. cbn [modify].
  destruct (ro_words _ _ Hr old r ln' HL) as [Hw Hln].
  eexists. split; [reflexivity|]. split.
  - split; [done|done|]. apply (symbols_ok_upd n _ c (λ d, dset d old _)); [done|done|].
    intros Hd. by apply refs_ok_dset.
  - intros c' s'. unfold look. rewrite refs_of_upd. destruct (decide (c = c')) as [<-|]; [|done].
    destruct (decide (old = s')) as [<-|Hne]; [rewrite dget_dset_eq, HL; by split|].
    by rewrite dget_dset_ne.
Qed.

(** A replacement that can be applied. *)
Definition replaceable (p : ParseDataStructs) (r : nat * string * string * string) : Prop :=
  let '(_, c, old, _) := r in valid_type c = true ∧ is_Some (look p c old).

Lemma replace_all n l : ∀ p, symbols_ok n (pd_symbols p) →
  (∃ p', for_each l apply_replace p = (p', Ok tt) ∧ rules_keep n p p' ∧
         (∀ c s, is_Some (look p' c s) ↔ is_Some (look p c s)) ∧ Forall (replaceable p) l) ∨
  (snd (for_each l apply_replace p) = Raise (NameError "name") ∧ ¬ Forall (replaceable p) l).
Proof.
  induction l as [|[[[ln c] old] new] l IH]; intros p Hp; cbn [for_each].
  - left. exists p. split; [done|]. split; [by split|]. by split; [|constructor].
  - destruct (valid_type c) eqn:Ec.
    2:{ right. split; [|by intros [[? _] _]%Forall_cons; congruence].
        unfold mbind, ST_bind, apply_replace at 1. fold (valid_type c). by rewrite Ec. }
    destruct (look p c old) as [[r ln']|] eqn:EL.
    2:{ right. split; [|intros [[_ [? ?]] _]%Forall_cons; congruence].
        unfold mbind, ST_bind, apply_replace at 1. fold (valid_type c). rewrite Ec. cbn [negb].
        destruct (parse_ref c new). unfold mbind, ST_bind, get. cbv beta iota zeta.
        unfold look in EL. by rewrite EL. }
    destruct (replace_ok n ln c old new p Hp Ec ltac:(by rewrite EL)) as (p1 & E & [Hd1 Hr1 Hs1] & HL).
    unfold mbind, ST_bind. rewrite E.
    assert (∀ l, Forall (replaceable p1) l ↔ Forall (replaceable p) l) as HFF.
    { intros l'. split; intros HF; (eapply Forall_impl; [exact HF|]); intros [[[? ?] ?] ?] [? ?];
        (split; [done|]); by apply HL. }
    destruct (IH p1 Hs1) as [(p2 & E2 & [Hd2 Hr2 Hs2] & HL2 & HF)|[E2 HF]].
    + left. exists p2. split; [exact E2|]. split; [split; congruence|]. split.
      * intros c' s'. by rewrite HL2.
      * constructor; [split; [done | by rewrite EL] | by apply HFF].
    + right. split; [exact E2|]. intros [_ H]%Forall_cons. by apply HF, HFF.
Qed.

(** The rules that [apply_exceptions] can apply. *)
Definition applicable (p : ParseDataStructs) : Prop :=
  Forall (λ r, valid_type (snd (fst r)) = true) (pd_ignore p) ∧
  Forall (λ '(_, c, old, _), valid_type c = true ∧ is_Some (look p c old) ∧
                             ∀ ln, (ln, c, old) ∉ pd_ignore p) (pd_replace p).

Lemma apply_exceptions_ok n p :
  symbols_ok n (pd_symbols p) →
  (applicable p ∧ ∃ p', apply_exceptions p = (p', Ok tt) ∧ rules_keep n p p' ∧
     ∀ ln c s, (ln, c, s) ∈ pd_ignore p → look p' c s = None) ∨
  (¬ applicable p ∧ snd (apply_exceptions p) = Raise (NameError "name")).
Proof.
  intros Hp. unfold apply_exceptions, applicable. unfold mbind, ST_bind, gets. cbv beta iota.
  destruct (decide (Forall (λ r, valid_type (snd (fst r)) = true) (pd_ignore p))) as [HI|HI].
  2:{ right. split; [tauto|]. pose proof (ignore_all_bad (pd_ignore p) p HI) as H.
      destruct (for_each (pd_ignore p) apply_ignore p) as [p' [[]|x]]; [done|]. cbn in *. congruence. }
  destruct (ignore_all_ok n (pd_ignore p) p Hp HI) as (p1 & E1 & [Hd Hr Hs] & HN & HO & HK).
  rewrite E1. injection Hr as Hns Hig Hre. rewrite Hre.
  assert (Forall (replaceable p1) (pd_replace p) ↔
    Forall (λ '(_, c, old, _), valid_type c = true ∧ is_Some (look p c old) ∧
                               ∀ ln, (ln, c, old) ∉ pd_ignore p) (pd_replace p)) as HE.
  { rewrite !Forall_forall. split; intros HF [[[ln c] old] new] Hin; specialize (HF _ Hin); cbn in *.
    - destruct HF as [Hv HL]. split; [done|].
      assert (∀ ln, (ln, c, old) ∉ pd_ignore p) as Hno.
      { intros ln' Hin'. rewrite (HN _ _ _ Hin') in HL. by destruct HL. }
      split; [|exact Hno]. by rewrite <- HO.
    - destruct HF as (Hv & HL & Hno). split; [done|]. by rewrite HO. }
  destruct (replace_all n (pd_replace p) p1 Hs) as [(p2 & E2 & [Hd2 Hr2 Hs2] & HL2 & HF)|[E2 HF]].
  - left. split; [by split; [|apply HE]|]. exists p2. split; [exact E2|]. split.
    { split; [congruence| |done]. rewrite Hr2. unfold rules. congruence. }
    intros ln c s Hin. destruct (look p2 c s) as [x|] eqn:EL; [|done].
    assert (is_Some (look p1 c s)) as [y Hy] by (apply HL2; by rewrite EL).
    rewrite (HN _ _ _ Hin) in Hy. done.
  - right. split; [intros [_ H]; by apply HF, HE|]. exact E2.
Qed.

Lemma read_rule_keeps name x p :
  match read_rule name x p with
  | (p', Ok _) => pd_data p' = pd_data p ∧ pd_symbols p' = pd_symbols p
  | (_, Raise e) => ∃ msg, e = SystemExit msg
  end.
Proof.
  unfold read_rule. cbn zeta. destruct ((_ =? "")%string || _); [done|].
  destruct (re_match re_ignore _); [done|]. destruct (re_match re_replace _); [done|].
  destruct (re_match re_namespace _); [done|]. by eexists.
Qed.
Lemma read_exceptions_keeps file p :
  match read_exceptions file p with
  | (p', Ok _) => pd_data p' = pd_data p ∧ pd_symbols p' = pd_symbols p
  | (_, Raise e) => ∃ msg, e = SystemExit msg
  end.
Proof.
  unfold read_exceptions. destruct file as [[fname text]|]; [|done].
  generalize (imap (λ i line, (i, line)) (readlines text)). intros l. revert p.
  induction l as [|x l IH]; intros p; cbn [for_each]; [done|].
  unfold mbind, ST_bind. pose proof (read_rule_keeps (basename fname) x p) as H.
  destruct (read_rule (basename fname) x p) as [p1 [[]|e]]; [|exact H]. destruct H as [H1 H2].
  specialize (IH p1). destruct (for_each l (read_rule (basename fname)) p1) as [p2 [[]|e]]; [|exact IH].
  destruct IH as [H3 H4]. by rewrite H3, H4.
Qed.

Lemma map_snd_imap (l : list string) (f : string → string) :
  map (λ x, f (snd x)) (imap (λ i line, (i, line)) l) = map f l.
Proof.
  assert (∀ g : nat → nat, map (λ x, f (snd x)) (imap (λ i line, (g i, line)) l) = map f l) as H; [|exact (H id)].
  induction l as [|x l IH]; intros g; [done|]. cbn. f_equal. apply (IH (g ∘ S)).
Qed.

(** ** Properties *)

(** C18 A header, whatever its text and the rules: when [parse_file] returns, the
    data is the text of the file, each line indented and expanded, in order;
    the symbols of each of the six types are words, each recorded once, on a
    line of the file; and no ignored symbol is left.  Otherwise it ends with
    the exit for an invalid rule, or with [NameError]. *)
Theorem parse_file_spec text exceptions :
  let lines := readlines text in
  match parse_file text exceptions ParseDataStructs_init with
  | (p, Ok _) =>
      pd_data p = sconcat (map stored_line lines) ∧
      symbols_ok (length lines) (pd_symbols p) ∧
      ∀ ln c s, (ln, c, s) ∈ pd_ignore p → look p c s = None
  | (_, Raise x) => (∃ msg, x = SystemExit msg) ∨ x = NameError "name"
  end.
Proof.
  cbv zeta. unfold parse_file. unfold mbind, ST_bind, modify. cbv beta iota.
  set (p0 := upd_pd_data (λ _, "") ParseDataStructs_init). set (n := length (readlines text)).
  pose proof (read_exceptions_keeps exceptions p0) as HR.
  destruct (read_exceptions exceptions p0) as [p1 [[]|x]]; [|by left]. destruct HR as [HR1 HR2].
  destruct (adds_lines n (imap (λ i line, (i, line)) (readlines text)) (Locals false false "")) with (p := p1)
    as (p2 & v & E & Hd & [Hru Hs]).
  { intros [i line] Hin. apply elem_of_lookup_imap in Hin as (j & y & [= -> ->] & Hj).
    by apply lookup_lt_Some in Hj. }
  rewrite E. rewrite map_snd_imap in Hd.
  assert (symbols_ok n (pd_symbols p2)) as Hs2.
  { apply Hs. rewrite HR2. apply symbols_ok_init. }
  destruct (apply_exceptions_ok n p2 Hs2) as [(_ & p3 & E3 & [Hd3 Hr3 Hs3] & HN)|[_ E3]].
  - rewrite E3. split; [by rewrite Hd3, Hd, HR1|]. split; [done|]. intros ln c s Hin.
    apply (HN ln). injection Hr3 as _ H _. by rewrite <- H.
  - destruct (apply_exceptions p2) as [p3 [[]|x]]; cbn in E3; [done|]. injection E3 as ->. by right.
Qed.

(** [apply_exceptions] returns exactly when the types of all the rules exist
    and every symbol to replace is there and not ignored; in any other case
    the message it prepares uses a name that is not defined, which raises
    [NameError].  When it returns the ignored symbols are gone and the text
    is the same. *)
Theorem apply_exceptions_spec n p :
  symbols_ok n (pd_symbols p) →
  (applicable p ∧ ∃ p', apply_exceptions p = (p', Ok tt) ∧ rules_keep n p p' ∧
     ∀ ln c s, (ln, c, s) ∈ pd_ignore p → look p' c s = None) ∨
  (¬ applicable p ∧ snd (apply_exceptions p) = Raise (NameError "name")).
Proof. exact (apply_exceptions_ok n p). Qed.

Definition replace_missing : ParseDataStructs :=
  add_replace (1, "struct", "abc", "xyz") ParseDataStructs_init.
Lemma apply_exceptions_spec_witness :
  snd (apply_exceptions replace_missing) = Raise (NameError "name").
Proof.
  destruct (apply_exceptions_spec 0 replace_missing (symbols_ok_init 0)) as [[[_ H] _]|[_ H]].
  - exfalso. apply Forall_cons in H as [(_ & [x Hx] & _) _]. vm_compute in Hx. discriminate Hx.
  - exact H.
Defined.

(** The table of contents: the categories that have symbols, by description,
    and in each the symbols in alphabetical order, each once. *)
Theorem gen_toc_spec p :
  ∃ categories,
    categories ≡ₚ map (λ '(k, v), (st_description v, k)) DEF_SYMBOL_TYPES ∧
    Sorted (key_le fst) categories ∧
    gen_toc p = join nl (flat_map (λ '(description, c_type), toc_section description (refs_of p c_type))
                                  categories) ∧
    ∀ description c, refs_of p c ≠ [] → ∃ symbols,
      symbols ≡ₚ refs_of p c ∧ Sorted (key_le fst) symbols ∧
      toc_section description (refs_of p c)
      = [description; str_mul (String.length description) "-"; ""]
        ++ map (λ '(symbol, (ref, ln)), "- LINENO_" +:+ int_str ln +:+ ": " +:+ ref) symbols ++ [""].
Proof.
  eexists. split; [apply (sort_by_perm fst)|]. split; [apply (sort_by_sorted fst)|]. split; [reflexivity|].
  intros description c Hne. exists (sort_by fst (refs_of p c)).
  split; [apply sort_by_perm|]. split; [apply sort_by_sorted|]. by destruct (refs_of p c).
Qed.
