(* ===== verification/AutoMarkup.v ===== *)
(** * AutoMarkup: the Sphinx extension [src/docs/sphinx/automarkup.py]

    Turns the mentions of functions, C types, documents and commits in the
    paragraphs of a document into cross references.  The document tree is that
    of docutils: a node is what the extension reads of it.  What docutils and
    Sphinx decide is a parameter: [node_true] is the truth value of a node and
    [resolve] is [resolve_xref] of a domain, [None] standing for no result and
    for [NoUri].  docutils paragraphs hold text and inline elements only, so
    the traversal does not look for a paragraph inside of one. *)

From S2P Require Import Prelude PyStr PyRe PyReSyntax PyReTheory.

(** ** Nodes *)

Record node_class := NodeClass { is_paragraph : bool; is_literal : bool; is_referential : bool }.
Inductive node :=
| Text (s : string)
| Element (cls : node_class) (classes : list string) (refuri : option string) (children : list node).

Definition literal (classes : list string) (child : node) : node :=
  Element (NodeClass false true false) classes None [child].
Definition reference (uri : string) (child : node) : node :=
  Element (NodeClass false false true) [] (Some uri) [child].
(** [node['classes'].append(name)] *)
Definition add_class (name : string) (n : node) : node :=
  match n with
  | Text s => Text s
  | Element cls classes uri children => Element cls (classes ++ [name]) uri children
  end.

(** ** Regular expressions *)

Inductive regex_id := RE_doc | RE_function | RE_struct | RE_union | RE_enum | RE_typedef | RE_git.
#[global] Instance regex_id_eq_dec : EqDecision regex_id.
Proof. solve_decision. Defined.

Definition re_doc : pattern :=
  compiled no_flags "(\bDocumentation/)?((\.\./)*[\w\-/]+)\.(rst|txt)".
Definition re_function : pattern := compiled re_A "\b(([a-zA-Z_]\w+)\(\))".
Definition re_struct : pattern := compiled re_A "\b(struct)\s+([a-zA-Z_]\w+)".
Definition re_union : pattern := compiled re_A "\b(union)\s+([a-zA-Z_]\w+)".
Definition re_enum : pattern := compiled re_A "\b(enum)\s+([a-zA-Z_]\w+)".
Definition re_typedef : pattern := compiled re_A "\b(typedef)\s+([a-zA-Z_]\w+)".
Definition re_git : pattern :=
  compiled (flags_or re_I re_S)
    ("commit\s+(?P<rev>[0-9a-f]{12,40})(?:\s+\(" +:+ quote +:+ ".*?" +:+ quote +:+ "\))?").
Definition re_namespace : pattern := compiled no_flags "^\s*..\s*c:namespace::\s*(\S+)\s*$".

Definition regex (r : regex_id) : pattern :=
  match r with
  | RE_doc => re_doc | RE_function => re_function | RE_struct => re_struct | RE_union => re_union
  | RE_enum => re_enum | RE_typedef => re_typedef | RE_git => re_git
  end.
(** The keys of [markup_func], in order. *)
Definition markup_keys : list regex_id :=
  [RE_doc; RE_function; RE_struct; RE_union; RE_enum; RE_typedef; RE_git].

Definition Skipnames : list string := ["for"; "if"; "register"; "sizeof"; "struct"; "unsigned"].
Definition Skipidentifiers : list string := ["that"; "which"; "where"; "whose"].
Definition Skipfuncs : list string :=
  ["open"; "close"; "read"; "write"; "fcntl"; "mmap"; "select"; "poll"; "fork"; "execve"; "clone";
   "ioctl"; "socket"].

(** The module-level [c_namespace] and [failed_lookups]. *)
Record markup_state := MkMarkup { c_namespace : string; failed_lookups : list string }.

Definition note_failure (target : string) : ST markup_state unit :=
  modify (λ s, MkMarkup (c_namespace s) (set_add (failed_lookups s) target)).
Definition failure_seen (target : string) : ST markup_state bool :=
  gets (λ s, smem target (failed_lookups s)).

(** ** References *)

(** All the matches, sorted by where they start; [sorted] is stable. *)
Definition all_matches (t : string) : list (regex_id * rmatch) :=
  flat_map (λ r, map (pair r) (re_finditer (regex r) t)) markup_keys.
Definition starts_before (a b : regex_id * rmatch) : bool := r_start (snd a) <=? r_start (snd b).
Definition sorted_matches (t : string) : list (regex_id * rmatch) :=
  isort starts_before (all_matches t).

Section Markup.
Context (node_true : node → bool).
Context (resolve : string → string → string → string → option node → option node).

(** [add_and_resolve_xref(app, docname, domain, reftype, target, contnode)] *)
Definition add_and_resolve_xref (docname domain reftype target : string) (contnode : option node)
    : option node :=
  let xref := resolve docname domain reftype target contnode in
  if match xref with Some x => node_true x | None => false end then xref
  else match contnode with
       | Some c => if node_true c then Some (add_class "broken_xref" c) else Some c
       | None => None
       end.

(** [if c_namespace: possible_targets.insert(0, ...)] *)
Definition possible_targets (base_target : string) : ST markup_state (list string) :=
  ns ← gets c_namespace;
  mret (if (ns =? "")%string then [base_target] else [ns +:+ "." +:+ base_target; base_target]).

(** The loop of [markup_func_ref_sphinx3] over the possible targets. *)
Fixpoint try_functions (docname text : string) (targets : list string) : ST markup_state node :=
  match targets with
  | [] => mret (Text text)
  | target :: rest =>
      seen ← failure_seen target;
      if negb (smem target Skipfuncs) && negb seen then
        let lit_text := literal ["xref"; "c"; "c-func"] (Text text) in
        match add_and_resolve_xref docname "c" "function" target (Some lit_text) with
        | Some x =>
            if node_true x then mret x
            else note_failure target ;; try_functions docname text rest
        | None => note_failure target ;; try_functions docname text rest
        end
      else try_functions docname text rest
  end.
Definition markup_func_ref_sphinx3 (docname : string) (m : rmatch) : ST markup_state node :=
  let base_target := group_or m 2 in
  targets ← possible_targets base_target;
  if negb (smem base_target Skipnames) then try_functions docname (group_or m 0) targets
  else mret (Text (group_or m 0)).

Definition class_str (r : regex_id) : string :=
  match r with
  | RE_struct => "c-struct" | RE_union => "c-union" | RE_enum => "c-enum" | _ => "c-type" end.
Definition reftype_str (r : regex_id) : string :=
  match r with
  | RE_struct => "struct" | RE_union => "union" | RE_enum => "enum" | _ => "type" end.

(** The loop of [markup_c_ref]. *)
Fixpoint try_types (r : regex_id) (docname text : string) (targets : list string) : node :=
  match targets with
  | [] => Text text
  | target :: rest =>
      if negb (bool_decide (r = RE_function) && smem target Skipfuncs) then
        let lit_text := literal ["xref"; "c"; class_str r] (Text text) in
        match add_and_resolve_xref docname "c" (reftype_str r) target (Some lit_text) with
        | Some x => if node_true x then x else try_types r docname text rest
        | None => try_types r docname text rest
        end
      else try_types r docname text rest
  end.
Definition markup_c_ref (r : regex_id) (docname : string) (m : rmatch) : ST markup_state node :=
  let base_target := group_or m 2 in
  let target_text := Text (group_or m 0) in
  targets ← possible_targets base_target;
  if smem base_target Skipidentifiers then mret target_text
  else if negb (smem base_target Skipnames) then mret (try_types r docname (group_or m 0) targets)
  else mret target_text.

Definition markup_doc_ref (docname : string) (m : rmatch) : ST markup_state node :=
  let absolute := group_or m 1 in
  let target := group_or m 2 in
  let target := if negb (absolute =? "")%string then "/" +:+ target else target in
  mret (match add_and_resolve_xref docname "std" "doc" target None with
        | Some x => if node_true x then x else Text (group_or m 0)
        | None => Text (group_or m 0)
        end).

(** [m.group('rev')] is the first group. *)
Definition markup_git (docname : string) (m : rmatch) : ST markup_state node :=
  let text := group_or m 0 in
  let rev := group_or m 1 in
  mret (reference ("https://git.kernel.org/torvalds/c/" +:+ rev) (Text text)).

(** [markup_func[m.re]] *)
Definition markup_func (r : regex_id) : string → rmatch → ST markup_state node :=
  match r with
  | RE_doc => markup_doc_ref
  | RE_function => markup_func_ref_sphinx3
  | RE_struct | RE_union | RE_enum | RE_typedef => markup_c_ref r
  | RE_git => markup_git
  end.

(** The loop over the matches; [done] is where the last one ended. *)
Fixpoint markup_loop (docname t : string) (ms : list (regex_id * rmatch)) (done : nat)
    : ST markup_state (list node) :=
  match ms with
  | [] => mret (if done <? String.length t then [Text (str_drop done t)] else [])
  | (r, m) :: ms' =>
      let gap :=
        if done <? r_start m then [Text (str_slice done (r_start m) t)] else [] in
      n ← markup_func r docname m;
      rest ← markup_loop docname t ms' (r_end m);
      mret (gap ++ n :: rest)
  end.
(** [markup_refs(docname, app, node)] for a text node. *)
Definition markup_refs (docname t : string) : ST markup_state (list node) :=
  markup_loop docname t (sorted_matches t) 0.

(** ** Documents *)

(** [text_but_not_a_reference(node)]: [ancestors] are the classes of the
    parent, its parent and so on. *)
Definition text_but_not_a_reference (n : node) (ancestors : list node_class) : bool :=
  match n with
  | Text _ =>
      match ancestors with
      | parent :: _ => negb (is_literal parent) && negb (existsb is_referential ancestors)
      | [] => true
      end
  | Element _ _ _ _ => false
  end.

(** The nodes below a paragraph, each text that qualifies replaced. *)
Fixpoint markup_texts (docname : string) (ancestors : list node_class) (n : node)
    : ST markup_state (list node) :=
  match n with
  | Text t => if text_but_not_a_reference n ancestors then markup_refs docname t else mret [n]
  | Element cls classes uri children =>
      children ← (fix go (l : list node) : ST markup_state (list node) :=
        match l with
        | [] => mret []
        | c :: l' => a ← markup_texts docname (cls :: ancestors) c; b ← go l'; mret (a ++ b)
        end) children;
      mret [Element cls classes uri children]
  end.
(** The paragraphs of a tree. *)
Fixpoint markup_paragraphs (docname : string) (ancestors : list node_class) (n : node)
    : ST markup_state (list node) :=
  match n with
  | Text t => mret [n]
  | Element cls classes uri children =>
      if is_paragraph cls then markup_texts docname ancestors n
      else
        children ← (fix go (l : list node) : ST markup_state (list node) :=
          match l with
          | [] => mret []
          | c :: l' => a ← markup_paragraphs docname (cls :: ancestors) c; b ← go l'; mret (a ++ b)
          end) children;
        mret [Element cls classes uri children]
  end.

(** [get_c_namespace(app, docname)]: [source] is the text of the document. *)
Fixpoint first_namespace (lines : list string) : string :=
  match lines with
  | [] => ""
  | l :: lines' =>
      match re_search re_namespace l with
      | Some m => group_or m 1
      | None => first_namespace lines'
      end
  end.
Definition get_c_namespace (source : string) : string := first_namespace (readlines source).

(** [auto_markup(app, doctree, name)] *)
Definition auto_markup (docname source : string) (doctree : node) : ST markup_state (list node) :=
  modify (λ s, MkMarkup (get_c_namespace source) (failed_lookups s)) ;;
  markup_paragraphs docname [] doctree.
End Markup.
