(* ===== verification/AutoMarkupSpec.v ===== *)
(** * AutoMarkupSpec: what the automatic markup promises *)

From S2P Require Import Prelude PyStr PyRe PyReSyntax PyReTheory AutoMarkup.

(** ** How a text is cut *)

(** What a node of the result stands for: text between matches, or a match. *)
Inductive piece := Gap (i j : nat) | Hit (r : regex_id) (m : rmatch).

Fixpoint pieces (t : string) (ms : list (regex_id * rmatch)) (done : nat) : list piece :=
  match ms with
  | [] => if done <? String.length t then [Gap done (String.length t)] else []
  | (r, m) :: ms' =>
      (if done <? r_start m then [Gap done (r_start m)] else []) ++ Hit r m :: pieces t ms' (r_end m)
  end.
Definition piece_text (t : string) (p : piece) : string :=
  match p with Gap i j => str_slice i j t | Hit r m => group_or m 0 end.
Definition pieces_text (t : string) (ms : list (regex_id * rmatch)) (done : nat) : string :=
  sconcat (map (piece_text t) (pieces t ms done)).

(** The characters that a match shares with the one before it. *)
Fixpoint overlap (done : nat) (ms : list (regex_id * rmatch)) : nat :=
  match ms with
  | [] => 0
  | (_, m) :: ms' => (done - r_start m) + overlap (r_end m) ms'
  end.

Definition within (t : string) (x : regex_id * rmatch) : Prop :=
  r_src (snd x) = t ∧ r_start (snd x) ≤ r_end (snd x) ≤ String.length t.

Lemma str_slice_len i j s : i ≤ j ≤ String.length s → String.length (str_slice i j s) = j - i.
Proof. intros H. unfold str_slice. rewrite str_take_len, str_drop_len. lia. Qed.
Lemma str_slice_end i s : str_slice i (String.length s) s = str_drop i s.
Proof. unfold str_slice. apply str_take_all. by rewrite str_drop_len. Qed.

Lemma gap_text t i j :
  sconcat (map (piece_text t) (if i <? j then [Gap i j] else [])) = str_slice i j t.
Proof.
  destruct (Nat.ltb_spec i j); cbn.
  - rewrite sconcat_cons. cbn. by rewrite sapp_nil_r.
  - unfold str_slice. replace (j - i) with 0 by lia. by destruct (str_drop i t).
Qed.

Lemma pieces_text_cons t r m ms done :
  pieces_text t ((r, m) :: ms) done
  = str_slice done (r_start m) t +:+ group_or m 0 +:+ pieces_text t ms (r_end m).
Proof.
  unfold pieces_text. cbn [pieces]. rewrite map_app, sconcat_app, gap_text. cbn [map].
  by rewrite sconcat_cons.
Qed.
Lemma pieces_text_nil t done : pieces_text t [] done = str_drop done t.
Proof. unfold pieces_text. cbn [pieces]. rewrite gap_text. apply str_slice_end. Qed.

Lemma hit_text t r m : within t (r, m) → group_or m 0 = str_slice (r_start m) (r_end m) t.
Proof. intros [<- _]. apply group0_slice. Qed.

Lemma pieces_len t ms : ∀ done, Forall (within t) ms → done ≤ String.length t →
  String.length (pieces_text t ms done) = String.length t - done + overlap done ms.
Proof.
  induction ms as [|[r m] ms IH]; intros done HF Hd.
  - rewrite pieces_text_nil, str_drop_len. cbn. lia.
  - apply Forall_cons in HF as [Hx HF]. rewrite pieces_text_cons, !slen_app, (hit_text t r m) by done.
    destruct Hx as [Hs Hsp]. cbn in *. rewrite IH by (done || lia). rewrite (str_slice_len (r_start m)) by lia.
    destruct (le_dec done (r_start m)).
    + rewrite str_slice_len by lia. lia.
    + unfold str_slice. rewrite str_take_len, str_drop_len. lia.
Qed.

Lemma pieces_exact t ms : ∀ done, Forall (within t) ms → overlap done ms = 0 →
  pieces_text t ms done = str_drop done t.
Proof.
  induction ms as [|[r m] ms IH]; intros done HF Ho; [apply pieces_text_nil|].
  apply Forall_cons in HF as [Hx HF]. rewrite pieces_text_cons, (hit_text t r m) by done.
  destruct Hx as [Hs Hsp]. cbn in *. rewrite IH by (done || lia).
  rewrite str_drop_slice by lia. apply str_drop_slice. lia.
Qed.

Lemma overlap_chain ms : ∀ done, Forall (λ x, r_start (snd x) ≤ r_end (snd x)) ms →
  overlap done ms = 0 ↔ chain done (map snd ms).
Proof.
  induction ms as [|[r m] ms IH]; intros done HF; cbn; [by split; [constructor|]|].
  apply Forall_cons in HF as [Hx HF]. cbn in Hx. rewrite Nat.eq_add_0, (IH (r_end m) HF). split.
  - intros [H1 H2]. constructor; [lia | done | done].
  - intros H. inversion H; subst. split; [lia | done].
Qed.

Lemma sorted_matches_within t : Forall (within t) (sorted_matches t).
Proof.
  unfold sorted_matches. rewrite isort_perm. unfold all_matches.
  apply Forall_forall. intros x Hx. apply list_elem_of_In, in_flat_map in Hx as (r & _ & Hx).
  apply in_map_iff in Hx as (m & <- & Hm). pose proof (re_finditer_ok (regex r) t) as HF.
  rewrite Forall_forall in HF. specialize (HF m). rewrite list_elem_of_In in HF.
  specialize (HF Hm). by split; [apply HF | apply HF].
Qed.

(** The pieces of a text give it back exactly when no two matches overlap. *)
Lemma pieces_text_iff t :
  pieces_text t (sorted_matches t) 0 = t ↔ chain 0 (map snd (sorted_matches t)).
Proof.
  pose proof (sorted_matches_within t) as HF. rewrite <- overlap_chain.
  - split; intros H.
    + apply (f_equal String.length) in H. rewrite pieces_len in H by (done || lia). lia.
    + rewrite pieces_exact by done. done.
  - eapply Forall_impl; [exact HF|]. intros x [_ ?]. lia.
Qed.

(** ** The nodes made of the pieces *)

(** [node.astext()] *)
Fixpoint node_text (n : node) : string :=
  match n with Text s => s | Element _ _ _ children => sconcat (map node_text children) end.

Lemma add_class_text name n : node_text (add_class name n) = node_text n.
Proof. by destruct n. Qed.

Section Render.
Context (node_true : node → bool).
Context (resolve : string → string → string → string → option node → option node).
(** A domain puts the node it is given inside of the reference. *)
Context (resolve_text : ∀ docname reftype target c x,
  resolve docname "c" reftype target (Some c) = Some x → node_text x = node_text c).

Lemma xref_text docname reftype target c x :
  add_and_resolve_xref node_true resolve docname "c" reftype target (Some c) = Some x →
  node_text x = node_text c.
Proof.
  unfold add_and_resolve_xref. destruct (resolve docname "c" reftype target (Some c)) as [y|] eqn:E.
  - destruct (node_true y); [intros [= <-]; by eapply resolve_text|].
    destruct (node_true c); intros [= <-]; [apply add_class_text | done].
  - destruct (node_true c); intros [= <-]; [apply add_class_text | done].
Qed.

Lemma literal_text classes s : node_text (literal classes (Text s)) = s.
Proof. cbn. rewrite sconcat_cons. apply sapp_nil_r. Qed.

Lemma try_functions_text docname text targets : ∀ s,
  ∃ s' n, try_functions node_true resolve docname text targets s = (s', Ok n) ∧ node_text n = text.
Proof.
  induction targets as [|target targets IH]; intros s; [by eexists _, _|].
  cbn [try_functions]. unfold mbind, ST_bind, failure_seen, gets.
  destruct (_ && _); [|apply IH].
  destruct (add_and_resolve_xref _ _ _ _ _ _ _) as [x|] eqn:E; [|apply IH].
  destruct (node_true x); [|apply IH]. eexists _, _. split; [done|].
  apply xref_text in E. by rewrite E, literal_text.
Qed.

Lemma try_types_text r docname text targets :
  node_text (try_types node_true resolve r docname text targets) = text.
Proof.
  induction targets as [|target targets IH]; [done|]. cbn [try_types].
  destruct (negb _); [|apply IH].
  destruct (add_and_resolve_xref _ _ _ _ _ _ _) as [x|] eqn:E; [|apply IH].
  destruct (node_true x); [|apply IH]. apply xref_text in E. by rewrite E, literal_text.
Qed.

(** The node made of a piece of [t]: the text itself, or a reference that
    shows the text of the match; a document may show its own title. *)
Definition renders (docname t : string) (p : piece) (n : node) : Prop :=
  match p with
  | Gap i j => n = Text (str_slice i j t)
  | Hit RE_doc m =>
      n = Text (group_or m 0) ∨ ∃ target, resolve docname "std" "doc" target None = Some n
  | Hit _ m => node_text n = group_or m 0
  end.

Lemma markup_func_renders docname t r m s :
  ∃ s' n, markup_func node_true resolve r docname m s = (s', Ok n) ∧ renders docname t (Hit r m) n.
Proof.
  assert (∀ r, ∃ s' n, markup_c_ref node_true resolve r docname m s = (s', Ok n) ∧
                       node_text n = group_or m 0) as HC.
  { intros r'. unfold markup_c_ref, possible_targets, mbind, ST_bind, gets. cbv beta iota zeta delta [mret ST_ret].
    destruct (smem _ Skipidentifiers); [by eexists _, _|].
    destruct (negb _); eexists _, _; (split; [reflexivity|]); [apply try_types_text | done]. }
  destruct r; cbn [markup_func renders]; try apply HC.
  - unfold markup_doc_ref. cbv zeta. eexists _, _. split; [reflexivity|].
    unfold add_and_resolve_xref.
    destruct (resolve docname "std" "doc" _ None) as [x|] eqn:E; [|by left].
    destruct (node_true x) eqn:Ex; [|by left]. rewrite Ex. right. by eexists.
  - unfold markup_func_ref_sphinx3, possible_targets, mbind, ST_bind, gets.
    cbv beta iota zeta delta [mret ST_ret].
    destruct (negb _); [apply try_functions_text | by eexists _, _].
  - unfold markup_git. eexists _, _. split; [reflexivity|].
    unfold reference. cbn. rewrite sconcat_cons. apply sapp_nil_r.
Qed.

Lemma markup_loop_renders docname t ms : ∀ done s,
  ∃ s' nodes, markup_loop node_true resolve docname t ms done s = (s', Ok nodes) ∧
              Forall2 (renders docname t) (pieces t ms done) nodes.
Proof.
  induction ms as [|[r m] ms IH]; intros done s; cbn [markup_loop pieces].
  - eexists _, _. split; [reflexivity|].
    destruct (done <? String.length t); constructor; [|constructor]. cbn. by rewrite str_slice_end.
  - unfold mbind, ST_bind. destruct (markup_func_renders docname t r m s) as (s1 & n & -> & Hn).
    destruct (IH (r_end m) s1) as (s2 & nodes & -> & HF). eexists _, _. split; [reflexivity|].
    apply Forall2_app; [|by constructor].
    destruct (done <? r_start m); constructor; [done | constructor].
Qed.

(** No document that the text mentions is found. *)
Definition no_document (docname t : string) : Prop := ∀ m target,
  (RE_doc, m) ∈ sorted_matches t → resolve docname "std" "doc" target None = None.
Lemma pieces_hits t ms r m : ∀ done, Hit r m ∈ pieces t ms done → (r, m) ∈ ms.
Proof.
  induction ms as [|[r' m'] ms IH]; intros done; cbn [pieces].
  - destruct (done <? String.length t); [|by intros H%elem_of_nil]. by intros ?%list_elem_of_singleton.
  - rewrite elem_of_app, !elem_of_cons. intros [H|[[= -> ->]|H]]; [|by left|right; by eapply IH].
    destruct (done <? r_start m'); [by apply list_elem_of_singleton in H|by apply elem_of_nil in H].
Qed.
Lemma renders_text docname t ps nodes :
  (∀ m target, Hit RE_doc m ∈ ps → resolve docname "std" "doc" target None = None) →
  Forall2 (renders docname t) ps nodes → sconcat (map node_text nodes) = sconcat (map (piece_text t) ps).
Proof.
  intros Hd. induction 1 as [|p n ps nodes Hn _ IH]; [done|]. cbn [map]. rewrite !sconcat_cons, IH.
  2: { intros m target Hin. apply (Hd m). by right. }
  f_equal. destruct p as [i j|r m]; cbn [renders piece_text] in *; [by subst n|].
  destruct r; try exact Hn. destruct Hn as [->|[target Ht]]; [done|].
  rewrite (Hd m target) in Ht by (by left). done.
Qed.

(** C38 Every text is marked up without an exception: the result is one node per
    piece of the text, in order, where the pieces are the matches of the seven
    expressions and what lies between them.  A node shows the text of its piece,
    except that for a mention of a document that is found it is what the domain gives
    for it, with the title.  When no such document is found, the texts of the nodes
    concatenate to those of the pieces.  The pieces are exactly the text when no two
    matches overlap, and otherwise repeat what the matches share. *)
Theorem markup_refs_text docname t s :
  (∃ s' nodes, markup_refs node_true resolve docname t s = (s', Ok nodes) ∧
     Forall2 (renders docname t) (pieces t (sorted_matches t) 0) nodes ∧
     (no_document docname t → sconcat (map node_text nodes) = pieces_text t (sorted_matches t) 0)) ∧
  (pieces_text t (sorted_matches t) 0 = t ↔ chain 0 (map snd (sorted_matches t))) ∧
  String.length (pieces_text t (sorted_matches t) 0)
  = String.length t + overlap 0 (sorted_matches t).
Proof.
  split; [|split; [apply pieces_text_iff|]].
  - destruct (markup_loop_renders docname t (sorted_matches t) 0 s) as (s' & nodes & Hr & HF).
    exists s', nodes. split; [exact Hr|]. split; [exact HF|]. intros Hd.
    apply (renders_text docname t); [|exact HF]. intros m target Hin. apply (Hd m). by eapply pieces_hits.
  - rewrite pieces_len by (apply sorted_matches_within || lia). lia.
Qed.
End Render.

(** A structure followed by parentheses is matched twice. *)
Definition resolve_found (_ _ _ _ : string) (c : option node) : option node := c.
Definition shown_text (r : res (list node)) : string :=
  match r with Ok nodes => sconcat (map node_text nodes) | Raise _ => "" end.
Lemma markup_refs_text_witness :
  shown_text (snd (markup_refs (λ _, true) resolve_found "d" "struct foo()" (MkMarkup "" []))) = "struct foofoo()" ∧
  shown_text (snd (markup_refs (λ _, true) resolve_found "d" "call foo() twice" (MkMarkup "" []))) = "call foo() twice".
Proof.
  pose proof (λ t, markup_refs_text (λ _, true) resolve_found
    (λ _ _ _ c x (E : Some c = Some x), f_equal node_text (eq_sym (Some_inj _ _ E))) "d" t (MkMarkup "" [])) as H.
  assert (∀ t, no_document resolve_found "d" t) as Hd by (intros t m target _; reflexivity).
  split.
  - destruct (H "struct foo()") as [(s' & nodes & -> & _ & Hn) _]. cbn [snd shown_text].
    rewrite (Hn (Hd _)). vm_compute. reflexivity.
  - destruct (H "call foo() twice") as [(s' & nodes & -> & _ & Hn) _]. cbn [snd shown_text].
    rewrite (Hn (Hd _)). vm_compute. reflexivity.
Defined.

(** ** Lookups in a name space *)

Section Truth.
Context (node_true : node → bool).
Context (resolve : string → string → string → string → option node → option node).
(** docutils nodes are true, even when they have no children. *)
Context (nodes_true : ∀ n, node_true n = true).

Lemma xref_some docname domain reftype target c :
  add_and_resolve_xref node_true resolve docname domain reftype target (Some c)
  = Some (default (add_class "broken_xref" c) (resolve docname domain reftype target (Some c))).
Proof.
  unfold add_and_resolve_xref. destruct (resolve _ _ _ _ _) as [x|]; rewrite ?nodes_true; done.
Qed.

Lemma try_functions_state docname text targets : ∀ s,
  fst (try_functions node_true resolve docname text targets s) = s.
Proof.
  induction targets as [|target targets IH]; intros s; [done|].
  cbn [try_functions]. unfold mbind, ST_bind, failure_seen, gets.
  destruct (_ && _); [|apply IH]. rewrite xref_some, nodes_true. done.
Qed.
Lemma try_functions_first docname text target targets s :
  smem target Skipfuncs = false → smem target (failed_lookups s) = false →
  try_functions node_true resolve docname text (target :: targets) s
  = (s, Ok (default (add_class "broken_xref" (literal ["xref"; "c"; "c-func"] (Text text)))
              (resolve docname "c" "function" target
                 (Some (literal ["xref"; "c"; "c-func"] (Text text)))))).
Proof.
  intros H1 H2. cbn [try_functions]. unfold mbind, ST_bind, failure_seen, gets.
  rewrite H1, H2, xref_some, nodes_true. done.
Qed.

Lemma markup_func_state r docname m s : fst (markup_func node_true resolve r docname m s) = s.
Proof.
  assert (∀ r, fst (markup_c_ref node_true resolve r docname m s) = s) as HC.
  { intros r'. unfold markup_c_ref, possible_targets. run_ST.
    destruct (smem _ _); [done|]. by destruct (negb _). }
  destruct r; cbn [markup_func]; try apply HC; try done.
  unfold markup_func_ref_sphinx3, possible_targets. run_ST.
  destruct (negb _); [apply try_functions_state | done].
Qed.

Lemma markup_loop_state docname t ms : ∀ pos s,
  fst (markup_loop node_true resolve docname t ms pos s) = s.
Proof.
  induction ms as [|[r m] ms IH]; intros pos s; cbn [markup_loop]; [done|].
  unfold mbind, ST_bind. pose proof (markup_func_state r docname m s) as H.
  destruct (markup_func _ _ _ _ _ s) as [s1 [n|e]]; cbn in H; subst; [|done].
  specialize (IH (r_end m) s). destruct (markup_loop _ _ _ _ _ _ s) as [s2 [l|e]]; done.
Qed.

Lemma skipfuncs_no_dot x : smem x Skipfuncs = true → char_in "." x = false.
Proof.
  intros H. apply smem_iff in H.
  assert (Forall (λ y, char_in "." y = false) Skipfuncs) as HF by by repeat constructor.
  rewrite Forall_forall in HF. by apply HF.
Qed.

(** With the truth value that docutils gives to nodes a failed lookup is
    never remembered, and in a document with a name space a function is only
    looked up there: when that fails the mention becomes a broken reference,
    although the same name without the name space is on the list of targets. *)
Theorem namespace_only docname t m s :
  c_namespace s ≠ "" → failed_lookups s = [] → smem (group_or m 2) Skipnames = false →
  fst (markup_refs node_true resolve docname t s) = s ∧
  let text := literal ["xref"; "c"; "c-func"] (Text (group_or m 0)) in
  markup_func_ref_sphinx3 node_true resolve docname m s
  = (s, Ok (default (add_class "broken_xref" text)
              (resolve docname "c" "function" (c_namespace s +:+ "." +:+ group_or m 2) (Some text)))).
Proof.
  intros Hns Hf Hsk. split; [apply markup_loop_state|]. cbv zeta.
  unfold markup_func_ref_sphinx3, possible_targets, mbind, ST_bind, gets.
  cbv beta iota zeta delta [mret ST_ret]. rewrite Hsk. cbn [negb].
  rewrite (proj2 (String.eqb_neq _ _) Hns).
  apply try_functions_first; [|by rewrite Hf].
  destruct (smem _ Skipfuncs) eqn:E; [|done]. apply skipfuncs_no_dot in E. unfold char_in in E.
  apply Nat.ltb_ge in E. rewrite !scount_app in E. change (scount (Ascii.eqb ".") ".") with 1 in E. lia.
Qed.
End Truth.

(** [foo] exists, [ns.foo] does not. *)
Definition resolve_foo (_ _ _ target : string) (c : option node) : option node :=
  if (target =? "foo")%string then c else None.
Definition foo_match : rmatch :=
  default (RMatch "" 0 0 [] None) (re_search re_function "foo()").
Lemma namespace_only_witness :
  snd (markup_func_ref_sphinx3 (λ _, true) resolve_foo "d" foo_match (MkMarkup "ns" []))
  = Ok (literal ["xref"; "c"; "c-func"; "broken_xref"] (Text "foo()")).
Proof.
  pose proof (proj2 (namespace_only (λ _, true) resolve_foo (λ _, eq_refl) "d" "" foo_match
    (MkMarkup "ns" []) ltac:(discriminate) eq_refl ltac:(vm_compute; reflexivity))) as H.
  cbv zeta in H. rewrite H. vm_compute. reflexivity.
Defined.
