(* ===== verification/Argparse.v ===== *)
(** * Argparse: the part of Python's [argparse] that the commands use

    A parser is the list of its arguments; [parse_args] classifies the words of
    the command line, takes options and positional arguments in turn as
    [ArgumentParser._parse_known_args] does (in Python 3.11), and gives the
    namespace.  An error prints the usage and ends with status 2; what is
    printed is left out. *)

From S2P Require Import Prelude PyStr PyNum PyRe PyReSyntax PyReTheory.

(** The values in a namespace. *)
Inductive value :=
| VNone
| VBool (b : bool)
| VNat (n : nat)
| VInt (n : Z)
| VStr (s : string)
| VList (l : list string)
(** A tuple of integers, and a list of them. *)
| VTuple (t : list Z)
| VTuples (l : list (list Z)).
#[global] Instance value_eq_dec : EqDecision value.
Proof. solve_decision. Defined.

(** [parser.error(...)], and the end of [--help]. *)
Definition usage_error : exn := Exit 2.
Definition help_exit : exn := Exit 0.

(** ** Arguments *)

(** [nargs] of arguments: [None], ["?"], ["*"], ["+"], and that of
    [add_subparsers]. *)
Inductive nargs := One | Maybe | Any | Several | Subcommand.
#[global] Instance nargs_eq_dec : EqDecision nargs.
Proof. solve_decision. Defined.

(** The actions of options; [conv] is [type] with [choices], [None] for an
    invalid value.  [StoreN] is [store] with [nargs]: [const] is for ["?"]
    without a word, and [conv] is applied to all the words. *)
Inductive action :=
| StoreTrue
| StoreFalse
| CountUp
| BooleanOptional
| Help
| Store (conv : string → option value)
| StoreN (n : nargs) (const : value) (conv : list string → option value)
| Append.
Definition takes_value (a : action) : bool :=
  match a with Store _ | StoreN _ _ _ | Append => true | _ => false end.

Record optional := Optional {
  option_strings : list string;
  dest : string;
  act : action;
  dflt : value;
}.
(** [pos_conv] is for a single word: the positional arguments that take lists
    have no type. *)
Record positional := PositionalOf {
  pos_dest : string;
  pos_nargs : nargs;
  pos_conv : string → option value;
}.
Record parser := Parser {
  optionals : list optional;
  positionals : list positional;
  exclusive : list (list string);
  defaults : dict value;
}.

Definition plain_str (s : string) : option value := Some (VStr s).
Definition Positional (dest : string) (n : nargs) : positional := PositionalOf dest n plain_str.
Definition an_int (s : string) : option value := VInt <$> py_int s.
(** The option every parser has. *)
Definition help_option : optional := Optional ["-h"; "--help"] "help" Help VNone.
Definition store_true (strings : list string) (dest : string) : optional :=
  Optional strings dest StoreTrue (VBool false).
Definition store_false (strings : list string) (dest : string) : optional :=
  Optional strings dest StoreFalse (VBool true).
Definition store (strings : list string) (dest : string) : optional :=
  Optional strings dest (Store plain_str) VNone.
(** [type] and [choices] of a list of words. *)
Definition plain_list (l : list string) : option value := Some (VList l).
Definition one_of (choices : list string) (s : string) : option value :=
  if smem s choices then Some (VStr s) else None.
Definition all_of (choices : list string) (l : list string) : option value :=
  if forallb (λ s, smem s choices) l then Some (VList l) else None.
Definition append (strings : list string) (dest : string) : optional :=
  Optional strings dest Append VNone.

(** ** Words of the command line *)

Definition option_map (p : parser) : list (string * optional) :=
  flat_map (λ o, map (λ s, (s, o)) (option_strings o)) (optionals p).
Definition option_of (p : parser) (s : string) : option optional := dget (option_map p) s.

(** What an option word is: the option, if any, the option string, and an
    explicit argument. *)
Record occurrence := Occurrence {
  occ_option : option optional;
  occ_string : string;
  occ_explicit : option string;
}.
Definition re_negative : pattern := compiled no_flags "^-\d+$|^-\d*\.\d+$".
Definition is_negative (s : string) : bool := bool_decide (is_Some (re_match re_negative s)).

Definition get_option_tuples (p : parser) (arg : string) : list occurrence :=
  if startswith "--" arg then
    let '(prefix, explicit) :=
      match split_at_most 1 "=" arg with
      | [prefix; explicit] => (prefix, Some explicit)
      | _ => (arg, None)
      end in
    flat_map (λ '(s, o), if startswith prefix s then [Occurrence (Some o) s explicit] else [])
      (option_map p)
  else
    flat_map (λ '(s, o),
      if (s =? str_take 2 arg)%string then [Occurrence (Some o) s (Some (str_drop 2 arg))]
      else if startswith arg s then [Occurrence (Some o) s None] else []) (option_map p).

(** [_parse_optional(arg)]: [None] for a positional argument. *)
Definition abbreviated (p : parser) (arg : string) : res (option occurrence) :=
  match get_option_tuples p arg with
  | [t] => Ok (Some t)
  | _ :: _ => Raise usage_error
  | [] =>
      if (is_negative arg && negb (existsb is_negative (map fst (option_map p)))) || char_in " " arg
      then Ok None else Ok (Some (Occurrence None arg None))
  end.
Definition parse_optional (p : parser) (arg : string) : res (option occurrence) :=
  match arg with
  | "" => Ok None
  | String c rest =>
      if negb (c =? "-")%char then Ok None
      else
        match option_of p arg with
        | Some o => Ok (Some (Occurrence (Some o) arg None))
        | None =>
            if (rest =? "")%string then Ok None
            else
              match split_at_most 1 "=" arg with
              | [name; explicit] =>
                  match option_of p name with
                  | Some o => Ok (Some (Occurrence (Some o) name (Some explicit)))
                  | None => abbreviated p arg
                  end
              | _ => abbreviated p arg
              end
        end
  end.

(** The marks of the words: ["O"], ["A"] and ["-"]. *)
Inductive mark := MarkO (t : occurrence) | MarkA | MarkDash.
Abbreviation words := (list (string * mark)).
Fixpoint marks (p : parser) (args : list string) : res words :=
  match args with
  | [] => Ok []
  | arg :: args =>
      if (arg =? "--")%string then Ok ((arg, MarkDash) :: map (λ a, (a, MarkA)) args)
      else
        match parse_optional p arg with
        | Raise e => Raise e
        | Ok t =>
            match marks p args with
            | Raise e => Raise e
            | Ok l => Ok ((arg, match t with Some t => MarkO t | None => MarkA end) :: l)
            end
        end
  end.
Definition mark_char (m : mark) : ascii :=
  match m with MarkO _ => "O" | MarkA => "A" | MarkDash => "-" end.
Definition pattern_of (l : words) : string := foldr (λ w, String (mark_char (snd w))) "" l.
Definition is_option (w : string * mark) : bool := match snd w with MarkO _ => true | _ => false end.
Fixpoint until_option (l : words) : list string :=
  match l with w :: l => if is_option w then [] else fst w :: until_option l | [] => [] end.
Fixpoint from_option (l : words) : words :=
  match l with w :: l' => if is_option w then l else from_option l' | [] => [] end.

(** ** The state of a run *)

Record parsing := Parsing {
  namespace : dict value;
  seen_actions : list string;
  seen_non_default : list string;
  left : list positional;
  extras : list string;
  unrecognized : list string;
}.
Definition set_value (dest : string) (v : value) (s : parsing) : parsing :=
  Parsing (dset (namespace s) dest v) (seen_actions s) (seen_non_default s) (left s) (extras s)
    (unrecognized s).
Definition note_seen (dest : string) (s : parsing) : parsing :=
  Parsing (namespace s) (set_add (seen_actions s) dest) (seen_non_default s) (left s) (extras s)
    (unrecognized s).
Definition note_non_default (dest : string) (s : parsing) : parsing :=
  Parsing (namespace s) (seen_actions s) (set_add (seen_non_default s) dest) (left s) (extras s)
    (unrecognized s).
Definition set_left (l : list positional) (s : parsing) : parsing :=
  Parsing (namespace s) (seen_actions s) (seen_non_default s) l (extras s) (unrecognized s).
Definition add_extras (l : list string) (s : parsing) : parsing :=
  Parsing (namespace s) (seen_actions s) (seen_non_default s) (left s) (extras s ++ l)
    (unrecognized s).
Definition add_unrecognized (l : list string) (s : parsing) : parsing :=
  Parsing (namespace s) (seen_actions s) (seen_non_default s) (left s) (extras s)
    (unrecognized s ++ l).

(** The result of a parser: the namespace and the words nobody took. *)
Abbreviation parsed := (dict value * list string)%type.

Section Parse.
Context (p : parser).
(** The parser of a subcommand, [None] for an invalid choice. *)
Context (subcommand : string → option (list string → res parsed)).

(** ** Options *)

Definition conflicts (dest : string) : list string :=
  flat_map (λ group, if smem dest group then List.filter (λ d, negb (d =? dest)%string) group else [])
    (exclusive p).
Definition or_usage {A} (o : option A) : ST parsing A :=
  match o with Some a => mret a | None => raise usage_error end.
Definition get_value (dest : string) : ST parsing value :=
  gets (λ s, default VNone (dget (namespace s) dest)).

(** [_get_values(action, args)] for an option; flags and lists keep the words. *)
Definition convert (a : action) (args : list string) : option value :=
  match a with
  | Store conv => conv (sconcat args)
  | StoreN n const conv =>
      match n, args with Maybe, [] => Some const | _, _ => conv args end
  | _ => Some (VList args)
  end.
(** The call of the action of an option. *)
Definition run_action (o : optional) (args : list string) (option_string : string) : ST parsing unit :=
  match act o with
  | StoreTrue => modify (set_value (dest o) (VBool true))
  | StoreFalse => modify (set_value (dest o) (VBool false))
  | CountUp =>
      v ← get_value (dest o);
      modify (set_value (dest o) (VNat (match v with VNat n => S n | _ => 1 end)))
  | BooleanOptional => modify (set_value (dest o) (VBool (negb (startswith "--no-" option_string))))
  | Help => raise help_exit
  | Store _ | StoreN _ _ _ =>
      v ← or_usage (convert (act o) args); modify (set_value (dest o) v)
  | Append =>
      v ← get_value (dest o);
      modify (set_value (dest o) (VList (match v with VList l => l | _ => [] end ++ args)))
  end.
(** [take_action] for an option: the value is converted before the conflicts are
    looked at. *)
Definition take_option (t : optional * list string * string) : ST parsing unit :=
  let '(o, args, option_string) := t in
  modify (note_seen (dest o)) ;;
  or_usage (convert (act o) args) ;;
  modify (note_non_default (dest o)) ;;
  seen ← gets seen_non_default;
  when (existsb (λ d, smem d seen) (conflicts (dest o))) (raise usage_error) ;;
  run_action o args option_string.

(** The words ahead that are no options. *)
Fixpoint leading (l : words) : list string :=
  match l with (a, MarkA) :: l => a :: leading l | _ => [] end.
(** How many of them an option with [nargs] takes, [None] when they are too few. *)
Definition words_taken (n : nargs) (ahead : nat) : option nat :=
  match n with
  | Any => Some ahead
  | Maybe => Some (min 1 ahead)
  | Several => if ahead =? 0 then None else Some ahead
  | One | Subcommand => if ahead =? 0 then None else Some 1
  end.
(** An option without explicit argument takes the words ahead that it needs. *)
Definition with_next (o : optional) (option_string : string) (rest : words)
    : res (list (optional * list string * string) * words) :=
  if takes_value (act o) then
    let ahead := leading rest in
    match words_taken (match act o with StoreN n _ _ => n | _ => One end) (length ahead) with
    | Some n => Ok ([(o, take n ahead, option_string)], drop n rest)
    | None => Raise usage_error
    end
  else Ok ([(o, [], option_string)], rest).
(** An option with an explicit argument; that of a flag with a single dash is
    more flags. *)
Fixpoint with_explicit (o : optional) (option_string explicit : string) (rest : words)
    : res (list (optional * list string * string) * words) :=
  if takes_value (act o) then Ok ([(o, [explicit], option_string)], rest)
  else
    match explicit with
    | "" => Raise usage_error
    | String c explicit =>
        if startswith "--" option_string then Raise usage_error
        else
          let flag := "-" +:+ String c "" in
          match option_of p flag with
          | None => Raise usage_error
          | Some o' =>
              match (match explicit with
                     | "" => with_next o' flag rest
                     | _ => with_explicit o' flag explicit rest
                     end) with
              | Ok (l, rest) => Ok ((o, [], option_string) :: l, rest)
              | Raise e => Raise e
              end
          end
    end.
(** [consume_optional(start_index)]: the words after those it takes. *)
Definition consume_optional (t : occurrence) (rest : words) : ST parsing words :=
  match occ_option t with
  | None => modify (add_extras [occ_string t]) ;; mret rest
  | Some o =>
      r ← lift_res (match occ_explicit t with
                    | None => with_next o (occ_string t) rest
                    | Some e => with_explicit o (occ_string t) e rest
                    end);
      for_each (fst r) take_option ;;
      mret (snd r)
  end.

(** ** Positional arguments *)

Definition nargs_pattern (n : nargs) : string :=
  match n with
  | One => "(-*A-*)"
  | Maybe => "(-*A?-*)"
  | Any => "(-*[A-]*)"
  | Several => "(-*A[A-]*)"
  | Subcommand => "(-*A[-AO]*)"
  end.
(** [_match_arguments_partial(actions, pattern)]: as many of the first [i]
    actions as match. *)
Fixpoint match_partial (i : nat) (actions : list positional) (pat : string) : list nat :=
  match i with
  | 0 => []
  | S i' =>
      match re_match (compiled no_flags (sconcat (map (λ a, nargs_pattern (pos_nargs a)) (take i actions)))) pat with
      | Some m => map (λ g, String.length (group_or m g)) (seq 1 i)
      | None => match_partial i' actions pat
      end
  end.

Fixpoint remove_first (x : string) (l : list string) : list string :=
  match l with
  | [] => []
  | y :: l => if (y =? x)%string then l else y :: remove_first x l
  end.
(** [_get_values(action, args)], without defaults: the positional arguments of
    the commands have none. *)
Definition positional_value (a : positional) (args : list string) : option value :=
  match pos_nargs a, args with
  | Maybe, [] => Some VNone
  | (One | Maybe), [x] => pos_conv a x
  | _, _ => Some (VList args)
  end.
Definition take_positional (a : positional) (args : list string) : ST parsing unit :=
  modify (note_seen (pos_dest a)) ;;
  match pos_nargs a with
  | Subcommand =>
      match args with
      | name :: args =>
          run ← or_usage (subcommand name);
          r ← lift_res (run args);
          for_each (fst r) (λ '(key, v), modify (set_value key v)) ;;
          modify (add_unrecognized (snd r))
      | [] => raise usage_error
      end
  | _ =>
      v ← or_usage (positional_value a (remove_first "--" args));
      modify (set_value (pos_dest a) v)
  end.
(** [consume_positionals(start_index)] *)
Definition consume_positionals (l : words) : ST parsing words :=
  actions ← gets left;
  let counts := match_partial (length actions) actions (pattern_of l) in
  l ← for_acc (zip actions counts) l (λ l '(a, n),
    take_positional a (map fst (take n l)) ;; mret (drop n l));
  modify (set_left (drop (length counts) actions)) ;;
  mret l.

(** ** The loop *)

(** While there is an option ahead: the positional arguments before it, or the
    words before it that nobody takes and the option. *)
Fixpoint parse_loop (fuel : nat) (l : words) : ST parsing words :=
  if existsb is_option l then
    match fuel with
    | 0 => raise (OutOfFuel "_parse_known_args")
    | S fuel =>
        match l with
        | (_, MarkO t) :: rest => rest ← consume_optional t rest; parse_loop fuel rest
        | _ =>
            rest ← consume_positionals l;
            if length rest <? length l then parse_loop fuel rest
            else
              modify (add_extras (until_option l)) ;;
              match from_option l with
              | (_, MarkO t) :: rest => rest ← consume_optional t rest; parse_loop fuel rest
              | _ => mret []
              end
        end
    end
  else mret l.

(** What is checked at the end: required arguments; and the default of an
    option that was not given is converted. *)
Definition required (a : positional) : bool :=
  match pos_nargs a with One | Any | Several => true | Maybe | Subcommand => false end.
Definition convert_default (o : optional) : ST parsing unit :=
  seen ← gets seen_actions;
  match act o, dflt o with
  | Store conv, VStr s =>
      when (negb (smem (dest o) seen)) (v ← or_usage (conv s); modify (set_value (dest o) v))
  | _, _ => mret tt
  end.
Definition check_required : ST parsing unit :=
  seen ← gets seen_actions;
  when (existsb (λ a, required a && negb (smem (pos_dest a) seen)) (positionals p))
    (raise usage_error).

Definition initial_namespace : dict value :=
  let d := fold_left (λ d o, match act o with Help => d | _ => dset d (dest o) (dflt o) end)
             (optionals p) [] in
  let d := fold_left (λ d a, match pos_nargs a with Subcommand => d | _ => dset d (pos_dest a) VNone end)
             (positionals p) d in
  fold_left (λ d '(k, v), if dmem d k then d else dset d k v) (defaults p) d.
(** [parse_known_args(args)] *)
Definition parse_known (l : words) : ST parsing unit :=
  l ← parse_loop (length l) l;
  l ← consume_positionals l;
  modify (add_extras (map fst l)) ;;
  for_each (optionals p) convert_default ;;
  check_required.
Definition parse_known_args (args : list string) : res parsed :=
  match marks p args with
  | Raise e => Raise e
  | Ok l =>
      match parse_known l (Parsing initial_namespace [] [] (positionals p) [] []) with
      | (s, Ok _) => Ok (namespace s, extras s ++ unrecognized s)
      | (_, Raise e) => Raise e
      end
  end.
(** [parse_args(args)] *)
Definition parse_args (args : list string) : res (dict value) :=
  match parse_known_args args with
  | Ok (ns, []) => Ok ns
  | Ok (_, _ :: _) => Raise usage_error
  | Raise e => Raise e
  end.
End Parse.

Definition no_subcommand : string → option (list string → res parsed) := λ _, None.

(** ** Reading the namespace *)

Definition as_bool (d : dict value) (dest : string) : bool :=
  match dget d dest with Some (VBool b) => b | _ => false end.
Definition as_str (d : dict value) (dest : string) : option string :=
  match dget d dest with Some (VStr s) => Some s | _ => None end.
Definition as_list (d : dict value) (dest : string) : option (list string) :=
  match dget d dest with Some (VList l) => Some l | _ => None end.
Definition as_tuple (d : dict value) (dest : string) : option (list Z) :=
  match dget d dest with Some (VTuple t) => Some t | _ => None end.
Definition as_tuples (d : dict value) (dest : string) : list (list Z) :=
  match dget d dest with Some (VTuples l) => l | _ => [] end.
Definition as_nat (d : dict value) (dest : string) : nat :=
  match dget d dest with Some (VNat n) => n | _ => 0 end.
