(* ===== verification/ArgparseSpec.v ===== *)
(** * ArgparseSpec: how a parser of arguments runs, and what it gives *)

From S2P Require Import Prelude PyStr PyNum PyRe PyReSyntax PyReTheory Argparse.

(** ** Words *)

(** A word that is no option for any parser. *)
Definition no_dash (a : string) : bool := negb (startswith "-" a).
Lemma parse_optional_word p a : no_dash a = true → parse_optional p a = Ok None.
Proof.
  unfold no_dash. destruct a as [|c a]; [done|]. cbn [startswith parse_optional].
  rewrite Ascii.eqb_sym. destruct (c =? "-")%char; [|done]. by destruct a.
Qed.
Lemma marks_word p a args l : no_dash a = true → marks p args = Ok l →
  marks p (a :: args) = Ok ((a, MarkA) :: l).
Proof.
  intros Ha Hl. cbn [marks]. destruct (String.eqb_spec a "--") as [->|_]; [done|].
  by rewrite parse_optional_word, Hl.
Qed.
(** The word of an option, as it is declared. *)
Definition given_option (o : optional) (s : string) : string * mark :=
  (s, MarkO (Occurrence (Some o) s None)).
Lemma marks_option p s o args l : option_of p s = Some o → no_dash s = false → s ≠ "--" →
  marks p args = Ok l → marks p (s :: args) = Ok (given_option o s :: l).
Proof.
  intros Ho Hs Hn Hl. cbn [marks]. rewrite (proj2 (String.eqb_neq s "--")) by done.
  assert (parse_optional p s = Ok (Some (Occurrence (Some o) s None))) as ->; [|by rewrite Hl].
  destruct s as [|c s]; [done|]. unfold no_dash in Hs. cbn [startswith] in Hs.
  cbn [parse_optional]. rewrite Ascii.eqb_sym in Hs. destruct (c =? "-")%char; [|done].
  cbn [negb]. by rewrite Ho.
Qed.

(** ** Turns of the loop *)

Section Loop.
Context (p : parser) (sub : string → option (list string → res parsed)).

Lemma parse_loop_flag fuel o s rest st : takes_value (act o) = false →
  parse_loop p sub (S fuel) (given_option o s :: rest) st
  = (take_option p (o, [], s) ;; parse_loop p sub fuel rest) st.
Proof.
  intros Ho. unfold given_option. cbn [parse_loop existsb is_option snd orb].
  unfold consume_optional. cbn [occ_option occ_explicit occ_string]. unfold with_next. rewrite Ho.
  unfold mbind, ST_bind, lift_res, mret, ST_ret. cbn [for_each fst snd].
  unfold mbind, ST_bind, mret, ST_ret.
  by destruct (take_option p (o, [], s) st) as [st' [[]|e]].
Qed.
Definition takes_one (a : action) : bool := match a with Store _ | Append => true | _ => false end.
Lemma parse_loop_value fuel o s a rest st : takes_one (act o) = true →
  parse_loop p sub (S fuel) (given_option o s :: (a, MarkA) :: rest) st
  = (take_option p (o, [a], s) ;; parse_loop p sub fuel rest) st.
Proof.
  intros Ho. unfold given_option. cbn [parse_loop existsb is_option snd orb].
  unfold consume_optional. cbn [occ_option occ_explicit occ_string].
  assert (with_next o s ((a, MarkA) :: rest) = Ok ([(o, [a], s)], rest)) as ->.
  { unfold with_next. by destruct (act o). }
  unfold mbind, ST_bind, lift_res, mret, ST_ret. cbn [for_each fst snd].
  unfold mbind, ST_bind, mret, ST_ret.
  by destruct (take_option p (o, [a], s) st) as [st' [[]|e]].
Qed.
Lemma parse_loop_done fuel l st : existsb is_option l = false →
  parse_loop p sub fuel l st = (st, Ok l).
Proof. intros Hl. by destruct fuel; cbn [parse_loop]; rewrite Hl. Qed.
(** A whole run, when every word is taken and no default is a text. *)
Lemma parse_args_run args l s1 rest s2 :
  marks p args = Ok l →
  parse_loop p sub (length l) l (Parsing (initial_namespace p) [] [] (positionals p) [] []) = (s1, Ok rest) →
  consume_positionals sub rest s1 = (s2, Ok []) →
  for_each (optionals p) convert_default s2 = (s2, Ok tt) → check_required p s2 = (s2, Ok tt) →
  extras s2 = [] → unrecognized s2 = [] → parse_args p sub args = Ok (namespace s2).
Proof.
  intros Hm Hl Hc Hd Hr He Hu. unfold parse_args, parse_known_args. rewrite Hm.
  assert (add_extras (map fst ([] : words)) s2 = s2) as Ha.
  { destruct s2 as [? ? ? ? e ?]. unfold add_extras. f_equal. apply (app_nil_r e). }
  unfold parse_known, mbind, ST_bind. rewrite Hl, Hc. unfold modify. rewrite Ha, Hd, Hr.
  by rewrite He, Hu.
Qed.
End Loop.

(** An option that conflicts with none of those taken before it. *)
Lemma take_option_free p o args s st : is_Some (convert (act o) args) →
  existsb (λ d, smem d (set_add (seen_non_default st) (dest o))) (conflicts p (dest o)) = false →
  take_option p (o, args, s) st
  = run_action o args s (note_non_default (dest o) (note_seen (dest o) st)).
Proof.
  intros [v Ha] Hc. unfold take_option, mbind, ST_bind, modify, gets, or_usage. rewrite Ha.
  unfold mret, ST_ret.
  change (seen_non_default (note_non_default (dest o) (note_seen (dest o) st)))
    with (set_add (seen_non_default st) (dest o)).
  by rewrite Hc.
Qed.

Lemma nodup_map_inj {A B} (f : A → B) l x y :
  NoDup (map f l) → x ∈ l → y ∈ l → f x = f y → x = y.
Proof.
  induction l as [|z l IH]; [by intros _ ?%elem_of_nil|]. cbn [map].
  intros [Hz Hn]%NoDup_cons [->|Hx]%elem_of_cons [->|Hy]%elem_of_cons He; [done| | |by apply IH].
  - exfalso. apply Hz. rewrite He. by apply list_elem_of_fmap_2.
  - exfalso. apply Hz. rewrite <- He. by apply list_elem_of_fmap_2.
Qed.

(** ** Every run ends, and values have their types *)

(** What an argument that was given leaves in the namespace. *)
Definition fits (o : optional) (v : value) : Prop :=
  match act o with
  | StoreTrue => v = VBool true
  | StoreFalse => v = VBool false
  | CountUp => ∃ n, v = VNat (S n)
  | BooleanOptional => ∃ b, v = VBool b
  | Help => False
  | Store conv => ∃ s, conv s = Some v
  | StoreN n const conv => (n = Maybe ∧ v = const) ∨ ∃ l, conv l = Some v
  | Append => ∃ l, l ≠ [] ∧ v = VList l
  end.
Definition fits_pos (a : positional) (v : value) : Prop :=
  match pos_nargs a with
  | One => (∃ s, pos_conv a s = Some v) ∨ ∃ l, v = VList l
  | Maybe => v = VNone ∨ (∃ s, pos_conv a s = Some v) ∨ ∃ l, v = VList l
  | _ => ∃ l, v = VList l
  end.
(** An option that was not given keeps its default, which for [store] is not a
    text: that would have been converted. *)
Definition stays (o : optional) (v : value) : Prop :=
  v = dflt o ∧ ∀ conv s, act o = Store conv → v ≠ VStr s.
Definition well_typed (p : parser) (ns : dict value) : Prop :=
  (∀ o, o ∈ optionals p → act o ≠ Help → ∃ v, dget ns (dest o) = Some v ∧ (fits o v ∨ stays o v)) ∧
  (∀ a, a ∈ positionals p → ∃ v, dget ns (pos_dest a) = Some v ∧ (fits_pos a v ∨ v = VNone ∧ required a = false)).

Definition leaves (e : exn) : Prop := e = usage_error ∨ e = help_exit.
Definition ends {A} (r : res A) : Prop := match r with Ok _ => True | Raise e => leaves e end.

Section Typed.
Context (p : parser) (sub : string → option (list string → res parsed)).
Context (dests_nodup : NoDup (map dest (optionals p) ++ map pos_dest (positionals p))).
Context (sub_ends : ∀ name run args, sub name = Some run → ends (run args)).

(** The invariant of a run; a subcommand may write what it wants. *)
Definition typed_with (given ungiven : optional → value → Prop) (s : parsing) : Prop :=
  (∀ o, o ∈ optionals p → act o ≠ Help → ∃ v, dget (namespace s) (dest o) = Some v ∧
     (dest o ∈ seen_actions s → given o v) ∧ (dest o ∉ seen_actions s → ungiven o v)) ∧
  (∀ a, a ∈ positionals p → ∃ v, dget (namespace s) (pos_dest a) = Some v ∧
     (pos_dest a ∈ seen_actions s → fits_pos a v) ∧ (pos_dest a ∉ seen_actions s → v = VNone)).
Definition plain : Prop := Forall (λ a, pos_nargs a ≠ Subcommand) (positionals p).
Definition inv (s : parsing) : Prop :=
  left s ⊆ positionals p ∧ (plain → typed_with fits (λ o v, v = dflt o) s).

Lemma dest_inj o o' : o ∈ optionals p → o' ∈ optionals p → dest o = dest o' → o = o'.
Proof. apply (nodup_map_inj dest). by apply NoDup_app in dests_nodup as [? _]. Qed.
Lemma pos_inj a a' : a ∈ positionals p → a' ∈ positionals p → pos_dest a = pos_dest a' → a = a'.
Proof. apply (nodup_map_inj pos_dest). by apply NoDup_app in dests_nodup as (_ & _ & ?). Qed.
Lemma dest_pos o a : o ∈ optionals p → a ∈ positionals p → dest o ≠ pos_dest a.
Proof.
  intros Ho Ha He. apply NoDup_app in dests_nodup as (_ & Hd & _).
  apply (Hd (dest o)); [by apply list_elem_of_fmap_2|]. rewrite He. by apply list_elem_of_fmap_2.
Qed.

(** An argument gets its value. *)
Lemma option_set o v s : o ∈ optionals p → fits o v → inv s →
  inv (set_value (dest o) v (note_non_default (dest o) (note_seen (dest o) s))).
Proof.
  intros Ho Hv [Hl Ht]. split; [done|]. intros Hp. destruct (Ht Hp) as [H1 H2].
  split; [intros o' Ho' Ha|intros a Ha]; cbn [namespace seen_actions set_value note_non_default note_seen];
    setoid_rewrite set_add_in.
  - destruct (decide (dest o' = dest o)) as [E|E].
    + apply dest_inj in E as ->; [|done|done]. exists v. rewrite dget_dset_eq.
      split; [done|]. split; [done|]. intros []. by left.
    + rewrite dget_dset_ne by done. destruct (H1 o' Ho' Ha) as (w & Hw & Hs & Hn). exists w.
      split; [done|]. split; [intros [H|H]; [done|by apply Hs]|]. intros H. apply Hn. tauto.
  - pose proof (dest_pos o a Ho Ha) as E. rewrite dget_dset_ne by done.
    destruct (H2 a Ha) as (w & Hw & Hs & Hn). exists w. split; [done|].
    split; [intros [H|H]; [done|by apply Hs]|]. intros H. apply Hn. tauto.
Qed.
Lemma positional_set a v s : a ∈ positionals p → fits_pos a v → inv s →
  inv (set_value (pos_dest a) v (note_seen (pos_dest a) s)).
Proof.
  intros Ha Hv [Hl Ht]. split; [done|]. intros Hp. destruct (Ht Hp) as [H1 H2].
  split; [intros o Ho Hact|intros a' Ha']; cbn [namespace seen_actions set_value note_seen];
    setoid_rewrite set_add_in.
  - pose proof (dest_pos o a Ho Ha) as E. rewrite dget_dset_ne by done.
    destruct (H1 o Ho Hact) as (w & Hw & Hs & Hn). exists w. split; [done|].
    split; [intros [H|H]; [done|by apply Hs]|]. intros H. apply Hn. tauto.
  - destruct (decide (pos_dest a' = pos_dest a)) as [E|E].
    + apply pos_inj in E as ->; [|done|done]. exists v. rewrite dget_dset_eq.
      split; [done|]. split; [done|]. intros []. by left.
    + rewrite dget_dset_ne by done. destruct (H2 a' Ha') as (w & Hw & Hs & Hn). exists w.
      split; [done|]. split; [intros [H|H]; [done|by apply Hs]|]. intros H. apply Hn. tauto.
Qed.

(** What an option is given: a word for those that append. *)
Definition well_given (t : optional * list string * string) : Prop :=
  let '(o, args, _) := t in o ∈ optionals p ∧ (act o = Append → ∃ a, args = [a]).
Lemma convert_fits o args v : match act o with Store _ | StoreN _ _ _ => True | _ => False end →
  convert (act o) args = Some v → fits o v.
Proof.
  unfold fits. destruct (act o) as [| | | | |conv|n const conv|]; try done; cbn; intros _ H; [by eexists|].
  destruct n; [by right; eexists| |by right; eexists..]. destruct args; [|by right; eexists].
  left. by injection H as <-.
Qed.
Lemma take_option_inv t : well_given t → hoare inv (take_option p t) (λ _, inv) leaves.
Proof.
  destruct t as [[o args] name]. intros [Ho Hargs] s Hs. unfold take_option, mbind, ST_bind, modify, gets.
  assert (∀ v, fits o v → inv (set_value (dest o) v (note_non_default (dest o) (note_seen (dest o) s)))) as Hset.
  { intros v Hv. by apply option_set. }
  unfold or_usage at 1. destruct (convert (act o) args) as [v|] eqn:Ev; [|by left].
  unfold mret, ST_ret.
  match goal with |- context [when ?b _] => destruct b; [by left|] end. cbn [when mret ST_ret].
  pose proof (convert_fits o args v) as Hfits.
  unfold run_action, or_usage, get_value, mbind, ST_bind, modify, gets, mret, ST_ret.
  unfold fits in Hset, Hfits. rewrite Ev. destruct (act o) as [| | | | |conv|n const conv|] eqn:Ea.
  - by apply Hset.
  - by apply Hset.
  - apply Hset. destruct (default _ _); eauto.
  - apply Hset. eauto.
  - by right.
  - by apply Hset, Hfits.
  - by apply Hset, Hfits.
  - apply Hset. destruct (Hargs eq_refl) as [a ->]. eexists. split; [|done]. by destruct (match _ with VList _ => _ | _ => _ end).
Qed.

(** Words whose options are options of the parser. *)
Definition good_word (w : string * mark) : Prop :=
  match snd w with MarkO t => ∀ o, occ_option t = Some o → o ∈ optionals p | _ => True end.
Definition within (rest : words) (l : words) : Prop := Forall good_word l ∧ length l ≤ length rest.

Lemma option_map_in name o : (name, o) ∈ option_map p → o ∈ optionals p.
Proof.
  unfold option_map. rewrite list_elem_of_In, in_flat_map. intros (o' & Ho & Hin).
  apply in_map_iff in Hin as (x & [= _ <-] & _). by apply list_elem_of_In.
Qed.
Lemma dget_in {V} (d : dict V) k v : dget d k = Some v → (k, v) ∈ d.
Proof.
  induction d as [|[k' v'] d IH]; [done|]. cbn [dget]. destruct (String.eqb_spec k' k) as [->|].
  - intros [= ->]. by left.
  - intros H. right. by apply IH.
Qed.
Lemma option_of_in name o : option_of p name = Some o → o ∈ optionals p.
Proof. intros H. by eapply option_map_in, dget_in. Qed.

Lemma option_tuples_in arg t o :
  t ∈ get_option_tuples p arg → occ_option t = Some o → o ∈ optionals p.
Proof.
  unfold get_option_tuples. intros Ht Ho.
  assert (∃ name, (name, o) ∈ option_map p) as [name Hn]; [|by eapply option_map_in].
  destruct (startswith "--" arg).
  - destruct (match split_at_most 1 "=" arg with [a; b] => _ | _ => _ end) as [prefix explicit].
    apply list_elem_of_In, in_flat_map in Ht as ([name o'] & Hin & Ht). exists name.
    destruct (startswith prefix name); [|done]. destruct Ht as [<-|[]]. cbn in Ho. injection Ho as <-.
    by apply list_elem_of_In.
  - apply list_elem_of_In, in_flat_map in Ht as ([name o'] & Hin & Ht). exists name.
    apply list_elem_of_In. destruct (name =? str_take 2 arg)%string.
    { destruct Ht as [<-|[]]. cbn in Ho. by injection Ho as <-. }
    destruct (startswith arg name); [|done]. destruct Ht as [<-|[]]. cbn in Ho. by injection Ho as <-.
Qed.
Lemma abbreviated_ok arg : match abbreviated p arg with
  | Ok (Some t) => ∀ o, occ_option t = Some o → o ∈ optionals p | Ok None => True | Raise e => leaves e end.
Proof.
  unfold abbreviated. destruct (get_option_tuples p arg) as [|t [|? ?]] eqn:E.
  - by destruct (_ || _).
  - intros o Ho. eapply option_tuples_in; [|exact Ho]. rewrite E. by left.
  - by left.
Qed.
Lemma parse_optional_ok arg : match parse_optional p arg with
  | Ok (Some t) => ∀ o, occ_option t = Some o → o ∈ optionals p | Ok None => True | Raise e => leaves e end.
Proof.
  destruct arg as [|c rest]; [done|]. cbn [parse_optional]. destruct (negb _); [done|].
  destruct (option_of p (String c rest)) as [o|] eqn:Eo.
  { cbn. intros o' [= <-]. by eapply option_of_in. }
  destruct (rest =? "")%string; [done|].
  destruct (split_at_most 1 "=" (String c rest)) as [|name [|explicit [|? ?]]]; try apply abbreviated_ok.
  destruct (option_of p name) as [o|] eqn:En; [|apply abbreviated_ok].
  cbn. intros o' [= <-]. by eapply option_of_in.
Qed.
Lemma marks_ok args : match marks p args with Ok l => Forall good_word l | Raise e => leaves e end.
Proof.
  induction args as [|arg args IH]; [by constructor|]. cbn [marks]. destruct (arg =? "--")%string.
  { constructor; [done|]. by apply Forall_map, Forall_true. }
  pose proof (parse_optional_ok arg) as H. destruct (parse_optional p arg) as [t|e]; [|done].
  destruct (marks p args) as [l|e]; [|done]. constructor; [|done]. by destruct t.
Qed.

Definition chain_ok (rest : words) (r : res (list (optional * list string * string) * words)) : Prop :=
  match r with
  | Ok (l, rest') => Forall well_given l ∧ within rest rest'
  | Raise e => leaves e
  end.
Lemma with_next_ok o name rest : o ∈ optionals p → Forall good_word rest → chain_ok rest (with_next o name rest).
Proof.
  intros Ho Hr. unfold with_next. destruct (takes_value (act o)) eqn:E.
  - cbv zeta. destruct (words_taken _ _) as [n|] eqn:En; [|by left]. split.
    + apply Forall_singleton. split; [done|]. intros Ea. rewrite Ea in En. cbn [words_taken] in En.
      destruct (leading rest) as [|a ahead]; [done|]. injection En as <-. by exists a.
    + split; [by apply Forall_drop|]. rewrite length_drop. lia.
  - split; [|by split]. apply Forall_singleton. split; [done|]. intros Ea. by rewrite Ea in E.
Qed.
Lemma with_explicit_ok explicit : ∀ o name rest, o ∈ optionals p → Forall good_word rest →
  chain_ok rest (with_explicit p o name explicit rest).
Proof.
  induction explicit as [|c explicit IH]; intros o name rest Ho Hr; cbn [with_explicit];
    destruct (takes_value (act o)) eqn:E; try by left.
  1, 2: split; [|by split]; apply Forall_singleton; split; [done|eauto].
  destruct (startswith "--" name); [by left|].
  destruct (option_of p ("-" +:+ String c "")) as [o'|] eqn:Eo; [|by left].
  apply option_of_in in Eo.
  assert (chain_ok rest (match explicit with
    | "" => with_next o' ("-" +:+ String c "") rest
    | _ => with_explicit p o' ("-" +:+ String c "") explicit rest end)) as H.
  { destruct explicit; [by apply with_next_ok|by apply IH]. }
  destruct (match explicit with "" => _ | _ => _ end) as [[l rest']|e]; [|done].
  destruct H as [Hl Hw]. split; [|done]. constructor; [|done]. split; [done|]. intros Ea. by rewrite Ea in E.
Qed.
Lemma consume_optional_inv t rest :
  (∀ o, occ_option t = Some o → o ∈ optionals p) → Forall good_word rest →
  hoare inv (consume_optional p t rest) (λ l s, inv s ∧ within rest l) leaves.
Proof.
  intros Ht Hr. unfold consume_optional. destruct (occ_option t) as [o|].
  - specialize (Ht o eq_refl).
    assert (chain_ok rest (match occ_explicit t with
              | None => with_next o (occ_string t) rest
              | Some e => with_explicit p o (occ_string t) e rest end)) as Hc.
    { destruct (occ_explicit t); [by apply with_explicit_ok|by apply with_next_ok]. }
    destruct (match occ_explicit t with None => _ | Some _ => _ end) as [[l rest']|e]; [|intros s _; exact Hc].
    destruct Hc as [Hl Hw]. eapply hoare_bind; [apply hoare_lift; done|].
    intros r. apply hoare_pure. intros [= <-]. cbn [fst snd].
    eapply hoare_seq; [|by apply hoare_ret_post].
    apply hoare_for_each. intros x Hx. apply take_option_inv.
    by apply (proj1 (Forall_forall _ _) Hl).
  - eapply hoare_seq; [apply (hoare_modify _ _ inv)|apply hoare_ret_post].
    + by intros s [? ?].
    + intros s Hs. split; [done|]. by split.
Qed.

(** Positional arguments. *)
Lemma positional_fits a args v : pos_nargs a ≠ Subcommand → positional_value a args = Some v → fits_pos a v.
Proof.
  unfold fits_pos, positional_value.
  destruct (pos_nargs a); [| | | |done]; intros _; destruct args as [|x [|y args]]; intros H;
    try (injection H as <-); eauto 6.
Qed.
Lemma take_positional_inv a args : a ∈ positionals p →
  hoare inv (take_positional sub a args) (λ _, inv) leaves.
Proof.
  intros Ha. unfold take_positional. destruct (decide (pos_nargs a = Subcommand)) as [E|E].
  - assert (¬ plain) as Hp by (intros H; by apply (proj1 (Forall_forall _ _) H a Ha)).
    assert (∀ f : parsing → parsing, (∀ s, left (f s) = left s) →
              hoare inv (modify f) (λ _, inv) leaves) as Hf.
    { intros f Hf. apply hoare_modify. intros s [Hs _]. split; [by rewrite Hf|done]. }
    eapply hoare_seq; [by apply Hf|]. rewrite E. destruct args as [|name args]; [apply hoare_raise; by left|].
    eapply (hoare_bind _ _ (λ run s, sub name = Some run ∧ inv s)).
    { unfold or_usage. destruct (sub name) as [run|]; [by apply hoare_ret_post|apply hoare_raise; by left]. }
    intros run. apply hoare_pure. intros Hrun. apply sub_ends with (args := args) in Hrun.
    eapply hoare_bind; [apply hoare_lift; by destruct (run args)|]. intros r. apply hoare_pure. intros _.
    eapply hoare_seq; [|by apply Hf]. apply hoare_for_each. intros [k v] _. by apply Hf.
  - intros s Hs. unfold mbind, ST_bind, modify.
    pose proof (positional_fits a (remove_first "--" args)) as Hv.
    unfold or_usage. destruct (positional_value a (remove_first "--" args)) as [v|]; cbn.
    + pose proof (positional_set a v s Ha (Hv v E eq_refl) Hs) as H. by destruct (pos_nargs a).
    + destruct (pos_nargs a); (by left) || done.
Qed.
Lemma consume_positionals_inv l : Forall good_word l →
  hoare inv (consume_positionals sub l) (λ rest s, inv s ∧ within l rest) leaves.
Proof.
  intros Hl s Hs. unfold consume_positionals, mbind, ST_bind at 1, gets.
  set (actions := left s). set (counts := match_partial _ _ _).
  assert (hoare inv (for_acc (zip actions counts) l (λ l '(a, n),
            take_positional sub a (map fst (take n l)) ;; mret (drop n l)))
            (λ rest s, within l rest ∧ inv s) leaves) as H.
  { apply (hoare_pre _ _ (λ s, within l l ∧ inv s)); [|intros s1 Hs1; split; [by split|exact Hs1]].
    apply (hoare_for_acc_in leaves (λ rest s, within l rest ∧ inv s)). intros rest [a n] Hin.
    apply elem_of_zip_l in Hin. apply hoare_pure. intros [Hg Hlen].
    eapply hoare_seq; [apply take_positional_inv; by apply (proj1 Hs)|].
    apply hoare_ret_post. intros s' Hs'. split; [|done]. split; [by apply Forall_drop|].
    rewrite length_drop. lia. }
  specialize (H s Hs). unfold mbind, ST_bind in *. destruct (for_acc _ _ _ s) as [s' [rest|e]]; [|done].
  unfold modify, mret, ST_ret. destruct H as [Hw [Hleft Ht]]. split; [|done]. split; [|exact Ht].
  cbn [left set_left]. intros a Ha. apply (proj1 Hs). by eapply subseteq_drop.
Qed.

(** The loop: its fuel is enough. *)
Lemma from_option_ok l : existsb is_option l = true → Forall good_word l →
  ∃ a t rest, from_option l = (a, MarkO t) :: rest ∧ (∀ o, occ_option t = Some o → o ∈ optionals p) ∧
    Forall good_word rest ∧ length rest < length l.
Proof.
  induction l as [|[a m] l IH]; [done|]. cbn [existsb from_option]. intros He [Hm Hl]%Forall_cons.
  destruct m as [t| |]; cbn [is_option snd orb] in *.
  - exists a, t, l. cbn. by repeat split; [..|lia].
  - destruct (IH He Hl) as (b & t & rest & ? & ? & ? & ?). exists b, t, rest. cbn. by repeat split; [..|lia].
  - destruct (IH He Hl) as (b & t & rest & ? & ? & ? & ?). exists b, t, rest. cbn. by repeat split; [..|lia].
Qed.
Lemma parse_loop_inv fuel : ∀ l, length l ≤ fuel → Forall good_word l →
  hoare inv (parse_loop p sub fuel l) (λ l s, inv s ∧ Forall good_word l) leaves.
Proof.
  induction fuel as [|fuel IH]; intros l Hlen Hl; destruct (existsb is_option l) eqn:E.
  1: by destruct l; [|cbn in Hlen; lia].
  1, 3: cbn [parse_loop]; rewrite E; by apply hoare_ret_post.
  assert (∀ t rest, length rest < length l → (∀ o, occ_option t = Some o → o ∈ optionals p) →
    Forall good_word rest → hoare inv (rest ← consume_optional p t rest; parse_loop p sub fuel rest)
      (λ l s, inv s ∧ Forall good_word l) leaves) as Hopt.
  { intros t rest Hr Ht Hg. eapply hoare_bind; [by apply consume_optional_inv|].
    intros rest' s [Hs [Hg' Hlen']]. apply IH; [lia|done|done]. }
  assert (hoare inv (rest ← consume_positionals sub l;
    if length rest <? length l then parse_loop p sub fuel rest
    else modify (add_extras (until_option l)) ;;
         match from_option l with
         | (_, MarkO t) :: rest => rest ← consume_optional p t rest; parse_loop p sub fuel rest
         | _ => mret []
         end) (λ l s, inv s ∧ Forall good_word l) leaves) as Hpos.
  { eapply hoare_bind; [by apply consume_positionals_inv|].
    intros rest s [Hs [Hg Hlen']]. destruct (Nat.ltb_spec (length rest) (length l)).
    - apply IH; [lia|done|done].
    - destruct (from_option_ok l E Hl) as (a & t & rest' & -> & Ht & Hg' & Hlt).
      revert s Hs. apply hoare_seq with (R := inv); [|by apply Hopt].
      apply hoare_modify. by intros s [? ?]. }
  cbn [parse_loop]. rewrite E. destruct l as [|[a [t| |]] rest]; [done| |exact Hpos|exact Hpos].
  apply Forall_cons in Hl as [Ht Hr]. apply Hopt; [cbn; lia|exact Ht|exact Hr].
Qed.

(** The defaults of the options that were not given. *)
Definition settled (o : optional) (v : value) : Prop := fits o v ∨ stays o v.
Definition pending (l : list optional) (o : optional) (v : value) : Prop :=
  (o ∉ l → settled o v) ∧ (o ∈ l → v = dflt o).
Lemma typed_ungiven (P Q : optional → value → Prop) s :
  (∀ o v, o ∈ optionals p → (dest o ∉ seen_actions s) → P o v → Q o v) →
  typed_with fits P s → typed_with fits Q s.
Proof.
  intros HPQ [H1 H2]. split; [|exact H2]. intros o Ho Ha. destruct (H1 o Ho Ha) as (v & Hv & Hs & Hn).
  exists v. split; [done|]. split; [done|]. intros H. apply HPQ; [done..|by apply Hn].
Qed.
Lemma convert_default_inv o l : o ∈ optionals p → o ∉ l →
  hoare (λ s, plain → typed_with fits (pending (o :: l)) s) (convert_default o)
    (λ _ s, plain → typed_with fits (pending l) s) leaves.
Proof.
  intros Ho Hl s Hs. unfold convert_default, mbind, ST_bind at 1, gets.
  assert ((∀ conv t, act o = Store conv → dflt o ≠ VStr t) →
          plain → typed_with fits (pending l) s) as Hstay.
  { intros Hst Hp. eapply typed_ungiven; [|by apply Hs]. intros o' v Ho' _ [H1 H2]. split.
    - intros Hn. destruct (decide (dest o' = dest o)) as [->%dest_inj|E]; [|done|done|].
      + right. specialize (H2 ltac:(by left)) as ->. split; [done|exact Hst].
      + apply H1. intros [->|H]%elem_of_cons; done.
    - intros H. apply H2. by right. }
  destruct (act o) as [| | | | |conv| |] eqn:Ea.
  1, 2, 3, 4, 5, 7, 8: exact (Hstay ltac:(intros ? ?; congruence)).
  destruct (dflt o) as [| | | |t| | |] eqn:Ed.
  1, 2, 3, 4, 6, 7, 8: exact (Hstay ltac:(intros ? ?; congruence)).
  clear Hstay. destruct (smem (dest o) (seen_actions s)) eqn:Es; cbn [negb when].
  - intros Hp. apply smem_iff in Es. eapply typed_ungiven; [|by apply Hs].
    intros o' v Ho' Hseen [H1 H2]. split; [|intros H; apply H2; by right].
    intros Hn. apply H1. intros [->|H]%elem_of_cons; done.
  - destruct (conv t) as [v|] eqn:Ev; [|by left]. cbn. intros Hp.
    assert (dest o ∉ seen_actions s) as Hseen by (intros H%smem_iff; congruence).
    destruct (Hs Hp) as [H1 H2]. split.
    + intros o' Ho' Ha'. cbn [namespace set_value seen_actions].
      destruct (decide (dest o' = dest o)) as [->%dest_inj|E]; [|done|done|].
      * exists v. rewrite dget_dset_eq. split; [done|]. split; [done|]. intros _. split; [|done].
        intros _. left. unfold fits. rewrite Ea. eauto.
      * rewrite dget_dset_ne by done. destruct (H1 o' Ho' Ha') as (w & Hw & Hg & Hu). exists w.
        split; [done|]. split; [done|]. intros Hns. destruct (Hu Hns) as [Hu1 Hu2]. split.
        -- intros Hn. apply Hu1. intros [->|H]%elem_of_cons; done.
        -- intros H. apply Hu2. by right.
    + intros a Ha. cbn [namespace set_value seen_actions].
      rewrite dget_dset_ne by by apply dest_pos. by apply H2.
Qed.
Lemma defaults_inv l : NoDup l → l ⊆ optionals p →
  hoare (λ s, plain → typed_with fits (pending l) s) (for_each l convert_default)
    (λ _ s, plain → typed_with fits settled s) leaves.
Proof.
  induction 1 as [|o l Ho _ IH]; intros Hsub.
  - apply hoare_ret_post. intros s Hs Hp. eapply typed_ungiven; [|by apply Hs].
    intros o v _ _ [H _]. apply H, not_elem_of_nil.
  - cbn [for_each]. eapply hoare_seq; [apply convert_default_inv; [apply Hsub; by left|done]|].
    apply IH. intros x Hx. apply Hsub. by right.
Qed.

Lemma check_required_inv :
  hoare (λ s, plain → typed_with fits settled s) (check_required p)
    (λ _ s, plain → well_typed p (namespace s)) leaves.
Proof.
  intros s Hs. unfold check_required, mbind, ST_bind, gets.
  destruct (existsb _ _) eqn:E; [by left|]. cbn. intros Hp. destruct (Hs Hp) as [H1 H2]. split.
  - intros o Ho Ha. destruct (H1 o Ho Ha) as (v & Hv & Hg & Hu). exists v. split; [done|].
    destruct (decide (dest o ∈ seen_actions s)) as [H|H]; [left; by apply Hg|by apply Hu].
  - intros a Ha. destruct (H2 a Ha) as (v & Hv & Hg & Hu). exists v. split; [done|].
    destruct (decide (pos_dest a ∈ seen_actions s)) as [H|H]; [left; by apply Hg|].
    right. split; [by apply Hu|]. destruct (required a) eqn:Er; [|done].
    assert (existsb (λ a, required a && negb (smem (pos_dest a) (seen_actions s))) (positionals p) = true)
      as Hx; [|congruence].
    apply existsb_exists. exists a. split; [by apply list_elem_of_In|]. rewrite Er.
    destruct (smem _ _) eqn:Es; [by apply smem_iff in Es|done].
Qed.
Lemma parse_known_inv l : Forall good_word l →
  hoare inv (parse_known p sub l) (λ _ s, plain → well_typed p (namespace s)) leaves.
Proof.
  intros Hl. unfold parse_known. eapply hoare_bind; [apply parse_loop_inv; [lia|done]|].
  intros l' s [Hs Hl']. revert s Hs. change (hoare inv (l ← consume_positionals sub l';
    modify (add_extras (map fst l));; for_each (optionals p) convert_default;; check_required p)
    (λ _ s, plain → well_typed p (namespace s)) leaves).
  eapply hoare_bind; [by apply consume_positionals_inv|]. intros rest s [Hs _]. revert s Hs.
  change (hoare inv (modify (add_extras (map fst rest));; for_each (optionals p) convert_default;; check_required p)
    (λ _ s, plain → well_typed p (namespace s)) leaves).
  eapply hoare_seq; [apply (hoare_modify _ _ inv); by intros s [? ?]|].
  eapply hoare_seq; [|apply check_required_inv].
  eapply hoare_pre; [apply defaults_inv; [|done]|].
  - apply NoDup_app in dests_nodup as [Hn _]. by eapply NoDup_fmap_1.
  - intros s [_ Ht] Hp. eapply typed_ungiven; [|by apply Ht]. intros o v Ho _ ->. by split.
Qed.

(** The namespace at the start. *)
Definition fill {A} (key : A → string) (val : A → value) (skip : A → bool) (l : list A)
    (d : dict value) : dict value :=
  fold_left (λ d x, if skip x then d else dset d (key x) (val x)) l d.
Lemma fill_other {A} (key : A → string) val skip l : ∀ d k, k ∉ map key l →
  dget (fill key val skip l d) k = dget d k.
Proof.
  induction l as [|y l IH]; intros d k Hk; [done|]. cbn [map] in Hk.
  apply not_elem_of_cons in Hk as [Hne Hk]. unfold fill in *. cbn [fold_left]. rewrite IH by done.
  destruct (skip y); [done|]. by rewrite dget_dset_ne.
Qed.
Lemma fill_in {A} (key : A → string) val skip l x : ∀ d,
  NoDup (map key l) → x ∈ l → skip x = false → dget (fill key val skip l d) (key x) = Some (val x).
Proof.
  induction l as [|y l IH]; intros d Hn Hx Hs; [by apply elem_of_nil in Hx|].
  cbn [map] in Hn. apply NoDup_cons in Hn as [Hy Hn].
  change (fill key val skip (y :: l) d)
    with (fill key val skip l (if skip y then d else dset d (key y) (val y))).
  apply elem_of_cons in Hx as [->|Hx]; [|by apply IH]. rewrite fill_other by done. rewrite Hs. apply dget_dset_eq.
Qed.
Lemma add_defaults l k v : ∀ d : dict value, dget d k = Some v →
  dget (fold_left (λ d '(k, v), if dmem d k then d else dset d k v) l d) k = Some v.
Proof.
  induction l as [|[k' v'] l IH]; intros d Hd; [done|]. cbn [fold_left]. apply IH.
  destruct (dmem d k') eqn:E; [done|]. rewrite dget_dset_ne; [done|].
  intros ->. unfold dmem in E. by rewrite Hd in E.
Qed.
Definition is_help (o : optional) : bool := match act o with Help => true | _ => false end.
Definition is_subcommand (a : positional) : bool :=
  match pos_nargs a with Subcommand => true | _ => false end.
Lemma initial_fill : initial_namespace p
  = fold_left (λ d '(k, v), if dmem d k then d else dset d k v) (defaults p)
      (fill pos_dest (λ _, VNone) is_subcommand (positionals p)
         (fill dest dflt is_help (optionals p) [])).
Proof.
  assert (∀ l d, fold_left (λ d o, match act o with Help => d | _ => dset d (dest o) (dflt o) end) l d
    = fill dest dflt is_help l d) as H1.
  { induction l as [|o l IH]; intros d; [done|]. unfold fill in *. cbn [fold_left]. rewrite IH.
    unfold is_help. by destruct (act o). }
  assert (∀ l d, fold_left (λ d a, match pos_nargs a with Subcommand => d | _ => dset d (pos_dest a) VNone end) l d
    = fill pos_dest (λ _, VNone) is_subcommand l d) as H2.
  { induction l as [|a l IH]; intros d; [done|]. unfold fill in *. cbn [fold_left]. rewrite IH.
    unfold is_subcommand. by destruct (pos_nargs a). }
  unfold initial_namespace. cbv zeta. by rewrite H1, H2.
Qed.
Lemma initial_inv : inv (Parsing (initial_namespace p) [] [] (positionals p) [] []).
Proof.
  split; [done|]. intros Hp. apply NoDup_app in dests_nodup as Hn. destruct Hn as (Hn1 & Hd & Hn2).
  split; cbn [namespace seen_actions]; rewrite initial_fill.
  - intros o Ho Ha. exists (dflt o). split; [|split; [by intros ?%elem_of_nil|done]].
    apply add_defaults. rewrite fill_other by (apply Hd; by apply list_elem_of_fmap_2).
    apply fill_in; [done|done|]. unfold is_help. by destruct (act o).
  - intros a Ha. exists VNone. split; [|split; [by intros ?%elem_of_nil|done]].
    apply add_defaults. apply (fill_in pos_dest (λ _, VNone)); [done|done|].
    unfold is_subcommand. pose proof (proj1 (Forall_forall _ _) Hp a Ha) as H. cbv beta in H. by destruct (pos_nargs a); [..|destruct (H eq_refl)].
Qed.

(** A run gives a namespace with values of the right types, or ends the
    process. *)
Lemma parse_known_args_ok args :
  match parse_known_args p sub args with
  | Ok (ns, _) => plain → well_typed p ns
  | Raise e => leaves e
  end.
Proof.
  unfold parse_known_args. pose proof (marks_ok args) as Hm. destruct (marks p args) as [l|e]; [|done].
  pose proof (parse_known_inv l Hm _ initial_inv) as H.
  by destruct (parse_known p sub l _) as [s [[]|e]].
Qed.
Lemma parse_args_ok args :
  match parse_args p sub args with
  | Ok ns => plain → well_typed p ns
  | Raise e => leaves e
  end.
Proof.
  unfold parse_args. pose proof (parse_known_args_ok args) as H.
  destruct (parse_known_args p sub args) as [[ns [|x l]]|e]; [done|by left|done].
Qed.
End Typed.
