(* ===== verification/Commands.v ===== *)
(** * Commands: the scripts around other classes

    [parse-headers.py], [get_feat.py] and [get_abi.py]: each reads its arguments
    and calls a class.  The class of the first is [ParseData]; those of the others
    are not part of the repository, and are parameters here. *)

From S2P Require Import Prelude PyStr PyNum PyRe PyReSyntax PyReTheory KdocRe CLex ParseData Argparse.

(** [add_subparsers]: the commands and their parsers. *)
Definition subcommands (commands : list (string * parser)) (name : string)
    : option (list string → res parsed) :=
  (λ p, parse_known_args p no_subcommand) <$> dget commands name.

(** ** Headers *)

Module ParseHeaders.
Definition the_parser : parser := Parser [
    help_option;
    Optional ["-d"; "--debug"] "debug" CountUp (VNat 0);
    store_true ["-t"; "--toc"] "toc"]
  [Positional "file_in" One; Positional "file_out" One; Positional "file_rules" Maybe] [] [].

Section Main.
(** The text of a file, [None] when it cannot be opened. *)
Context (read : string → option string).
Definition no_file {A} : res A := Raise (OSError "No such file or directory").
(** [parser.parse_file(file_in, file_rules)] on a new object. *)
Definition parsed_file (file_in : string) (file_rules : option string) : res ParseDataStructs :=
  let exceptions :=
    match file_rules with
    | Some (String _ _ as f) =>
        match read f with Some text => Ok (Some (f, text)) | None => no_file end
    | _ => Ok None
    end in
  match exceptions with
  | Raise e => Raise e
  | Ok exceptions =>
      match read file_in with
      | Some text =>
          match parse_file text exceptions ParseDataStructs_init with
          | (p, Ok _) => Ok p
          | (_, Raise e) => Raise e
          end
      | None =>
          match read_exceptions exceptions ParseDataStructs_init with
          | (_, Raise e) => Raise e
          | (_, Ok _) => no_file
          end
      end
  end.
(** [main()]: what is printed, and the file that is written. *)
Definition main (argv : list string) : list string * res (string * string) :=
  match parse_args the_parser no_subcommand argv with
  | Raise e => ([], Raise e)
  | Ok args =>
      let file_in := default "" (as_str args "file_in") in
      match parsed_file file_in (as_str args "file_rules") with
      | Raise e => ([], Raise e)
      | Ok p =>
          (if as_nat args "debug" =? 0 then [] else debug_lines p,
           match write_output file_in (as_bool args "toc") p with
           | Ok text => Ok (default "" (as_str args "file_out"), text)
           | Raise e => Raise e
           end)
      end
  end.
End Main.
End ParseHeaders.

(** ** Features *)

Module GetFeat.
Definition DEFAULT_DIR : string := "Documentation/features".

(** What the script uses of [ParseFeature]: an object made of the directory, the
    debug level and [enable_fname]; [parse], which gives data; and its tables. *)
Record features := Features {
  feature_object : Type;
  feature_data : Type;
  new_feature : string → nat → bool → feature_object;
  feature_parse : feature_object → res (feature_object * feature_data);
  pformat_data : feature_data → string;
  output_arch_table : feature_object → string → option string → res string;
  output_feature : feature_object → string → res string;
  output_matrix : feature_object → res string;
  list_arch_features : feature_object → string → option string → res string;
}.

(** The arguments; [--arch] and [--feat] are [parse_arch] and [parse_feat]. *)
Definition parse_arch : optional := store ["--arch"] "arch".
Definition parse_feat : optional := store ["--feat"; "--feature"] "feat".
Definition func (name : string) : dict value := [("func", VStr name)].
Definition current_args : parser := Parser [help_option; parse_feat] [] [] (func "run_current").
Definition rest_args : parser := Parser [help_option; parse_arch; parse_feat] [] [] (func "run_rest").
Definition list_args : parser := Parser [help_option; parse_arch; parse_feat] [] [] (func "run_list").
Definition validate_args : parser := Parser [help_option] [] [] (func "run_parser").
Definition the_parser : parser := Parser [
    help_option;
    Optional ["-d"; "--debug"] "debug" CountUp (VNat 0);
    Optional ["--directory"; "--dir"] "directory" (Store plain_str) (VStr DEFAULT_DIR);
    store_true ["--enable-fname"] "enable_fname"]
  [Positional "" Subcommand] [] [].
Definition commands : list (string * parser) :=
  [("current", current_args); ("rest", rest_args); ("list", list_args); ("validate", validate_args)].

Section Main.
(** [uname] is the output of the command. *)
Context (F : features) (uname : res string).

(** [get_current_arch()] *)
Definition get_current_arch : res string :=
  match uname with
  | Raise e => Raise e
  | Ok stdout =>
      let arch := strip stdout in
      Ok (if smem arch ["x86_64"; "i386"] then "x86" else if (arch =? "s390x")%string then "s390" else arch)
  end.
(** [run_parser(args)] *)
Definition run_parser (args : dict value) : Prints (feature_object F) :=
  r ← lift_res (feature_parse F (new_feature F (default "" (as_str args "directory"))
                                  (as_nat args "debug") (as_bool args "enable_fname")));
  when (2 <? as_nat args "debug") (print (pformat_data F (snd r))) ;;
  mret (fst r).
(** A text that is given and not empty. *)
Definition truthy (o : option string) : option string :=
  match o with Some (String _ _) => o | _ => None end.
(** [run_rest(args)], [run_current(args)] and [run_list(args)] *)
Definition run_rest (args : dict value) : Prints unit :=
  feat ← run_parser args;
  rst ← lift_res (match truthy (as_str args "arch"), truthy (as_str args "feat") with
                  | Some arch, _ => output_arch_table F feat arch (as_str args "feat")
                  | None, Some f => output_feature F feat f
                  | None, None => output_matrix F feat
                  end);
  print rst.
Definition run_current (args : dict value) : Prints unit :=
  arch ← lift_res get_current_arch;
  run_rest (dset args "arch" (VStr arch)).
Definition run_list (args : dict value) : Prints unit :=
  arch ← (match truthy (as_str args "arch") with
          | Some arch => mret arch
          | None => lift_res get_current_arch
          end);
  feat ← run_parser args;
  msg ← lift_res (list_arch_features F feat arch (as_str args "feat"));
  print msg.
(** [main()] *)
Definition call (name : string) (args : dict value) : Prints unit :=
  if (name =? "run_current")%string then run_current args
  else if (name =? "run_rest")%string then run_rest args
  else if (name =? "run_list")%string then run_list args
  else run_parser args ;; mret tt.
Definition main (argv0 : string) (argv : list string) : Prints unit :=
  args ← lift_res (parse_args the_parser (subcommands commands) argv);
  match as_str args "func" with
  | Some name => call name args
  | None => raise (SystemExit ("Please specify a valid command for " +:+ argv0))
  end.
End Main.
End GetFeat.

(** ** The ABI *)

Module GetAbi.
(** What the script uses of [AbiParser], [AbiRegex] and [SystemSymbols]: each
    call is given what it prints. *)
Record abi := Abi {
  abi_dir : string;
  abi_object : Type;
  (** [AbiParser(dir, debug)] after [parse_abi()] *)
  parse_abi : string → Z → Prints abi_object;
  check_issues : abi_object → Prints unit;
  (** [doc(raw, show_file)]: text, file and line of each part, and how it ends *)
  abi_doc : abi_object → bool → bool → list (string * string * string) * res unit;
  search_symbols : abi_object → string → Prints unit;
  abi_regex : Type;
  (** [AbiRegex(dir, debug, search_string)] *)
  new_regex : string → Z → option string → Prints abi_regex;
  (** [SystemSymbols(abi, hints, sysfs)], then [check_undefined_symbols(dry_run,
      found, max_workers, chunk_size)] *)
  check_undefined_symbols : abi_regex → bool → string → bool → bool → Z → Z → Prints unit;
}.

Definition an_int_option (strings : list string) (dest : string) (n : Z) : optional :=
  Optional strings dest (Store an_int) (VInt n).
Definition func (name : string) : dict value := [("func", VStr name)].
Definition rest_args : parser := Parser [
    help_option;
    store_true ["--enable-lineno"] "enable_lineno";
    store_true ["--raw"] "raw";
    store_true ["--no-file"] "no_file";
    store ["--show-hints"] "show_hints"] [] [] (func "AbiRest.run").
Definition validate_args : parser := Parser [help_option] [] [] (func "AbiValidate.run").
Definition search_args : parser :=
  Parser [help_option] [Positional "expression" One] [] (func "AbiSearch.run").
Definition undefined_args : parser := Parser [
    help_option;
    Optional ["-S"; "--sysfs-dir"] "sysfs_dir" (Store plain_str) (VStr "/sys");
    store ["-s"; "--search-string"] "search_string";
    store_true ["-H"; "--show-hints"] "show_hints";
    an_int_option ["-j"; "--jobs"; "--max-workers"] "jobs" 1;
    an_int_option ["-c"; "--max-chunk-size"] "max_chunk_size" 50;
    store_true ["-f"; "--found"] "found";
    store_true ["-d"; "--dry-run"] "dry_run"] [] [] (func "AbiUndefined.run").
Definition commands : list (string * parser) :=
  [("rest", rest_args); ("validate", validate_args); ("search", search_args);
   ("undefined", undefined_args)].

Section Main.
Context (A : abi).
Definition the_parser : parser := Parser [
    help_option;
    an_int_option ["-d"; "--debug"] "debug" 0;
    Optional ["-D"; "--dir"] "dir" (Store plain_str) (VStr (abi_dir A))]
  [Positional "" Subcommand] [] [].
Definition as_int (args : dict value) (dest : string) : Z :=
  match dget args dest with Some (VInt n) => n | _ => 0%Z end.

Definition checked (args : dict value) : Prints (abi_object A) :=
  parser ← parse_abi A (default "" (as_str args "dir")) (as_int args "debug");
  check_issues A parser ;;
  mret parser.
(** The methods [run] of the four classes. *)
Definition rest_run (args : dict value) : Prints unit :=
  parser ← checked args;
  let '(doc, ending) := abi_doc A parser (as_bool args "raw") (negb (as_bool args "no_file")) in
  for_each doc (λ '(text, fname, ln),
    when (as_bool args "enable_lineno")
      (print (".. LINENO " +:+ fname +:+ "#" +:+ ln +:+ nl +:+ nl)) ;;
    print text) ;;
  lift_res ending.
Definition validate_run (args : dict value) : Prints unit := checked args ;; mret tt.
Definition search_run (args : dict value) : Prints unit :=
  parser ← parse_abi A (default "" (as_str args "dir")) (as_int args "debug");
  search_symbols A parser (default "" (as_str args "expression")).
Definition undefined_run (args : dict value) : Prints unit :=
  abi ← new_regex A (default "" (as_str args "dir")) (as_int args "debug") (as_str args "search_string");
  check_undefined_symbols A abi (as_bool args "show_hints") (default "" (as_str args "sysfs_dir"))
    (as_bool args "dry_run") (as_bool args "found") (as_int args "jobs") (as_int args "max_chunk_size").
(** [main()]; the level of the log is left out. *)
Definition call (name : string) (args : dict value) : Prints unit :=
  if (name =? "AbiRest.run")%string then rest_run args
  else if (name =? "AbiValidate.run")%string then validate_run args
  else if (name =? "AbiSearch.run")%string then search_run args
  else undefined_run args.
Definition main (argv0 : string) (argv : list string) : Prints unit :=
  args ← lift_res (parse_args the_parser (subcommands commands) argv);
  match as_str args "func" with
  | Some name => call name args
  | None => raise (SystemExit ("Please specify a valid command for " +:+ argv0))
  end.
End Main.
End GetAbi.
