(* ===== verification/CommandsSpec.v ===== *)
(** * CommandsSpec: what [parse-headers.py], [get_feat.py] and [get_abi.py] promise *)

From S2P Require Import Prelude PyStr PyNum PyRe PyReSyntax PyReTheory KdocRe CLex ParseData ParseDataSpec.
From S2P Require Import Argparse ArgparseSpec Commands.

(** ** Headers *)

Module Headers.
Import ParseHeaders.

Lemma take_one name x s : no_dash x = true →
  take_positional no_subcommand (Positional name One) [x] s
  = (set_value name (VStr x) (note_seen name s), Ok tt).
Proof.
  intros Hx. unfold take_positional, mbind, ST_bind, modify. cbn [pos_nargs pos_dest Positional].
  assert (remove_first "--" [x] = [x]) as ->; [|done].
  cbn [remove_first]. by destruct (String.eqb_spec x "--") as [->|].
Qed.
Lemma toc_arguments file_in file_out : no_dash file_in = true → no_dash file_out = true →
  parse_args the_parser no_subcommand ["--toc"; file_in; file_out]
  = Ok [("debug", VNat 0); ("toc", VBool true); ("file_in", VStr file_in); ("file_out", VStr file_out);
        ("file_rules", VNone)].
Proof.
  intros Hi Ho.
  set (toc := store_true ["-t"; "--toc"] "toc").
  assert (marks the_parser ["--toc"; file_in; file_out]
          = Ok [given_option toc "--toc"; (file_in, MarkA); (file_out, MarkA)]) as Hm.
  { apply marks_option; [reflexivity|done|done|]. apply marks_word; [done|]. by apply marks_word. }
  set (s0 := Parsing (initial_namespace the_parser) [] [] (positionals the_parser) [] []).
  set (s1 := fst (take_option the_parser (toc, [], "--toc") s0)).
  eassert (consume_positionals no_subcommand [(file_in, MarkA); (file_out, MarkA)] s1 = (_, Ok [])) as Hc.
  { unfold consume_positionals, mbind, ST_bind at 1, gets. cbv zeta.
    change (match_partial _ _ _) with [1; 1; 0]. change (left s1) with (positionals the_parser).
    cbn [positionals the_parser zip zip_with for_acc take drop map fst length].
    unfold mbind, ST_bind. rewrite take_one by done. cbn [mret ST_ret take drop map fst].
    unfold mret, ST_ret. cbn [take drop map fst]. rewrite take_one by done. reflexivity. }
  match type of Hc with _ = (?s, _) => set (s2 := s) in Hc end.
  etrans; [apply (parse_args_run the_parser no_subcommand _ _ s1
    [(file_in, MarkA); (file_out, MarkA)] s2 Hm); [|exact Hc|..]|]; [|reflexivity..].
  cbn [length]. fold s0. by rewrite parse_loop_flag.
Qed.

(** A header without rules is always read. *)
Lemma no_rules_parsed text : ∃ p,
  parse_file text None ParseDataStructs_init = (p, Ok tt) ∧ symbols_ok (length (readlines text)) (pd_symbols p).
Proof.
  unfold parse_file, mbind, ST_bind, modify, mret, ST_ret. cbn [read_exceptions]. unfold mret, ST_ret.
  set (p0 := upd_pd_data (λ _, "") ParseDataStructs_init). set (n := length (readlines text)).
  destruct (adds_lines n (imap (λ i line, (i, line)) (readlines text)) (Locals false false "")) with (p := p0)
    as (p2 & v & -> & _ & [Hru Hs]).
  { intros [i line] Hin. apply elem_of_lookup_imap in Hin as (j & y & [= -> ->] & Hj).
    by apply lookup_lt_Some in Hj. }
  assert (symbols_ok n (pd_symbols p2)) as Hs2 by apply Hs, symbols_ok_init.
  destruct (apply_exceptions_ok n p2 Hs2) as [(_ & p3 & E3 & [_ _ Hs3] & _)|[Hna _]].
  - by exists p3.
  - exfalso. apply Hna. unfold applicable. injection Hru as _ -> ->. by split.
Qed.
End Headers.

(** ** Commands with subcommands *)

(** A command line for [get_feat.py] or [get_abi.py] is read, or it ends with
    status 0 or 2. *)
Lemma subcommands_end commands p : 
  NoDup (map dest (optionals p) ++ map pos_dest (positionals p)) →
  Forall (λ c, NoDup (map dest (optionals (snd c)) ++ map pos_dest (positionals (snd c)))) commands →
  ∀ argv, ends (parse_args p (subcommands commands) argv).
Proof.
  intros Hp Hc argv. unfold ends.
  assert (∀ name run args, subcommands commands name = Some run → ends (run args)) as Hsub.
  { intros name run args. unfold subcommands. destruct (dget commands name) as [q|] eqn:E; [|done].
    intros [= <-]. apply dget_in in E. apply (proj1 (Forall_forall _ _) Hc) in E. cbn in E.
    pose proof (parse_known_args_ok q no_subcommand E ltac:(done) args) as H.
    by destruct (parse_known_args q no_subcommand args) as [[ns l]|e]. }
  pose proof (parse_args_ok p (subcommands commands) Hp Hsub argv) as H.
  by destruct (parse_args p (subcommands commands) argv).
Qed.
Lemma get_feat_arguments argv : ends (parse_args GetFeat.the_parser (subcommands GetFeat.commands) argv).
Proof. apply subcommands_end; [|repeat apply Forall_cons; split_and!; try apply Forall_nil]; by apply (bool_decide_unpack _). Qed.
Lemma get_abi_arguments A argv : ends (parse_args (GetAbi.the_parser A) (subcommands GetAbi.commands) argv).
Proof. apply subcommands_end; [|repeat apply Forall_cons; split_and!; try apply Forall_nil]; by apply (bool_decide_unpack _). Qed.

(** ** Properties *)

(** C33 Without rules, [parse-headers.py --toc] always writes its output, whatever
    the text of the header: the title with the name of the header, underlined,
    and the table of the symbols that [parse_file] found, which are words on lines of
    the header. *)
Theorem headers_toc_written read file_in file_out text :
  no_dash file_in = true → no_dash file_out = true → read file_in = Some text →
  ∃ p, parse_file text None ParseDataStructs_init = (p, Ok tt) ∧
    symbols_ok (length (readlines text)) (pd_symbols p) ∧
    ParseHeaders.main read ["--toc"; file_in; file_out]
    = ([], Ok (file_out, ".. -*- coding: utf-8; mode: rst -*-" +:+ nl +:+ nl
         +:+ basename file_in +:+ nl +:+ str_mul (String.length (basename file_in)) "=" +:+ nl +:+ nl
         +:+ gen_toc p)).
Proof.
  intros Hi Ho Hr. destruct (Headers.no_rules_parsed text) as (p & Hp & Hs). exists p.
  split; [done|]. split; [done|]. unfold ParseHeaders.main. rewrite Headers.toc_arguments by done.
  cbv zeta. set (args := [("debug", VNat 0); _; _; _; _]).
  change (default "" (as_str args "file_in")) with file_in. change (as_str args "file_rules") with (@None string).
  unfold ParseHeaders.parsed_file. rewrite Hr, Hp. reflexivity.
Qed.

Lemma headers_toc_written_witness :
  ParseHeaders.main (λ f, if (f =? "a/b.h")%string then Some ("#define ABC 1" +:+ nl +:+ "struct foo {" +:+ nl) else None)
    ["--toc"; "a/b.h"; "b.rst"]
  = ([], Ok ("b.rst", ".. -*- coding: utf-8; mode: rst -*-" +:+ nl +:+ nl +:+ "b.h" +:+ nl +:+ "===" +:+ nl +:+ nl
      +:+ join nl ["Macros and Definitions"; "----------------------"; ""; "- LINENO_0: \ :ref:`ABC <abc>`\ "; "";
         "Structures"; "----------"; ""; "- LINENO_1: \ :c:type:`foo <foo>`\ "; ""])).
Proof.
  destruct (headers_toc_written (λ f, if (f =? "a/b.h")%string then Some ("#define ABC 1" +:+ nl +:+ "struct foo {" +:+ nl) else None)
    "a/b.h" "b.rst" ("#define ABC 1" +:+ nl +:+ "struct foo {" +:+ nl)) as (p & Hp & _ & ->); [done..|].
  revert Hp. vm_compute. intros [= <-]. reflexivity.
Defined.
