(* ===== verification/PyVersion.v ===== *)
(** * PyVersion: [PythonVersion] of [python_version.py]

    Versions as tuples, command lines printed for the user, the search for
    another interpreter and the switch to it.  The file system, the interpreters
    found there and the restart are parameters. *)

From S2P Require Import Prelude PyStr PyNum PyRe PyReSyntax PyReTheory.

(** ** Versions *)

(** [PythonVersion.parse_version(version)] *)
Fixpoint parse_parts (parts : list string) : res (list Z) :=
  match parts with
  | [] => Ok []
  | x :: parts =>
      match py_int x with
      | Some n => match parse_parts parts with Ok v => Ok (n :: v) | Raise e => Raise e end
      | None => Raise (ValueError "invalid literal for int() with base 10")
      end
  end.
Definition parse_version (version : string) : res (list Z) := parse_parts (split_char "." version).

(** [PythonVersion.ver_str(version)] *)
Definition ver_str (version : list Z) : string := join "." (map zint_str version).

(** [a <= b] and [a == b] for tuples of integers. *)
Fixpoint ver_le (a b : list Z) : bool :=
  match a, b with
  | [], _ => true
  | _ :: _, [] => false
  | x :: a, y :: b => (x <? y)%Z || ((x =? y)%Z && ver_le a b)
  end.
(** [a < b] for tuples. *)
Definition ver_lt (a b : list Z) : bool := ver_le a b && negb (bool_decide (a = b)).
(** [a <= b] for pairs of a version and a command. *)
Definition found_le (a b : list Z * string) : bool :=
  if bool_decide (fst a = fst b) then (snd a <=? snd b)%string else ver_le (fst a) (fst b).

(** ** Command lines *)

(** [shlex.quote(s)] *)
Definition safe_char (c : ascii) : bool := is_word_ascii c || char_in c "@%+=:,./-".
Definition quoted_quote : string := "'" +:+ quote +:+ "'" +:+ quote +:+ "'".
Definition shlex_quote (s : string) : string :=
  if (s =? "")%string then "''"
  else if sall safe_char s then s
  else "'" +:+ replace "'" quoted_quote s +:+ "'".

(** The loop body of [PythonVersion.cmd_print]: the last line grows, or gets a
    continuation mark. *)
Fixpoint add_word (max_len : nat) (w : string) (cmd_line : list string) : list string :=
  match cmd_line with
  | [] => [w]
  | [l] =>
      if (max_len =? 0) || (String.length l + String.length w <? max_len)
      then [l +:+ " " +:+ w] else [l +:+ " \"; w]
  | l :: cmd_line => l :: add_word max_len w cmd_line
  end.
Definition cmd_lines (cmd : list string) (max_len : nat) : list string :=
  fold_left (λ cmd_line w, add_word max_len (shlex_quote w) cmd_line) cmd [].
(** [PythonVersion.cmd_print(cmd, max_len)] *)
Definition cmd_print (cmd : list string) (max_len : nat) : string :=
  join (nl +:+ "  ") (cmd_lines cmd max_len).

(** ** Interpreters *)

Definition re_version : pattern := compiled no_flags "(\d+\.\d+\.\d+)".
Definition glob_patterns : list string := ["python3.[0-9][0-9]"; "python3.[0-9]"].

(** How [check_python] ends: it returns, the process exits (with a status or a
    message), or it is replaced by another one. *)
Inductive outcome :=
| Returns
| Exits (msg : option string)
| Replaced (cmd : string) (args : list string).

Section System.
(** [path] is [$PATH]; [glob] gives the names that match; [version_of] is what
    the command prints for [--version], or the exception of running it: the file may
    be no program, and what it prints no text. *)
Context (path : string) (glob : string → list string) (executable : string → bool).
Context (version_of : string → res string).
(** [cur_ver] is [sys.version_info[:3]]; [argv] the arguments, without the
    script; [execv] gives the message of the [OSError], if any. *)
Context (cur_ver : list Z) (script_path : string) (argv : list string).
Context (execv : string → list string → option string).

(** [PythonVersion.get_python_version(cmd)] *)
Definition get_python_version (cmd : string) : Prints (list Z) :=
  stdout ← lift_res (version_of cmd);
  let version := strip stdout in
  match re_search re_version version with
  | Some m => lift_res (parse_version (group_or m 1))
  | None => print ("Can't parse version " +:+ version) ;; mret [0; 0; 0]%Z
  end.

(** The loop bodies of [find_python]. *)
Definition try_cmd (min_version : list Z) (found : list (list Z * string)) (cmd : string)
    : Prints (list (list Z * string)) :=
  if executable cmd then
    version ← get_python_version cmd;
    mret (if ver_le min_version version then found ++ [(version, cmd)] else found)
  else mret found.
Definition candidates : list string :=
  flat_map (λ p, flat_map (λ pattern, glob (path_join p pattern)) glob_patterns)
    (split_char ":" path).
(** [PythonVersion.find_python(min_version)] *)
Definition find_python (min_version : list Z) : Prints (list (list Z * string)) :=
  python_cmd ← for_acc candidates [] (try_cmd min_version);
  mret (isort (λ x y, found_le y x) python_cmd).

(** [PythonVersion.check_python(...)] *)
Definition check_python (min_version : list Z) (show_alternatives bail_out success_on_error : bool)
    : Prints outcome :=
  if ver_le min_version cur_ver then mret Returns
  else
    let python_ver := ver_str cur_ver in
    available_versions ← find_python min_version;
    match available_versions with
    | [] =>
        print ("ERROR: Python version " +:+ python_ver +:+ " is not supported anymore" +:+ nl) ;;
        print "       Can't find a new version. This script may fail" ;;
        mret Returns
    | (_, new_python_cmd) :: _ =>
        when show_alternatives
          (print "You could run, instead:" ;;
           for_each available_versions (λ '(_, cmd),
             print (indent "  " (cmd_print (cmd :: script_path :: argv) 80) +:+ nl))) ;;
        if bail_out then
          let msg := "Python " +:+ python_ver +:+ " not supported. Bailing out" in
          if success_on_error then print msg ;; mret (Exits None) else mret (Exits (Some msg))
        else
          print ("Python " +:+ python_ver +:+ " not supported. Changing to " +:+ new_python_cmd) ;;
          let args := new_python_cmd :: script_path :: argv in
          match execv new_python_cmd args with
          | None => mret (Replaced new_python_cmd args)
          | Some e =>
              mret (Exits (Some ("Failed to restart with " +:+ new_python_cmd +:+ ": " +:+ e)))
          end
    end.
End System.
