(* ===== verification/PyVersionSpec.v ===== *)
(** * PyVersionSpec: what [PythonVersion] promises *)

From S2P Require Import Prelude PyStr PyNum PyRe PyReSyntax PyReTheory PyVersion.

(** ** Versions *)

Lemma zint_str_no_dot z : sall (λ c, negb (c =? ".")%char) (zint_str z) = true.
Proof.
  assert (∀ n, sall (λ c, negb (c =? ".")%char) (int_str n) = true) as H.
  { intros n. eapply sall_impl; [|apply int_str_digits]. intros c Hc.
    apply negb_true_iff, Ascii.eqb_neq. by intros ->. }
  destruct (decide (0 ≤ z)%Z).
  - rewrite <- (Z2Nat.id z) by done. by rewrite zint_str_of_nat.
  - replace z with (- Z.of_nat (Z.to_nat (- z)))%Z by lia. rewrite zint_str_opp by lia. cbn. apply H.
Qed.

Lemma parse_parts_str v : parse_parts (map zint_str v) = Ok v.
Proof. induction v as [|z v IH]; [done|]. cbn -[zint_str]. by rewrite py_int_zint_str, IH. Qed.

Lemma parse_ver_str v : v ≠ [] → parse_version (ver_str v) = Ok v.
Proof.
  intros Hv. unfold parse_version, ver_str. rewrite split_char_join.
  - apply parse_parts_str.
  - by destruct v.
  - apply Forall_map, Forall_true. intros z. apply zint_str_no_dot.
Qed.

(** ** The order on versions *)

Lemma ver_le_refl a : ver_le a a = true.
Proof. induction a as [|x a IH]; [done|]. cbn. by rewrite Z.eqb_refl, IH, orb_true_r. Qed.
Lemma ver_le_trans a : ∀ b c, ver_le a b = true → ver_le b c = true → ver_le a c = true.
Proof.
  induction a as [|x a IH]; intros [|y b] [|z c]; cbn; try done.
  rewrite !orb_true_iff, !andb_true_iff, !Z.ltb_lt, !Z.eqb_eq.
  intros [H1|[-> H1]] [H2|[-> H2]]; [left; lia|left; lia|left; lia|right; eauto].
Qed.
Lemma ver_le_total a : ∀ b, ver_le a b = false → ver_le b a = true.
Proof.
  induction a as [|x a IH]; intros [|y b]; cbn; try done.
  rewrite orb_false_iff, andb_false_iff, orb_true_iff, andb_true_iff, Z.ltb_ge, Z.ltb_lt, Z.eqb_neq, Z.eqb_eq.
  intros [H1 [H2|H2]]; [left; lia|].
  destruct (decide (y = x)) as [->|]; [right; eauto|left; lia].
Qed.
Lemma ver_le_antisym a : ∀ b, ver_le a b = true → ver_le b a = true → a = b.
Proof.
  induction a as [|x a IH]; intros [|y b]; cbn; try done.
  rewrite !orb_true_iff, !andb_true_iff, !Z.ltb_lt, !Z.eqb_eq.
  intros [H1|[-> H1]] [H2|[H2 H3]]; [lia|lia|lia|]. f_equal. by apply IH.
Qed.
(** The strict order. *)
Lemma ver_lt_iff a b : ver_lt a b = true ↔ ver_le a b = true ∧ a ≠ b.
Proof. unfold ver_lt. by rewrite andb_true_iff, negb_true_iff, bool_decide_eq_false. Qed.
Lemma ver_lt_irrefl a : ver_lt a a = false.
Proof. apply not_true_is_false. rewrite ver_lt_iff. by intros []. Qed.
Lemma ver_lt_le a b : ver_lt a b = negb (ver_le b a).
Proof.
  destruct (ver_le b a) eqn:E; cbn.
  - apply not_true_is_false. rewrite ver_lt_iff. intros [H Hn]. by apply Hn, ver_le_antisym.
  - apply ver_lt_iff. split; [by apply ver_le_total|]. intros ->. by rewrite ver_le_refl in E.
Qed.
Lemma ver_lt_trans a b c : ver_lt a b = true → ver_lt b c = true → ver_lt a c = true.
Proof.
  rewrite !ver_lt_iff. intros [H1 N1] [H2 N2]. split; [by eapply ver_le_trans|].
  intros ->. by apply N1, ver_le_antisym.
Qed.
Lemma ver_le_lt_trans a b c : ver_le a b = true → ver_lt b c = true → ver_lt a c = true.
Proof.
  intros H1 H2. destruct (decide (a = b)) as [->|N]; [done|]. eapply ver_lt_trans; [|exact H2].
  by apply ver_lt_iff.
Qed.
Lemma found_le_total x y : found_le x y = false → found_le y x = true.
Proof.
  unfold found_le. destruct (decide (fst x = fst y)) as [E|E].
  - rewrite !bool_decide_eq_true_2 by done. apply string_leb_total.
  - rewrite !bool_decide_eq_false_2 by done. apply ver_le_total.
Qed.
Lemma found_le_ver x y : found_le x y = true → ver_le (fst x) (fst y) = true.
Proof.
  unfold found_le. case_bool_decide as E; [|done]. intros _. rewrite E. apply ver_le_refl.
Qed.

(** ** Reading a command line back

    The part of the shell's grammar that [shlex.quote] relies on: blanks, quotes,
    the backslash; any other character that is not in the safe set is refused
    outside quotes, and so is a backslash in double quotes. *)
Inductive quoting := Plain | Single | Double.
Definition grow (cur : option string) (c : ascii) : option string :=
  Some (default "" cur +:+ String c "").
Definition end_word (cur : option string) (l : list string) : list string :=
  match cur with Some w => w :: l | None => l end.
Fixpoint sh_words (m : quoting) (cur : option string) (s : string) : option (list string) :=
  match s with
  | "" => match m with Plain => Some (end_word cur []) | _ => None end
  | String c t =>
      match m with
      | Plain =>
          if (c =? "'")%char then sh_words Single (Some (default "" cur)) t
          else if (c =? QUOTE)%char then sh_words Double (Some (default "" cur)) t
          else if (c =? BACKSLASH)%char then
            match t with
            | String d t' => if (d =? NL)%char then sh_words Plain cur t'
                             else sh_words Plain (grow cur d) t'
            | "" => None
            end
          else if (c =? " ")%char || (c =? NL)%char then end_word cur <$> sh_words Plain None t
          else if safe_char c then sh_words Plain (grow cur c) t
          else None
      | Single => if (c =? "'")%char then sh_words Plain cur t else sh_words Single (grow cur c) t
      | Double =>
          if (c =? QUOTE)%char then sh_words Plain cur t
          else if (c =? BACKSLASH)%char then None
          else sh_words Double (grow cur c) t
      end
  end.

Lemma safe_char_plain c cur t : safe_char c = true →
  sh_words Plain cur (String c t) = sh_words Plain (grow cur c) t.
Proof.
  intros H. cbn [sh_words].
  destruct (c =? "'")%char eqn:E1; [by apply Ascii.eqb_eq in E1 as ->|].
  destruct (c =? QUOTE)%char eqn:E2; [by apply Ascii.eqb_eq in E2 as ->|].
  destruct (c =? BACKSLASH)%char eqn:E3; [by apply Ascii.eqb_eq in E3 as ->|].
  destruct (c =? " ")%char eqn:E4; [by apply Ascii.eqb_eq in E4 as ->|].
  destruct (c =? NL)%char eqn:E5; [by apply Ascii.eqb_eq in E5 as ->|].
  by rewrite H.
Qed.

Lemma sh_safe w : ∀ a rest, sall safe_char w = true →
  sh_words Plain (Some a) (w +:+ rest) = sh_words Plain (Some (a +:+ w)) rest.
Proof.
  induction w as [|c w IH]; intros a rest; [by rewrite sapp_nil_r|].
  cbn [sall]. intros [Hc Hw]%andb_prop. change (String c w +:+ rest) with (String c (w +:+ rest)).
  rewrite safe_char_plain by done. unfold grow. cbn [default]. rewrite IH by done. by rewrite sapp_assoc.
Qed.

Lemma replace_quote c t :
  replace "'" quoted_quote (String c t)
  = if (c =? "'")%char then quoted_quote +:+ replace "'" quoted_quote t
    else String c (replace "'" quoted_quote t).
Proof.
  unfold replace. cbn -[quoted_quote Ascii.eqb]. rewrite Ascii.eqb_sym.
  by destruct (c =? "'")%char.
Qed.

Lemma sh_single w : ∀ a rest,
  sh_words Single (Some a) (replace "'" quoted_quote w +:+ "'" +:+ rest)
  = sh_words Plain (Some (a +:+ w)) rest.
Proof.
  induction w as [|c w IH]; intros a rest; [by rewrite sapp_nil_r|].
  rewrite replace_quote. destruct (c =? "'")%char eqn:E.
  - apply Ascii.eqb_eq in E as ->. rewrite sapp_assoc.
    set (r := replace "'" quoted_quote w +:+ "'" +:+ rest).
    change (quoted_quote +:+ r)
      with (String "'" (String QUOTE (String "'" (String QUOTE (String "'" r))))).
    cbn [sh_words Ascii.eqb Bool.eqb QUOTE BACKSLASH grow default].
    unfold r. rewrite IH. unfold id. by rewrite sapp_assoc.
  - change (String c ?x +:+ ?y) with (String c (x +:+ y)). cbn [sh_words]. rewrite E.
    unfold grow. cbn [default]. unfold id. rewrite IH. by rewrite sapp_assoc.
Qed.

Lemma sh_quote w rest : sh_words Plain None (shlex_quote w +:+ rest) = sh_words Plain (Some w) rest.
Proof.
  unfold shlex_quote. destruct (String.eqb_spec w "") as [->|Hw]; [done|].
  destruct (sall safe_char w) eqn:E.
  - destruct w as [|c w]; [done|]. cbn [sall] in E. apply andb_prop in E as [Hc E].
    change (String c w +:+ rest) with (String c (w +:+ rest)). rewrite safe_char_plain by done.
    unfold grow. cbn [default]. by rewrite sh_safe.
  - rewrite !sapp_assoc. change ("'" +:+ ?x) with (String "'" x). cbn [sh_words Ascii.eqb Bool.eqb default].
    apply (sh_single w "" rest).
Qed.

Definition sep : string := nl +:+ "  ".
Lemma add_word_join max_len w lines : lines ≠ [] → ∃ gap, (gap = " " ∨ gap = " \" +:+ sep) ∧
  join sep (add_word max_len w lines) = join sep lines +:+ gap +:+ w.
Proof.
  intros Hl. destruct lines as [|l lines]; [done|]. clear Hl. revert l.
  induction lines as [|l2 lines IH]; intros l.
  - cbn [add_word]. destruct (_ || _); [exists " "; split; [by left|done]|].
    exists (" \" +:+ sep). split; [by right|]. cbn [join]. by rewrite !sapp_assoc.
  - destruct (IH l2) as (gap & Hg & Hj). exists gap. split; [done|].
    change (add_word max_len w (l :: l2 :: lines)) with (l :: add_word max_len w (l2 :: lines)).
    destruct (add_word max_len w (l2 :: lines)) as [|l3 lines'] eqn:E.
    { destruct lines; cbn in E; [by destruct (_ || _)|done]. }
    rewrite !join_cons, Hj. by rewrite !sapp_assoc.
Qed.
Lemma add_word_nonempty max_len w lines : add_word max_len w lines ≠ [].
Proof. destruct lines as [|l [|l2 lines]]; cbn; [done|by destruct (_ || _)|done]. Qed.

Lemma sh_gap gap a rest : gap = " " ∨ gap = " \" +:+ sep →
  sh_words Plain (Some a) (gap +:+ rest) = (λ l, a :: l) <$> sh_words Plain None rest.
Proof. intros [->| ->]; [done|]. cbn. by destruct (sh_words Plain None rest). Qed.

Lemma sh_lines max_len cmd : ∀ lines words a,
  lines ≠ [] →
  (∀ rest, sh_words Plain None (join sep lines +:+ rest)
           = (λ l, words ++ l) <$> sh_words Plain (Some a) rest) →
  ∀ rest, sh_words Plain None
            (join sep (fold_left (λ ls w, add_word max_len (shlex_quote w) ls) cmd lines) +:+ rest)
          = (λ l, words ++ removelast (a :: cmd) ++ l) <$> sh_words Plain (Some (List.last cmd a)) rest.
Proof.
  induction cmd as [|w cmd IH]; intros lines words a Hl H rest.
  - cbn [fold_left removelast List.last app]. apply H.
  - cbn [fold_left].
    rewrite (IH _ (words ++ [a]) w); [|apply add_word_nonempty|].
    + replace (List.last (w :: cmd) a) with (List.last cmd w)
        by (destruct cmd as [|c cmd]; [done|]; clear; revert c; induction cmd as [|d cmd IH]; intros c; [done|apply IH]).
      destruct (sh_words _ _ _) as [l|]; [|done]. cbn [fmap option_fmap option_map]. f_equal.
      rewrite <- !app_assoc. done.
    + intros r. destruct (add_word_join max_len (shlex_quote w) lines Hl) as (gap & Hg & ->).
      rewrite !sapp_assoc, H, sh_gap, sh_quote by done.
      destruct (sh_words _ _ r) as [l|]; [|done]. cbn. by rewrite <- app_assoc.
Qed.

Lemma sh_cmd_print cmd max_len : sh_words Plain None (cmd_print cmd max_len) = Some cmd.
Proof.
  unfold cmd_print, cmd_lines. destruct cmd as [|w cmd]; [done|]. cbn [fold_left add_word].
  rewrite <- (sapp_nil_r (join _ _)).
  change (nl +:+ "  ") with sep.
  rewrite (sh_lines max_len cmd [shlex_quote w] [] w).
  2: done.
  - cbn [sh_words end_word fmap option_fmap option_map app]. f_equal.
    rewrite (app_removelast_last (l := w :: cmd) w) at 2 by done. f_equal.
    by destruct cmd.
  - intros rest. cbn [join]. rewrite sh_quote. by destruct (sh_words _ _ rest).
Qed.

(** *** Widths *)

(** A line that is done, and the line being filled. *)
Definition line_fits (max_len : nat) (cmd : list string) (l : string) : Prop :=
  String.length l ≤ max_len + 2 ∨ ∃ w, w ∈ cmd ∧ (l = shlex_quote w ∨ l = shlex_quote w +:+ " \").
Definition open_fits (max_len : nat) (cmd : list string) (l : string) : Prop :=
  String.length l ≤ max_len ∨ ∃ w, w ∈ cmd ∧ l = shlex_quote w.

Lemma add_word_fits max_len cmd w front l : max_len ≠ 0 → w ∈ cmd →
  Forall (line_fits max_len cmd) front → open_fits max_len cmd l →
  ∃ front' l', add_word max_len (shlex_quote w) (front ++ [l]) = front' ++ [l'] ∧
    Forall (line_fits max_len cmd) front' ∧ open_fits max_len cmd l'.
Proof.
  intros Hm Hw HF Hl. induction HF as [|f front Hf HF IH].
  - cbn [app add_word]. rewrite (proj2 (Nat.eqb_neq max_len 0) Hm). cbn [orb].
    destruct (_ <? _) eqn:E.
    + apply Nat.ltb_lt in E. exists [], (l +:+ " " +:+ shlex_quote w). split; [done|]. split; [constructor|].
      left. rewrite !slen_app. cbn [String.length]. lia.
    + exists [l +:+ " \"], (shlex_quote w). split; [done|]. split; [|by right; exists w].
      constructor; [|constructor]. destruct Hl as [Hl|(w' & Hw' & ->)].
      * left. rewrite slen_app. cbn [String.length]. lia.
      * right. exists w'. split; [done|by right].
  - destruct IH as (front' & l' & E & HF' & Hl'). exists (f :: front'), l'.
    split; [|by split; [constructor|]]. cbn [app]. rewrite <- E. destruct front; done.
Qed.

Lemma cmd_lines_fit max_len cmd : max_len ≠ 0 → Forall (line_fits max_len cmd) (cmd_lines cmd max_len).
Proof.
  intros Hm. unfold cmd_lines.
  assert (∀ ws front l, ws ⊆ cmd → Forall (line_fits max_len cmd) front → open_fits max_len cmd l →
    Forall (line_fits max_len cmd)
      (fold_left (λ ls w, add_word max_len (shlex_quote w) ls) ws (front ++ [l]))) as H.
  { induction ws as [|w ws IH]; intros front l Hs HF Hl; cbn [fold_left].
    - apply Forall_app. split; [done|]. constructor; [|constructor].
      destruct Hl as [Hl|(w & Hw & ->)]; [left; lia|right; exists w; split; [done|by left]].
    - destruct (add_word_fits max_len cmd w front l Hm (Hs w ltac:(by left)) HF Hl)
        as (front' & l' & -> & HF' & Hl'). apply IH; [|done|done]. intros x Hx. apply Hs. by right. }
  destruct cmd as [|w cmd]; [constructor|]. cbn [fold_left add_word].
  apply (H cmd [] (shlex_quote w)); [|constructor|].
  - intros x Hx. by right.
  - right. exists w. split; [by left|done].
Qed.

(** ** Finding an interpreter *)

Lemma Sorted_weaken {A} (R R' : A → A → Prop) l : (∀ x y, R x y → R' x y) → Sorted R l → Sorted R' l.
Proof.
  intros H. induction 1 as [|x l Hl IH Hx]; constructor; [exact IH|]. destruct Hx; constructor. by apply H.
Qed.

Section System.
Context (path : string) (glob : string → list string) (executable : string → bool).
Context (version_of : string → res string).

(** The version of a command, as far as it is printed. *)
Definition version (cmd : string) : res (list Z) := snd (get_python_version version_of cmd []).
Lemma version_any cmd out : snd (get_python_version version_of cmd out) = version cmd.
Proof.
  unfold version, get_python_version, lift_res, mbind, ST_bind. destruct (version_of cmd) as [t|e]; [|done].
  cbv zeta. by destruct (re_search _ _).
Qed.

(** The commands [find_python] keeps. *)
Definition suits (min_version : list Z) (found : list Z * string) : Prop :=
  snd found ∈ candidates path glob ∧ executable (snd found) = true ∧
  version (snd found) = Ok (fst found) ∧ ver_le min_version (fst found) = true.

Lemma try_cmds min_version cmds : ∀ found out out' found',
  for_acc cmds found (try_cmd executable version_of min_version) out = (out', Ok found') →
  ∀ x, x ∈ found' ↔ x ∈ found ∨ (snd x ∈ cmds ∧ executable (snd x) = true ∧
    version (snd x) = Ok (fst x) ∧ ver_le min_version (fst x) = true).
Proof.
  induction cmds as [|cmd cmds IH]; intros found out out' found'; cbn [for_acc].
  { intros [= <- <-] x. rewrite elem_of_nil. tauto. }
  unfold mbind at 1, ST_bind at 1. unfold try_cmd at 1. destruct (executable cmd) eqn:Ex.
  - unfold mbind at 1, ST_bind at 1. pose proof (version_any cmd out) as Hv.
    destruct (get_python_version version_of cmd out) as [out1 [v|e]]; [|done]. cbn [snd] in Hv.
    unfold mret at 1, ST_ret at 1. intros H x. rewrite (IH _ _ _ _ H).
    destruct x as [vx cx]. cbn [fst snd]. destruct (ver_le min_version v) eqn:El.
    + rewrite elem_of_app, list_elem_of_singleton, elem_of_cons. split.
      * intros [[Hf|[= -> ->]]|Hc]; [by left|right; rewrite <- Hv; tauto|right; tauto].
      * intros [Hf|([->|Hc] & H1 & H2 & H3)]; [by left; left| |by right].
        rewrite <- Hv in H2. injection H2 as ->. left. by right.
    + rewrite elem_of_cons. split.
      * intros [Hf|Hc]; [by left|right; tauto].
      * intros [Hf|([->|Hc] & H1 & H2 & H3)]; [by left| |by right].
        rewrite <- Hv in H2. injection H2 as ->. congruence.
  - unfold mret at 1, ST_ret at 1. intros H x. rewrite (IH _ _ _ _ H), elem_of_cons. split.
    + intros [Hf|Hc]; [by left|right; tauto].
    + intros [Hf|([Hc|Hc] & H1 & H2 & H3)]; [by left| |by right]. rewrite Hc in H1. congruence.
Qed.

Lemma find_python_run min_version out out' found :
  find_python path glob executable version_of min_version out = (out', Ok found) →
  (∀ x, x ∈ found ↔ suits min_version x) ∧
  StronglySorted (λ a b, ver_le (fst b) (fst a) = true) found.
Proof.
  unfold find_python, mbind, ST_bind.
  destruct (for_acc _ _ _ out) as [out1 [f|e]] eqn:E; [|done]. intros [= _ <-]. split.
  - intros x. rewrite isort_perm, (try_cmds _ _ _ _ _ _ E), elem_of_nil. unfold suits. tauto.
  - apply Sorted_StronglySorted; [intros a b c H1 H2; by eapply ver_le_trans|].
    eapply Sorted_weaken; [|apply isort_sorted; intros x y; apply found_le_total].
    intros a b H. by apply found_le_ver.
Qed.
End System.

(** ** The version a command prints *)

Definition number (w : string) : Prop := w ≠ "" ∧ sall is_digit w = true.
Definition re_number : re := RRep true 1 None (RChr false (CSet false [CDigit false])).
Lemma lang_number w : lang re_number w → number w.
Proof.
  intros (ws & -> & HF & Hlen & _).
  assert (∀ x, lang (RChr false (CSet false [CDigit false])) x → ∃ c, x = String c "" ∧ is_digit c = true) as Hc.
  { intros x (c & -> & Hm). exists c. split; [done|]. revert Hm. cbn. by destruct (is_digit c). }
  destruct HF as [|x ws Hx HF]; [cbn in Hlen; lia|]. destruct (Hc x Hx) as (c & -> & Hd).
  rewrite sconcat_cons. split; [done|]. rewrite sall_app. cbn [sall]. rewrite Hd. cbn [andb]. clear Hlen Hx.
  induction HF as [|y ws Hy HF IH]; [done|]. destruct (Hc y Hy) as (d & -> & Hd').
  rewrite sconcat_cons, sall_app. cbn [sall]. by rewrite Hd', IH.
Qed.

Lemma number_int w : number w → ∃ n, py_int w = Some n ∧ (0 ≤ n)%Z.
Proof.
  intros [Hne Hd].
  assert (sall (λ c, negb (is_space c)) w = true) as Hsp.
  { eapply sall_impl; [|exact Hd]. intros c Hc. by rewrite digit_not_space. }
  assert (split_char "_" w = [w]) as Hs.
  { apply split_char_none. eapply sall_impl; [|exact Hd]. intros c Hc.
    apply negb_true_iff, Ascii.eqb_neq. by intros ->. }
  assert (is_Some (str_int w)) as [n Hn].
  { assert (∀ s a, sall is_digit s = true → is_Some (int_acc a s)) as H.
    { induction s as [|c s IH]; intros a; cbn; [by eexists|]. intros [-> H]%andb_prop. by apply IH. }
    unfold str_int. destruct w; [done|]. by apply fmap_is_Some, H. }
  exists (Z.of_nat n). split; [|lia]. unfold py_int, strip, strip_by. rewrite rstrip_by_none by done.
  destruct w as [|c t]; [done|]. cbn [sall] in Hd. apply andb_prop in Hd as [Hc _].
  rewrite lstrip_by_none by by apply digit_not_space.
  destruct (c =? "-")%char eqn:E1; [by apply Ascii.eqb_eq in E1 as ->|].
  destruct (c =? "+")%char eqn:E2; [by apply Ascii.eqb_eq in E2 as ->|].
  rewrite Hs. cbn [forallb]. by rewrite Hn, sconcat_cons, sapp_nil_r, Hn.
Qed.

Lemma re_version_group s m : re_search re_version s = Some m →
  ∃ a b c, group_or m 1 = join "." [a; b; c] ∧ number a ∧ number b ∧ number c.
Proof.
  intros Hm%re_search_ok.
  assert (is_Some (group m 1)) as [t Ht] by (apply (group_always _ _ _ Hm); vm_compute; reflexivity).
  unfold group_or. rewrite Ht. cbn [default].
  destruct (group_lang _ _ _ Hm 1 t ltac:(done) Ht) as (r & Hr & HL).
  assert (groups (p_prog re_version)
          = [(1, RSeq re_number (RSeq (RChr false (CSet false [CRange "." "."]))
                (RSeq re_number (RSeq (RChr false (CSet false [CRange "." "."])) re_number))))])
    as Hg by (vm_compute; reflexivity).
  rewrite Hg in Hr. apply list_elem_of_singleton in Hr as [= ->].
  destruct HL as (a & r1 & -> & Ha & d & r2 & -> & Hd & b & r3 & -> & Hb & e & c & -> & He & Hc).
  apply lang_char in Hd as ->. apply lang_char in He as ->.
  exists a, b, c. split; [done|]. by split; [|split]; apply lang_number.
Qed.

Lemma version_total version_of cmd text out : version_of cmd = Ok text → ∃ out' a b c,
  get_python_version version_of cmd out = (out', Ok [a; b; c]) ∧ (0 ≤ a ∧ 0 ≤ b ∧ 0 ≤ c)%Z.
Proof.
  intros Ht. unfold get_python_version, mbind, ST_bind, lift_res. rewrite Ht. cbv beta iota zeta.
  destruct (re_search _ _) as [m|] eqn:E.
  - destruct (re_version_group _ _ E) as (a & b & c & -> & Ha & Hb & Hc).
    destruct (number_int a Ha) as (na & Ea & ?), (number_int b Hb) as (nb & Eb & ?),
      (number_int c Hc) as (nc & Ec & ?).
    exists out, na, nb, nc. split; [|done]. unfold parse_version. rewrite split_char_join.
    + cbn. by rewrite Ea, Eb, Ec.
    + done.
    + assert (∀ w, number w → sall (λ c, negb (c =? ".")%char) w = true) as Hn.
      { intros w [_ Hw]. eapply sall_impl; [|exact Hw]. intros x Hx.
        apply negb_true_iff, Ascii.eqb_neq. by intros ->. }
      repeat constructor; by apply Hn.
  - unfold print, mbind, ST_bind. eexists _, 0%Z, 0%Z, 0%Z. by split.
Qed.

Section Total.
Context (path : string) (glob : string → list string) (executable : string → bool).
Context (version_of : string → res string).

(** Running one of the candidates raises [e]. *)
Definition unrunnable (e : exn) : Prop :=
  ∃ cmd, cmd ∈ candidates path glob ∧ executable cmd = true ∧ version_of cmd = Raise e.
Lemma find_python_total min_version out :
  match find_python path glob executable version_of min_version out with
  | (_, Ok _) => True
  | (_, Raise e) => unrunnable e
  end.
Proof.
  assert (∀ cmds found out, (∀ cmd, cmd ∈ cmds → cmd ∈ candidates path glob) →
    match for_acc cmds found (try_cmd executable version_of min_version) out with
    | (_, Ok _) => True
    | (_, Raise e) => unrunnable e
    end) as H.
  { induction cmds as [|cmd cmds IH]; intros found o Hin; cbn [for_acc]; [done|].
    assert (∀ c, c ∈ cmds → c ∈ candidates path glob) as Hin' by (intros c Hc; apply Hin; by right).
    unfold mbind, ST_bind, try_cmd at 1. destruct (executable cmd) eqn:Ex; [|by apply IH].
    destruct (version_of cmd) as [text|e] eqn:Et.
    - destruct (version_total version_of cmd text o Et) as (o' & a & b & c & E & _).
      unfold mbind, ST_bind. rewrite E. by apply IH.
    - unfold get_python_version, mbind, ST_bind, lift_res. rewrite Et. exists cmd.
      split; [apply Hin; by left|done]. }
  unfold find_python, mbind, ST_bind. specialize (H (candidates path glob) [] out ltac:(done)).
  by destruct (for_acc _ _ _ out) as [o' [f|e]].
Qed.
End Total.

(** ** Properties *)

(** Parsing a printed version gives it back. *)
Theorem ver_str_roundtrip v : v ≠ [] → parse_version (ver_str v) = Ok v.
Proof. apply parse_ver_str. Qed.

Lemma ver_str_roundtrip_witness : parse_version (ver_str [3; 12; 10]%Z) = Ok [3; 12; 10]%Z.
Proof. by apply (ver_str_roundtrip [3; 12; 10]%Z). Defined.

(** C28 Whatever the words of a command and the width, a shell reads the printed
    command back as exactly those words, across the continuation lines. *)
Theorem cmd_print_roundtrip cmd max_len :
  sh_words Plain None (cmd_print cmd max_len) = Some cmd.
Proof. apply sh_cmd_print. Qed.

(** The lines as they are printed: those after the first are indented by two. *)
Definition printed_lines (cmd : list string) (max_len : nat) : list string :=
  match cmd_lines cmd max_len with [] => [] | l :: ls => l :: map (String.append "  ") ls end.
Lemma printed_join cmd max_len : cmd_print cmd max_len = join nl (printed_lines cmd max_len).
Proof.
  unfold cmd_print, printed_lines. destruct (cmd_lines cmd max_len) as [|l ls]; [done|].
  revert l. induction ls as [|m ls IH]; intros l; [done|]. cbn [map]. rewrite !join_cons, IH, sapp_assoc.
  do 2 f_equal. destruct ls as [|n ls]; [done|]. cbn [map]. by rewrite !join_cons, !sapp_assoc.
Qed.
(** A word, with a continuation mark if more words follow. *)
Definition single_word (cmd : list string) (l : string) : Prop :=
  ∃ w, w ∈ cmd ∧ (l = shlex_quote w ∨ l = shlex_quote w +:+ " \").

Lemma shlex_quote_as k : shlex_quote (str_mul (S k) "a") = str_mul (S k) "a".
Proof.
  unfold shlex_quote. cbn [str_mul String.append String.eqb].
  change (String "a" (str_mul k "a")) with (str_mul (S k) "a").
  by rewrite (str_mul_sall safe_char (S k) "a").
Qed.
(** Two words and the mark are four columns too wide when a line begins with a word
    that is two short of the width. *)
Lemma wide_lines max_len : 4 ≤ max_len →
  let a := str_mul (max_len - 2) "a" in cmd_lines [a; a; "b"; "c"] max_len = [a +:+ " \"; a +:+ " b \"; "c"].
Proof.
  intros Hm a. assert (String.length a = max_len - 2) as Hl by (unfold a; rewrite str_mul_length; cbn; lia).
  assert (shlex_quote a = a) as Ha.
  { unfold a. destruct (max_len - 2) as [|k] eqn:E; [lia|]. apply shlex_quote_as. }
  clearbody a. unfold cmd_lines. cbn [fold_left]. rewrite Ha.
  change (shlex_quote "b") with "b". change (shlex_quote "c") with "c".
  cbn [add_word]. rewrite (proj2 (Nat.eqb_neq max_len 0)) by lia. cbn [orb].
  rewrite Hl, (proj2 (Nat.ltb_ge _ max_len)) by lia. cbn [add_word].
  rewrite (proj2 (Nat.eqb_neq max_len 0)) by lia. cbn [orb]. rewrite Hl. change (String.length "b") with 1.
  rewrite (proj2 (Nat.ltb_lt (max_len - 2 + 1) max_len)) by lia. cbn [add_word].
  rewrite (proj2 (Nat.eqb_neq max_len 0)) by lia. cbn [orb].
  rewrite !slen_app, Hl. change (String.length "c") with 1. change (String.length "b") with 1.
  change (String.length " ") with 1. rewrite (proj2 (Nat.ltb_ge _ max_len)) by lia. by rewrite !sapp_assoc.
Qed.

(** C39 The width of a printed command.  A printed line that has more than one word
    has at most four columns more than [max_len], and for every width from 4 on there
    is a command of which a printed line, of two words, has exactly four more: the
    maximum width that the docstring promises is exceeded, by no more than that.
    Without a width there is one line. *)
Theorem cmd_print_width cmd :
  (∀ max_len, cmd_print cmd max_len = join nl (printed_lines cmd max_len)) ∧
  (∀ max_len, max_len ≠ 0 →
     Forall (λ l, String.length l ≤ max_len + 4 ∨ single_word cmd l ∨ ∃ l', l = "  " +:+ l' ∧ single_word cmd l')
       (printed_lines cmd max_len)) ∧
  (∀ max_len, 4 ≤ max_len → ∃ cmd' a, a ∈ cmd' ∧ "b" ∈ cmd' ∧
     "  " +:+ a +:+ " b \" ∈ printed_lines cmd' max_len ∧
     String.length ("  " +:+ a +:+ " b \") = max_len + 4) ∧
  (cmd ≠ [] → printed_lines cmd 0 = [join " " (map shlex_quote cmd)]).
Proof.
  split; [apply printed_join|]. split; [|split].
  - intros max_len Hm. pose proof (cmd_lines_fit max_len cmd Hm) as HF. unfold printed_lines.
    destruct HF as [|l ls Hl HF]; [done|]. constructor.
    + destruct Hl as [Hl|Hl]; [left; lia|right; by left].
    + induction HF as [|m ls Hm' _ IH]; [done|]. cbn [map]. constructor; [|exact IH].
      destruct Hm' as [Hm'|Hm']; [left; cbn; lia|right; right; by exists m].
  - intros max_len Hm. exists [str_mul (max_len - 2) "a"; str_mul (max_len - 2) "a"; "b"; "c"], (str_mul (max_len - 2) "a").
    split; [by left|]. split; [do 2 right; by left|]. split.
    + unfold printed_lines. rewrite wide_lines by done. right. by left.
    + rewrite !slen_app, str_mul_length. cbn. lia.
  - intros Hc. destruct cmd as [|w cmd]; [done|]. clear Hc. unfold printed_lines.
    assert (cmd_lines (w :: cmd) 0 = [join " " (map shlex_quote (w :: cmd))]) as ->; [|done].
    unfold cmd_lines. cbn [fold_left add_word map].
    generalize (shlex_quote w) as l. induction cmd as [|x cmd IH]; intros l; [done|].
    cbn [fold_left add_word orb Nat.eqb map]. rewrite join_cons, IH. clear.
    f_equal. destruct cmd as [|y cmd]; cbn [map]; [done|]. by rewrite !join_cons, !sapp_assoc.
Qed.

Lemma cmd_print_width_witness :
  printed_lines ["make"; "SPHINXDIRS=a b"; "htmldocs"] 0 = ["make 'SPHINXDIRS=a b' htmldocs"] ∧
  ∃ cmd' a, "  " +:+ a +:+ " b \" ∈ printed_lines cmd' 80 ∧ String.length ("  " +:+ a +:+ " b \") = 84.
Proof.
  destruct (cmd_print_width ["make"; "SPHINXDIRS=a b"; "htmldocs"]) as (_ & _ & Hw & Hn).
  split; [rewrite Hn by discriminate; vm_compute; reflexivity|].
  destruct (Hw 80 ltac:(lia)) as (cmd' & a & _ & _ & Hin & Hl). by exists cmd', a.
Defined.

(** C29 The switch to another interpreter: [check_python] replaces the process only
    when the current version is too old, by an executable of the search path whose
    version is enough and at least that of any other such executable, with the
    arguments unchanged; it returns only when the current version is enough or there
    is no such executable; and it raises only when the current version is too old and
    one of the executables that it asks for its version cannot be run, which is not
    caught. *)
Theorem check_python_newest path glob executable version_of cur_ver script_path argv execv
    min_version show_alternatives bail_out success_on_error out :
  let suits := suits path glob executable version_of min_version in
  match snd (check_python path glob executable version_of cur_ver script_path argv execv
               min_version show_alternatives bail_out success_on_error out) with
  | Ok Returns => ver_le min_version cur_ver = true ∨ ∀ x, ¬ suits x
  | Ok (Exits _) => ver_le min_version cur_ver = false ∧ ∃ x, suits x
  | Ok (Replaced cmd args) =>
      ver_le min_version cur_ver = false ∧ bail_out = false ∧ args = cmd :: script_path :: argv ∧
      ∃ v, suits (v, cmd) ∧ ∀ x, suits x → ver_le (fst x) v = true
  | Raise e => ver_le min_version cur_ver = false ∧ unrunnable path glob executable version_of e
  end.
Proof.
  cbv zeta. unfold check_python. destruct (ver_le min_version cur_ver) eqn:Ev; [by left|].
  pose proof (find_python_total path glob executable version_of min_version out) as Ht.
  unfold mbind at 1, ST_bind at 1.
  destruct (find_python path glob executable version_of min_version out) as [o1 [found|e]] eqn:E; [|done].
  destruct (find_python_run _ _ _ _ _ _ _ _ E) as [Hf Hs]. destruct found as [|[v cmd] found].
  { unfold print, mbind, ST_bind. right. intros x Hx%Hf. by apply elem_of_nil in Hx. }
  match goal with |- context [when ?b ?m ;; _] => assert (∃ o2, when b m o1 = (o2, Ok tt)) as (o2 & Ew) end.
  { destruct show_alternatives; [|by eexists]. cbn [when]. unfold mbind, ST_bind, print at 1, modify at 1.
    generalize (o1 ++ ["You could run, instead:"]). generalize ((v, cmd) :: found). clear.
    induction l as [|[? ?] l IH]; intros o; [by eexists|]. cbn [for_each]. unfold mbind, ST_bind, print at 1, modify.
    apply IH. }
  assert (suits path glob executable version_of min_version (v, cmd)) as Hin by (apply Hf; by left).
  unfold mbind at 1, ST_bind at 1. rewrite Ew. destruct bail_out.
  - destruct success_on_error; unfold print, mbind, ST_bind; (split; [done|by eexists]).
  - unfold print, mbind, ST_bind, modify. cbv beta iota. destruct (execv _ _) as [e|]; cbn [snd].
    + split; [done|by eexists].
    + split; [done|]. split; [done|]. split; [done|].
      exists v. split; [done|]. intros x Hx%Hf.
      inversion Hs as [|? ? _ HF]; subst. apply elem_of_cons in Hx as [->|Hx]; [apply ver_le_refl|].
      rewrite Forall_forall in HF. by apply HF.
Qed.
