(* ===== verification/TestDocBuild.v ===== *)
(** * TestDocBuild: [docs/test_doc_build.py]

    The script that installs versions of Sphinx, each in a virtual environment of
    its own, and builds the documentation with them.  The programs it runs, the
    environment, the clock and the standard input are parameters; what it writes
    is in its state. *)

From S2P Require Import Prelude PyStr PyNum PyRe PyReSyntax PyReTheory Argparse PyVersion.

(** Tuples of integers: versions. *)
Abbreviation version := (list Z).

(** ** Tables *)

Definition SPHINX_REQUIREMENTS : list (version * dict string) := [
  ([3; 4; 3]%Z, [
    ("docutils", "0.16"); ("alabaster", "0.7.12"); ("babel", "2.8.0"); ("certifi", "2020.6.20");
    ("idna", "2.10"); ("imagesize", "1.2.0"); ("Jinja2", "2.11.2"); ("MarkupSafe", "1.1.1");
    ("packaging", "20.4"); ("Pygments", "2.6.1"); ("PyYAML", "5.1"); ("requests", "2.24.0");
    ("snowballstemmer", "2.0.0"); ("sphinxcontrib-applehelp", "1.0.2");
    ("sphinxcontrib-devhelp", "1.0.2"); ("sphinxcontrib-htmlhelp", "1.0.3");
    ("sphinxcontrib-jsmath", "1.0.1"); ("sphinxcontrib-qthelp", "1.0.3");
    ("sphinxcontrib-serializinghtml", "1.1.4"); ("urllib3", "1.25.9")]);
  ([3; 5; 0]%Z, [
    ("alabaster", "0.7.13"); ("babel", "2.17.0"); ("certifi", "2025.6.15"); ("idna", "3.10");
    ("imagesize", "1.4.1"); ("packaging", "25.0"); ("Pygments", "2.8.1"); ("requests", "2.32.4");
    ("snowballstemmer", "3.0.1"); ("sphinxcontrib-applehelp", "1.0.4");
    ("sphinxcontrib-htmlhelp", "2.0.1"); ("sphinxcontrib-serializinghtml", "1.1.5");
    ("urllib3", "2.0.0")]);
  ([4; 0; 0]%Z, [("PyYAML", "5.1")]);
  ([4; 1; 0]%Z, [("docutils", "0.17"); ("Pygments", "2.19.1"); ("Jinja2", "3.0.3"); ("MarkupSafe", "2.0")]);
  ([4; 3; 0]%Z, []);
  ([4; 4; 0]%Z, []);
  ([4; 5; 0]%Z, [("docutils", "0.17.1")]);
  ([5; 0; 0]%Z, []);
  ([5; 1; 0]%Z, []);
  ([5; 2; 0]%Z, [("docutils", "0.18"); ("Jinja2", "3.1.2"); ("MarkupSafe", "2.0"); ("PyYAML", "5.3.1")]);
  ([5; 3; 0]%Z, [("docutils", "0.18.1")]);
  ([6; 0; 0]%Z, []);
  ([6; 1; 0]%Z, []);
  ([6; 2; 0]%Z, [("PyYAML", "5.4.1")]);
  ([7; 0; 0]%Z, []);
  ([7; 1; 0]%Z, []);
  ([7; 2; 0]%Z, [("docutils", "0.19"); ("PyYAML", "6.0.1"); ("sphinxcontrib-serializinghtml", "1.1.9")]);
  ([7; 2; 6]%Z, [("docutils", "0.20")]);
  ([7; 3; 0]%Z, [("alabaster", "0.7.14"); ("PyYAML", "6.0.1"); ("tomli", "2.0.1")]);
  ([7; 4; 0]%Z, [("docutils", "0.20.1"); ("PyYAML", "6.0.1")]);
  ([8; 0; 0]%Z, [("docutils", "0.21")]);
  ([8; 1; 0]%Z, [
    ("docutils", "0.21.1"); ("PyYAML", "6.0.1"); ("sphinxcontrib-applehelp", "1.0.7");
    ("sphinxcontrib-devhelp", "1.0.6"); ("sphinxcontrib-htmlhelp", "2.0.6");
    ("sphinxcontrib-qthelp", "1.0.6")]);
  ([8; 2; 0]%Z, [("docutils", "0.21.2"); ("PyYAML", "6.0.1"); ("sphinxcontrib-serializinghtml", "1.1.9")])
].
Definition DEFAULT_VERSIONS_TO_TEST : list version := [
  [3; 4; 3]; [5; 3; 0]; [6; 1; 1]; [7; 2; 1]; [7; 2; 6]; [7; 4; 7]; [7; 3; 0]; [8; 1; 3]; [8; 2; 3]]%Z.
Definition MAKE_TARGETS : list string :=
  ["htmldocs"; "texinfodocs"; "infodocs"; "latexdocs"; "pdfdocs"; "epubdocs"; "xmldocs"].

(** A dictionary keyed by versions. *)
Fixpoint vget {V} (d : list (version * V)) (v : version) : option V :=
  match d with
  | [] => None
  | (k, x) :: d => if bool_decide (k = v) then Some x else vget d v
  end.
(** [d.update(d')] *)
Definition dupdate {V} (d d' : dict V) : dict V := fold_left (λ d '(k, v), dset d k v) d' d.

(** ** State *)

(** A line printed to the standard output or error. *)
Inductive said := Out (s : string) | Err (s : string).
(** What the script has done: the lines it printed, those of the log file, the
    commands it ran, the requirement files it wrote, and the input it was
    given; [built_time] and [first_run] are the attributes of [SphinxVenv]. *)
Record venv := Venv {
  printed : list said;
  logged : list string;
  commands : list (list string);
  req_files : list (string * string);
  stdin : list string;
  built_time : dict string;
  first_run : bool;
}.
Definition Venv_init (stdin : list string) : venv := Venv [] [] [] [] stdin [] true.
Definition say (s : said) (v : venv) : venv :=
  Venv (printed v ++ [s]) (logged v) (commands v) (req_files v) (stdin v) (built_time v) (first_run v).
Definition write_log (s : string) (v : venv) : venv :=
  Venv (printed v) (logged v ++ [s]) (commands v) (req_files v) (stdin v) (built_time v) (first_run v).
Definition add_command (cmd : list string) (v : venv) : venv :=
  Venv (printed v) (logged v) (commands v ++ [cmd]) (req_files v) (stdin v) (built_time v) (first_run v).
Definition add_req_file (f : string * string) (v : venv) : venv :=
  Venv (printed v) (logged v) (commands v) (req_files v ++ [f]) (stdin v) (built_time v) (first_run v).
Definition set_stdin (l : list string) (v : venv) : venv :=
  Venv (printed v) (logged v) (commands v) (req_files v) l (built_time v) (first_run v).
Definition set_built_time (ver time : string) (v : venv) : venv :=
  Venv (printed v) (logged v) (commands v) (req_files v) (stdin v) (dset (built_time v) ver time) (first_run v).
Definition not_first (v : venv) : venv :=
  Venv (printed v) (logged v) (commands v) (req_files v) (stdin v) (built_time v) false.
Abbreviation Doc := (ST venv).

(** The arguments, as [run] leaves them. *)
Record args := Args {
  versions : list version;
  min_version : option version;
  max_version : option version;
  build : bool;
  make_args : list string;
  targets : list string;
  output : option string;
  req_file : bool;
  log : option string;
  verbose : bool;
  wait_input : bool;
}.
Definition truthy (o : option string) : bool :=
  match o with Some (String _ _) => true | _ => false end.

(** A process: the lines that the two readers get from its standard output
    ([true]) and error, in the order in which they get them; and its status,
    negative when a signal killed it. *)
Record process := Process { lines : list (bool * string); returncode : Z }.
(** What [AsyncCommands.run] returns: the text captured, or a
    [CompletedProcess]. *)
Inductive run_result :=
| Captured (text : option string)
| Completed (status : Z) (stdout stderr : string).

Section Script.
(** [proc] runs a command with an environment; its failure to start is the
    message of an [OSError].  [elapsed] is the time between the two readings of the
    clock for a version, in whole seconds. *)
Context (proc : list string → dict string → string + process).
Context (environ : dict string) (realpath : string → string) (elapsed : string → Z).
(** [which] says what is in [$PATH]; [executable] is [sys.executable]. *)
Context (which : string → bool) (executable : string).

Definition PYTHON : string := basename executable.
Definition min_python_bin : string :=
  default PYTHON (head (List.filter which (map (λ i, "python3." +:+ int_str i) (seq 9 4)))).
Definition PYTHON_VER_CHANGES : list (version * string) := [([8; 0; 0]%Z, PYTHON)].

(** ** [AsyncCommands] *)

Section Commands.
(** Whether there is a log file: [self.fp]. *)
Context (fp : bool).

(** [log(out, verbose, is_info)] *)
Definition log_line (out : string) (verbose is_info : bool) : Doc unit :=
  let out := if endswith nl out then str_take (String.length out - 1) out else out in
  when verbose (modify (say (if is_info then Out out else Err out))) ;;
  when fp (modify (write_log (out +:+ nl))).
(** The two readers: [self.stdout] and [self.stderr] at the end. *)
Definition _read (verbose : bool) (ls : list (bool * string)) : Doc (string * string) :=
  for_acc ls ("", "") (λ '(stdout, stderr) '(is_info, line),
    log_line line verbose is_info ;;
    mret (if (is_info : bool) then (stdout +:+ line, stderr) else (stdout, stderr +:+ line))).
(** [run(cmd, capture_output, check, env, verbose)]; [self.output] is [None],
    nothing else is ever stored there. *)
Definition run (cmd : list string) (capture_output check : bool) (env : dict string) (verbose : bool)
    : Doc run_result :=
  log_line ("$ " +:+ join " " cmd) verbose true ;;
  match proc cmd env with
  | inl msg => raise (OSError msg)
  | inr p =>
      modify (add_command cmd) ;;
      r ← _read verbose (lines p);
      if check && (0 <? returncode p)%Z then raise (CalledProcessError (returncode p) (join " " cmd))
      else if capture_output then
        if (0 <? returncode p)%Z then
          log_line ("Error " +:+ zint_str (returncode p)) true false ;;
          mret (Captured (Some ""))
        else mret (Captured None)
      else mret (Completed (returncode p) (fst r) (snd r))
  end.
End Commands.

(** ** [SphinxVenv] *)

(** [f"{n:02d}"] *)
Definition two_digits (n : Z) : string :=
  if (n <? 0)%Z then zint_str n else pad0 2 (Z.to_nat n).
Definition hms (t : Z) : string :=
  two_digits (t / 3600) +:+ ":" +:+ two_digits (t mod 3600 / 60) +:+ ":"
  +:+ two_digits ((t mod 3600) mod 60).

(** The environment of the virtual environment. *)
Definition venv_env (venv_dir : string) : res (dict string) :=
  match dget environ "PATH" with
  | None => Raise (KeyError "PATH")
  | Some path =>
      let env := dset (dset environ "PATH" (path_join venv_dir "bin" +:+ ":" +:+ path)) "VIRTUAL_ENV" venv_dir in
      Ok (if dmem env "PYTHONHOME" then ddel env "PYTHONHOME" else env)
  end.
Definition input (prompt : string) : Doc string :=
  modify (say (Out prompt)) ;;
  lines ← gets stdin;
  match lines with
  | [] => raise EOFError
  | line :: lines => modify (set_stdin lines) ;; mret line
  end.
(** [input(...)], unless this is the first version. *)
Definition wait (a : args) : Doc unit :=
  first ← gets first_run;
  if negb first && wait_input a && build a then
    line ← input "Press Enter to continue or 'a' to abort: ";
    when (str_lower (strip line) =? "a")%string
      (modify (say (Out "Aborted.")) ;; raise (Exit 0))
  else modify not_first.
Definition install_list (ver : string) (cur_requirements : dict string) : list string :=
  map (λ '(pkg, verstr), pkg +:+ "==" +:+ verstr) cur_requirements ++ ["Sphinx==" +:+ ver].
Definition make_command (a : args) (bin_dir : string) : list string :=
  ["make"]
  ++ (if truthy (output a)
      then ["O=" +:+ default "" (output a); "SPHINXBUILD=" +:+ realpath (bin_dir +:+ "/sphinx-build")]
      else [])
  ++ make_args a ++ targets a.
(** The part of [_handle_version] under [args.build]. *)
Definition build_docs (a : args) (fp : bool) (ver : string) : Doc unit :=
  let venv_dir := "Sphinx_" +:+ ver in
  let bin_dir := path_join venv_dir "bin" in
  env ← lift_res (venv_env venv_dir);
  run fp ["make"; "cleandocs"] false true env true ;;
  when (verbose a) (log_line fp (". " +:+ bin_dir +:+ "/activate") true true) ;;
  run fp (make_command a bin_dir) false true env true ;;
  when (verbose a) (log_line fp "deactivate" true true) ;;
  modify (set_built_time ver (hms (elapsed ver))) ;;
  log_line fp ("Finished doc build for Sphinx " +:+ ver +:+ ". Elapsed time: " +:+ hms (elapsed ver)) true true.
(** [_handle_version(args, fp, cur_ver, cur_requirements, python_bin)] *)
Definition _handle_version (a : args) (fp : bool) (cur_ver : version) (cur_requirements : dict string)
    (python_bin : string) : Doc unit :=
  let ver := ver_str cur_ver in
  wait a ;;
  let venv_dir := "Sphinx_" +:+ ver in
  log_line fp (nl +:+ "Sphinx " +:+ ver +:+ " with " +:+ python_bin) true true ;;
  run fp [python_bin; "-m"; "venv"; venv_dir] false true environ (verbose a) ;;
  let pip := path_join venv_dir "bin/pip" in
  run fp (pip :: "install" :: install_list ver cur_requirements) false true environ (verbose a) ;;
  result ← run fp [pip; "freeze"] false true environ false;
  when (req_file a) (
    match result with
    | Completed _ stdout _ => modify (add_req_file ("requirements_" +:+ ver +:+ ".txt", stdout))
    | Captured _ => raise (AttributeError "stdout")
    end) ;;
  when (build a) (build_docs a fp ver).

(** The loop of [run] over the sorted versions. *)
Fixpoint versions_loop (a : args) (fp : bool) (cur_requirements : dict string) (python_bin : string)
    (vers : list version) : Doc unit :=
  match vers with
  | [] => mret tt
  | cur_ver :: vers =>
      let cur_requirements :=
        match vget SPHINX_REQUIREMENTS cur_ver with
        | Some new_reqs => dupdate cur_requirements new_reqs
        | None => cur_requirements
        end in
      let python_bin := default python_bin (vget PYTHON_VER_CHANGES cur_ver) in
      if negb (bool_decide (cur_ver ∈ versions a)) then
        versions_loop a fp cur_requirements python_bin vers
      else if match min_version a with Some m => bool_decide (m ≠ []) && ver_lt cur_ver m | None => false end then
        versions_loop a fp cur_requirements python_bin vers
      else if match max_version a with Some m => bool_decide (m ≠ []) && ver_lt m cur_ver | None => false end then
        mret tt
      else
        _handle_version a fp cur_ver cur_requirements python_bin ;;
        versions_loop a fp cur_requirements python_bin vers
  end.
(** [sorted(vers)] for the set of the versions of the table and those asked for. *)
Definition sorted_versions (a : args) : list version :=
  isort ver_le (remove_dups (map fst SPHINX_REQUIREMENTS ++ versions a)).
Definition summary (fp : bool) : Doc unit :=
  log_line fp (nl +:+ "Summary:") true true ;;
  times ← gets built_time;
  for_each (sort_by fst times) (λ '(ver, elapsed_time),
    log_line fp (tab +:+ "Sphinx " +:+ ver +:+ " elapsed time: " +:+ elapsed_time) true true).
(** [run(args)] *)
Definition set_verbose (b : bool) (a : args) : args :=
  Args (versions a) (min_version a) (max_version a) (build a) (make_args a) (targets a) (output a)
    (req_file a) (log a) b (wait_input a).
Definition run_all (a : args) : Doc unit :=
  let fp := truthy (log a) in
  let a := set_verbose (verbose a || negb fp) a in
  versions_loop a fp [] min_python_bin (sorted_versions a) ;;
  when (build a) (summary fp).

(** ** Command line *)

Definition parse_version_arg (s : string) : option value :=
  match parse_version s with Ok v => Some (VTuple v) | Raise _ => None end.
Fixpoint parse_versions_arg (l : list string) : option (list version) :=
  match l with
  | [] => Some []
  | s :: l =>
      match parse_version s with
      | Ok v => (λ vs, v :: vs) <$> parse_versions_arg l
      | Raise _ => None
      end
  end.
Definition test_doc_build_parser : parser := Parser [
    help_option;
    Optional ["-V"; "--versions"] "versions"
      (StoreN Any VNone (λ l, VTuples <$> parse_versions_arg l)) (VTuples DEFAULT_VERSIONS_TO_TEST);
    Optional ["--min-version"; "--min"] "min_version" (Store parse_version_arg) VNone;
    Optional ["--max-version"; "--max"] "max_version" (Store parse_version_arg) VNone;
    store_true ["-f"; "--full"] "full";
    store_true ["-b"; "--build"] "build";
    Optional ["-a"; "--make-args"] "make_args" (StoreN Any VNone plain_list) VNone;
    Optional ["-t"; "--targets"] "targets" (StoreN Several VNone (all_of MAKE_TARGETS)) (VList ["htmldocs"]);
    store ["-o"; "--output"] "output";
    store_true ["-r"; "--req-file"] "req_file";
    store ["-l"; "--log"] "log";
    store_true ["-v"; "--verbose"] "verbose";
    store_true ["-i"; "--wait-input"] "wait_input"]
  [] [] [].
Definition args_of (ns : dict value) : args :=
  Args (as_tuples ns "versions" ++ (if as_bool ns "full" then map fst SPHINX_REQUIREMENTS else []))
    (as_tuple ns "min_version") (as_tuple ns "max_version") (as_bool ns "build")
    (default [] (as_list ns "make_args")) (default [] (as_list ns "targets")) (as_str ns "output")
    (as_bool ns "req_file") (as_str ns "log") (as_bool ns "verbose") (as_bool ns "wait_input").
Definition main (argv : list string) : Doc unit :=
  ns ← lift_res (parse_args test_doc_build_parser no_subcommand argv);
  run_all (args_of ns).
End Script.
