(* ===== verification/TestDocBuildSpec.v ===== *)
(** * TestDocBuildSpec: which versions are tested, with what, and how a run ends *)

From S2P Require Import Prelude PyStr PyNum PyRe PyReSyntax PyReTheory Argparse PyVersion PyVersionSpec TestDocBuild.

(** ** The strict order on versions *)

Abbreviation ascending := (StronglySorted (λ a b, ver_lt a b = true)).

(** ** The requirements of a version *)

(** The entries of a table for the versions that satisfy [p], one after the other. *)
Definition reqs_where (p : version → bool) (T : list (version * dict string)) (d : dict string) : dict string :=
  fold_left (λ d '(k, r), if p k then dupdate d r else d) T d.
(** What [_handle_version] should get for a version. *)
Definition requirements_for (v : version) : dict string :=
  reqs_where (λ k, ver_le k v) SPHINX_REQUIREMENTS [].
(** The last entry up to a version that names a package. *)
Definition required_for (T : list (version * dict string)) (v : version) (pkg : string) : option string :=
  last (omap (λ '(k, r), if ver_le k v then dget r pkg else None) T).

Lemma reqs_where_ext p q T d : Forall (λ e, p (fst e) = q (fst e)) T → reqs_where p T d = reqs_where q T d.
Proof.
  revert d. induction T as [|[k r] T IH]; intros d; [done|]. intros [Hk HT]%Forall_cons. cbn in Hk.
  unfold reqs_where in *. cbn [fold_left]. by rewrite Hk, IH.
Qed.
Lemma reqs_where_none p T d : Forall (λ e, p (fst e) = false) T → reqs_where p T d = d.
Proof.
  revert d. induction T as [|[k r] T IH]; intros d; [done|]. intros [Hk HT]%Forall_cons. cbn in Hk.
  unfold reqs_where in *. cbn [fold_left]. by rewrite Hk, IH.
Qed.
(** One turn of the loop: the entry of the version itself. *)
Lemma reqs_where_step v T : ascending (map fst T) → ∀ d,
  reqs_where (λ k, ver_le k v) T d
  = match vget T v with
    | Some r => dupdate (reqs_where (λ k, ver_lt k v) T d) r
    | None => reqs_where (λ k, ver_lt k v) T d
    end.
Proof.
  induction T as [|[k r] T IH]; intros Hs d; [done|]. cbn [map fst] in Hs. inversion Hs as [|? ? HT HF]; subst.
  apply (Forall_map fst) in HF. unfold reqs_where in *. cbn [fold_left vget]. case_bool_decide as E.
  - subst k. rewrite ver_le_refl, ver_lt_irrefl.
    assert (∀ p d, (∀ k', ver_lt v k' = true → p k' = false) →
      fold_left (λ d '(k, r), if (p k : bool) then dupdate d r else d) T d = d) as Hnone.
    { intros p d' Hp. apply (reqs_where_none p). eapply Forall_impl; [exact HF|]. intros [k' r'] Hk'. by apply Hp. }
    rewrite (Hnone (λ k, ver_le k v)), (Hnone (λ k, ver_lt k v)); [done|..]; intros k' Hk'.
    all: unfold ver_lt in *; cbv beta; destruct (ver_le k' v) eqn:El; [|done].
    all: exfalso; apply andb_prop in Hk' as [Hk' N]; apply negb_true_iff, bool_decide_eq_false in N.
    all: by apply N, ver_le_antisym.
  - assert (ver_le k v = ver_lt k v) as ->; [|by apply IH].
    unfold ver_lt. rewrite bool_decide_eq_false_2 by done. by rewrite andb_true_r.
Qed.

Lemma dget_dupdate {V} (d d' : dict V) k : NoDup (dkeys d') →
  dget (dupdate d d') k = match dget d' k with Some v => Some v | None => dget d k end.
Proof.
  revert d. induction d' as [|[k' v'] d' IH]; intros d; [done|]. cbn [dkeys map fst].
  intros [Hk Hn]%NoDup_cons. unfold dupdate in *. cbn [fold_left dget]. rewrite IH by done.
  destruct (String.eqb_spec k' k) as [->|N].
  - destruct (dget d' k) eqn:E; [|apply dget_dset_eq]. exfalso. apply Hk, dmem_In. unfold dmem. by rewrite E.
  - destruct (dget d' k); [done|]. by rewrite dget_dset_ne.
Qed.
Lemma reqs_where_get v pkg T : Forall (λ e, NoDup (dkeys (snd e))) T → ∀ d,
  dget (reqs_where (λ k, ver_le k v) T d) pkg
  = match required_for T v pkg with Some x => Some x | None => dget d pkg end.
Proof.
  unfold reqs_where, required_for.
  induction T as [|[k r] T IH]; intros HT d; [done|]. apply Forall_cons in HT as [Hr HT].
  cbn [fold_left omap list_omap snd] in *. rewrite IH by done.
  destruct (ver_le k v); [|done]. rewrite dget_dupdate by done.
  destruct (dget r pkg) as [x|] eqn:E; [|done].
  rewrite last_cons. by destruct (last _).
Qed.

(** ** The plan of a run *)

Section Plan.
Context (proc : list string → dict string → string + process).
Context (environ : dict string) (realpath : string → string) (elapsed : string → Z).
Context (which : string → bool) (executable : string).
Abbreviation handle := (_handle_version proc environ realpath elapsed).
Abbreviation loop := (versions_loop proc environ realpath elapsed executable).

Definition selected (a : args) (v : version) : bool :=
  bool_decide (v ∈ versions a)
  && match min_version a with Some ((_ :: _) as m) => ver_le m v | _ => true end
  && match max_version a with Some ((_ :: _) as m) => ver_le v m | _ => true end.
Definition plan (a : args) : list version := List.filter (selected a) (sorted_versions a).
Definition python_for (v : version) : string :=
  if ver_le [8; 0; 0]%Z v then PYTHON executable else min_python_bin which executable.

Lemma sorted_versions_ascending a : ascending (sorted_versions a).
Proof.
  assert (NoDup (sorted_versions a)) as Hn.
  { unfold sorted_versions. rewrite isort_perm. apply NoDup_remove_dups. }
  assert (StronglySorted (λ a b, ver_le a b = true) (sorted_versions a)) as Hs.
  { apply Sorted_StronglySorted; [intros x y z H1 H2; by eapply ver_le_trans|].
    apply isort_sorted, ver_le_total. }
  induction Hs as [|v l Hs IH HF]; [constructor|]. apply NoDup_cons in Hn as [Hv Hn].
  constructor; [by apply IH|]. apply Forall_forall. intros w Hw. apply ver_lt_iff.
  split; [by apply (proj1 (Forall_forall _ _) HF)|]. by intros ->.
Qed.
Lemma sorted_versions_in a v : v ∈ sorted_versions a ↔ v ∈ map fst SPHINX_REQUIREMENTS ∨ v ∈ versions a.
Proof. unfold sorted_versions. by rewrite isort_perm, elem_of_remove_dups, elem_of_app. Qed.
Lemma table_ascending : ascending (map fst SPHINX_REQUIREMENTS).
Proof. cbn [map fst SPHINX_REQUIREMENTS]. repeat (constructor; [|repeat constructor]). constructor. Qed.

Lemma ascending_app (l k : list version) : ascending (l ++ k) →
  (∀ x y, x ∈ l → y ∈ k → ver_lt x y = true) ∧ ascending l ∧ ascending k.
Proof.
  induction l as [|z l IH]; cbn [app]; intros Hs.
  - split; [by intros x y ?%elem_of_nil|]. split; [constructor|done].
  - inversion Hs as [|? ? Hlk HF]; subst. apply Forall_app in HF as [HFl HFk].
    destruct (IH Hlk) as (Hb & Hl & Hk). split; [|by split; [constructor|]].
    intros x y [->|Hx]%elem_of_cons Hy; [by apply (proj1 (Forall_forall _ _) HFk)|by apply Hb].
Qed.
(** Where a version is in an ascending list. *)
Lemma ascending_split pre v vs k : ascending (pre ++ v :: vs) → k ∈ pre ++ v :: vs →
  (k ∈ pre ↔ ver_lt k v = true) ∧ (k ∈ pre ++ [v] ↔ ver_le k v = true).
Proof.
  intros Hs Hk. apply ascending_app in Hs as (Hb & _ & Hvs).
  inversion Hvs as [|? ? _ HF]; subst.
  assert (∀ x, x ∈ pre → ver_lt x v = true) as Hpre by (intros x Hx; apply Hb; [done|by left]).
  assert (∀ x, x ∈ vs → ver_lt v x = true) as Hpost by by apply Forall_forall.
  assert (k ∈ vs → ver_le k v = false) as Hnot.
  { intros Hx. apply Hpost in Hx. rewrite ver_lt_le in Hx. by apply negb_true_iff. }
  rewrite elem_of_app, elem_of_cons in Hk.
  rewrite elem_of_app, list_elem_of_singleton, ver_lt_iff. split; split.
  - intros Hx. by apply ver_lt_iff, Hpre.
  - intros [Hle Hne]. destruct Hk as [|[|Hx]]; [done|done|]. by rewrite Hnot in Hle.
  - intros [Hx| ->]; [|apply ver_le_refl]. by apply Hpre, ver_lt_iff in Hx as [].
  - intros Hle. destruct Hk as [|[|Hx]]; [by left|by right|]. by rewrite Hnot in Hle.
Qed.
Lemma changes_at v : vget (PYTHON_VER_CHANGES executable) v
  = if bool_decide ([8; 0; 0]%Z = v) then Some (PYTHON executable) else None.
Proof. reflexivity. Qed.

Lemma loop_plan a fp vers : ∀ pre pb s,
  pre ++ vers = sorted_versions a →
  pb = (if bool_decide ([8; 0; 0]%Z ∈ pre) then PYTHON executable else min_python_bin which executable) →
  loop a fp (reqs_where (λ k, bool_decide (k ∈ pre)) SPHINX_REQUIREMENTS []) pb vers s
  = for_each (List.filter (selected a) vers) (λ v, handle a fp v (requirements_for v) (python_for v)) s.
Proof.
  induction vers as [|v vs IH]; intros pre pb s Hl Hpb; [done|].
  pose proof (sorted_versions_ascending a) as Hs. rewrite <- Hl in Hs.
  assert (∀ k, k ∈ map fst SPHINX_REQUIREMENTS →
    (k ∈ pre ↔ ver_lt k v = true) ∧ (k ∈ pre ++ [v] ↔ ver_le k v = true)) as Hat.
  { intros k Hk. apply (ascending_split pre v vs); [done|]. rewrite Hl. apply sorted_versions_in. by left. }
  assert (match vget SPHINX_REQUIREMENTS v with
          | Some r => dupdate (reqs_where (λ k, bool_decide (k ∈ pre)) SPHINX_REQUIREMENTS []) r
          | None => reqs_where (λ k, bool_decide (k ∈ pre)) SPHINX_REQUIREMENTS []
          end = requirements_for v) as Hreq.
  { unfold requirements_for. rewrite reqs_where_step by apply table_ascending.
    rewrite (reqs_where_ext _ (λ k, ver_lt k v)); [done|]. apply Forall_forall. intros e He. cbv beta.
    apply (list_elem_of_fmap_2 fst) in He. apply Hat in He as [He _].
    destruct (ver_lt (fst e) v); [by apply bool_decide_eq_true_2, He|].
    apply bool_decide_eq_false_2. intros H. by apply He in H. }
  assert (requirements_for v = reqs_where (λ k, bool_decide (k ∈ pre ++ [v])) SPHINX_REQUIREMENTS []) as Hnext.
  { unfold requirements_for. apply reqs_where_ext. apply Forall_forall. intros e He. cbv beta.
    apply (list_elem_of_fmap_2 fst) in He. apply Hat in He as [_ He].
    destruct (ver_le (fst e) v); [by symmetry; apply bool_decide_eq_true_2, He|].
    symmetry. apply bool_decide_eq_false_2. intros H. by apply He in H. }
  destruct (Hat [8; 0; 0]%Z) as [_ H8]; [by apply (list_elem_of_lookup_2 _ 20)|].
  assert (default pb (vget (PYTHON_VER_CHANGES executable) v) = python_for v) as Hpy.
  { rewrite changes_at. unfold python_for. rewrite elem_of_app, list_elem_of_singleton in H8. subst pb.
    destruct (decide ([8; 0; 0]%Z = v)) as [E|E].
    - rewrite (bool_decide_eq_true_2 _ E). cbn [default from_option]. destruct H8 as [H8 _].
      by rewrite H8 by by right.
    - rewrite (bool_decide_eq_false_2 _ E). cbn [default from_option].
      destruct (ver_le [8; 0; 0]%Z v); [rewrite bool_decide_eq_true_2|rewrite bool_decide_eq_false_2]; try done.
      + by destruct (proj2 H8 eq_refl).
      + intros H. destruct H8 as [H8 _]. discriminate H8. by left. }
  assert (python_for v = if bool_decide ([8; 0; 0]%Z ∈ pre ++ [v]) then PYTHON executable
                         else min_python_bin which executable) as Hpn.
  { unfold python_for. destruct (ver_le [8; 0; 0]%Z v); [by rewrite bool_decide_eq_true_2 by by apply H8|].
    rewrite bool_decide_eq_false_2; [done|]. intros H. by apply H8 in H. }
  specialize (IH (pre ++ [v]) (python_for v)). rewrite <- app_assoc, <- Hnext in IH.
  cbn [versions_loop List.filter]. rewrite Hreq, Hpy. unfold selected at 1.
  destruct (bool_decide (v ∈ versions a)) eqn:Ev; cbn [negb andb]; [|by apply IH].
  assert ((match min_version a with Some m => bool_decide (m ≠ []) && ver_lt v m | None => false end)
    = negb (match min_version a with Some ((_ :: _) as m) => ver_le m v | _ => true end)) as ->.
  { destruct (min_version a) as [[|? ?]|]; [done| |done].
    rewrite bool_decide_eq_true_2 by done. cbn [andb]. apply ver_lt_le. }
  destruct (match min_version a with Some ((_ :: _) as m) => _ | _ => true end); cbn [negb andb]; [|by apply IH].
  destruct (max_version a) as [[|m0 m]|] eqn:Em; [rewrite (bool_decide_eq_false_2 ([] ≠ [])) by auto| |];
    cbn [andb]; try (cbn [for_each]; unfold mbind, ST_bind; destruct (handle _ _ _ _ _ s) as [s' [[]|e]]; [by apply IH|done]).
  rewrite bool_decide_eq_true_2, ver_lt_le by done. cbn [andb].
  destruct (ver_le v (m0 :: m)) eqn:Ele; cbn [negb].
  { cbn [for_each]; unfold mbind, ST_bind; destruct (handle _ _ _ _ _ s) as [s' [[]|e]]; [by apply IH|done]. }
  assert (List.filter (selected a) vs = []) as ->; [|done].
  apply ascending_app in Hs as (_ & _ & Hs). inversion Hs as [|? ? _ HF]; subst.
  clear -HF Em Ele. induction HF as [|w vs Hw _ IH]; [done|]. cbn [List.filter]. rewrite IH.
  unfold selected. rewrite Em. destruct (ver_le w (m0 :: m)) eqn:E; [|by rewrite andb_false_r].
  apply ver_lt_iff in Hw as [Hw _]. by rewrite (ver_le_trans _ _ _ Hw E) in Ele.
Qed.

Lemma loop_plan_start a fp s :
  loop a fp [] (min_python_bin which executable) (sorted_versions a) s
  = for_each (plan a) (λ v, handle a fp v (requirements_for v) (python_for v)) s.
Proof.
  pose proof (loop_plan a fp (sorted_versions a) [] (min_python_bin which executable) s) as H.
  rewrite reqs_where_none in H by (by apply Forall_true). apply H; [by rewrite app_nil_l|].
  by rewrite bool_decide_eq_false_2 by apply not_elem_of_nil.
Qed.
(** The packages and their versions. *)
Lemma requirements_for_get v pkg : dget (requirements_for v) pkg = required_for SPHINX_REQUIREMENTS v pkg.
Proof.
  unfold requirements_for. rewrite reqs_where_get; [by destruct (required_for _ _ _)|].
  apply (bool_decide_unpack _). vm_compute. exact I.
Qed.
End Plan.

(** ** What a run does *)

Section Run.
Context (proc : list string → dict string → string + process).
Context (environ : dict string) (realpath : string → string) (elapsed : string → Z).
Context (which : string → bool) (executable : string).

(** A command and its environment. *)
Abbreviation call := (list string * dict string)%type.
(** Commands one after the other, up to the first that does not start or gives a
    positive status: those that ran, and the exception. *)
Fixpoint run_until (l : list call) : list (list string) * option exn :=
  match l with
  | [] => ([], None)
  | (cmd, env) :: l =>
      match proc cmd env with
      | inl msg => ([], Some (OSError msg))
      | inr p =>
          if (0 <? returncode p)%Z then ([cmd], Some (CalledProcessError (returncode p) (join " " cmd)))
          else let '(cmds, e) := run_until l in (cmd :: cmds, e)
      end
  end.
Lemma run_until_app l1 l2 : run_until (l1 ++ l2)
  = match run_until l1 with
    | (cmds, None) => (cmds ++ fst (run_until l2), snd (run_until l2))
    | r => r
    end.
Proof.
  induction l1 as [|[cmd env] l1 IH]; cbn [app run_until]; [by destruct (run_until l2)|].
  destruct (proc cmd env) as [msg|p]; [done|]. destruct (0 <? returncode p)%Z; [done|].
  rewrite IH. by destruct (run_until l1) as [cmds [e|]].
Qed.

(** A computation runs the commands [l]; if none of them fails it returns, having
    noted the times of the versions [ts]. *)
Definition performs {A} (m : Doc A) (l : list call) (ts : list string) : Prop := ∀ s,
  let '(s', r) := m s in
  commands s' = commands s ++ fst (run_until l) ∧
  match snd (run_until l) with
  | None => (∃ a, r = Ok a) ∧ built_time s' = fold_left (λ d ver, dset d ver (hms (elapsed ver))) ts (built_time s)
  | Some e => r = Raise e
  end.
Lemma performs_from {A} (m : Doc A) l ts s : performs m l ts → commands s = [] → built_time s = [] →
  let '(s', r) := m s in
  commands s' = fst (run_until l) ∧
  match snd (run_until l) with
  | Some e => r = Raise e
  | None => (∃ a, r = Ok a) ∧ built_time s' = fold_left (λ d ver, dset d ver (hms (elapsed ver))) ts []
  end.
Proof. intros H Hc Ht. specialize (H s). rewrite Hc, Ht in H. destruct (m s) as [s' r]. exact H. Qed.
Lemma performs_bind_if {A B} (P : A → Prop) (m : Doc A) (f : A → Doc B) l1 l2 ts1 ts2 :
  performs m l1 ts1 → (∀ s s' a, m s = (s', Ok a) → P a) → (∀ a, P a → performs (f a) l2 ts2) →
  performs (m ≫= f) (l1 ++ l2) (ts1 ++ ts2).
Proof.
  intros Hm HP Hf s. specialize (Hm s). unfold mbind, ST_bind. rewrite run_until_app.
  destruct (m s) as [s1 r1] eqn:E. destruct (run_until l1) as [cmds [e|]]; cbn [fst snd] in *.
  - destruct Hm as [Hc ->]. by split.
  - destruct Hm as (Hc & [a ->] & Ht). specialize (Hf a (HP _ _ _ E) s1). destruct (f a s1) as [s2 r2].
    rewrite Hc, Ht, <- app_assoc, <- fold_left_app in Hf. exact Hf.
Qed.
Lemma performs_bind {A B} (m : Doc A) (f : A → Doc B) l1 l2 ts1 ts2 :
  performs m l1 ts1 → (∀ a, performs (f a) l2 ts2) → performs (m ≫= f) (l1 ++ l2) (ts1 ++ ts2).
Proof. intros Hm Hf. by apply (performs_bind_if (λ _, True)). Qed.
Lemma performs_seq {A B} (m : Doc A) (k : Doc B) l1 l2 ts1 ts2 :
  performs m l1 ts1 → performs k l2 ts2 → performs (m ;; k) (l1 ++ l2) (ts1 ++ ts2).
Proof. intros H1 H2. by apply performs_bind. Qed.
Lemma performs_ret {A} (a : A) : performs (mret a) [] [].
Proof. intros s. cbn. rewrite app_nil_r. eauto. Qed.
Lemma performs_modify f : (∀ s, commands (f s) = commands s ∧ built_time (f s) = built_time s) →
  performs (modify f) [] [].
Proof. intros H s. cbn. destruct (H s) as [-> ->]. rewrite app_nil_r. eauto. Qed.
Lemma performs_when b m : performs m [] [] → performs (when b m) [] [].
Proof. intros H. destruct b; [done|apply performs_ret]. Qed.
Lemma performs_gets {A} (f : venv → A) : performs (gets f) [] [].
Proof. intros s. cbn. rewrite app_nil_r. eauto. Qed.
Lemma performs_log fp out verbose is_info : performs (log_line fp out verbose is_info) [] [].
Proof.
  unfold log_line. apply (performs_seq _ _ [] [] [] []); apply performs_when, performs_modify; by destruct is_info.
Qed.
Lemma performs_for_each {A} (xs : list A) body (l : A → list call) (ts : A → list string) :
  (∀ x, x ∈ xs → performs (body x) (l x) (ts x)) → performs (for_each xs body) (flat_map l xs) (flat_map ts xs).
Proof.
  induction xs as [|x xs IH]; intros H; [apply performs_ret|]. cbn [for_each flat_map].
  apply performs_seq; [apply H; by left|]. apply IH. intros y Hy. apply H. by right.
Qed.
Lemma performs_read fp verbose ls : ∀ acc, performs
  (for_acc ls acc (λ '(stdout, stderr) '(is_info, line),
    log_line fp line verbose is_info ;;
    mret (if (is_info : bool) then (stdout +:+ line, stderr) else (stdout, stderr +:+ line)))) [] [].
Proof.
  induction ls as [|[is_info line] ls IH]; intros [so se]; [apply performs_ret|]. cbn [for_acc].
  apply (performs_bind _ _ [] [] [] []); [|intros [so' se']; apply IH].
  apply (performs_seq _ _ [] [] [] []); [apply performs_log|apply performs_ret].
Qed.
Lemma performs_run fp cmd env verbose :
  performs (run proc fp cmd false true env verbose) [(cmd, env)] [].
Proof.
  unfold run. apply (performs_seq _ _ [] _ [] []); [apply performs_log|]. intros s. cbn [run_until].
  destruct (proc cmd env) as [msg|p]; [by cbn; rewrite app_nil_r|].
  unfold mbind at 1, ST_bind at 1. unfold modify.
  pose proof (performs_read fp verbose (lines p) ("", "") (add_command cmd s)) as H.
  unfold mbind, ST_bind, _read. destruct (for_acc _ _ _ _) as [s' r]. cbn [run_until fst snd fold_left] in H.
  destruct H as (Hc & [r' ->] & Ht). rewrite app_nil_r in Hc. cbn [andb].
  destruct (0 <? returncode p)%Z; cbn; split; (exact Hc || done || eauto).
Qed.
(** What [run] gives back is the text of each stream, in whatever order the two
    readers get their lines. *)
Definition stream (is_info : bool) (ls : list (bool * string)) : string :=
  sconcat (map snd (List.filter (λ l, Bool.eqb (fst l) is_info) ls)).
Lemma read_streams fp verbose ls : ∀ so se s, ∃ s',
  for_acc ls (so, se) (λ '(stdout, stderr) '(is_info, line),
    log_line fp line verbose is_info ;;
    mret (if (is_info : bool) then (stdout +:+ line, stderr) else (stdout, stderr +:+ line))) s
  = (s', Ok (so +:+ stream true ls, se +:+ stream false ls)).
Proof.
  unfold stream. induction ls as [|[is_info line] ls IH]; intros so se s.
  { exists s. cbn. unfold mret, ST_ret. cbn [sconcat foldr map List.filter]. by rewrite !sapp_nil_r. }
  cbn [for_acc]. pose proof (performs_log fp line verbose is_info s) as H.
  unfold mbind at 1, ST_bind at 1, mbind, ST_bind. destruct (log_line _ _ _ _ s) as [s1 r]. destruct H as (_ & [u ->] & _).
  unfold mret at 1, ST_ret at 1.
  destruct is_info; [destruct (IH (so +:+ line) se s1) as [s' H]|destruct (IH so (se +:+ line) s1) as [s' H]];
    exists s'; refine (eq_trans H _); cbn [List.filter fst Bool.eqb map snd];
    by rewrite sconcat_cons, sapp_assoc.
Qed.
Lemma run_completes fp cmd env verbose s s' r :
  run proc fp cmd false true env verbose s = (s', Ok r) → ∃ status out err, r = Completed status out err.
Proof.
  unfold run. unfold mbind at 1, ST_bind at 1. destruct (log_line _ _ _ _ s) as [s1 [[]|e]]; [|done].
  destruct (proc cmd env) as [msg|p]; [done|]. unfold mbind, ST_bind, modify.
  destruct (_read fp verbose (lines p) _) as [s2 [x|e]]; [|done]. cbn [andb].
  destruct (0 <? returncode p)%Z; [done|]. intros [= _ <-]. eauto.
Qed.

(** The commands for a version. *)
Definition env_of (ver : string) : dict string :=
  match venv_env environ ("Sphinx_" +:+ ver) with Ok env => env | Raise _ => [] end.
Definition version_calls (a : args) (v : version) : list call :=
  let ver := ver_str v in
  let venv_dir := "Sphinx_" +:+ ver in
  let pip := path_join venv_dir "bin/pip" in
  [([python_for which executable v; "-m"; "venv"; venv_dir], environ);
   (pip :: "install" :: install_list ver (requirements_for v), environ);
   ([pip; "freeze"], environ)]
  ++ if build a
     then [(["make"; "cleandocs"], env_of ver);
           (make_command realpath a (path_join venv_dir "bin"), env_of ver)]
     else [].
Definition all_calls (a : args) : list call := flat_map (version_calls a) (plan a).

Context (path_set : dmem environ "PATH" = true).

Lemma performs_wait a : wait_input a && build a = false → performs (wait a) [] [].
Proof.
  intros Hw. unfold wait. apply (performs_bind _ _ [] [] [] []); [apply performs_gets|]. intros first.
  rewrite <- andb_assoc, Hw, andb_false_r. by apply performs_modify.
Qed.
Lemma env_ok ver : venv_env environ ("Sphinx_" +:+ ver) = Ok (env_of ver).
Proof.
  unfold env_of, venv_env. unfold dmem in path_set. by destruct (dget environ "PATH").
Qed.
Lemma performs_build a fp ver : performs (build_docs proc environ realpath elapsed a fp ver)
  [(["make"; "cleandocs"], env_of ver);
   (make_command realpath a (path_join ("Sphinx_" +:+ ver) "bin"), env_of ver)] [ver].
Proof.
  unfold build_docs. cbv zeta. rewrite env_ok.
  apply (performs_bind_if (λ env, env = env_of ver) _ _ [] _ [] [ver]); [intros s; cbn; rewrite app_nil_r; eauto|..].
  { intros s s' env. by intros [= _ <-]. }
  intros env ->.
  apply (performs_seq _ _ [_] [_] [] [ver]); [apply performs_run|].
  apply (performs_seq _ _ [] [_] [] [ver]); [apply performs_when, performs_log|].
  apply (performs_seq _ _ [_] [] [] [ver]); [apply performs_run|].
  apply (performs_seq _ _ [] [] [] [ver]); [apply performs_when, performs_log|].
  apply (performs_seq _ _ [] [] [ver] []); [|apply performs_log].
  intros s. cbn. rewrite app_nil_r. eauto.
Qed.
Lemma performs_version a fp v : wait_input a && build a = false →
  performs (_handle_version proc environ realpath elapsed a fp v (requirements_for v) (python_for which executable v))
    (version_calls a v) (if build a then [ver_str v] else []).
Proof.
  intros Hw. unfold _handle_version, version_calls. cbv zeta.
  apply (performs_seq _ _ [] _ [] _); [by apply performs_wait|].
  apply (performs_seq _ _ [] _ [] _); [apply performs_log|].
  apply (performs_seq _ _ [_] _ [] _); [apply performs_run|].
  apply (performs_seq _ _ [_] _ [] _); [apply performs_run|].
  apply (performs_bind_if (λ r, ∃ st out err, r = Completed st out err) _ _ [_] _ [] _); [apply performs_run|..].
  { intros s s' r. apply run_completes. }
  intros _ (st & out & err & ->).
  apply (performs_seq _ _ [] _ [] _); [by apply performs_when, performs_modify|].
  destruct (build a); [apply performs_build|apply performs_ret].
Qed.

#[local] Instance ver_str_inj : Inj (=) (=) ver_str.
Proof.
  assert (∀ v, ver_str [] = ver_str v → v = []) as H0.
  { intros [|x v] H; [done|]. pose proof (parse_ver_str (x :: v) ltac:(done)) as Hp. by rewrite <- H in Hp. }
  intros v w H. destruct (decide (v = [])) as [->|Hv]; [by rewrite (H0 w)|].
  destruct (decide (w = [])) as [->|Hw]; [by rewrite (H0 v)|].
  pose proof (parse_ver_str v Hv) as E. rewrite H, parse_ver_str in E by done. by injection E.
Qed.
Lemma built_times l : NoDup l → ∀ d, (∀ v, v ∈ l → dmem d (ver_str v) = false) →
  fold_left (λ d ver, dset d ver (hms (elapsed ver))) (map ver_str l) d
  = d ++ map (λ v, (ver_str v, hms (elapsed (ver_str v)))) l.
Proof.
  induction 1 as [|v l Hv _ IH]; intros d Hd; cbn [map fold_left]; [by rewrite app_nil_r|].
  rewrite dset_new by (apply Hd; by left). rewrite IH.
  - by rewrite <- app_assoc.
  - intros w Hw. apply not_true_is_false. intros H%dmem_In. unfold dkeys in H.
    rewrite map_app, elem_of_app in H. cbn [map fst] in H. rewrite list_elem_of_singleton in H.
    destruct H as [H| ->%ver_str_inj]; [|done].
    apply dmem_In in H. rewrite Hd in H; [done|by right].
Qed.

(** [verbose] plays no part in the plan. *)
Lemma plan_verbose b a : plan (set_verbose b a) = plan a.
Proof.
  unfold plan, sorted_versions, selected, set_verbose.
  cbn [versions min_version max_version]. reflexivity.
Qed.
Lemma all_calls_verbose b a : all_calls (set_verbose b a) = all_calls a.
Proof.
  unfold all_calls. rewrite plan_verbose. apply flat_map_ext. intros v.
  unfold version_calls, make_command, set_verbose. cbn [build output make_args targets]. reflexivity.
Qed.
Lemma performs_loop a fp : wait_input a && build a = false →
  performs (versions_loop proc environ realpath elapsed executable a fp []
      (min_python_bin which executable) (sorted_versions a))
    (all_calls a) (flat_map (λ v, if build a then [ver_str v] else []) (plan a)).
Proof.
  intros Hw.
  pose proof (performs_for_each (plan a) (λ v, _handle_version proc environ realpath elapsed a fp v
    (requirements_for v) (python_for which executable v)) (version_calls a)
    (λ v, if build a then [ver_str v] else []) (λ v _, performs_version a fp v Hw)) as H.
  intros s. rewrite loop_plan_start. exact (H s).
Qed.
Lemma performs_summary fp : performs (summary fp) [] [].
Proof.
  unfold summary. apply (performs_seq _ _ [] [] [] []); [apply performs_log|].
  apply (performs_bind _ _ [] [] [] []); [apply performs_gets|]. intros times.
  pose proof (performs_for_each (sort_by fst times) (λ '(ver, elapsed_time),
    log_line fp (tab +:+ "Sphinx " +:+ ver +:+ " elapsed time: " +:+ elapsed_time) true true)
    (λ _, []) (λ _, [])) as H.
  assert (∀ X Y (l : list X), flat_map (λ _, [] : list Y) l = []) as Hn by (intros X Y l; by induction l).
  rewrite !Hn in H. apply H. intros [ver t] _. apply performs_log.
Qed.
Lemma performs_run_all a : wait_input a && build a = false →
  performs (run_all proc environ realpath elapsed which executable a)
    (all_calls a) (flat_map (λ v, if build a then [ver_str v] else []) (plan a)).
Proof.
  intros Hw. set (verb := verbose a || negb (truthy (log a))).
  pose proof (performs_seq _ _ _ [] _ [] (performs_loop (set_verbose verb a) (truthy (log a)) Hw)
    (performs_when (build (set_verbose verb a)) _ (performs_summary (truthy (log a))))) as H.
  rewrite !app_nil_r, all_calls_verbose, plan_verbose in H. exact H.
Qed.

(** ** Properties *)

(** C32 For a log or none, [SphinxVenv.run] handles the versions that were asked for and
    lie in the range, in ascending order and each once.  The packages installed for a
    version have the numbers of the last entry of the table up to it that names
    them, also when the versions of the entries are themselves left out; the interpreter
    changes at version 8. *)
Theorem versions_handled a fp s :
  versions_loop proc environ realpath elapsed executable a fp [] (min_python_bin which executable)
    (sorted_versions a) s
  = for_each (plan a) (λ v, _handle_version proc environ realpath elapsed a fp v (requirements_for v)
      (python_for which executable v)) s ∧
  ascending (plan a) ∧
  (∀ v, v ∈ plan a ↔ selected a v = true) ∧
  ∀ v pkg, dget (requirements_for v) pkg = required_for SPHINX_REQUIREMENTS v pkg.
Proof.
  split; [|split; [|split]].
  - apply loop_plan_start.
  - unfold plan. pose proof (sorted_versions_ascending a) as H.
    induction H as [|v l _ IH HF]; [constructor|]. cbn [List.filter]. destruct (selected a v); [|done].
    constructor; [done|]. apply Forall_forall. intros w Hw. apply list_elem_of_In, filter_In in Hw as [Hw _].
    apply (proj1 (Forall_forall _ _) HF). by apply list_elem_of_In.
  - intros v. unfold plan. rewrite list_elem_of_In, filter_In, <- list_elem_of_In, sorted_versions_in.
    split; [by intros []|]. intros H. split; [|done]. right. unfold selected in H.
    apply andb_prop in H as [H _]. apply andb_prop in H as [H _]. by apply bool_decide_eq_true in H.
  - apply requirements_for_get.
Qed.

(** C34 A run that does not wait for input runs the commands of the versions
    to test, in order, up to the first that does not start or returns a positive status:
    that ends the run with its exception.  If there is none the run returns, and
    the summary has the time of every version built.  A command that a signal
    killed has a negative status, so it counts as one that succeeded. *)
Theorem run_stops_at_failure a stdin :
  wait_input a && build a = false →
  let calls := all_calls a in
  let '(v, r) := run_all proc environ realpath elapsed which executable a (Venv_init stdin) in
  commands v = fst (run_until calls) ∧
  match snd (run_until calls) with
  | Some e => r = Raise e
  | None => r = Ok tt ∧
      built_time v = if build a then map (λ v, (ver_str v, hms (elapsed (ver_str v)))) (plan a) else []
  end.
Proof.
  intros Hw calls.
  pose proof (performs_from _ _ _ _ (performs_run_all a Hw) (eq_refl : commands (Venv_init stdin) = [])
    (eq_refl : built_time (Venv_init stdin) = [])) as H.
  fold calls in H. clearbody calls. destruct (run_all _ _ _ _ _ _ a (Venv_init stdin)) as [v r].
  destruct H as [Hc H]. split; [exact Hc|].
  destruct (snd (run_until calls)) as [e|]; [done|]. destruct H as [[[] ->] Ht]. split; [done|].
  rewrite Ht. destruct (build a).
  2: { clear. generalize (plan a). intros l. by induction l. }
  assert (flat_map (λ v, [ver_str v]) (plan a) = map ver_str (plan a)) as ->.
  { clear. generalize (plan a). intros l. induction l as [|w l IH]; [done|]. cbn [flat_map map app]. by rewrite IH. }
  rewrite built_times; [done| |done]. unfold plan. apply NoDup_ListNoDup, List.NoDup_filter, NoDup_ListNoDup.
  unfold sorted_versions. rewrite isort_perm. apply NoDup_remove_dups.
Qed.
End Run.

(** Two versions are asked for and one is in the range: the third command fails,
    then none, then [make] is killed. *)
Definition sample_args : args :=
  Args [[8; 1; 3]; [3; 4; 3]]%Z (Some [4]%Z) None true [] ["htmldocs"] None false None false false.
Definition failing (name : string) (status : Z) (cmd : list string) (env : dict string) : string + process :=
  inr (Process [(true, "x" +:+ nl)] (if smem name cmd then status else 0)).
Lemma run_stops_at_failure_witness :
  (∃ v, run_all (failing "freeze" 1) [("PATH", "/bin")] id (λ _, 3725%Z) (λ _, false) "/usr/bin/python3"
          sample_args (Venv_init []) = (v, Raise (CalledProcessError 1 "Sphinx_8.1.3/bin/pip freeze"))
        ∧ length (commands v) = 3) ∧
  (∃ v, run_all (failing "htmldocs" (-9)) [("PATH", "/bin")] id (λ _, 3725%Z) (λ _, false) "/usr/bin/python3"
          sample_args (Venv_init []) = (v, Ok tt) ∧ built_time v = [("8.1.3", "01:02:05")]).
Proof.
  split.
  - pose proof (run_stops_at_failure (failing "freeze" 1) [("PATH", "/bin")] id (λ _, 3725%Z) (λ _, false)
      "/usr/bin/python3" eq_refl sample_args [] eq_refl) as H. cbv zeta in H.
    destruct (run_all _ _ _ _ _ _ _ _) as [v r]. destruct H as [Hc Hr]. exists v. rewrite Hc.
    vm_compute in Hr. subst r. split; reflexivity.
  - pose proof (run_stops_at_failure (failing "htmldocs" (-9)) [("PATH", "/bin")] id (λ _, 3725%Z) (λ _, false)
      "/usr/bin/python3" eq_refl sample_args [] eq_refl) as H. cbv zeta in H.
    destruct (run_all _ _ _ _ _ _ _ _) as [v r]. destruct H as [_ Hr]. exists v.
    assert (snd (run_until (failing "htmldocs" (-9)) (all_calls [("PATH", "/bin")] id (λ _, false)
      "/usr/bin/python3" sample_args)) = None) as E by (vm_compute; reflexivity).
    rewrite E in Hr. destruct Hr as [-> ->]. split; [reflexivity|]. vm_compute. reflexivity.
Defined.
