(* ===== verification/Directive.v ===== *)
(** * Directive: the [kernel-doc] directive of [sphinx/kerneldoc.py]

    A directive turns its options into arguments of [KernelFiles], one object
    of which serves all the documents, runs it, and hands the lines of the output
    to the parser of docutils with the places they come from.  That parser, the
    split into lines and the way an exception is shown are parameters, and so is
    the file system. *)

From S2P Require Import Prelude PyStr PyNum PyRe PyReSyntax PyReTheory KdocRe CLex Xforms.
From S2P Require Import KdocItem KdocEntry KdocParams KdocDump KdocProcess KdocOutput KdocYaml.
From S2P Require Import KdocFiles.

Definition kerneldoc_bin : string := "tools/docs/kernel-doc".

(** [cmd_str(cmd)] *)
Definition esc_cmd (w : string) : string :=
  if (w =? "")%string || char_in " " w then "'" +:+ w +:+ "'" else w.
Definition cmd_str (cmd : list string) : string :=
  fold_left (λ cmd_line w, if (cmd_line =? "")%string then esc_cmd w
                           else cmd_line +:+ " " +:+ esc_cmd w) cmd "".

(** ** Arguments *)

(** What [handle_args] computes: the command line, the arguments of [parse] and
    of [msg], and the dependencies it notes.  The key [export_file] of the
    arguments of [msg] is missing until a pattern is seen, and is then the list
    of [parse] itself. *)
Record run_args := RunArgs {
  d_cmd : list string;
  d_file_list : list string;
  d_export_file : list string;
  d_msg : msg_args;
  d_msg_export : bool;
  d_dependencies : list string;
}.

(** [i.rstrip("\\").strip()], and the names of an option that are not empty. *)
Definition clean (i : string) : string := strip (rstrip_char BACKSLASH i).
Definition clean_names (names : list string) : list string :=
  filter (λ i, i ≠ "") (map clean names).

(** The branches on the options, up to [doc]/[identifiers]: what they add to the
    command, [export], [internal], [symbol], [no_doc_sections] and the patterns
    of the export files. *)
Record selection := Selection {
  s_cmd : list string;
  s_export : bool;
  s_internal : bool;
  s_symbol : list string;
  s_no_doc_sections : bool;
  s_patterns : list string;
}.
Definition select (options : dict string) : selection :=
  match dget options "export" with
  | Some s => Selection ["-export"] true false [] false (split_ws s)
  | None =>
  match dget options "internal" with
  | Some s => Selection ["-internal"] false true [] false (split_ws s)
  | None =>
  match dget options "doc" with
  | Some func => Selection ["-function"; func] false false [func] false []
  | None =>
  match dget options "identifiers" with
  | Some s =>
      match split_ws s with
      | [] => Selection ["-no-doc-sections"] false false [] true []
      | identifiers =>
          let symbols := clean_names identifiers in
          Selection (flat_map (λ i, ["-function"; i]) symbols) false false symbols false []
      end
  | None => Selection [] false false [] false []
  end end end end.
(** The alias: [functions] replaces [identifiers]. *)
Definition alias (options : dict string) : dict string :=
  match dget options "functions" with
  | Some s => dset options "identifiers" s
  | None => options
  end.

Section Directive.
Context (fs : string → option node) (read : string → option string).
Context (glob : string → list string) (abspath : string → string).
(** The configuration and the place of the directive. *)
Context (srctree srcdir docname : string) (lineno : nat).
(** The parts of docutils. *)
Context {N : Type} (string2lines : string → list string) (pformat : exn → string).

Record vline := VLine { v_text : string; v_source : string; v_offset : Z }.
Context (nested_parse : list vline → res (list N)).

(** [self.handle_args()] *)
Definition handle_args (argument : string) (options : dict string) : run_args :=
  let filename := srctree +:+ "/" +:+ argument in
  let options := alias options in
  let sel := select options in
  let nosymbol := match dget options "no-identifiers" with
                  | Some s => clean_names (split_ws s) | None => [] end in
  let patterns := clean_names (s_patterns sel) in
  let export_file := flat_map (λ pattern, glob (srctree +:+ "/" +:+ pattern)) patterns in
  RunArgs
    ([kerneldoc_bin; "-rst"; "-enable-lineno"] ++ s_cmd sel
     ++ flat_map (λ i, ["-nosymbol"; i]) nosymbol
     ++ flat_map (λ f, ["-export-file"; f]) export_file ++ [filename])
    [filename] export_file
    (MsgArgs true (s_export sel) (s_internal sel) (Some (s_symbol sel)) (Some nosymbol)
       (s_no_doc_sections sel))
    (match patterns with [] => false | _ => true end)
    (map abspath (filename :: export_file)).
(** [self.verbose]; [v] is the environment variable [V]. *)
Definition verbose (v : option string) : Z :=
  match v with Some (String _ _ as s) => default 0%Z (py_int s) | _ => 0%Z end.

(** ** Lines *)

Definition line_regex : pattern := compiled no_flags "^\.\. LINENO ([0-9]+)$".
(** The loop of [parse_msg]. *)
Fixpoint parse_lines (source : string) (lineoffset : Z) (lines : list string) : list vline :=
  match lines with
  | [] => []
  | line :: lines =>
      match re_search line_regex line with
      | Some m =>
          parse_lines source (Z.of_nat (default 0 (str_int (group_or m 1))) - 1) lines
      | None => VLine line source lineoffset :: parse_lines source (lineoffset + 1) lines
      end
  end.
(** [self.parse_msg(filename, node, out)]: the nodes added to [node]. *)
Definition parse_msg (filename out : string) : res (list N) :=
  let doc := srcdir +:+ "/" +:+ docname +:+ ":" +:+ int_str lineno in
  nested_parse (parse_lines (doc +:+ ": " +:+ filename) 0 (string2lines out)).

(** ** Running *)

Definition rest_output (fname : string) (symbols : list KdocItem) : Out string :=
  output_symbols RestFormat.cls fname symbols.
(** [self.run_kdoc(kfiles)]: the output of the one file of [file_list] is parsed
    when [msg] yields it, and nothing is left to do for [msg] then. *)
Definition run_kdoc (a : run_args) : ST KernelFiles (list N) :=
  parse fs read (d_file_list a) (d_export_file a) ;;
  before ← gets kf_yielded;
  msg fs rest_output "" (d_msg a) (d_file_list a)
    (if d_msg_export a then d_export_file a else []) ;;
  after ← gets kf_yielded;
  for_acc (drop (length before) after) [] (λ nodes '(filename, out),
    new ← lift_res (parse_msg filename out); mret (nodes ++ new)).

(** The nodes of the directive, or the error node. *)
Inductive directive_result := Children (l : list N) | KernelDocMissing.
Definition is_exception (e : exn) : bool := match e with SystemExit _ | Exit _ => false | _ => true end.
(** The [try] of [run]. *)
Definition guarded (a : run_args) : ST KernelFiles directive_result := λ k,
  match run_kdoc a k with
  | (k, Ok nodes) => (k, Ok (Children nodes))
  | (k, Raise e) =>
      if is_exception e then
        (upd_messages [LogWarning ("kernel-doc '" +:+ cmd_str (d_cmd a)
                         +:+ "' processing failed with: " +:+ pformat e)] 0 k,
         Ok KernelDocMissing)
      else (k, Raise e)
  end.
(** [self.run()] *)
Definition run (v : option string) (argument : string) (options : dict string)
    : ST KernelFiles directive_result :=
  let a := handle_args argument options in
  when (1 <=? verbose v)%Z (modify (upd_messages [LogInfo (cmd_str (d_cmd a))] 0)) ;;
  guarded a.
(** The same for the arguments that docutils has found.  The class sets
    [required_argument], which docutils does not look at, so there can be
    none. *)
Definition run_arguments (v : option string) (arguments : list string) (options : dict string)
    : ST KernelFiles directive_result :=
  match arguments with
  | [] => raise IndexError
  | argument :: _ => run v argument options
  end.
End Directive.

(** [setup_kfiles(app)]: the object all directives share. *)
Definition setup_kfiles (kbuild_verbose kcflags kdoc_werror srctree : option string) : KernelFiles :=
  KernelFiles_with false false false false xforms kbuild_verbose kcflags kdoc_werror srctree None.
