(* ===== verification/DirectiveSpec.v ===== *)
(** * DirectiveSpec: what the [kernel-doc] directive promises *)

From S2P Require Import Prelude PyStr PyNum PyRe PyReSyntax PyReTheory KdocRe CLex Xforms.
From S2P Require Import KdocItem KdocEntry KdocParams KdocDump KdocProcess KdocOutput KdocYaml.
From S2P Require Import KdocFiles KdocFilesSpec Directive.

(** ** Line numbers *)

Definition re_digits : re := RRep true 1 None (RChr false (CSet false [CRange "0" "9"])).
(** A literal text before an expression. *)
Fixpoint lit (s : string) (r : re) : re :=
  match s with
  | "" => r
  | String c s => RSeq (RChr false (CSet false [CRange c c])) (lit s r)
  end.
Definition skip (w : string) (t : string) (st : mst) : mst :=
  MSt (m_pos st + String.length w) (slast (m_prev st) w) t (m_caps st) (m_last st).

Lemma lit_sound s r : ∀ st st', mrel (lit s r) st st' →
  ∃ t, m_rest st = s +:+ t ∧ mrel r (skip s t st) st'.
Proof.
  induction s as [|c s IH]; intros st st'.
  - intros H. exists (m_rest st). split; [done|]. destruct st. unfold skip. cbn.
    by rewrite Nat.add_0_r.
  - cbn [lit mrel]. intros (st1 & (c' & t & Hr & Hc & ->) & (u & Hu & H)%IH).
    assert (c' = c) as ->.
    { pose proof (lang_char c (String c' "") (ex_intro _ c' (conj eq_refl Hc))) as E. by injection E. }
    exists u. split; [rewrite Hr; cbn in Hu; by rewrite Hu|].
    unfold skip in *. cbn in *. by rewrite Nat.add_succ_r.
Qed.
Lemma lit_complete s r : ∀ st st' t, m_rest st = s +:+ t → mrel r (skip s t st) st' → mrel (lit s r) st st'.
Proof.
  induction s as [|c s IH]; intros st st' t Hr H.
  - cbn. destruct st. cbn in *. subst. unfold skip in H. cbn in H. by rewrite Nat.add_0_r in H.
  - cbn [lit mrel]. exists (advance st c (s +:+ t)). split.
    + exists c, (s +:+ t). split; [exact Hr|]. split; [|done]. cbn. unfold in_range.
      by rewrite N.leb_refl.
    + apply (IH _ _ t); [done|]. unfold skip in *. cbn in *. by rewrite Nat.add_succ_r in H.
Qed.

Definition lineno_re : re := RSeq (RBol false) (lit ".. LINENO " (RSeq (RGroup 1 re_digits) (REol false))).
Lemma line_regex_prog : p_prog line_regex = lineno_re.
Proof. vm_compute. reflexivity. Qed.

Lemma digit_item c : is_digit c = true → cset_match false (CSet false [CRange "0" "9"]) c = true.
Proof.
  intros H. assert (forall_ascii (λ c, negb (is_digit c)
    || cset_match false (CSet false [CRange "0" "9"]) c) = true) as HA by (vm_compute; reflexivity).
  pose proof (forall_ascii_spec _ HA c) as Hc. cbv beta in Hc. by rewrite H in Hc.
Qed.
Lemma digits_reps w t : ∀ count last st,
  sall is_digit w = true → m_rest st = w +:+ t →
  (count < 1 → w ≠ "") → same_pos last (m_pos st) = false → (1 ≤ count ∨ last = None) →
  reps (mrel (RChr false (CSet false [CRange "0" "9"]))) 1 None count last st (skip w t st).
Proof.
  induction w as [|c w IH]; intros count last st Hd Hr Hne Hp Hl.
  - replace (skip "" t st) with st.
    + apply reps_stop. destruct count; [by destruct Hne; [lia|]|lia].
    + destruct st. cbn in *. subst. unfold skip. cbn. by rewrite Nat.add_0_r.
  - cbn [sall] in Hd. apply andb_prop in Hd as [Hc Hd].
    assert (mrel (RChr false (CSet false [CRange "0" "9"])) st (advance st c (w +:+ t))) as Hs.
    { exists c, (w +:+ t). split; [exact Hr|]. split; [by apply digit_item|done]. }
    assert (skip (String c w) t st = skip w t (advance st c (w +:+ t))) as ->.
    { unfold skip. cbn. by rewrite Nat.add_succ_r. }
    destruct (decide (count < 1)) as [Hlt|Hge].
    + eapply reps_must; [done|exact Hs|]. apply IH; [done|done|lia| |left; lia].
      destruct Hl as [Hl| ->]; [lia|done].
    + eapply reps_more; [lia|done|exact Hp|exact Hs|]. apply IH; [done|done|lia| |left; lia].
      cbn. apply Nat.eqb_neq. lia.
Qed.

Lemma digits_caps count last st st' :
  reps (mrel (RChr false (CSet false [CRange "0" "9"]))) 1 None count last st st' →
  m_caps st' = m_caps st.
Proof.
  assert (∀ a b, mrel (RChr false (CSet false [CRange "0" "9"])) a b → m_caps b = m_caps a) as Hc.
  { by intros a b (c & t & _ & _ & ->). }
  induction 1 as [ | ? ? ? ? ? ? H ? IH | ? ? ? ? ? ? ? ? H ? IH]; [done| |]; by rewrite IH, (Hc _ _ H).
Qed.

(** What a line that matches is. *)
Lemma lineno_sound line m : re_search line_regex line = Some m →
  ∃ d e, line = ".. LINENO " +:+ d +:+ e ∧ (e = "" ∨ e = nl) ∧ group_or m 1 = d.
Proof.
  unfold re_search. rewrite line_regex_prog.
  destruct (search_from _ _ _ _ _) as [[st st']|] eqn:E; [|done]. intros [= <-].
  apply search_from_spec in E as (w & rest & Hline & -> & [Hr _]%match_at_sound).
  destruct Hr as (st1 & [Hbol ->] & (t & Ht & st2 & (st3 & Hd & ->) & [Heol ->])%lit_sound).
  assert (w = "") as ->.
  { destruct w as [|c w]; [done|]. exfalso. clear -Hbol. revert Hbol. unfold at_bol. cbn [mst_at m_prev slast].
    destruct (slast (Some c) w) eqn:E; [done|]. revert c E. induction w as [|d w IH]; intros c; cbn; [done|apply IH]. }
  cbn [String.append] in Hline. subst rest. cbn [mst_at m_rest] in Ht.
  pose proof (digits_caps _ _ _ _ Hd) as Hcaps.
  destruct (mrel_lang re_digits _ _ Hd) as (d & [Hrest Hpos _] & _). cbn [skip m_rest] in Hrest.
  exists d, (m_rest st3). split; [by rewrite Ht, Hrest|]. split.
  - clear -Heol. unfold at_eol in Heol. cbn [set_cap m_rest] in Heol.
    destruct (m_rest st3) as [|c [|? ?]]; [by left| |by rewrite andb_false_r in Heol].
    cbn in Heol. rewrite andb_true_r in Heol. apply Ascii.eqb_eq in Heol as ->. by right.
  - unfold group_or, group. cbn [to_match r_caps r_src fst snd set_cap m_caps cap_find Nat.eqb default].
    rewrite Hpos, Ht, Hrest. exact (str_slice_app ".. LINENO " d (m_rest st3)).
Qed.

Lemma search_from_here r s x : match_at r false (mst_at 0 None s) = Some x →
  is_Some (search_from r false 0 None s).
Proof. intros H. destruct s; cbn [search_from]; rewrite H; by eexists. Qed.

(** A marker is matched, with its number. *)
Definition marker (ln : Z) : string := ".. LINENO " +:+ zint_str (ln + 1).
Lemma marker_number ln : (-1 ≤ ln)%Z → ∃ m, re_search line_regex (marker ln) = Some m ∧
  (Z.of_nat (default 0%nat (str_int (group_or m 1))) - 1 = ln)%Z.
Proof.
  intros Hln. set (n := Z.to_nat (ln + 1)).
  assert (zint_str (ln + 1) = int_str n) as En.
  { replace (ln + 1)%Z with (Z.of_nat n) by lia. apply zint_str_of_nat. }
  assert (is_Some (re_search line_regex (marker ln))) as [m Hm].
  { unfold re_search. rewrite line_regex_prog. apply fmap_is_Some.
    set (st := mst_at 0 None (marker ln)).
    assert (is_Some (match_at lineno_re false st)) as [x Hx].
    { eapply match_at_complete. exists st. split; [done|].
      apply (lit_complete _ _ _ _ (int_str n)); [unfold st, marker; by rewrite En|].
      eexists. split.
      - eexists. split; [|reflexivity]. apply (digits_reps (int_str n) "").
        + apply int_str_digits.
        + unfold skip. cbn [m_rest]. by rewrite sapp_nil_r.
        + intros _. apply int_str_nonempty.
        + done.
        + by right.
      - by split. }
    by apply (search_from_here _ _ x). }
  exists m. split; [done|]. apply lineno_sound in Hm as (d & e & Hl & He & ->).
  unfold marker in Hl. rewrite En in Hl. apply (inj (String.append ".. LINENO ")) in Hl.
  assert (e = "") as ->.
  { destruct He as [->| ->]; [done|]. exfalso.
    pose proof (int_str_digits n) as Hd. rewrite Hl, sall_app in Hd. by apply andb_prop in Hd as [_ Hd]. }
  rewrite sapp_nil_r in Hl. rewrite <- Hl, str_int_int_str. cbn [default]. unfold id. lia.
Qed.

(** A line that is no marker. *)
Definition plain_line (line : string) : bool :=
  match re_search line_regex line with None => true | Some _ => false end.

Lemma parse_lines_block source block : ∀ ln rest, Forall (λ l, plain_line l = true) block →
  parse_lines source ln (block ++ rest)
  = imap (λ i l, VLine l source (ln + Z.of_nat i)) block
    ++ parse_lines source (ln + Z.of_nat (length block)) rest.
Proof.
  induction block as [|l block IH]; intros ln rest HF; cbn [app length imap].
  - by rewrite Z.add_0_r.
  - inversion HF as [|? ? Hl HF']; subst. unfold plain_line in Hl.
    cbn [parse_lines]. destruct (re_search line_regex l); [done|]. rewrite IH by done. cbn [app]. f_equal; [by rewrite Z.add_0_r|]. f_equal.
    + apply imap_ext. intros i x _. cbn. f_equal. lia.
    + f_equal. lia.
Qed.
Lemma parse_lines_texts source lines : ∀ ln,
  map v_text (parse_lines source ln lines) = List.filter plain_line lines.
Proof.
  induction lines as [|l lines IH]; intros ln; [done|]. cbn [parse_lines List.filter].
  unfold plain_line at 1. destruct (re_search line_regex l) as [m|]; [apply IH|].
  cbn [map v_text]. by rewrite IH.
Qed.
Lemma parse_lines_app source marker_line rest : plain_line marker_line = false →
  ∀ pre ln, parse_lines source ln (pre ++ marker_line :: rest)
  = parse_lines source ln pre ++ parse_lines source ln (marker_line :: rest).
Proof.
  unfold plain_line. intros Hm.
  assert (∀ a b, parse_lines source a (marker_line :: rest) = parse_lines source b (marker_line :: rest)) as Heq.
  { intros a b. cbn [parse_lines]. by destruct (re_search line_regex marker_line). }
  induction pre as [|l pre IH]; intros ln; [done|]. cbn [app parse_lines].
  destruct (re_search line_regex l) as [m|]; rewrite IH; [|cbn [app]; f_equal]; f_equal; apply Heq.
Qed.

(** ** Properties *)

(** C12 Places of the lines: after the marker that [RestFormat.print_lineno] has
    written for line [ln], the lines up to the next marker are attributed to
    line [ln] and the following ones, whatever comes before; markers are taken
    out, and every other line is kept, in order. *)
Theorem lineno_places source pre block post ln o :
  (-1 ≤ ln)%Z → of_enable_lineno o = true → Forall (λ l, plain_line l = true) block →
  of_data (fst (RestFormat.print_lineno ln o)) = of_data o +:+ marker ln +:+ nl ∧
  (∀ off, parse_lines source off (pre ++ marker ln :: block ++ post)
          = parse_lines source off pre
            ++ imap (λ i l, VLine l source (ln + Z.of_nat i)) block
            ++ parse_lines source (ln + Z.of_nat (length block)) post) ∧
  (∀ off lines, map v_text (parse_lines source off lines) = List.filter plain_line lines).
Proof.
  intros Hln Ho HF. destruct (marker_number ln Hln) as (m & Hm & Hn). split; [|split].
  - unfold RestFormat.print_lineno. run_ST. rewrite Ho. unfold emit, modify.
    cbn [fst of_data upd_data]. unfold marker.
    by rewrite !sapp_assoc.
  - intros off. rewrite parse_lines_app.
    + f_equal. cbn [parse_lines]. rewrite Hm, Hn. by apply parse_lines_block.
    + unfold plain_line. by rewrite Hm.
  - intros off lines. apply parse_lines_texts.
Qed.

Lemma lineno_places_witness :
  parse_lines "f.c" 0 ["a"; ".. LINENO 8"; "b"; "c"; ".. LINENO 3"; "d"]
  = [VLine "a" "f.c" 0; VLine "b" "f.c" 7; VLine "c" "f.c" 8; VLine "d" "f.c" 2].
Proof.
  assert (of_enable_lineno (set_filter false false None None [] true false OutputFormat_init) = true)
    as Ho by reflexivity.
  etrans; [|vm_compute; reflexivity].
  exact (proj1 (proj2 (lineno_places "f.c" ["a"] ["b"; "c"] [".. LINENO 3"; "d"] 7 _ ltac:(lia) Ho
    ltac:(repeat constructor; vm_compute; reflexivity))) 0%Z).
Defined.

Section Runs.
Context (fs : string → option node) (read : string → option string).
Context (glob : string → list string) (abspath : string → string).
Context (srctree srcdir docname : string) (lineno : nat).
Context {N : Type} (string2lines : string → list string) (pformat : exn → string).
Context (nested_parse : list vline → res (list N)).

(** A directive that asks for the exports of another file, one that has not
    been parsed, gives an error node instead of the documentation: the call for
    that file raises [TypeError], and the directive catches it. *)
Theorem export_file_missing v argument options pattern f k k1 :
  let a := handle_args glob abspath srctree argument options in
  dget options "export" = Some pattern → d_export_file a = [f] →
  parse fs read (d_file_list a) [] (if (1 <=? verbose v)%Z
    then upd_messages [LogInfo (cmd_str (d_cmd a))] 0 k else k) = (k1, Ok tt) →
  parse_files fs c_extensions (kf_src_tree k1) [f] = [Yield f] → f ∉ kf_export_files k1 →
  kf_src_tree k1 = kf_src_tree k →
  ∃ k2, run fs read glob abspath srctree srcdir docname lineno string2lines pformat nested_parse
          v argument options k = (k2, Ok KernelDocMissing).
Proof.
  cbv zeta. intros _ Hx Hp Hf Hn Hsrc. unfold run. set (a := handle_args _ _ _ _ _) in *.
  set (k0 := if (1 <=? verbose v)%Z then _ else k) in Hp.
  assert (kf_src_tree k0 = kf_src_tree k) as H0 by (unfold k0; by destruct (1 <=? _)%Z).
  assert (when (1 <=? verbose v)%Z (modify (upd_messages [LogInfo (cmd_str (d_cmd a))] 0)) k = (k0, Ok tt)) as Hw.
  { unfold k0. by destruct (1 <=? verbose v)%Z. }
  unfold mbind at 1, ST_bind at 1. rewrite Hw. unfold guarded, run_kdoc.
  assert (∃ e, parse fs read (d_file_list a) (d_export_file a) k0 = (k1, Raise (TypeError e))) as [e He].
  { eexists. revert Hp. unfold parse, mbind, ST_bind, gets. rewrite H0, Hx.
    destruct (for_each _ _ k0) as [k' [[]|x]]; [|done].
    change (parse_files fs c_extensions (kf_src_tree k) []) with (@nil event). cbn [for_each]. intros [= ->].
    rewrite <- Hsrc, Hf. cbn [for_each consume]. unfold process_export_file, mbind, ST_bind, gets.
    destruct (smem f (kf_export_files k1)) eqn:E; [by apply smem_iff in E|]. done. }
  unfold mbind at 1, ST_bind at 1. rewrite He. cbn [is_exception]. by eexists.
Qed.
End Runs.

(** *** Concrete documents *)

Definition no_dir (path : string) : string := path.
Definition src_files (path : string) : option node :=
  if smem path ["./bar.c"; "./foo.c"] then Some File else None.
Definition src_texts (path : string) : option string :=
  if (path =? "./foo.c")%string then Some foo_c
  else if (path =? "./bar.c")%string then Some bar_c else None.
Definition run_here (argument : string) (options : dict string)
    : ST KernelFiles (@directive_result vline) :=
  run src_files src_texts (λ f, [f]) no_dir "." "doc" "index" 1 lines_of (λ _, "an exception") Ok
    None argument options.
Definition fresh_kfiles : KernelFiles := setup_kfiles None None None None.
Definition lines_shown (r : res (@directive_result vline)) : option nat :=
  match r with Ok (Children l) => Some (length l) | _ => None end.

Lemma export_file_missing_witness :
  ∃ k2, run_here "foo.c" [("export", "bar.c")] fresh_kfiles = (k2, Ok KernelDocMissing).
Proof.
  unfold run_here.
  apply (export_file_missing src_files src_texts (λ f, [f]) no_dir "." "doc" "index" 1 lines_of
    (λ _, "an exception") Ok None "foo.c" [("export", "bar.c")] "bar.c" "./bar.c" fresh_kfiles
    (fst (parse src_files src_texts ["./foo.c"] [] fresh_kfiles))).
  - reflexivity.
  - vm_compute. reflexivity.
  - vm_compute. reflexivity.
  - vm_compute. reflexivity.
  - intros H%smem_iff. revert H. vm_compute. discriminate.
  - vm_compute. reflexivity.
Defined.

(** The names that one directive excludes stay excluded in the directives
    after it, in all documents: the filter keeps its names when it is given
    none.  A file whose only symbol was excluded once is then shown by a
    directive without options as an empty text. *)
Theorem no_identifiers_leak :
  (∀ e i s t l d o, of_nosymbol (set_filter e i s None t l d o) = of_nosymbol o ∧
                    of_nosymbol (set_filter e i s (Some []) t l d o) = of_nosymbol o) ∧
  let after := fst (run_here "foo.c" [("no-identifiers", "foo")] fresh_kfiles) in
  lines_shown (snd (run_here "foo.c" [] fresh_kfiles)) = Some 12 ∧
  lines_shown (snd (run_here "foo.c" [] after)) = Some 0.
Proof. split; [done|]. split; vm_compute; reflexivity. Qed.
