(* ===== verification/KdocShared.v ===== *)
(** * KdocShared: the object that the directives share

    [kerneldoc.py] makes one [KernelFiles] for the whole build.  Here are the states
    that it goes through, what stays true of them, and what a directive gives in any
    of them: it only depends on the excluded names and on the line prefix that
    earlier directives have left. *)

From S2P Require Import Prelude PyStr PyNum PyRe PyReSyntax PyReTheory KdocRe CLex Xforms.
From S2P Require Import KdocItem KdocEntry KdocParams KdocDump KdocProcess KdocOutput KdocOutputSpec KdocText KdocYaml.
From S2P Require Import KdocFiles KdocFilesSpec Directive.

(** The environment variables that the object is made with. *)
Section Shared.
Context (fs : string → option node) (read : string → option string).
Context (kbuild_verbose kcflags kdoc_werror src_tree : option string).
Abbreviation made := (setup_kfiles kbuild_verbose kcflags kdoc_werror src_tree).
Abbreviation cfg := (kf_config made).
Abbreviation fresh := (fresh_parse read cfg xforms false).

(** ** What stays true *)

Record shared_ok (k : KernelFiles) : Prop := {
  sh_ok : kf_ok read cfg xforms false k;
  sh_test : kf_test_file k = None;
  sh_src : kf_src_tree k = src_tree;
  sh_files : ∀ f, f ∈ kf_export_files k → f ∈ kf_files k;
  sh_exports : ∀ f exports, dget (kf_export_table k) f = Some exports →
    ∃ doc, fresh f = (doc, Ok exports);
}.
(** The fields it is about. *)
Definition core (k : KernelFiles) :=
  (kf_config k, kf_xforms k, kf_src_tree k, kf_results k, kf_files k, kf_export_files k,
   kf_export_table k, kf_test_file k).
Lemma shared_core k k' : core k' = core k → shared_ok k → shared_ok k'.
Proof.
  unfold core. intros [= Hc Hx Hs Hr Hf He Ht Hy] [[Kc Kx Kt Kd Kr Ks Ke Kf] H2 H3 H4 H5].
  split; [split|..]; rewrite ?Hc, ?Hx, ?Hs, ?Hr, ?Hf, ?He, ?Ht, ?Hy; done.
Qed.

Lemma made_ok : shared_ok made.
Proof.
  split; [split|..]; try done; cbn.
  - constructor.
  - intros f. by rewrite elem_of_nil.
  - intros f. by rewrite elem_of_nil.
Qed.

(** *** Parsing *)

Definition results_at (k : KernelFiles) (file : string) (doc : KernelDoc) (exports : list string) : Prop :=
  shared_ok k ∧ dget (kf_results k) file = Some (kd_entries doc) ∧
  dget (kf_export_table k) file = Some exports ∧ file ∈ kf_export_files k.

Lemma parse_file_shared file k : shared_ok k →
  ∃ k1 r, parse_file read file k = (k1, r) ∧ shared_ok k1 ∧
    kf_out_style k1 = kf_out_style k ∧ kf_yielded k1 = kf_yielded k ∧
    match fresh file with
    | (doc, Ok exports) => r = Ok tt ∧ results_at k1 file doc exports ∧
        (∀ f, f ∈ kf_export_files k1 → f = file ∨ f ∈ kf_files k)
    | (_, Raise e) => r = Raise e
    end.
Proof.
  intros Hk. destruct (decide (file ∈ kf_files k)) as [Hin|Hn].
  - exists k, (Ok tt). split.
    { unfold parse_file. run_ST. by rewrite (proj2 (smem_iff _ _) Hin). }
    do 3 (split; [done|]). pose proof (sh_ok k Hk) as Ho.
    pose proof (proj1 (ko_results _ _ _ _ _ Ho file) Hin) as Hd. unfold dmem in Hd.
    destruct (dget (kf_results k) file) as [items|] eqn:Er; [|done]. clear Hd.
    destruct (ko_fresh _ _ _ _ _ Ho file items Er) as (_ & doc & exports & Hf & <-). rewrite Hf.
    split; [done|].
    pose proof (proj1 (ko_exports _ _ _ _ _ Ho file) (ko_sub _ _ _ _ _ Ho file Hin)) as Hd. unfold dmem in Hd.
    destruct (dget (kf_export_table k) file) as [x|] eqn:Et; [|done].
    destruct (sh_exports k Hk file x Et) as [doc' Hf']. rewrite Hf in Hf'. injection Hf' as <- <-.
    split; [split; [done|]|intros f Hf'; right; by apply (sh_files k Hk)].
    split; [done|]. split; [done|]. by apply (ko_sub _ _ _ _ _ Ho).
  - rewrite (parse_file_unfold read cfg xforms false file k (sh_ok k Hk) Hn).
    destruct (fresh file) as [doc [exports|e]] eqn:Hf.
    + eexists _, _. split; [reflexivity|].
      pose proof (add_results_ok fs read cfg xforms false file doc exports
        (upd_messages (kd_log doc) (kd_errors doc) k) Hf Hn
        (kf_ok_messages read cfg xforms false (kd_log doc) (kd_errors doc) k (sh_ok k Hk))) as Ho.
      assert (shared_ok (add_results file exports (kd_entries doc)
        (upd_messages (kd_log doc) (kd_errors doc) k))) as Hs.
      { destruct Hk as [_ Ht Hsrc Hfi Hex]. split; [exact Ho|done|done|cbn..].
        - intros f. rewrite !set_add_in. intros [->|H]; [by left|right; by apply Hfi].
        - intros f x. destruct (decide (file = f)) as [<-|Hne].
          + rewrite dget_dset_eq. intros [= <-]. by exists doc.
          + rewrite dget_dset_ne by done. apply Hex. }
      split; [exact Hs|]. do 3 (split; [done|]). split.
      * split; [exact Hs|]. cbn. rewrite !dget_dset_eq. split; [done|]. split; [done|].
        apply set_add_in. by left.
      * intros f. cbn. rewrite set_add_in. intros [->|H]; [by left|right; by apply (sh_files k Hk)].
    + eexists _, _. split; [reflexivity|]. split; [by apply (shared_core k)|]. done.
Qed.

Lemma parse_file_ok file : keeps shared_ok (parse_file read file).
Proof. intros k Hk. destruct (parse_file_shared file k Hk) as (k1 & r & -> & H & _). exact H. Qed.
Lemma messages_ok log n : keeps shared_ok (modify (upd_messages log n)).
Proof. apply keeps_modify. intros k. by apply shared_core. Qed.
Lemma export_file_ok file : keeps shared_ok (process_export_file file).
Proof. intros k Hk. unfold process_export_file. run_ST. by destruct (smem _ _). Qed.
Lemma parse_ok file_list export_file : keeps shared_ok (parse fs read file_list export_file).
Proof.
  unfold parse. apply keeps_bind; [apply keeps_gets|]. intros srctree.
  apply keeps_bind; [|intros _]; apply keeps_for_each; intros [f|f]; cbn [consume];
    auto using parse_file_ok, export_file_ok; apply messages_ok.
Qed.

(** *** Output *)

Definition core_is c (k : KernelFiles) : Prop := core k = c ∧ kf_test_file k = None.
Lemma keeps_core {A} (m : ST KernelFiles A) : (∀ c, keeps (core_is c) m) → keeps shared_ok m.
Proof.
  intros H k Hk. destruct (H (core k) k) as [Hc _]; [split; [done|by apply sh_test]|].
  by apply (shared_core k).
Qed.
Lemma core_exports c export_file : keeps (core_is c) (add_exports fs export_file).
Proof.
  unfold add_exports. apply keeps_bind; [apply keeps_gets|]. intros t.
  apply keeps_for_acc. intros table [f|f].
  - apply keeps_bind; [apply keeps_gets|]. intros e. apply keeps_bind; [apply keeps_lift|]. intros x.
    apply keeps_ret.
  - apply keeps_bind; [by apply keeps_modify|]. intros _. apply keeps_ret.
Qed.
Lemma core_style c {A} (m : Out A) : keeps (core_is c) (on_style m).
Proof. intros k Hk. unfold on_style. by destruct (m (kf_out_style k)). Qed.
Lemma core_symbols c out_symbols date a file symbols table :
  keeps (core_is c) (msg_symbols out_symbols date a file symbols table).
Proof.
  intros k Hk. unfold msg_symbols. unfold mbind at 1, ST_bind at 1, gets.
  rewrite (proj2 Hk). cbv iota. revert k Hk. change (keeps (core_is c)
    (on_style (modify (set_filter (a_export a) (a_internal a) (a_symbol a) (a_nosymbol a)
                        table (a_enable_lineno a) (a_no_doc_sections a))) ;;
     text ← on_style (out_symbols file symbols);
     when (negb (text =? "")%string) (modify (upd_yielded (λ l, l ++ [(file, text)]))))).
  apply keeps_bind; [apply core_style|]. intros _. apply keeps_bind; [apply core_style|].
  intros text. by apply keeps_when, keeps_modify.
Qed.
Lemma core_msg c out_symbols date a filenames export_file :
  keeps (core_is c) (msg fs out_symbols date a filenames export_file).
Proof.
  unfold msg. apply keeps_bind; [apply keeps_gets|]. intros results. cbv zeta. apply keeps_bind.
  - apply keeps_for_acc. intros ef file. unfold msg_file. cbv zeta. apply keeps_bind.
    { destruct (_ || _); [apply core_exports|apply keeps_ret]. }
    intros table. apply keeps_bind; [apply keeps_gets|]. intros res.
    apply keeps_bind; [|intros _; apply keeps_ret].
    destruct (dget res file); [apply core_symbols|by apply keeps_modify].
  - intros _ k Hk. unfold mbind, ST_bind, gets. by rewrite (proj2 Hk).
Qed.

(** ** One file

    What an object whose output class is in the state [o] outputs for one file. *)

(** There is a file that exports are asked of, other than [file]. *)
Definition foreign (file : string) (events : list event) : bool :=
  existsb (λ e, match e with Yield f => negb (f =? file)%string | NotFound _ => false end) events.
Definition export_error : exn :=
  TypeError "KernelDoc.__init__() missing 1 required positional argument: 'xforms'".
Definition export_events (a : run_args) : list event :=
  parse_files fs c_extensions src_tree (d_export_file a).
(** The exported symbols and the names that are given. *)
Definition table_of (a : run_args) (file : string) (exports : list string) : list string :=
  let m := d_msg a in
  let exported :=
    if a_internal m || a_export m
    then fold_left (λ table e, match e with Yield _ => fold_left set_add exports table | _ => table end)
           (match d_export_file a with [] => [Yield file] | _ => export_events a end) []
    else [] in
  if given (a_symbol m) then fold_left set_add (default [] (a_symbol m)) exported else exported.
Definition filtered (a : run_args) (file : string) (exports : list string) (o : OutputFormat) : OutputFormat :=
  let m := d_msg a in
  set_filter (a_export m) (a_internal m) (a_symbol m) (a_nosymbol m) (table_of a file exports)
    (a_enable_lineno m) (a_no_doc_sections m) o.
Definition output_of (o : OutputFormat) (a : run_args) (file : string) : res string :=
  match fresh file with
  | (_, Raise e) => Raise e
  | (doc, Ok exports) =>
      if foreign file (export_events a) then Raise export_error
      else snd (rest_output file (kd_entries doc) (filtered a file exports o))
  end.

(** Earlier directives have left no line prefix, and no excluded names unless the
    directive has its own. *)
Definition leak_free (a : run_args) (o : OutputFormat) : Prop :=
  of_lineprefix o = "" ∧ (given (a_nosymbol (d_msg a)) = true ∨ of_nosymbol o = []).
(** The output depends on nothing else of the object. *)
Lemma output_of_filters a file o o' :
  of_lineprefix o = of_lineprefix o' →
  (given (a_nosymbol (d_msg a)) = true ∨ of_nosymbol o = of_nosymbol o') →
  output_of o a file = output_of o' a file.
Proof.
  intros Hp Hn. unfold output_of. destruct (fresh file) as [doc [exports|e]]; [|done].
  destruct (foreign file (export_events a)); [done|]. apply output_quiet.
  unfold filtered, set_filter, quiet, erase, upd_out_log, upd_out_errors, upd_data. cbn. rewrite Hp.
  destruct (given (a_nosymbol (d_msg a))); [done|]. destruct Hn as [|Hn]; [done|]. by rewrite Hn.
Qed.

(** The files that exports are asked of have not been parsed for another directive. *)
Definition no_known_export (file : string) (a : run_args) (k : KernelFiles) : Prop :=
  ∀ f, Yield f ∈ export_events a → f = file ∨ f ∉ kf_files k.

Definition same_output (k k' : KernelFiles) : Prop :=
  core k' = core k ∧ kf_out_style k' = kf_out_style k ∧ kf_yielded k' = kf_yielded k.

Lemma exports_loop file events : ∀ k, file ∈ kf_export_files k →
  (∀ f, Yield f ∈ events → f = file ∨ f ∉ kf_export_files k) →
  ∃ k', for_each events (consume process_export_file) k
        = (k', if foreign file events then Raise export_error else Ok tt) ∧ same_output k k'.
Proof.
  induction events as [|[f|f] events IH]; intros k Hk Hf; cbn [for_each consume].
  - by exists k.
  - unfold mbind, ST_bind, process_export_file at 1. run_ST. cbn [foreign existsb].
    destruct (String.eqb_spec f file) as [->|Hne]; cbn [negb orb].
    + rewrite (proj2 (smem_iff _ _) Hk). apply IH; [done|]. intros f H. apply Hf. by right.
    + destruct (Hf f ltac:(by left)) as [->|Hn]; [done|].
      destruct (smem f (kf_export_files k)) eqn:E; [by apply smem_iff in E|]. by exists k.
  - unfold mbind, ST_bind, file_not_found_cb, kf_error, modify.
    destruct (IH (upd_messages [LogError ("Cannot find file " +:+ f)] 1 k) Hk) as (k' & H & H1 & H2 & H3).
    { intros g H. apply Hf. by right. }
    exists k'. split; [exact H|by split].
Qed.
Lemma add_exports_loop file exports events : ∀ table k, dget (kf_export_table k) file = Some exports →
  foreign file events = false →
  ∃ k', for_acc events table (λ table e,
      match e with
      | NotFound f => file_not_found_cb f ;; mret table
      | Yield f => exports ← gets kf_export_table; t ← lift_res (dict_at exports f); mret (fold_left set_add t table)
      end) k
    = (k', Ok (fold_left (λ table e, match e with Yield _ => fold_left set_add exports table | _ => table end)
                 events table)) ∧ same_output k k'.
Proof.
  induction events as [|[f|f] events IH]; intros table k Hk Hf; cbn [for_acc fold_left].
  - by exists k.
  - cbn [foreign existsb] in Hf. apply orb_false_elim in Hf as [H Hf]. apply negb_false_iff, String.eqb_eq in H as ->.
    unfold mbind at 1, ST_bind at 1. run_ST. unfold dict_at. rewrite Hk. by apply IH.
  - unfold mbind at 1, ST_bind at 1.
    destruct (IH table (upd_messages [LogError ("Cannot find file " +:+ f)] 1 k) Hk Hf) as (k' & H & H1 & H2 & H3).
    exists k'. split; [exact H|by split].
Qed.

Lemma parse_shared file export_file k : shared_ok k → files_of fs c_extensions src_tree file = [Yield file] →
  let events := parse_files fs c_extensions src_tree export_file in
  (∀ f, Yield f ∈ events → f = file ∨ f ∉ kf_files k) →
  ∃ k1 r, parse fs read [file] export_file k = (k1, r) ∧
    kf_out_style k1 = kf_out_style k ∧ kf_yielded k1 = kf_yielded k ∧
    match fresh file with
    | (_, Raise e) => r = Raise e
    | (doc, Ok exports) =>
        if foreign file events then r = Raise export_error else r = Ok tt ∧ results_at k1 file doc exports
    end.
Proof.
  intros Hk Hfile events Hknown. unfold parse, mbind, ST_bind at 1, gets. rewrite (sh_src k Hk).
  assert (parse_files fs c_extensions src_tree [file] = [Yield file]) as ->.
  { unfold parse_files. cbn [flat_map]. by rewrite Hfile. }
  cbn [for_each consume]. destruct (parse_file_shared file k Hk) as (k1 & r & Hp & Hk1 & Ho & Hy & H).
  unfold mbind, ST_bind. rewrite Hp. destruct (fresh file) as [doc [exports|e]].
  - destruct H as (-> & Hres & Hex). unfold mret, ST_ret.
    destruct (exports_loop file events k1) as (k2 & He & Hc & Ho2 & Hy2).
    { apply Hres. }
    { intros f Hf. destruct (Hknown f Hf) as [->|Hn]; [by left|].
      destruct (decide (f = file)) as [->|Hne]; [by left|]. right. intros Hin. by destruct (Hex f Hin). }
    fold events. rewrite He. eexists k2, _. split; [reflexivity|].
    rewrite Ho2, Hy2. split; [done|]. split; [done|]. destruct (foreign file events); [done|].
    split; [done|]. destruct Hres as (Hs & H1 & H2 & H3). pose proof (shared_core k1 k2 Hc Hs) as Hs2.
    unfold core in Hc. injection Hc as _ _ _ Hr _ He' Ht _. split; [done|]. rewrite Hr, He', Ht. done.
  - subst r. by exists k1, (Raise e).
Qed.

Lemma msg_shared a file doc exports k : results_at k file doc exports →
  files_of fs c_extensions src_tree file = [Yield file] → foreign file (export_events a) = false →
  let '(k', r) := msg fs rest_output "" (d_msg a) [file] (d_export_file a) k in
  match snd (rest_output file (kd_entries doc) (filtered a file exports (kf_out_style k))) with
  | Raise e => r = Raise e
  | Ok out => r = Ok tt ∧ kf_yielded k' = kf_yielded k ++ (if (out =? "")%string then [] else [(file, out)])
  end.
Proof.
  intros (Hk & Hres & Hex & _) Hfile Hfor. set (m := d_msg a).
  unfold msg, mbind, ST_bind at 1, gets. cbv zeta. cbn [for_acc]. unfold mbind, ST_bind at 1 2.
  unfold msg_file. cbv zeta.
  set (ef := if a_internal m || a_export m then match d_export_file a with [] => [file] | _ => d_export_file a end
             else d_export_file a).
  assert (∃ k1, (if a_internal m || a_export m then add_exports fs ef else mret []) k
    = (k1, Ok (if a_internal m || a_export m
       then fold_left (λ table e, match e with Yield _ => fold_left set_add exports table | _ => table end)
              (match d_export_file a with [] => [Yield file] | _ => export_events a end) []
       else [])) ∧ same_output k k1) as (k1 & Hk1 & Hsame).
  { unfold ef. destruct (a_internal m || a_export m); [|by exists k].
    unfold add_exports, mbind, ST_bind at 1, gets. rewrite (sh_src k Hk).
    assert (parse_files fs c_extensions src_tree (match d_export_file a with [] => [file] | _ => d_export_file a end)
      = match d_export_file a with [] => [Yield file] | _ => export_events a end) as ->.
    { unfold export_events. destruct (d_export_file a); [|done]. unfold parse_files. cbn [flat_map].
      by rewrite Hfile. }
    apply (add_exports_loop file); [done|]. destruct (d_export_file a) eqn:E; [|done].
    cbn. by rewrite String.eqb_refl. }
  fold ef. unfold mbind, ST_bind at 1 2 3. unfold ST in *. rewrite Hk1. destruct Hsame as (Hc & Ho & Hy).
  cbv beta iota. unfold gets.
  assert (kf_results k1 = kf_results k ∧ kf_test_file k1 = None) as [Hr1 Ht1].
  { unfold core in Hc. injection Hc as _ _ _ -> _ _ _ ->. split; [done|]. by apply sh_test. }
  rewrite Hr1, Hres. unfold msg_symbols. run_ST. rewrite Ht1. unfold on_style at 1. unfold modify.
  fold (table_of a file exports).
  change (set_filter (a_export m) (a_internal m) (a_symbol m) (a_nosymbol m) ?t (a_enable_lineno m)
            (a_no_doc_sections m) (kf_out_style k1)) with (filtered a file exports (kf_out_style k1)).
  unfold on_style. cbn [upd_out_style kf_out_style]. rewrite Ho.
  destruct (rest_output file (kd_entries doc) _) as [o [out|e]]; cbn [snd]; [|done].
  destruct (out =? "")%string; cbn [negb].
  - cbn [kf_test_file upd_out_style]. rewrite Ht1. split; [done|]. cbn. by rewrite Hy, app_nil_r.
  - cbn [kf_test_file upd_out_style upd_yielded]. rewrite Ht1. split; [done|]. cbn. by rewrite Hy.
Qed.

(** *** A run of the directive *)

Section Nodes.
Context {N : Type} (srcdir docname : string) (lineno : nat) (string2lines : string → list string).
Context (nested_parse : list vline → res (list N)).

(** The nodes that docutils makes of an output. *)
Definition nodes_from (file : string) (text : res string) : res (list N) :=
  match text with
  | Raise e => Raise e
  | Ok "" => Ok []
  | Ok out => parse_msg srcdir docname lineno string2lines nested_parse file out
  end.

Lemma run_kdoc_shared a file k :
  shared_ok k → d_file_list a = [file] → (d_msg_export a = false → d_export_file a = []) →
  files_of fs c_extensions src_tree file = [Yield file] → no_known_export file a k →
  snd (run_kdoc fs read srcdir docname lineno string2lines nested_parse a k)
  = nodes_from file (output_of (kf_out_style k) a file).
Proof.
  intros Hk Hl Hx Hfile Hknown. unfold run_kdoc, output_of. rewrite Hl.
  replace (if d_msg_export a then d_export_file a else []) with (d_export_file a)
    by (destruct (d_msg_export a); [done|by rewrite Hx]).
  destruct (parse_shared file (d_export_file a) k Hk Hfile Hknown) as (k1 & r & Hp & Ho & Hy & H).
  unfold mbind, ST_bind. rewrite Hp. fold (export_events a) in H.
  destruct (fresh file) as [doc [exports|e]]; [|by rewrite H].
  destruct (foreign file (export_events a)) eqn:Hf; [by rewrite H|]. destruct H as [-> Hres].
  unfold gets. pose proof (msg_shared a file doc exports k1 Hres Hfile Hf) as Hm.
  destruct (msg fs rest_output "" (d_msg a) [file] (d_export_file a) k1) as [k2 r2]. rewrite Ho in Hm.
  destruct (snd (rest_output file (kd_entries doc) (filtered a file exports (kf_out_style k)))) as [out|e].
  - destruct Hm as [-> ->]. rewrite drop_app_length. unfold nodes_from.
    destruct (String.eqb_spec out "") as [->|Hne]; [done|]. cbn [for_acc]. unfold mbind, ST_bind, lift_res.
    destruct out as [|c out]; [done|].
    by destruct (parse_msg _ _ _ _ _ file (String c out)).
  - by rewrite Hm.
Qed.
End Nodes.

(** *** The directives of a build *)

Context (glob : string → list string) (abspath : string → string).
Context (srctree srcdir : string) {N : Type}.
Context (string2lines : string → list string) (pformat : exn → string).

Lemma run_kdoc_keeps docname lineno nested_parse a :
  keeps shared_ok (@run_kdoc fs read srcdir docname lineno N string2lines nested_parse a).
Proof.
  unfold run_kdoc. apply keeps_bind; [apply parse_ok|]. intros _.
  apply keeps_bind; [apply keeps_gets|]. intros before.
  apply keeps_bind; [apply keeps_core; intros c; apply core_msg|]. intros _.
  apply keeps_bind; [apply keeps_gets|]. intros after.
  apply keeps_for_acc. intros nodes [f out]. apply keeps_bind; [apply keeps_lift|].
  intros new. apply keeps_ret.
Qed.

(** The states that the object goes through: made when the build starts, then used by
    any directives, of any documents, each to its end. *)
Inductive served : KernelFiles → Prop :=
| served_start : served made
| served_directive docname lineno nested_parse v arguments options k :
    served k →
    served (fst (@run_arguments fs read glob abspath srctree srcdir docname lineno N string2lines pformat
                   nested_parse v arguments options k)).

Lemma served_ok k : served k → shared_ok k.
Proof.
  induction 1 as [|docname lineno nested_parse v arguments options k _ IH]; [apply made_ok|].
  revert k IH. change (keeps shared_ok (@run_arguments fs read glob abspath srctree srcdir docname lineno N
    string2lines pformat nested_parse v arguments options)).
  unfold run_arguments. destruct arguments as [|argument rest]; [apply keeps_raise|].
  unfold run. apply keeps_bind; [apply keeps_when, messages_ok|]. intros _ k Hk. unfold guarded.
  pose proof (run_kdoc_keeps docname lineno nested_parse
    (handle_args glob abspath srctree argument options) k Hk) as H.
  destruct (run_kdoc _ _ _ _ _ _ _ _ k) as [k' [nodes|e]]; cbn [fst] in H; [exact H|].
  destruct (is_exception e); [|exact H]. by apply (shared_core k').
Qed.
End Shared.
