(* ===== verification/Trans.v ===== *)
(** * Trans: [checktransupdate.py], the state of the translations

    For a translated document the script finds the commit of the original it
    was made from and lists the commits since.  Git is a parameter: the text its
    commands print.  So are the tests on the file system. *)

From S2P Require Import Prelude PyStr PyNum PyRe PyReSyntax PyReTheory PyDate CLex Argparse.

(** ** Paths *)

(** [get_origin_path(file_path)] *)
Definition get_origin_path (file_path : string) : res string :=
  let paths := split_char "/" file_path in
  match index_of "translations" paths with
  | None => Raise (ValueError "'translations' is not in list")
  | Some tidx => Ok (join "/" (take tidx paths ++ drop (tidx + 2) paths))
  end.
(** The path of a translation, in the loop of [main] over the official files. *)
Definition translation_path (locale file : string) : res string :=
  let path_parts := split_char "/" file in
  match index_of "Documentation" path_parts with
  | None => Raise (ValueError "'Documentation' is not in list")
  | Some kindex =>
      Ok (join "/" (take (S kindex) path_parts ++ ["translations"; locale]
                    ++ drop (S kindex) path_parts))
  end.

(** ** Dates

    The dates that git prints, as the number of seconds since the first day of
    the calendar; comparing two of them is comparing the instants. *)
Definition date_format : string := "%a, %d %b %Y %H:%M:%S %z".
Definition days_before_year (y : Z) : Z :=
  let y := (y - 1)%Z in (y * 365 + y / 4 - y / 100 + y / 400)%Z.
Definition instant (dt : datetime) : Z :=
  let ordinal := (days_before_year (dt_year dt)
                  + foldr Z.add 0 (take (dt_month dt) (month_days (dt_year dt))) + dt_day dt)%Z in
  (((ordinal * 24 + dt_hour dt) * 60 + dt_minute dt) * 60 + dt_second dt
   - default 0 (dt_utcoffset dt))%Z.
Definition read_date (s : string) : option Z := instant <$> strptime [] date_format s.

(** ** Commits *)

Record commit := Commit {
  c_hash : string;
  c_author_date : Z;
  c_commit_date : Z;
  c_message : list string;
}.

Definition re_update_to : pattern := compiled no_flags "update to commit ([0-9a-f]{12})".
Definition re_update_translation : pattern :=
  compiled no_flags "Update the translation through commit ([0-9a-f]{12})".
(** The loop over the lines of the message. *)
Fixpoint formatted_hash (message : list string) : option string :=
  match message with
  | [] => None
  | line :: message =>
      match re_search re_update_to line with
      | Some m => Some (group_or m 1)
      | None => match re_search re_update_translation line with
                | Some m => Some (group_or m 1)
                | None => formatted_hash message
                end
      end
  end.

Section Git.
(** What [git log] prints: one commit of a file, from a commit; the hashes
    between two commits of a file; the short form of a commit. *)
Context (git_log : string → string → string) (git_between : string → string → string → string)
  (git_pretty : string → string).
Context (isfile : string → bool).

Definition log_debug (msg : string) : Lex unit := modify (λ l, l ++ [LogDebug msg]).
Definition log_info (msg : string) : Lex unit := modify (λ l, l ++ [LogInfo msg]).
(** The dictionary of a commit, from the lines that git prints. *)
Definition read_commit (hash author : string) (rest : list string) : res Trans.commit :=
  match read_date author with
  | None => Raise (ValueError "time data does not match format")
  | Some author_date =>
      match rest with
      | [] => Raise IndexError
      | committer :: rest =>
          match read_date committer with
          | None => Raise (ValueError "time data does not match format")
          | Some commit_date => Ok (Commit hash author_date commit_date (drop 1 rest))
          end
      end
  end.
Definition log_command (file_path commit : string) : string :=
  "git log --pretty=format:%H%n%aD%n%cD%n%n%B " +:+ commit +:+ " -1 -- " +:+ file_path.
(** [get_latest_commit_from(file_path, commit)] *)
Definition get_latest_commit_from (file_path commit : string) : Lex (option Trans.commit) :=
  log_debug (log_command file_path commit) ;;
  match split_char NL (git_log file_path commit) with
  | [] | [_] => mret None
  | hash :: author :: rest =>
      log_debug ("Result: " +:+ hash) ;;
      c ← lift_res (read_commit hash author rest);
      mret (Some c)
  end.

(** The loop of [get_origin_from_trans]. *)
Fixpoint origin_loop (fuel : nat) (origin_path : string) (author_date : Z)
    (o_from_t : option Trans.commit) : Lex (option Trans.commit) :=
  match o_from_t with
  | None => mret None
  | Some c =>
      if (author_date <? c_author_date c)%Z then
        match fuel with
        | 0 => raise (OutOfFuel "get_origin_from_trans")
        | S fuel =>
            o ← get_latest_commit_from origin_path (c_hash c +:+ "^");
            origin_loop fuel origin_path author_date o
        end
      else mret (Some c)
  end.
(** The end of the two functions that look for the origin. *)
Definition tracked (o_from_t : option Trans.commit) : Lex (option Trans.commit) :=
  (match o_from_t with
   | Some o => log_debug ("tracked origin commit id: " +:+ c_hash o)
   | None => mret tt
   end) ;;
  mret o_from_t.
(** [get_origin_from_trans(origin_path, t_from_head)]; the history has at most
    [fuel] commits of the file. *)
Definition get_origin_from_trans (fuel : nat) (origin_path : string) (t_from_head : Trans.commit)
    : Lex (option Trans.commit) :=
  o ← get_latest_commit_from origin_path (c_hash t_from_head);
  o ← origin_loop fuel origin_path (c_author_date t_from_head) o;
  tracked o.

(** [get_origin_from_trans_smartly(origin_path, t_from_head)] *)
Definition get_origin_from_trans_smartly (origin_path : string) (t_from_head : Trans.commit)
    : Lex (option Trans.commit) :=
  match formatted_hash (c_message t_from_head) with
  | None => mret None
  | Some hash => o ← get_latest_commit_from origin_path hash; tracked o
  end.

(** [get_commits_count_between(opath, commit1, commit2)] *)
Definition get_commits_count_between (opath commit1 commit2 : string) : Lex (list string) :=
  log_debug ("git log --pretty=format:%H " +:+ commit1 +:+ "..." +:+ commit2 +:+ " -- " +:+ opath) ;;
  mret (filter (λ x, x ≠ "") (split_char NL (git_between opath commit1 commit2))).
(** [pretty_output(commit)] *)
Definition pretty_output (commit : string) : Lex string :=
  log_debug ("git log --pretty='format:%h (" +:+ quote +:+ "%s" +:+ quote +:+ ")' -1 " +:+ commit) ;;
  mret (git_pretty commit).
(** [valid_commit(commit)] *)
Definition valid_commit (commit : string) : Lex bool :=
  msg ← pretty_output commit;
  mret (negb (str_in "Merge tag" msg)).

(** The end of [check_per_file]: the commits since the origin of the
    translation. *)
Definition list_commits (file_path opath : string) (o_from_head o_from_t : Trans.commit) : Lex unit :=
  if (c_hash o_from_head =? c_hash o_from_t)%string then log_debug ("No update needed for " +:+ file_path)
  else
    log_info file_path ;;
    commits ← get_commits_count_between opath (c_hash o_from_t) (c_hash o_from_head);
    count ← for_acc commits 0 (λ count commit,
        valid ← valid_commit commit;
        if (valid : bool) then
          text ← pretty_output commit;
          log_info ("commit " +:+ text) ;;
          mret (S count)
        else mret count);
    log_info (int_str count +:+ " commits needs resolving in total" +:+ nl).
(** [check_per_file(file_path)] *)
Definition check_per_file (fuel : nat) (file_path : string) : Lex unit :=
  opath ← lift_res (get_origin_path file_path);
  if negb (isfile opath) then log_error ("Cannot find the origin path for " +:+ file_path)
  else
    o_from_head ← get_latest_commit_from opath "HEAD";
    t_from_head ← get_latest_commit_from file_path "HEAD";
    match o_from_head, t_from_head with
    | Some o_from_head, Some t_from_head =>
        smart ← get_origin_from_trans_smartly opath t_from_head;
        o_from_t ← (match smart with
                    | Some o => mret (Some o)
                    | None => get_origin_from_trans fuel opath t_from_head
                    end);
        match o_from_t with
        | None => log_error ("Error: Cannot find the latest origin commit for " +:+ file_path)
        | Some o_from_t =>
            list_commits file_path opath o_from_head o_from_t
        end
    | _, _ => log_error ("Cannot find the latest commit for " +:+ file_path)
    end.
End Git.

(** ** The log *)

(** The levels of [logging]. *)
Definition level_number (name : string) : option nat :=
  match List.find (λ e, (fst e =? name)%string)
    [("DEBUG", 10); ("INFO", 20); ("WARNING", 30); ("ERROR", 40); ("CRITICAL", 50)] with
  | Some (_, n) => Some n
  | None => None
  end.
(** [f"{timestamp:>10.6f}"], for a time in microseconds. *)
Definition timestamp (us : nat) : string :=
  let s := int_str (us / 1000000) +:+ "." +:+ pad0 6 (us mod 1000000) in
  str_mul (10 - String.length s) " " +:+ s.
(** [DmesgFormatter.format(record)]; [us] is the time. *)
Definition DmesgFormatter_format (us : nat) (r : logrec) : string :=
  "[" +:+ timestamp us +:+ "] " +:+ record_message r.
(** What [config_logging(log_level, log_file)] makes of the root logger: a level, and a
    file besides the console. *)
Record logging := Logging { log_at : nat; log_file : string }.
Definition config_logging (log_level : nat) (log_file : string) : logging := Logging log_level log_file.
(** The lines on the console, and those at the end of the file.  Both handlers ask for
    the time, one after the other: [clock i] is the [i]-th answer. *)
Fixpoint written (clock : nat → nat) (i : nat) (l : list logrec) : list string * list string :=
  match l with
  | [] => ([], [])
  | r :: l =>
      let '(console, file) := written clock (i + 2) l in
      (DmesgFormatter_format (clock i) r :: console, DmesgFormatter_format (clock (S i)) r :: file)
  end.
Definition handled (g : logging) (l : list logrec) : list logrec :=
  List.filter (λ r, log_at g <=? record_level r) l.

(** ** Files

    A directory of the file system; a link counts as what it leads to. *)
Inductive tree :=
| TFile
| TDir (entries : list (string * tree)).

(** [list_files_with_excluding_folders(folder, exclude_folders, include_suffix)];
    a folder on the stack comes with its entries. *)
Definition list_entry (include_suffix pwd : string)
    (acc : list (string * list (string * tree)) * list string) (item : string * tree)
    : list (string * list (string * tree)) * list string :=
  let '(stack, files) := acc in
  let ab_item := path_join pwd (fst item) in
  match snd item with
  | TDir entries => ((ab_item, entries) :: stack, files)
  | TFile => (stack, if endswith include_suffix ab_item then files ++ [ab_item] else files)
  end.
Fixpoint list_loop (fuel : nat) (exclude_folders : list string) (include_suffix : string)
    (stack : list (string * list (string * tree))) (files : list string) : res (list string) :=
  match stack with
  | [] => Ok files
  | (pwd, entries) :: stack =>
      match fuel with
      | 0 => Raise (OutOfFuel "list_files_with_excluding_folders")
      | S fuel =>
          if smem (basename pwd) exclude_folders
          then list_loop fuel exclude_folders include_suffix stack files
          else
            let '(stack, files) := fold_left (list_entry include_suffix pwd) entries (stack, files) in
            list_loop fuel exclude_folders include_suffix stack files
      end
  end.
(** The number of folders of a tree. *)
Fixpoint folders (t : tree) : nat :=
  match t with
  | TFile => 0
  | TDir entries => S (list_sum (map (λ e, folders (snd e)) entries))
  end.
Definition list_files_with_excluding_folders (folder : string) (entries : list (string * tree))
    (exclude_folders : list string) (include_suffix : string) : res (list string) :=
  list_loop (folders (TDir entries)) exclude_folders include_suffix [(folder, entries)] [].

(** ** The script *)

Section Main.
Context (git_log : string → string → string) (git_between : string → string → string → string)
  (git_pretty : string → string).
(** [tree_at] and [isfile] are asked in the starting directory, [isfile_linux] in
    the directory [linux_path] that the script changes to; [relative] is
    [os.path.relpath(os.path.abspath(x), linux_path)]. *)
Context (tree_at : string → option tree) (isfile isfile_linux : string → bool)
  (relative : string → string) (linux_path : string).

(** The branch without files: the translations of the official documents. *)
Definition translations (locale : string) (print_missing : bool) : Lex (list string) :=
  match tree_at (path_join linux_path "Documentation") with
  | Some (TDir entries) =>
      offical_files ← lift_res (list_files_with_excluding_folders
        (path_join linux_path "Documentation") entries ["translations"; "output"] "rst");
      for_acc offical_files [] (λ files file,
        new_file ← lift_res (translation_path locale file);
        if isfile new_file then mret (files ++ [new_file])
        else
          when print_missing (log_info (relative file) ;;
            log_info ("No translation in the locale of " +:+ locale +:+ nl)) ;;
          mret files)
  | _ => raise (OSError "No such file or directory")
  end.
(** The branch with files and directories. *)
Definition given_files (files : list string) : Lex (list string) :=
  for_acc files [] (λ new_files file,
    if isfile file then mret (new_files ++ [file])
    else match tree_at file with
         | Some (TDir entries) =>
             more ← lift_res (list_files_with_excluding_folders file entries [] "rst");
             mret (new_files ++ more)
         | _ => mret new_files
         end).
(** The arguments; [is_locale] is the test of [valid_locales(locale)]. *)
Context (is_locale : string → bool).
Definition valid_locales (locale : string) : option value :=
  if is_locale locale then Some (VStr locale) else None.
Definition log_level (s : string) : option value :=
  if smem s ["DEBUG"; "INFO"; "WARNING"; "ERROR"; "CRITICAL"] then Some (VStr s) else None.
Definition transupdate_parser : parser := Parser [
    help_option;
    Optional ["-l"; "--locale"] "locale" (Store valid_locales) (VStr "zh_CN");
    Optional ["--print-missing-translations"; "--no-print-missing-translations"]
      "print_missing_translations" BooleanOptional (VBool true);
    Optional ["--log"] "log" (Store log_level) (VStr "INFO");
    Optional ["--logfile"] "logfile" (Store plain_str) (VStr "checktransupdate.log")]
  [Positional "files" Any] [] [].
(** [main()] after the set-up of the log. *)
Definition run_main (fuel : nat) (files : list string) (locale : string) (print_missing : bool)
    : Lex unit :=
  files ← (match files with
           | [] => translations locale print_missing
           | _ => given_files files
           end);
  for_each (map relative files) (check_per_file git_log git_between git_pretty isfile_linux fuel).
(** [main()]: the lines on the console, those added to the log file with its name, and
    how it ends.  The option [--logfile] is not used. *)
Definition main (clock : nat → nat) (fuel : nat) (argv : list string)
    : list string * option (string * list string) * res unit :=
  match parse_args transupdate_parser no_subcommand argv with
  | Raise e => ([], None, Raise e)
  | Ok args =>
      let g := config_logging (default 20 (level_number (str_upper (default "" (as_str args "log")))))
                 "checktransupdate.log" in
      let '(l, r) := run_main fuel (default [] (as_list args "files")) (default "" (as_str args "locale"))
                       (as_bool args "print_missing_translations") [] in
      let '(console, file) := written clock 0 (handled g l) in
      (console, Some (log_file g, file), r)
  end.
End Main.
