(* ===== verification/TransSpec.v ===== *)
(** * TransSpec: what [checktransupdate.py] promises *)

From S2P Require Import Prelude PyStr PyNum PyRe PyReSyntax PyReTheory PyDate CLex Argparse Trans.

(** ** Paths *)

Lemma index_of_spec x l i : index_of x l = Some i →
  ∃ a b, l = a ++ x :: b ∧ length a = i ∧ (x ∉ a).
Proof.
  revert i. induction l as [|y l IH]; intros i; cbn [index_of]; [done|].
  destruct (String.eqb_spec y x) as [->|Hne].
  - intros [= <-]. exists [], l. split; [done|]. split; [done|apply not_elem_of_nil].
  - destruct (index_of x l) as [j|]; [|done]. intros [= <-].
    destruct (IH j eq_refl) as (a & b & -> & <- & Hx). exists (y :: a), b. split; [done|]. split; [done|].
    rewrite elem_of_cons. by intros [->|H].
Qed.
Lemma take_drop_at {A} (a : list A) x b :
  take (S (length a)) (a ++ x :: b) = a ++ [x] ∧ drop (S (length a)) (a ++ x :: b) = b.
Proof. induction a as [|y a [IH1 IH2]]; cbn in *; [by destruct b|]. by rewrite IH1, IH2. Qed.
Lemma index_of_app x a b : (x ∉ a) → index_of x (a ++ x :: b) = Some (length a).
Proof.
  induction a as [|y a IH]; cbn [app index_of length].
  - intros _. by rewrite String.eqb_refl.
  - rewrite elem_of_cons. intros H. rewrite (proj2 (String.eqb_neq y x)) by (intros ->; apply H; by left).
    rewrite IH by (intros Hx; apply H; by right). done.
Qed.
Lemma join_split_slash s : join "/" (split_char "/" s) = s.
Proof. apply (join_split_char "/"). Qed.

Lemma origin_of_translation locale file k : sall (λ c, negb (c =? "/")%char) locale = true →
  index_of "Documentation" (split_char "/" file) = Some k →
  ("translations" ∉ take k (split_char "/" file)) →
  ∃ path, translation_path locale file = Ok path ∧ get_origin_path path = Ok file.
Proof.
  intros Hl Hk Hn. unfold translation_path. rewrite Hk. eexists. split; [reflexivity|].
  pose proof (split_char_no_sep "/" file) as HF. pose proof (join_split_slash file) as Hj.
  set (parts := split_char "/" file) in *. clearbody parts.
  destruct (index_of_spec _ _ _ Hk) as (a & b & -> & <- & _).
  destruct (take_drop_at a "Documentation" b) as [-> ->]. rewrite take_app_length in Hn.
  apply Forall_app in HF as [HFa HFb]. inversion HFb as [|? ? Hd HFb']; subst.
  unfold get_origin_path. rewrite (split_char_join "/").
  - rewrite <- !app_assoc. cbn [app]. change (a ++ ?x :: ?y :: ?z) with (a ++ [x] ++ y :: z).
    rewrite (app_assoc a), index_of_app.
    + f_equal. f_equal. rewrite take_app_length, <- drop_drop, drop_app_length. cbn [drop app].
      by rewrite <- app_assoc.
    + rewrite elem_of_app, list_elem_of_singleton. by intros [H|H].
  - by destruct a.
  - rewrite !Forall_app. repeat split; try done; repeat constructor; done.
Qed.

(** ** What is told

    [m] ends with [a], and what it logs at the level [INFO] is [l]. *)
Definition at_info (l : list logrec) : list logrec := handled (config_logging 20 "checktransupdate.log") l.
Definition tells {A} (m : Lex A) (l : list logrec) (a : A) : Prop :=
  ∀ log, ∃ msgs, m log = (log ++ msgs, Ok a) ∧ at_info msgs = l.

Lemma tells_ret {A} (a : A) : tells (mret a) [] a.
Proof. intros log. exists []. by rewrite app_nil_r. Qed.
Lemma tells_bind {A B} (m : Lex A) (f : A → Lex B) l l' a b :
  tells m l a → tells (f a) l' b → tells (m ≫= f) (l ++ l') b.
Proof.
  intros Hm Hf log. destruct (Hm log) as (msgs & E & <-). destruct (Hf (log ++ msgs)) as (msgs' & E' & <-).
  exists (msgs ++ msgs'). unfold mbind, ST_bind. rewrite E, E', app_assoc. split; [done|].
  unfold at_info, handled. by rewrite List.filter_app.
Qed.
Lemma tells_quiet {A B} (m : Lex A) (f : A → Lex B) l a b :
  tells m [] a → tells (f a) l b → tells (m ≫= f) l b.
Proof. intros Hm Hf. exact (tells_bind m f [] l a b Hm Hf). Qed.
Lemma tells_debug msg : tells (log_debug msg) [] tt.
Proof. intros log. by exists [LogDebug msg]. Qed.
Lemma tells_info msg : tells (log_info msg) [LogInfo msg] tt.
Proof. intros log. by exists [LogInfo msg]. Qed.
Lemma tells_error msg : tells (log_error msg) [LogError msg] tt.
Proof. intros log. by exists [LogError msg]. Qed.
Lemma tells_for_each {A} (P : A → list logrec → Prop) (l : list A) (body : A → Lex unit) :
  (∀ x, x ∈ l → ∃ r, tells (body x) r tt ∧ P x r) →
  ∃ rs, tells (for_each l body) (concat rs) tt ∧ Forall2 P l rs.
Proof.
  induction l as [|x l IH]; intros H; [exists []; split; [apply tells_ret | constructor]|].
  destruct (H x ltac:(left)) as (r & Hr & Hx), IH as (rs & Hrs & Hl); [by intros; apply H; right|].
  exists (r :: rs). split; [by apply (tells_bind _ _ _ _ tt) | by constructor].
Qed.
Lemma tells_lift {A} (a : A) : tells (lift_res (Ok a)) [] a.
Proof. apply tells_ret. Qed.
#[local] Hint Resolve tells_ret tells_debug tells_info tells_error tells_lift : py.

(** ** The origin of a translation *)

Section Git.
Context (git_log : string → string → string) (git_between : string → string → string → string)
  (git_pretty : string → string) (isfile : string → bool).

(** The latest commit of a file from a commit, as git prints it. *)
Definition latest (path h : string) : res (option commit) :=
  match split_char NL (git_log path h) with
  | hash :: author :: rest => match read_commit hash author rest with Ok c => Ok (Some c) | Raise e => Raise e end
  | _ => Ok None
  end.
Lemma tells_latest path h o : latest path h = Ok o → tells (get_latest_commit_from git_log path h) [] o.
Proof.
  unfold latest, get_latest_commit_from. intros H. eapply tells_quiet; [apply tells_debug|].
  destruct (split_char NL (git_log path h)) as [|hash [|author rest]]; [injection H as <-; apply tells_ret..|].
  destruct (read_commit hash author rest) as [c|e]; [|done]. injection H as <-.
  eapply tells_quiet; [apply tells_debug|]. eapply tells_quiet; [apply tells_lift | apply tells_ret].
Qed.
Lemma tells_tracked o : tells (tracked o) [] o.
Proof.
  unfold tracked. eapply (tells_quiet _ _ _ tt); [|apply tells_ret]. destruct o; auto with py.
Qed.

(** Git prints dates in its own format, and a commit of a file that is found from
    the parent of another one comes before it in the history. *)
Context (dated : ∀ path h, ∃ o, latest path h = Ok o).
Context (rank : string → nat).
Context (parent : ∀ path h c, latest path (h +:+ "^") = Ok (Some c) → rank (c_hash c) < rank h).

(** Walking back from [a] to [b], over commits authored after [date]. *)
Inductive walk (path : string) (date : Z) : commit → commit → Prop :=
| walk_here c : walk path date c c
| walk_back a a' b :
    (date < c_author_date a)%Z →
    latest path (c_hash a +:+ "^") = Ok (Some a') →
    walk path date a' b → walk path date a b.
(** What the search for the commit is to find: the first one that was not
    authored after the translation, or none when there is no such commit. *)
Definition origin_found (path : string) (date : Z) (first r : option commit) : Prop :=
  match first with
  | None => r = None
  | Some o => ∃ c, walk path date o c ∧
      match r with
      | Some c' => c' = c ∧ (c_author_date c ≤ date)%Z
      | None => (date < c_author_date c)%Z ∧ latest path (c_hash c +:+ "^") = Ok None
      end
  end.

Lemma origin_loop_found path date fuel : ∀ first,
  (∀ o, first = Some o → rank (c_hash o) < fuel) →
  ∃ r, tells (origin_loop git_log fuel path date first) [] r ∧ origin_found path date first r.
Proof using dated parent.
  induction fuel as [|fuel IH]; intros [o|] Hr.
  - specialize (Hr o eq_refl). lia.
  - exists None. split; [apply tells_ret | done].
  - cbn [origin_loop]. destruct (date <? c_author_date o)%Z eqn:E.
    + apply Z.ltb_lt in E. destruct (dated path (c_hash o +:+ "^")) as [o' Ho].
      destruct (IH o') as (r & Hl & Hf).
      { intros o'' ->. apply parent in Ho. specialize (Hr o eq_refl). lia. }
      exists r. split; [eapply tells_quiet; [by apply tells_latest | exact Hl]|].
      destruct o' as [o'|]; cbn [origin_found] in *.
      * destruct Hf as (c & Hw & Hc). exists c. split; [by eapply walk_back|exact Hc].
      * subst r. exists o. split; [constructor|]. by split.
    + apply Z.ltb_ge in E. exists (Some o). split; [apply tells_ret|]. exists o. split; [constructor|]. by split.
  - exists None. split; [apply tells_ret | done].
Qed.

Lemma origin_from_trans_found path t fuel :
  (∀ o, latest path (c_hash t) = Ok (Some o) → rank (c_hash o) < fuel) →
  ∃ first r, latest path (c_hash t) = Ok first ∧
    tells (get_origin_from_trans git_log fuel path t) [] r ∧ origin_found path (c_author_date t) first r.
Proof using dated parent.
  intros Hf. unfold get_origin_from_trans. destruct (dated path (c_hash t)) as [first E].
  destruct (origin_loop_found path (c_author_date t) fuel first) as (r & Hl & Ho).
  { intros o ->. by apply Hf. }
  exists first, r. split; [exact E|]. split; [|exact Ho].
  eapply tells_quiet; [by apply tells_latest|]. eapply tells_quiet; [exact Hl | apply tells_tracked].
Qed.

(** ** The report on a file *)

(** The commit that the message of the translation names. *)
Definition named (path : string) (t : commit) : res (option commit) :=
  match formatted_hash (c_message t) with Some hash => latest path hash | None => Ok None end.
Lemma tells_smartly path t o : named path t = Ok o → tells (get_origin_from_trans_smartly git_log path t) [] o.
Proof.
  unfold named, get_origin_from_trans_smartly. destruct (formatted_hash (c_message t)) as [hash|].
  - intros H. eapply tells_quiet; [by apply tells_latest | apply tells_tracked].
  - intros [=<-]. apply tells_ret.
Qed.
(** The commit a translation was made from. *)
Definition made_from (path : string) (t : commit) (o : option commit) : Prop :=
  ∃ smart, named path t = Ok smart ∧
  match smart with
  | Some c => o = Some c
  | None => ∃ first, latest path (c_hash t) = Ok first ∧ origin_found path (c_author_date t) first o
  end.
(** The commits since then that are no merges. *)
Definition commits_since (opath a b : string) : list string :=
  List.filter (λ c, negb (str_in "Merge tag" (git_pretty c)))
    (filter (λ x, x ≠ "") (split_char NL (git_between opath a b))).
(** The messages on a file whose original is [opath]. *)
Inductive report (file opath : string) : list logrec → Prop :=
| no_original : isfile opath = false →
    report file opath [LogError ("Cannot find the origin path for " +:+ file)]
| no_commit o t :
    isfile opath = true → latest opath "HEAD" = Ok o → latest file "HEAD" = Ok t → o = None ∨ t = None →
    report file opath [LogError ("Cannot find the latest commit for " +:+ file)]
| no_origin o t :
    isfile opath = true → latest opath "HEAD" = Ok (Some o) → latest file "HEAD" = Ok (Some t) →
    made_from opath t None →
    report file opath [LogError ("Error: Cannot find the latest origin commit for " +:+ file)]
| up_to_date o t c :
    isfile opath = true → latest opath "HEAD" = Ok (Some o) → latest file "HEAD" = Ok (Some t) →
    made_from opath t (Some c) → c_hash o = c_hash c → report file opath []
| out_of_date o t c :
    isfile opath = true → latest opath "HEAD" = Ok (Some o) → latest file "HEAD" = Ok (Some t) →
    made_from opath t (Some c) → c_hash o ≠ c_hash c →
    let commits := commits_since opath (c_hash c) (c_hash o) in
    report file opath
      (LogInfo file :: map (λ x, LogInfo ("commit " +:+ git_pretty x)) commits
       ++ [LogInfo (int_str (length commits) +:+ " commits needs resolving in total" +:+ nl)]).

Lemma tells_pretty c : tells (pretty_output git_pretty c) [] (git_pretty c).
Proof. unfold pretty_output. eapply tells_quiet; [apply tells_debug | apply tells_ret]. Qed.
Lemma tells_valid c : tells (valid_commit git_pretty c) [] (negb (str_in "Merge tag" (git_pretty c))).
Proof. unfold valid_commit. eapply tells_quiet; [apply tells_pretty | apply tells_ret]. Qed.
Lemma count_commits commits : ∀ n,
  tells (for_acc commits n (λ count commit,
      valid ← valid_commit git_pretty commit;
      if (valid : bool) then
        text ← pretty_output git_pretty commit; log_info ("commit " +:+ text) ;; mret (S count)
      else mret count))
    (map (λ x, LogInfo ("commit " +:+ git_pretty x))
       (List.filter (λ c, negb (str_in "Merge tag" (git_pretty c))) commits))
    (n + length (List.filter (λ c, negb (str_in "Merge tag" (git_pretty c))) commits)).
Proof.
  induction commits as [|c commits IH]; intros n; cbn [for_acc List.filter].
  - cbn [map length]. rewrite Nat.add_0_r. apply tells_ret.
  - destruct (negb (str_in "Merge tag" (git_pretty c))) eqn:E.
    + cbn [map length]. rewrite Nat.add_succ_r. eapply (tells_bind _ _ [_] _ (S n)); [|apply (IH (S n))].
      eapply tells_quiet; [apply tells_valid|]. rewrite E. eapply tells_quiet; [apply tells_pretty|].
      apply (tells_bind _ _ [_] [] tt); auto with py.
    + eapply (tells_quiet _ _ _ n); [|apply IH].
      eapply tells_quiet; [apply tells_valid|]. rewrite E. apply tells_ret.
Qed.

Lemma tells_list_commits file opath o c :
  tells (list_commits git_between git_pretty file opath o c)
    (if (c_hash o =? c_hash c)%string then [] else
       let commits := commits_since opath (c_hash c) (c_hash o) in
       LogInfo file :: map (λ x, LogInfo ("commit " +:+ git_pretty x)) commits
       ++ [LogInfo (int_str (length commits) +:+ " commits needs resolving in total" +:+ nl)]) tt.
Proof.
  unfold list_commits. destruct (c_hash o =? c_hash c)%string; [apply tells_debug|]. cbv zeta.
  apply (tells_bind _ _ [_] _ tt); [apply tells_info|].
  eapply tells_quiet; [eapply tells_quiet; [apply tells_debug | apply tells_ret]|].
  eapply tells_bind; [apply count_commits|]. apply tells_info.
Qed.

Lemma check_per_file_report fuel file opath :
  get_origin_path file = Ok opath →
  (∀ h o, latest opath h = Ok (Some o) → rank (c_hash o) < fuel) →
  ∃ l, tells (check_per_file git_log git_between git_pretty isfile fuel file) l tt ∧ report file opath l.
Proof using dated parent.
  intros Hp Hfuel. unfold check_per_file. rewrite Hp.
  destruct (isfile opath) eqn:Ef; cbn [negb].
  2: { eexists. split; [eapply tells_quiet; [apply tells_lift|]; rewrite Ef; apply tells_error | by constructor]. }
  destruct (dated opath "HEAD") as [o Ho], (dated file "HEAD") as [t Ht].
  assert (∀ l, tells (match o, t with
    | Some o_from_head, Some t_from_head =>
        smart ← get_origin_from_trans_smartly git_log opath t_from_head;
        o_from_t ← (match smart with
                    | Some o => mret (Some o)
                    | None => get_origin_from_trans git_log fuel opath t_from_head
                    end);
        match o_from_t with
        | None => log_error ("Error: Cannot find the latest origin commit for " +:+ file)
        | Some o_from_t => list_commits git_between git_pretty file opath o_from_head o_from_t
        end
    | _, _ => log_error ("Cannot find the latest commit for " +:+ file)
    end) l tt →
    tells (check_per_file git_log git_between git_pretty isfile fuel file) l tt) as Hrun.
  { intros l Hl. unfold check_per_file. rewrite Hp. eapply tells_quiet; [apply tells_lift|]. rewrite Ef.
    do 2 (eapply tells_quiet; [by apply tells_latest|]). exact Hl. }
  unfold check_per_file in Hrun. rewrite Hp in Hrun.
  destruct o as [o|]; [|eexists; split; [apply Hrun, tells_error | eapply no_commit; eauto]].
  destruct t as [t|]; [|eexists; split; [apply Hrun, tells_error | eapply no_commit; eauto]].
  assert (∃ smart, named opath t = Ok smart) as [smart Hs].
  { unfold named. destruct (formatted_hash _); [apply dated|by eexists]. }
  assert (∃ r, made_from opath t r ∧ tells (match smart with
      | Some o => mret (Some o) | None => get_origin_from_trans git_log fuel opath t end) [] r) as (r & Hm & Hr).
  { destruct smart as [c|]; [exists (Some c); split; [by exists (Some c) | apply tells_ret]|].
    destruct (origin_from_trans_found opath t fuel) as (first & r & Hf & Hr & Hg); [by intros; eapply Hfuel|].
    exists r. split; [|exact Hr]. exists None. split; [done|]. by exists first. }
  assert (∀ l, tells (match r with
    | None => log_error ("Error: Cannot find the latest origin commit for " +:+ file)
    | Some c => list_commits git_between git_pretty file opath o c end) l tt →
    tells (check_per_file git_log git_between git_pretty isfile fuel file) l tt) as Hend.
  { intros l Hl. unfold check_per_file. rewrite Hp. apply Hrun.
    eapply tells_quiet; [by apply tells_smartly|]. eapply tells_quiet; [exact Hr | exact Hl]. }
  unfold check_per_file in Hend. rewrite Hp in Hend.
  destruct r as [c|]; [|eexists; split; [apply Hend, tells_error | by eapply no_origin]].
  eexists. split; [apply Hend, tells_list_commits|].
  destruct (String.eqb_spec (c_hash o) (c_hash c)) as [E|E]; [by eapply up_to_date | by eapply out_of_date].
Qed.
End Git.

(** ** Listing files *)

(** The files below a folder, found by recursion. *)
Fixpoint files_below (exclude : list string) (suffix path : string) (t : tree) : list string :=
  match t with
  | TFile => if endswith suffix path then [path] else []
  | TDir entries =>
      if smem (basename path) exclude then []
      else flat_map (λ e, files_below exclude suffix (path_join path (fst e)) (snd e)) entries
  end.

Section Listing.
Context (exclude : list string) (suffix : string).
Definition stack_files (stack : list (string * list (string * tree))) : list string :=
  flat_map (λ x, files_below exclude suffix (fst x) (TDir (snd x))) stack.
Definition stack_folders (stack : list (string * list (string * tree))) : nat :=
  list_sum (map (λ x, folders (TDir (snd x))) stack).

Lemma list_entries_spec pwd entries : ∀ stack files stack' files',
  fold_left (list_entry suffix pwd) entries (stack, files) = (stack', files') →
  stack_folders stack' = list_sum (map (λ e, folders (snd e)) entries) + stack_folders stack ∧
  files' ++ stack_files stack'
  ≡ₚ files ++ flat_map (λ e, files_below exclude suffix (path_join pwd (fst e)) (snd e)) entries
     ++ stack_files stack.
Proof.
  induction entries as [|[n t] entries IH]; intros stack files stack' files'; cbn [fold_left].
  - intros [= <- <-]. done.
  - unfold list_entry at 2. cbn [fst snd]. destruct t as [|es]; intros H; apply IH in H as [H1 H2].
    + split; [exact H1|]. rewrite H2. cbn [flat_map fst snd files_below].
      destruct (endswith _ _); [|done]. by rewrite <- !app_assoc.
    + split.
      * change (stack_folders ((path_join pwd n, es) :: stack))
          with (folders (TDir es) + stack_folders stack) in H1.
        change (list_sum (map _ ((n, TDir es) :: entries)))
          with (folders (TDir es) + list_sum (map (λ e, folders (snd e)) entries)). lia.
      * rewrite H2. cbn [flat_map].
        change (stack_files ((path_join pwd n, es) :: stack))
          with (files_below exclude suffix (path_join pwd n) (TDir es) ++ stack_files stack).
        change (fst (n, TDir es)) with n. change (snd (n, TDir es)) with (TDir es).
        generalize (files_below exclude suffix (path_join pwd n) (TDir es)). intros A.
        rewrite !app_assoc, <- (app_assoc files). f_equiv. rewrite <- !app_assoc. f_equiv.
        apply Permutation_app_comm.
Qed.

Lemma list_loop_spec fuel : ∀ stack files, stack_folders stack ≤ fuel →
  ∃ found, list_loop fuel exclude suffix stack files = Ok found ∧
    found ≡ₚ files ++ stack_files stack.
Proof.
  induction fuel as [|fuel IH]; intros [|[pwd entries] stack] files Hf; cbn [list_loop].
  - exists files. split; [done|]. by rewrite app_nil_r.
  - unfold stack_folders in Hf. cbn in Hf. lia.
  - exists files. split; [done|]. by rewrite app_nil_r.
  - change (stack_folders ((pwd, entries) :: stack))
      with (S (list_sum (map (λ e, folders (snd e)) entries)) + stack_folders stack) in Hf.
    unfold stack_files. cbn [flat_map fst snd files_below]. fold (stack_files stack).
    destruct (smem (basename pwd) exclude).
    + cbn [app]. apply IH. lia.
    + destruct (fold_left _ entries (stack, files)) as [stack' files'] eqn:E.
      destruct (list_entries_spec pwd entries stack files stack' files' E) as [H1 H2].
      destruct (IH stack' files') as (found & Hr & Hp); [lia|]. exists found. split; [done|].
      by rewrite Hp, H2.
Qed.
End Listing.

(** ** Properties *)

(** The original of a translation is the document it is the translation of:
    [get_origin_path] undoes the path that the script makes of a document, when
    no folder above the documentation is called [translations]. *)
Theorem origin_path_roundtrip locale file k :
  sall (λ c, negb (c =? "/")%char) locale = true →
  index_of "Documentation" (split_char "/" file) = Some k →
  ("translations" ∉ take k (split_char "/" file)) →
  ∃ path, translation_path locale file = Ok path ∧ get_origin_path path = Ok file.
Proof. apply origin_of_translation. Qed.

Lemma origin_path_roundtrip_witness :
  ∃ path, translation_path "zh_CN" "./Documentation/mm/ksm.rst" = Ok path ∧
          get_origin_path path = Ok "./Documentation/mm/ksm.rst".
Proof.
  apply (origin_path_roundtrip "zh_CN" "./Documentation/mm/ksm.rst" 1); [done|done|].
  intros H%smem_iff. by vm_compute in H.
Defined.

Lemma given_files_tells tree_at isfile files : Forall (λ f, isfile f = true) files →
  tells (given_files tree_at isfile files) [] files.
Proof.
  intros H. unfold given_files. match goal with |- tells (for_acc _ _ ?b) _ _ => set (body := b) end.
  enough (∀ acc, tells (for_acc files acc body) [] (acc ++ files)) as Hacc by exact (Hacc []).
  induction H as [|f files Hf _ IH]; intros acc; cbn [for_acc]; [rewrite app_nil_r; apply tells_ret|].
  eapply tells_quiet; [subst body; cbv beta; rewrite Hf; apply tells_ret|].
  specialize (IH (acc ++ [f])). by rewrite <-app_assoc in IH.
Qed.

(** C19 The reports on translated files are complete and come to an end: when git
    prints its dates and the parents of a commit come before it, the walk to the
    commit a translation was made from ends within the length of the history; for the
    files that are given, in order, [main] logs exactly one of the five reports each,
    the last of which lists the commits since then that are no merges, in order,
    with their number.  At the level [INFO] the console and the log file show these
    reports and nothing else, a line each with its time; the log file is always
    [checktransupdate.log], whatever [--logfile] says. *)
Theorem translations_reported git_log git_between git_pretty tree_at isfile isfile_linux relative linux_path
    is_locale rank clock fuel argv args f files :
  (∀ path h, ∃ o, latest git_log path h = Ok o) →
  (∀ path h c, latest git_log path (h +:+ "^") = Ok (Some c) → rank (c_hash c) < rank h) →
  parse_args (transupdate_parser is_locale) no_subcommand argv = Ok args →
  as_str args "log" = Some "INFO" → as_list args "files" = Some (f :: files) →
  Forall (λ f, isfile f = true) (f :: files) →
  Forall (λ f, ∃ opath, get_origin_path (relative f) = Ok opath
    ∧ ∀ h o, latest git_log opath h = Ok (Some o) → rank (c_hash o) < fuel) (f :: files) →
  ∃ reports,
    Forall2 (λ f r, ∃ opath, get_origin_path (relative f) = Ok opath
      ∧ report git_log git_between git_pretty isfile_linux (relative f) opath r) (f :: files) reports
    ∧ main git_log git_between git_pretty tree_at isfile isfile_linux relative linux_path is_locale clock fuel argv
      = (fst (written clock 0 (concat reports)),
         Some ("checktransupdate.log", snd (written clock 0 (concat reports))), Ok tt).
Proof.
  intros Hd Hp Hargs Hlog Hfiles Hisfile Hor.
  destruct (tells_for_each (λ f r, ∃ opath, get_origin_path f = Ok opath
      ∧ report git_log git_between git_pretty isfile_linux f opath r) (map relative (f :: files))
    (check_per_file git_log git_between git_pretty isfile_linux fuel)) as (reports & Ht & Hr).
  { intros x Hx. apply list_elem_of_fmap in Hx as (y & -> & Hy).
    rewrite Forall_forall in Hor. destruct (Hor y Hy) as (opath & Ho & Hfuel).
    destruct (check_per_file_report git_log git_between git_pretty isfile_linux Hd rank Hp fuel (relative y) opath Ho Hfuel)
      as (l & Hl & Hrep). exists l. split; [exact Hl|]. by exists opath. }
  exists reports. split; [by apply Forall2_fmap_l in Hr|].
  unfold main. rewrite Hargs, Hlog, Hfiles. cbn [default from_option id].
  unfold run_main. cbn [default from_option id]. cbv beta iota zeta.
  pose proof (tells_quiet _ (λ l, for_each (map relative l)
      (check_per_file git_log git_between git_pretty isfile_linux fuel)) _ _ _
    (given_files_tells tree_at isfile (f :: files) Hisfile) Ht) as Hrun.
  destruct (Hrun []) as (msgs & Hmsgs & <-). 
  match goal with |- (match ?t with _ => _ end) = _ => assert (t = (msgs, Ok tt)) as -> by exact Hmsgs end.
  change (default 20 (level_number (str_upper "INFO"))) with 20. unfold at_info, config_logging. cbn [log_file].
  by destruct (written clock 0 _).
Qed.

(** A history of three commits of the original; the translation was authored
    between the second and the third. *)
Definition doc_file : string := "Documentation/a.rst".
Definition zh_file : string := "Documentation/translations/zh_CN/a.rst".
Definition printed (hash day : string) : string :=
  join nl [hash; "Mon, " +:+ day +:+ " Jan 2026 10:00:00 +0000";
           "Mon, " +:+ day +:+ " Jan 2026 12:00:00 +0000"; ""; "docs: a change"; ""].
Definition demo_log (path h : string) : string :=
  if (path =? doc_file)%string then
    if smem h ["HEAD"; "tt"] then printed "o3" "7"
    else if (h =? "o3^")%string then printed "o2" "5" else ""
  else if (path =? zh_file)%string && (h =? "HEAD")%string then printed "tt" "6" else "".
Definition demo_between (path a b : string) : string :=
  if (a =? "o2")%string && (b =? "o3")%string then "o3" +:+ nl else "".
Definition demo_pretty (h : string) : string := h +:+ " (docs: a change)".
Definition demo_rank (h : string) : nat :=
  if (h =? "o3")%string then 2 else if (h =? "o2")%string then 1 else 0.

Lemma demo_latest path h : ∃ o, latest demo_log path h = Ok o ∧
  (o = None ∨ h ≠ "o3^" ∧ h ∈ ["HEAD"; "tt"] ∨ h = "o3^" ∧ c_hash <$> o = Some "o2").
Proof.
  unfold latest, demo_log.
  destruct (path =? doc_file)%string.
  - destruct (smem h ["HEAD"; "tt"]) eqn:E1.
    + apply smem_iff in E1. eexists. split; [vm_compute; reflexivity|]. right. left. split; [|done].
      intros ->. apply smem_iff in E1. by vm_compute in E1.
    + destruct (String.eqb_spec h "o3^") as [->|Hne].
      * eexists. split; [vm_compute; reflexivity|]. by right; right.
      * eexists. split; [vm_compute; reflexivity|]. by left.
  - destruct (path =? zh_file)%string; [|eexists; split; [vm_compute; reflexivity|by left]].
    destruct (String.eqb_spec h "HEAD") as [->|Hne]; cbn [andb].
    + eexists. split; [vm_compute; reflexivity|]. right. left. split; [done|by left].
    + eexists. split; [vm_compute; reflexivity|]. by left.
Qed.

Definition demo_main (logfile : string) :=
  main demo_log demo_between demo_pretty (λ _, None) (λ _, true) (λ _, true) id "." (λ _, true)
    (λ i, i * 1000000) 3 ["--logfile"; logfile; zh_file].
Lemma translations_reported_witness :
  (∃ reports,
    Forall2 (λ f r, ∃ opath, get_origin_path (id f) = Ok opath
      ∧ report demo_log demo_between demo_pretty (λ _, true) (id f) opath r) [zh_file] reports
    ∧ demo_main "my.log" = (fst (written (λ i, i * 1000000) 0 (concat reports)),
         Some ("checktransupdate.log", snd (written (λ i, i * 1000000) 0 (concat reports))), Ok tt))
  ∧ demo_main "my.log" = (["[  0.000000] " +:+ zh_file; "[  2.000000] commit o3 (docs: a change)";
                   "[  4.000000] 1 commits needs resolving in total" +:+ nl],
        Some ("checktransupdate.log",
              ["[  1.000000] " +:+ zh_file; "[  3.000000] commit o3 (docs: a change)";
               "[  5.000000] 1 commits needs resolving in total" +:+ nl]), Ok tt).
Proof.
  split; [|vm_compute; reflexivity].
  eapply (translations_reported demo_log demo_between demo_pretty (λ _, None) (λ _, true) (λ _, true) id "."
    (λ _, true) demo_rank (λ i, i * 1000000) 3 ["--logfile"; "my.log"; zh_file]).
  - intros path h. destruct (demo_latest path h) as (o & Ho & _). by exists o.
  - intros path h c Hc. destruct (demo_latest path (h +:+ "^")) as (o & Ho & Hcase).
    rewrite Hc in Ho. injection Ho as <-. destruct Hcase as [?|[[_ Hin]|[E Hh]]]; [done| |].
    + exfalso. rewrite !elem_of_cons, elem_of_nil in Hin.
      destruct Hin as [E|[E|[]]]; destruct h as [|? [|? [|? [|? [|? ?]]]]]; discriminate E.
    + cbn in Hh. injection Hh as ->.
      assert (h = "o3") as ->; [|vm_compute; lia].
      destruct h as [|? [|? [|? [|? ?]]]]; try discriminate E. by injection E as -> ->.
  - vm_compute. reflexivity.
  - vm_compute. reflexivity.
  - vm_compute. reflexivity.
  - by repeat constructor.
  - constructor; [|constructor]. exists doc_file. split; [vm_compute; reflexivity|].
    intros h o Ho. unfold demo_rank. destruct (_ =? _)%string; [lia|]. destruct (_ =? _)%string; lia.
Defined.

(** Listing the files of a folder ends, and gives exactly the files that are
    found by recursion: those with the suffix, below no excluded folder, each
    as often as it is there. *)
Theorem list_files_spec folder entries exclude suffix :
  ∃ files, list_files_with_excluding_folders folder entries exclude suffix = Ok files ∧
    files ≡ₚ files_below exclude suffix folder (TDir entries).
Proof.
  unfold list_files_with_excluding_folders.
  destruct (list_loop_spec exclude suffix (folders (TDir entries)) [(folder, entries)] []) as (files & Hr & Hp).
  { unfold stack_folders. cbn [map snd]. change (list_sum [?x]) with (x + 0). lia. }
  exists files. split; [exact Hr|]. rewrite Hp. unfold stack_files. cbn [flat_map app fst snd].
  by rewrite app_nil_r.
Qed.
