(* ===== verification/Renames.v ===== *)
(** * Renames: [gen-renames.py] and [gen-redirects.py]

    The first script follows the documents through the renames in the history
    of the repository and prints, for every former name of a present document,
    the name it has now; the second reads that list and writes a page with a
    redirect at each former name.  What git prints, and the file system, are
    parameters. *)

From S2P Require Import Prelude PyStr PyNum PyPath PyRe PyReSyntax PyReTheory Argparse.

(** ** The history *)

Definition doc_prefix : string := "Documentation/".
Definition doc_suffix : string := ".rst".
(** [normalize(path)] *)
Definition normalize (path : string) : res string :=
  if startswith doc_prefix path && endswith doc_suffix path then
    Ok (str_slice (String.length doc_prefix) (String.length path - String.length doc_suffix) path)
  else Raise AssertionError.

(** A line of the log that concerns documents. *)
Inductive change := Rename (old new : string) | Delete (old : string).
(** What the loop body reads from a line; [None] for a line that is skipped. *)
Definition read_change (line : string) : res (option change) :=
  if startswith "R" line then
    match split_at_most 2 TAB (str_drop 1 line) with
    | [_; old; new] =>
        if endswith doc_suffix old && endswith doc_suffix new then
          match normalize old, normalize new with
          | Ok old, Ok new => Ok (Some (Rename old new))
          | Raise e, _ => Raise e
          | _, Raise e => Raise e
          end
        else Ok None
    | _ => Raise (ValueError "not enough values to unpack")
    end
  else if startswith "D" line then
    match split_at_most 1 TAB line with
    | [_; old] =>
        if endswith doc_suffix old then
          match normalize old with Ok old => Ok (Some (Delete old)) | Raise e => Raise e end
        else Ok None
    | _ => Raise (ValueError "not enough values to unpack")
    end
  else Ok None.

(** [names]: the names a document had, under the last one.  A [Name] is only ever
    held by one key. *)
Abbreviation Names := (dict (list string)).
Definition apply_change (names : Names) (c : change) : Names :=
  match c with
  | Rename old new =>
      match dget names old with
      | None => dset names new [old; new]
      | Some l => dset (ddel names old) new (l ++ [new])
      end
  | Delete old => ddel names old
  end.
Fixpoint read_changes (lines : list string) : res (list change) :=
  match lines with
  | [] => Ok []
  | line :: lines =>
      match read_change line with
      | Raise e => Raise e
      | Ok c => match read_changes lines with
                | Raise e => Raise e
                | Ok cs => Ok (match c with Some c => c :: cs | None => cs end)
                end
      end
  end.
Definition renames (changes : list change) : Names := fold_left apply_change changes [].

(** [current_files] *)
Fixpoint current_files (lines : list string) : res (list string) :=
  match lines with
  | [] => Ok []
  | line :: lines =>
      if endswith doc_suffix line then
        match normalize line, current_files lines with
        | Ok f, Ok fs => Ok (f :: fs)
        | Raise e, _ => Raise e
        | _, Raise e => Raise e
        end
      else current_files lines
  end.

(** [result], before and after [sorted]. *)
Definition redirects_of (current : list string) (l : list string) : list (string * string) :=
  match last l with
  | None => []
  | Some new_name =>
      map (λ o, (o, new_name))
        (filter (λ o, o ≠ new_name ∧ (o ∉ current)) (removelast l))
  end.
Definition result (current : list string) (names : Names) : list (string * string) :=
  flat_map (λ kv, redirects_of current (snd kv)) names.
Definition pair_le (a b : string * string) : bool :=
  if (fst a =? fst b)%string then (snd a <=? snd b)%string else (fst a <=? fst b)%string.
Definition rename_lines (redirects : list (string * string)) : list string :=
  map (λ '(o, n), o +:+ " " +:+ n) (isort pair_le redirects).
(** The script: the lines it prints. *)
Definition gen_renames (log tree : list string) : res (list string) :=
  match read_changes log with
  | Raise e => Raise e
  | Ok changes =>
      match current_files tree with
      | Raise e => Raise e
      | Ok current => Ok (rename_lines (result current (renames changes)))
      end
  end.

(** The script with its arguments; git prints the log and the tree up to a
    revision. *)
Definition gen_renames_parser : parser :=
  Parser [help_option; Optional ["--rev"] "rev" (Store plain_str) (VStr "HEAD")] [] [] [].
Definition gen_renames_main (git_log git_tree : string → list string) (argv : list string)
    : res (list string) :=
  match parse_args gen_renames_parser no_subcommand argv with
  | Raise e => Raise e
  | Ok args => let rev := default "" (as_str args "rev") in gen_renames (git_log rev) (git_tree rev)
  end.

(** ** The redirects *)

(** The page at the former name. *)
Definition html_page (relpath new_name : string) : string :=
  join nl [
    "<!DOCTYPE html>"; "";
    "<html lang=" +:+ quote +:+ "en" +:+ quote +:+ ">";
    "<head>";
    "    <title>This page has moved</title>";
    "    <meta http-equiv=" +:+ quote +:+ "refresh" +:+ quote +:+ " content=" +:+ quote
      +:+ "0; url=" +:+ relpath +:+ quote +:+ ">";
    "</head>";
    "<body>";
    "<p>This page has moved to <a href=" +:+ quote +:+ relpath +:+ quote +:+ ">" +:+ new_name +:+ "</a>.</p>";
    "</body>";
    "</html>"; ""].

(** What the loop body does for a line: a warning, or a page written. *)
Inductive redirect_event :=
| Warning (msg : string)
| Page (old_html_path : string) (text : string).
Section Redirects.
(** [exists_] is the file system before the script runs; it makes the missing
    folders of the pages it writes. *)
Context (cwd output : string) (exists_ : string → bool).
Definition redirect (written : list string) (line : string) : res redirect_event :=
  match split_at_most 2 " " (rstrip_char NL line) with
  | [old_name; new_name] =>
      let old_html_path := path_join output (old_name +:+ ".html") in
      let new_html_path := path_join output (new_name +:+ ".html") in
      if negb (exists_ new_html_path || smem new_html_path written) then
        Ok (Warning ("warning: target does not exist: " +:+ new_html_path +:+ " (redirect from "
                     +:+ old_html_path +:+ ")"))
      else if (dirname old_html_path =? "")%string then Raise (OSError "No such file or directory")
      else if (new_name =? "")%string then Raise (ValueError "no path specified")
      else Ok (Page old_html_path
                 (html_page (relpath cwd new_name (dirname old_name) +:+ ".html") new_name))
  | _ => Raise (ValueError "values to unpack")
  end.
(** The script: what it does, up to an exception; [written] are the pages. *)
Fixpoint gen_redirects (written : list string) (lines : list string)
    : list redirect_event * res unit :=
  match lines with
  | [] => ([], Ok tt)
  | line :: lines =>
      match redirect written line with
      | Ok e =>
          let written := match e with Page p _ => written ++ [p] | Warning _ => written end in
          let '(es, r) := gen_redirects written lines in (e :: es, r)
      | Raise e => ([], Raise e)
      end
  end.
End Redirects.

(** The script with its arguments.  Without [--output] the first line ends it:
    either it cannot be unpacked, or [None] is no path. *)
Definition gen_redirects_parser : parser :=
  Parser [help_option; store ["-o"; "--output"] "output"] [] [] [].
Definition gen_redirects_main (cwd : string) (exists_ : string → bool) (argv lines : list string)
    : list redirect_event * res unit :=
  match parse_args gen_redirects_parser no_subcommand argv with
  | Raise e => ([], Raise e)
  | Ok args =>
      match as_str args "output", lines with
      | Some output, _ => gen_redirects cwd output exists_ [] lines
      | None, [] => ([], Ok tt)
      | None, line :: _ =>
          ([], match split_at_most 2 " " (rstrip_char NL line) with
               | [_; _] => Raise (TypeError "expected str, bytes or os.PathLike object, not NoneType")
               | _ => Raise (ValueError "values to unpack")
               end)
      end
  end.
