(* ===== verification/RenamesSpec.v ===== *)
(** * RenamesSpec: what the scripts about renamed documents promise *)

From S2P Require Import Prelude PyStr PyNum PyPath Renames.

(** ** The names a document had *)

(** Read from the last change back: the names, in order, of the document that is
    called [k] in the end, when its last name came from a rename. *)
Fixpoint history (changes : list change) (k : string) : option (list string) :=
  match changes with
  | [] => None
  | Rename old new :: older =>
      if (new =? k)%string then Some (default [old] (history older old) ++ [k])
      else if (old =? k)%string then None else history older k
  | Delete old :: older => if (old =? k)%string then None else history older k
  end.

Lemma renames_snoc changes c : renames (changes ++ [c]) = apply_change (renames changes) c.
Proof. unfold renames. by rewrite fold_left_app. Qed.

Lemma renames_keys changes : NoDup (dkeys (renames changes)).
Proof.
  induction changes as [|c changes IH] using rev_ind; [constructor|]. rewrite renames_snoc.
  destruct c as [old new|old]; cbn; [|by apply dkeys_nodup_ddel].
  destruct (dget (renames changes) old); apply dkeys_nodup_dset; [by apply dkeys_nodup_ddel|done].
Qed.

Lemma renames_history changes : ∀ k, dget (renames changes) k = history (rev changes) k.
Proof.
  induction changes as [|c changes IH] using rev_ind; intros k; [done|].
  rewrite renames_snoc, rev_app_distr. cbn [rev app history].
  pose proof (renames_keys changes) as Hd. destruct c as [old new|old]; cbn [apply_change].
  - rewrite <- !IH. destruct (String.eqb_spec new k) as [->|Hnew].
    + destruct (dget (renames changes) old) as [l|]; by rewrite dget_dset_eq.
    + destruct (String.eqb_spec old k) as [->|Hold].
      * destruct (dget (renames changes) k) as [l|] eqn:E; rewrite dget_dset_ne by done; [|done].
        by apply dget_ddel_eq.
      * destruct (dget (renames changes) old) as [l|]; rewrite dget_dset_ne by done; [|done].
        by apply dget_ddel_ne.
  - rewrite <- !IH. destruct (String.eqb_spec old k) as [->|Hold]; [by apply dget_ddel_eq|].
    by apply dget_ddel_ne.
Qed.

Lemma history_last changes : ∀ k l, history changes k = Some l → last l = Some k.
Proof.
  induction changes as [|c changes IH]; intros k l; cbn [history]; [done|].
  destruct c as [old new|old].
  - destruct (new =? k)%string; [intros [= <-]; by rewrite last_snoc|].
    destruct (old =? k)%string; [done|apply IH].
  - destruct (old =? k)%string; [done|apply IH].
Qed.

Lemma dget_In {V} (d : dict V) k v : NoDup (dkeys d) → (k, v) ∈ d ↔ dget d k = Some v.
Proof.
  unfold dkeys. induction d as [|[k' v'] d IH]; cbn; intros Hd.
  - split; [intros H; by apply elem_of_nil in H|done].
  - apply NoDup_cons in Hd as [Hn Hd]. rewrite elem_of_cons, IH by done.
    destruct (String.eqb_spec k' k) as [->|Hne].
    + split.
      * intros [[= ->]|H]; [done|]. exfalso. apply Hn, list_elem_of_fmap. exists (k, v). split; [done|].
        by apply IH.
      * intros [= ->]. by left.
    + split; [intros [[= -> ->]|H]; done|by right].
Qed.

Lemma result_spec current changes o n :
  (o, n) ∈ result current (renames changes) ↔
  ∃ l, history (rev changes) n = Some l ∧ o ∈ removelast l ∧ o ≠ n ∧ (o ∉ current).
Proof.
  unfold result. rewrite list_elem_of_In, in_flat_map. setoid_rewrite <- list_elem_of_In.
  assert (∀ l k, last l = Some k → ∀ a b, (a, b) ∈ redirects_of current l ↔
            b = k ∧ a ∈ removelast l ∧ a ≠ k ∧ (a ∉ current)) as Hr.
  { intros l k Hk a b. unfold redirects_of. rewrite Hk. setoid_rewrite list_elem_of_fmap. split.
    - intros (x & [= -> ->] & Hx). apply list_elem_of_filter in Hx as [[H1 H2] H3]. tauto.
    - intros (-> & H1 & H2 & H3). exists a. split; [done|]. by apply list_elem_of_filter. }
  split.
  - intros ([k l] & Hin & Hx). cbn [snd] in Hx.
    apply dget_In in Hin; [|apply renames_keys]. rewrite renames_history in Hin.
    apply (Hr l k (history_last _ _ _ Hin)) in Hx as (-> & H1 & H2 & H3). by exists l.
  - intros (l & Hl & H1 & H2 & H3). exists (n, l). split.
    + apply dget_In; [apply renames_keys|]. by rewrite renames_history.
    + apply (Hr l n (history_last _ _ _ Hl)). tauto.
Qed.

Lemma pair_le_total a b : pair_le a b = false → pair_le b a = true.
Proof.
  unfold pair_le. destruct (String.eqb_spec (fst a) (fst b)) as [E|E].
  - rewrite <- E, String.eqb_refl. apply string_leb_total.
  - rewrite (proj2 (String.eqb_neq (fst b) (fst a))) by done. apply string_leb_total.
Qed.

(** ** Lines *)

Lemma split_at_most_cons n sep c t : split_at_most (S n) sep (String c t)
  = if (c =? sep)%char then "" :: split_at_most n sep t
    else match split_at_most (S n) sep t with x :: l => String c x :: l | [] => [String c ""] end.
Proof. done. Qed.
Lemma split_at_most_none n sep s : sall (λ c, negb (c =? sep)%char) s = true → split_at_most n sep s = [s].
Proof.
  destruct n as [|n]; [done|]. induction s as [|c s IH]; [done|]. cbn [sall].
  intros [Hc%negb_true_iff Hs]%andb_prop. by rewrite split_at_most_cons, Hc, IH.
Qed.
Lemma split_at_most_app n sep a t : sall (λ c, negb (c =? sep)%char) a = true →
  split_at_most (S n) sep (a +:+ String sep t) = a :: split_at_most n sep t.
Proof.
  induction a as [|c a IH].
  - intros _. cbn [String.append]. by rewrite split_at_most_cons, Ascii.eqb_refl.
  - cbn [sall]. intros [Hc%negb_true_iff Ha]%andb_prop.
    change (String c a +:+ ?x) with (String c (a +:+ x)). by rewrite split_at_most_cons, Hc, IH.
Qed.
Lemma split_at_most_two a b : sall (λ c, negb (c =? " ")%char) a = true →
  sall (λ c, negb (c =? " ")%char) b = true → split_at_most 2 " " (a +:+ " " +:+ b) = [a; b].
Proof.
  intros Ha Hb. change (" " +:+ b) with (String " " b). by rewrite split_at_most_app, split_at_most_none.
Qed.

(** *** Folders *)

Lemma plain_html z : plain_comp z → plain_comp (z +:+ ".html").
Proof.
  intros [_ Hs]. split; [|by rewrite sall_app, Hs]. intros H.
  rewrite !elem_of_cons, elem_of_nil in H.
  destruct H as [H|[H|[H|[]]]]; apply (f_equal String.length) in H; rewrite slen_app in H; cbn in H; lia.
Qed.

(** The path from a folder to a name that is not above it, with the suffix. *)
Lemma rel_html d l : Forall plain_comp l → ¬ (l `prefix_of` d) → ∃ comps front z,
  l = front ++ [z] ∧ join "/" (rel_list d l) +:+ ".html" = join "/" comps ∧
  follow d comps = front ++ [z +:+ ".html"].
Proof.
  intros HF Hp. set (i := common_prefix d l).
  assert (drop i l ≠ []) as Hne.
  { intros E. apply Hp. exists (drop i d). rewrite <- (take_drop i l) at 1.
    rewrite E, app_nil_r. unfold i at 1. rewrite <- common_prefix_take. fold i. by rewrite take_drop. }
  destruct (drop i l) as [|z m _] eqn:E using rev_ind; [done|]. clear Hne.
  exists (repeat ".." (length d - i) ++ m ++ [z +:+ ".html"]), (take i l ++ m), z.
  split; [|split].
  - by rewrite <- (take_drop i l) at 1; rewrite E, app_assoc.
  - unfold rel_list. fold i. rewrite E, !app_assoc. set (a := repeat ".." (length d - i) ++ m).
    destruct a as [|x a]; [done|]. rewrite !join_snoc by done. by rewrite !sapp_assoc.
  - pose proof (common_prefix_le d l) as Hle. fold i in Hle.
    assert (Forall plain_comp (m ++ [z +:+ ".html"])) as HX.
    { assert (Forall plain_comp (m ++ [z])) as H by (rewrite <- E; by apply Forall_drop).
      apply Forall_app in H as [H1 H2]. apply Forall_app. split; [done|].
      inversion H2; subst. constructor; [by apply plain_html|constructor]. }
    unfold follow. rewrite fold_left_app. fold (follow d (repeat ".." (length d - i))).
    rewrite follow_up. replace (length d - (length d - i)) with i by lia.
    fold (follow (take i d) (m ++ [z +:+ ".html"])). rewrite follow_down by done.
    unfold i. rewrite common_prefix_take. by rewrite <- app_assoc.
Qed.

(** A name as the scripts can hand it over: no blank, no newline. *)
Definition one_word (s : string) : Prop := sall (λ c, negb (c =? " ")%char && negb (c =? NL)%char) s = true.

Lemma rstrip_newline s : sall (λ c, negb (c =? NL)%char) s = true → rstrip_char NL (s +:+ nl) = s.
Proof.
  intros Hs. unfold rstrip_char. induction s as [|c s IH]; [done|]. cbn [sall] in Hs.
  apply andb_prop in Hs as [Hc%negb_true_iff Hs].
  change (String c s +:+ nl) with (String c (s +:+ nl)). cbn [rstrip_by]. rewrite IH by done.
  destruct s; [|done]. rewrite Ascii.eqb_sym. by rewrite Hc.
Qed.

(** ** Properties *)

(** C24 The list of redirects: sorted, and exactly the pairs of a former name and
    the present name of one document, as the changes read backwards give them,
    where the former name is not the present one and no present document has
    it. *)
Theorem gen_renames_spec log tree changes current :
  read_changes log = Ok changes → current_files tree = Ok current →
  ∃ redirects, gen_renames log tree = Ok (map (λ '(o, n), o +:+ " " +:+ n) redirects) ∧
    Sorted (ordered pair_le) redirects ∧
    ∀ o n, (o, n) ∈ redirects ↔
      ∃ l, history (rev changes) n = Some l ∧ o ∈ removelast l ∧ o ≠ n ∧ (o ∉ current).
Proof.
  intros Hl Ht. unfold gen_renames, rename_lines. rewrite Hl, Ht.
  exists (isort pair_le (result current (renames changes))). split; [done|]. split.
  - apply isort_sorted, pair_le_total.
  - intros o n. rewrite isort_perm. apply result_spec.
Qed.

Definition demo_rename (old new : string) : string :=
  "R100" +:+ tab +:+ "Documentation/" +:+ old +:+ ".rst" +:+ tab +:+ "Documentation/" +:+ new +:+ ".rst".
Definition demo_log : list string :=
  ["commit 1"; demo_rename "a" "b"; "commit 2"; demo_rename "b" "sub/c"; demo_rename "x" "y";
   "D" +:+ tab +:+ "Documentation/y.rst"].
Lemma gen_renames_spec_witness :
  gen_renames demo_log ["Documentation/sub/c.rst"] = Ok ["a sub/c"; "b sub/c"] ∧
  ∃ redirects, gen_renames demo_log ["Documentation/sub/c.rst"]
               = Ok (map (λ '(o, n), o +:+ " " +:+ n) redirects) ∧
    Sorted (ordered pair_le) redirects ∧
    ∀ o n, (o, n) ∈ redirects ↔
      ∃ l, history (rev [Rename "a" "b"; Rename "b" "sub/c"; Rename "x" "y"; Delete "y"]) n = Some l ∧
           o ∈ removelast l ∧ o ≠ n ∧ (o ∉ ["sub/c"]).
Proof.
  split; [vm_compute; reflexivity|].
  apply (gen_renames_spec demo_log ["Documentation/sub/c.rst"]); vm_compute; reflexivity.
Defined.

(** The page at a former name links to the present one: following the address
    from the folder of the page leads to the page of the new name, whatever the
    current directory is, unless the new name is that folder or one above it
    (the document [foo/index] that became [foo]); the address is then made of
    dots. *)
Theorem redirect_leads cs output exists_ written d o l :
  Forall plain_comp cs → Forall plain_comp d → plain_comp o → Forall plain_comp l → l ≠ [] →
  let old_name := join "/" (d ++ [o]) in
  let new_name := join "/" l in
  one_word old_name → one_word new_name →
  exists_ (path_join output (new_name +:+ ".html")) = true →
  dirname (path_join output (old_name +:+ ".html")) ≠ "" →
  ∃ url, redirect (cwd_of cs) output exists_ written (old_name +:+ " " +:+ new_name +:+ nl)
         = Ok (Page (path_join output (old_name +:+ ".html")) (html_page url new_name)) ∧
    (¬ (l `prefix_of` d) → ∃ comps front z, url = join "/" comps ∧ l = front ++ [z] ∧
       follow d comps = front ++ [z +:+ ".html"]) ∧
    (l = d → url = "..html").
Proof.
  intros Hcs Hd Ho Hl Hne old_name new_name Hwo Hwn He Hdir. unfold redirect.
  assert (∀ s, one_word s → sall (λ c, negb (c =? " ")%char) s = true) as Hb.
  { intros s. apply sall_impl. intros c Hc. by apply andb_prop in Hc as [Hc _]. }
  assert (∀ s, one_word s → sall (λ c, negb (c =? NL)%char) s = true) as Hn.
  { intros s. apply sall_impl. intros c Hc. by apply andb_prop in Hc as [_ Hc]. }
  replace (old_name +:+ " " +:+ new_name +:+ nl) with ((old_name +:+ " " +:+ new_name) +:+ nl)
    by (by rewrite !sapp_assoc).
  rewrite rstrip_newline by (rewrite !sall_app, (Hn old_name Hwo), (Hn new_name Hwn); done).
  rewrite split_at_most_two by auto. cbv zeta. rewrite He. cbn [orb negb].
  rewrite (proj2 (String.eqb_neq (dirname _) "")) by done.
  assert (new_name ≠ "") as Hn0.
  { unfold new_name. intros E. apply (f_equal (split_char "/")) in E. rewrite plain_split in E by done.
    subst l. inversion Hl as [|? ? [Hx _] _]; subst. apply Hx. by left. }
  rewrite (proj2 (String.eqb_neq new_name "")) by done. unfold old_name at 2. rewrite dirname_join by done.
  eexists. split; [reflexivity|]. unfold new_name. split.
  - intros Hp. assert (l ≠ d) as Hld by (intros ->; by apply Hp).
    destruct (relpath_plain cs Hcs l d Hl Hd Hld) as (comps & -> & -> & _).
    destruct (rel_html d l Hl Hp) as (comps & front & z & H1 & H2 & H3). by exists comps, front, z.
  - intros ->. unfold relpath. rewrite !abspath_list, <- (app_nil_r (cs ++ d)), rel_list_app by done. done.
Qed.

Lemma redirect_leads_witness :
  redirect "/srv" "out" (λ _, true) [] ("admin/old new/page" +:+ nl)
  = Ok (Page "out/admin/old.html" (html_page "../new/page.html" "new/page")) ∧
  redirect "/srv" "out" (λ _, true) [] ("foo/index foo" +:+ nl)
  = Ok (Page "out/foo/index.html" (html_page "..html" "foo")).
Proof.
  assert (∀ c, smem c [""; "."; ".."] = false → sall (λ x, negb (x =? "/")%char) c = true → plain_comp c) as Hp.
  { intros c Hc Hs. split; [|done]. intros H%smem_iff. congruence. }
  split; [vm_compute; reflexivity|].
  destruct (redirect_leads ["srv"] "out" (λ _, true) [] ["foo"] "index" ["foo"]) as (url & Hr & _ & Hu);
    [by repeat constructor; apply Hp|by repeat constructor; apply Hp|by apply Hp
    |by repeat constructor; apply Hp|done|done|done|done|done|].
  rewrite (Hu eq_refl) in Hr. exact Hr.
Defined.
