(* ===== verification/KdocMain.v ===== *)
(** * KdocMain: the command [kernel-doc]

    The script reads its arguments, makes a [KernelFiles] object, parses the
    files, prints the output and ends with a status. *)

From S2P Require Import Prelude PyStr PyNum PyPath PyRe PyReSyntax PyReTheory PyDate KdocRe CLex Xforms.
From S2P Require Import KdocItem KdocEntry KdocParams KdocDump KdocProcess KdocOutput KdocMan KdocYaml.
From S2P Require Import Argparse PyVersion KdocFiles.

Definition WERROR_RETURN_CODE : nat := 3.

(** ** Arguments *)

Definition kernel_doc_parser : parser := Parser [
    help_option;
    store_true ["-v"; "-verbose"; "--verbose"] "verbose";
    store_true ["-d"; "-debug"; "--debug"] "debug";
    store ["-M"; "-modulename"; "--modulename"] "modulename";
    store_true ["-l"; "-enable-lineno"; "--enable_lineno"] "enable_lineno";
    store_true ["-Wreturn"; "--wreturn"] "wreturn";
    store_true ["-Wshort-desc"; "-Wshort-description"; "--wshort-desc"] "wshort_desc";
    store_true ["-Wcontents-before-sections"; "--wcontents-before-sections"] "wcontents_before_sections";
    store_true ["-Wall"; "--wall"] "wall";
    store_true ["-Werror"; "--werror"] "werror";
    append ["-export-file"; "--export-file"] "export_file";
    store_true ["-m"; "-man"; "--man"] "man";
    store_true ["-r"; "-rst"; "--rst"] "rst";
    store_true ["-N"; "-none"; "--none"] "none";
    store ["-y"; "--yaml-file"; "--yaml"] "yaml_file";
    store_true ["-k"; "--kdoc-item"; "--kdoc"] "kdoc_item";
    store_true ["-e"; "-export"; "--export"] "export";
    store_true ["-i"; "-internal"; "--internal"] "internal";
    append ["-s"; "-function"; "--symbol"] "symbol";
    append ["-n"; "-nosymbol"; "--nosymbol"] "nosymbol";
    store_true ["-D"; "-no-doc-sections"; "--no-doc-sections"] "no_doc_sections"]
  [Positional "files" Several] [["export"; "internal"; "symbol"]] [].

(** The arguments that [main] uses. *)
Record options := Options {
  o_verbose : bool;
  o_modulename : option string;
  o_enable_lineno : bool;
  o_wreturn : bool;
  o_wshort_desc : bool;
  o_wall : bool;
  o_werror : bool;
  o_export_file : list string;
  o_man : bool;
  o_rst : bool;
  o_none : bool;
  o_yaml_file : option string;
  o_kdoc_item : bool;
  o_export : bool;
  o_internal : bool;
  o_symbol : option (list string);
  o_nosymbol : option (list string);
  o_no_doc_sections : bool;
  o_files : list string;
}.

Definition options_of (args : dict value) : options := Options
  (as_bool args "verbose") (as_str args "modulename") (as_bool args "enable_lineno")
  (as_bool args "wreturn") (as_bool args "wshort_desc") (as_bool args "wall") (as_bool args "werror")
  (default [] (as_list args "export_file")) (as_bool args "man") (as_bool args "rst")
  (as_bool args "none") (as_str args "yaml_file") (as_bool args "kdoc_item") (as_bool args "export")
  (as_bool args "internal") (as_list args "symbol") (as_list args "nosymbol")
  (as_bool args "no_doc_sections") (default [] (as_list args "files")).

(** ** Running *)

(** [out_style]; [NoStyle] is [None], for which [KernelFiles] takes the base
    class. *)
Inductive out_style := NoStyle | ManStyle (modulename : option string) | RestStyle.
(** The end of the process: a status, or a message that [sys.exit] prints (the
    status is then 1), or the status 2 of [parser.error]. *)
Inductive exit_status := Status (n : nat) | ExitMessage (msg : string).

(** What goes into the test file. *)
Definition yaml_content (o : options) : list string :=
  if given_str (o_yaml_file o) then
    let content := (if o_man o then ["man"] else []) ++ (if o_rst o then ["rst"] else []) in
    if o_kdoc_item o || bool_decide (content = []) then content ++ ["KdocItem"] else content
  else [].
(** The choice of the output class; [None] when the options exclude each
    other. *)
Definition choose_style (o : options) : option out_style :=
  if given_str (o_yaml_file o) then Some NoStyle
  else
    let n_outputs := 0 in
    let '(style, n_outputs) :=
      if o_man o then (ManStyle (o_modulename o), S n_outputs) else (NoStyle, n_outputs) in
    let '(style, n_outputs) := if o_none o then (NoStyle, S n_outputs) else (style, n_outputs) in
    let '(style, n_outputs) :=
      if o_rst o || (n_outputs =? 0) then (RestStyle, S n_outputs) else (style, n_outputs) in
    if 1 <? n_outputs then None
    else if n_outputs =? 0 then Some RestStyle else Some style.

Section Main.
Context (fs : string → option node) (read : string → option string).
(** The names of the time zone, [KBUILD_BUILD_TIMESTAMP] and the clock. *)
Context (zones : list string) (tstamp : option string) (now : datetime).
Abbreviation date := (ManFormat.man_date zones tstamp now).
(** The version of the interpreter, and what the environment says. *)
Context (python_ver : list Z) (kbuild_verbose kcflags kdoc_werror srctree : option string).
Context (has_yaml : bool) (home : string → option string) (isdir : string → bool).

(** [out_style.output_symbols] *)
Definition style_symbols (style : out_style) (fname : string) (symbols : list KdocItem) : Out string :=
  match style with
  | NoStyle => output_symbols BaseFormat fname symbols
  | ManStyle modulename =>
      ManFormat.man_output_symbols modulename "9" date "Kernel API Manual" fname symbols
  | RestStyle => output_symbols RestFormat.cls fname symbols
  end.
(** [kfiles.errors]: its own count, and what the output classes add to it. *)
Definition total_errors (k : KernelFiles) : nat :=
  kf_errors k + of_errors (kf_out_style k)
  + match kf_test_file k with
    | Some t => list_sum (map (λ s, of_errors (style_state s)) (tf_out_style t))
    | None => 0
    end.
Definition main_object (o : options) : res KernelFiles :=
  KernelFiles_init (o_verbose o) (o_werror o) (o_wall o || o_wreturn o) (o_wall o || o_wshort_desc o)
    xforms (o_yaml_file o) (yaml_content o) kbuild_verbose kcflags kdoc_werror srctree
    has_yaml home isdir.
Definition main_msg_args (o : options) : msg_args :=
  MsgArgs (o_enable_lineno o) (o_export o) (o_internal o) (o_symbol o) (o_nosymbol o)
    (o_no_doc_sections o).
(** The end of [main]: what is printed after the output, and the status. *)
Definition finish_main (o : options) (error_count : nat) : list string * exit_status :=
  if error_count =? 0 then ([], Status 0)
  else if o_werror o
  then ([int_str error_count +:+ " warnings as errors"], Status WERROR_RETURN_CODE)
  else if o_verbose o then ([int_str error_count +:+ " errors"], Status 0)
  else ([], Status 0).

(** [main()] after the arguments: what is printed, and how it ends; an exception that is not caught
    ends it too. *)
Definition run_main (o : options) : list string * res exit_status :=
  if negb (ver_le [3; 6]%Z python_ver) then
    if o_none o then ([], Ok (Status 0))
    else ([], Ok (ExitMessage "Python 3.6 or later is required by kernel-doc. Aborting."))
  else
    match choose_style o with
    | None => ([], Ok (Status 2))
    | Some style =>
        match main_object o with
        | Raise e => ([], Raise e)
        | Ok k =>
            let '(k, r) :=
              (parse fs read (o_files o) (o_export_file o) ;;
               msg fs (style_symbols style) date (main_msg_args o) [] (o_export_file o)) k in
            let printed := map snd (kf_yielded k) in
            match r with
            | Raise e => (printed, Raise e)
            | Ok _ => let '(more, status) := finish_main o (total_errors k) in
                      (printed ++ more, Ok status)
            end
        end
    end.
(** [MsgFormatter.format(record)], for the format that [main] gives. *)
Definition level_name (r : logrec) : string :=
  match r with LogDebug _ => "DEBUG" | LogInfo _ => "INFO" | LogWarning _ => "WARNING" | LogError _ => "ERROR" end.
Definition capitalize (s : string) : string :=
  match s with String c s => String (upper c) (str_lower s) | EmptyString => "" end.
Definition MsgFormatter_format (r : logrec) : string := capitalize (level_name r) +:+ ": " +:+ record_message r.
(** The level that [--debug] sets, and the lines of some messages. *)
Definition root_level (debug : bool) : nat := if debug then 10 else 20.
Definition message_lines (debug : bool) (l : list logrec) : list string :=
  map MsgFormatter_format (List.filter (λ r, root_level debug <=? record_level r) l).
(** What [main] itself logs, about the version of the interpreter. *)
Definition version_log (none : bool) : list logrec :=
  if negb (ver_le [3; 6]%Z python_ver) then
    if none then [LogError "Python 3.6 or later is required by kernel-doc. Skipping checks"] else []
  else if negb (ver_le [3; 7]%Z python_ver) then [LogWarning "Python 3.7 or later is required for correct results"]
  else [].
Definition main_messages (argv : list string) : list string :=
  match parse_args kernel_doc_parser no_subcommand argv with
  | Ok args => message_lines (as_bool args "debug") (version_log (as_bool args "none"))
  | Raise _ => []
  end.
(** [main()], for the words of the command line. *)
Definition main (argv : list string) : list string * res exit_status :=
  match parse_args kernel_doc_parser no_subcommand argv with
  | Ok args => run_main (options_of args)
  | Raise (Exit n) => ([], Ok (Status n))
  | Raise e => ([], Raise e)
  end.
End Main.
