(* ===== verification/KdocMainSpec.v ===== *)
(** * KdocMainSpec: what the command [kernel-doc] promises *)

From S2P Require Import Prelude PyStr PyNum PyPath PyRe PyReSyntax PyReTheory PyDate KdocRe CLex Xforms.
From S2P Require Import KdocItem KdocEntry KdocParams KdocDump KdocProcess KdocOutput KdocMan KdocYaml.
From S2P Require Import Argparse PyVersion KdocFiles KdocFilesSpec KdocMain.

(** ** A field that is never read *)

Definition set_werror (w : bool) (k : KernelFiles) : KernelFiles :=
  MkFiles (kf_config k) w (kf_xforms k) (kf_src_tree k) (kf_out_style k) (kf_errors k) (kf_results k)
    (kf_files k) (kf_export_files k) (kf_export_table k) (kf_log k) (kf_yielded k) (kf_test_file k)
    (kf_written k).

(** [m] neither reads nor writes [kf_werror]. *)
Section Blind.
Context (w : bool).
Definition blind {A} (m : ST KernelFiles A) : Prop :=
  ∀ k, m (set_werror w k) = (set_werror w (fst (m k)), snd (m k)).

Lemma blind_ret {A} (a : A) : blind (mret a).
Proof. done. Qed.
Lemma blind_raise {A} e : blind (raise (A := A) e).
Proof. done. Qed.
Lemma blind_lift {A} (r : res A) : blind (lift_res r).
Proof. done. Qed.
Lemma blind_gets {A} (f : KernelFiles → A) : (∀ k, f (set_werror w k) = f k) → blind (gets f).
Proof. intros H k. unfold gets. by rewrite H. Qed.
Lemma blind_modify f : (∀ k, f (set_werror w k) = set_werror w (f k)) → blind (modify f).
Proof. intros H k. unfold modify. by rewrite H. Qed.
Lemma blind_bind {A B} (m : ST KernelFiles A) (f : A → ST KernelFiles B) :
  blind m → (∀ a, blind (f a)) → blind (m ≫= f).
Proof.
  intros Hm Hf k. unfold mbind, ST_bind. rewrite Hm. destruct (m k) as [k' [a|e]]; [|done]. apply Hf.
Qed.
Lemma blind_when b m : blind m → blind (when b m).
Proof. by destruct b. Qed.
Lemma blind_for_each {A} (l : list A) body : (∀ x, blind (body x)) → blind (for_each l body).
Proof. intros H. induction l as [|x l IH]; [done|]. by apply blind_bind. Qed.
Lemma blind_for_acc {A B} (l : list B) (body : A → B → ST KernelFiles A) :
  (∀ a x, blind (body a x)) → ∀ a, blind (for_acc l a body).
Proof. intros H. induction l as [|x l IH]; intros a; [done|]. by apply blind_bind. Qed.

Context (fs : string → option node) (read : string → option string).
Context (out_symbols : string → list KdocItem → Out string) (date : string).

Lemma blind_parse_file fname : blind (parse_file read fname).
Proof.
  intros k. unfold parse_file. run_ST. change (kf_files (set_werror w k)) with (kf_files k).
  destruct (smem fname (kf_files k)); [done|].
  change (kf_config (set_werror w k)) with (kf_config k).
  change (kf_xforms (set_werror w k)) with (kf_xforms k).
  change (kf_test_file (set_werror w k)) with (kf_test_file k).
  by destruct (parse_kdoc _ _) as [doc [exports|x]].
Qed.
Lemma blind_process_export fname : blind (process_export_file fname).
Proof.
  intros k. unfold process_export_file. run_ST.
  change (kf_export_files (set_werror w k)) with (kf_export_files k). by destruct (smem _ _).
Qed.
Lemma blind_consume body e : (∀ f, blind (body f)) → blind (consume body e).
Proof. intros H. destruct e; [apply H|]. by apply blind_modify. Qed.
Lemma blind_parse file_list export_file : blind (parse fs read file_list export_file).
Proof.
  unfold parse. apply blind_bind; [by apply blind_gets|]. intros t.
  apply blind_bind; [|intros _]; apply blind_for_each; intros e; apply blind_consume;
    [apply blind_parse_file|apply blind_process_export].
Qed.

Lemma blind_add_exports export_file : blind (add_exports fs export_file).
Proof.
  unfold add_exports. apply blind_bind; [by apply blind_gets|]. intros t.
  apply blind_for_acc. intros table [f|f].
  - apply blind_bind; [by apply blind_gets|]. intros e. apply blind_bind; [apply blind_lift|].
    intros x. apply blind_ret.
  - apply blind_bind; [by apply blind_modify|]. intros _. apply blind_ret.
Qed.
Lemma blind_on_style {A} (m : Out A) : blind (on_style m).
Proof.
  intros k. unfold on_style. change (kf_out_style (set_werror w k)) with (kf_out_style k).
  by destruct (m (kf_out_style k)).
Qed.
Lemma blind_msg_symbols a fname symbols table : blind (msg_symbols out_symbols date a fname symbols table).
Proof.
  unfold msg_symbols. apply blind_bind; [by apply blind_gets|]. intros [t|].
  - intros k. unfold store_tests. by destruct (yaml_output_symbols _ _ _ _) as [[t' s'] r].
  - apply blind_bind; [apply blind_on_style|]. intros _. apply blind_bind; [apply blind_on_style|].
    intros text. by apply blind_when, blind_modify.
Qed.
Lemma blind_msg a filenames export_file : blind (msg fs out_symbols date a filenames export_file).
Proof.
  unfold msg. apply blind_bind; [by apply blind_gets|]. intros results. cbv zeta.
  apply blind_bind; [|intros _; apply blind_bind; [by apply blind_gets|]].
  - apply blind_for_acc. intros ef fname. unfold msg_file. cbv zeta. apply blind_bind.
    { destruct (_ || _); [apply blind_add_exports|apply blind_ret]. }
    intros table. apply blind_bind; [by apply blind_gets|]. intros res.
    apply blind_bind; [|intros _; apply blind_ret].
    destruct (dget res fname); [apply blind_msg_symbols|by apply blind_modify].
  - intros [t|]; [by apply blind_modify|apply blind_ret].
Qed.
End Blind.

(** ** Properties *)

(** The variables [KCFLAGS] and [KDOC_WERROR], with which the build system is
    to turn warnings into errors, have no effect on the command: whatever their
    values, the output and the status are the same. *)
Theorem werror_environment_ignored fs read zones tstamp now python_ver kbuild_verbose srctree has_yaml home isdir
    argv kcflags kdoc_werror kcflags' kdoc_werror' :
  main fs read zones tstamp now python_ver kbuild_verbose kcflags kdoc_werror srctree has_yaml home isdir argv
  = main fs read zones tstamp now python_ver kbuild_verbose kcflags' kdoc_werror' srctree has_yaml home isdir argv.
Proof.
  unfold main. destruct (parse_args _ _ _) as [args|e]; [|done]. set (o := options_of args). unfold run_main. destruct (negb _); [done|]. destruct (choose_style o) as [style|]; [|done].
  assert (∃ w, main_object kbuild_verbose kcflags' kdoc_werror' srctree has_yaml home isdir o
               = match main_object kbuild_verbose kcflags kdoc_werror srctree has_yaml home isdir o with
                 | Ok k => Ok (set_werror w k) | Raise e => Raise e end) as [w ->].
  { unfold main_object, KernelFiles_init. eexists. destruct (o_yaml_file o) as [[|c f]|]; [reflexivity| |reflexivity].
    destruct (KDocTestFile_init _ _ _ _ _); reflexivity. }
  destruct (main_object _ _ _ _ _ _ _ o) as [k|e]; [|done].
  pose proof (blind_bind w _ _ (blind_parse w fs read (o_files o) (o_export_file o))
    (λ _, blind_msg w fs (style_symbols zones tstamp now style) (ManFormat.man_date zones tstamp now) (main_msg_args o) [] (o_export_file o)) k) as Hb.
  unfold mbind in *. rewrite Hb.
  destruct (ST_bind _ _ _ _ k) as [k' [[]|e]]; done.
Qed.

(** With an interpreter that is too old a run for the warnings only does not fail: it
    says so and has the status 0. *)
Lemma old_python_skips fs read zones tstamp now kbuild_verbose kcflags kdoc_werror srctree has_yaml home isdir :
  main fs read zones tstamp now [3; 5]%Z kbuild_verbose kcflags kdoc_werror srctree has_yaml home isdir ["--none"; "a.c"]
  = ([], Ok (Status 0))
  ∧ main_messages [3; 5]%Z ["--none"; "a.c"]
    = ["Error: Python 3.6 or later is required by kernel-doc. Skipping checks"].
Proof. split; vm_compute; reflexivity. Qed.
