(* ===== verification/KdocCommandSpec.v ===== *)
(** * KdocCommandSpec: the command line that the directive logs

    The directive shows a command line with which its output can be had from the
    command [kernel-doc].  Here that line goes through the shell, the parser of
    arguments and the command, and the output is compared. *)

From S2P Require Import Prelude PyStr PyNum PyPath PyRe PyReSyntax PyReTheory PyDate KdocRe CLex Xforms.
From S2P Require Import KdocItem KdocEntry KdocParams KdocDump KdocProcess KdocOutput KdocMan KdocYaml.
From S2P Require Import Argparse ArgparseSpec PyVersion PyVersionSpec KdocFiles KdocFilesSpec.
From S2P Require Import Directive DirectiveSpec KdocShared KdocMain.

(** ** The shell *)

(** Words that [cmd_str] quotes well enough: the characters that mean nothing to
    the shell, and blanks. *)
Definition shell_word (w : string) : bool := sall (λ c, safe_char c || (c =? " ")%char) w.

Lemma esc_cmd_nonempty w : esc_cmd w ≠ "".
Proof.
  unfold esc_cmd. destruct (w =? "")%string eqn:E; [done|]. cbn [orb].
  destruct (char_in " " w); [done|]. by apply String.eqb_neq in E.
Qed.
Lemma cmd_str_fold l : ∀ acc, acc ≠ "" →
  fold_left (λ cmd_line w, if (cmd_line =? "")%string then esc_cmd w
                           else cmd_line +:+ " " +:+ esc_cmd w) l acc
  = acc +:+ sconcat (map (λ w, " " +:+ esc_cmd w) l).
Proof.
  induction l as [|w l IH]; intros acc Ha; cbn [fold_left map]; [by rewrite sapp_nil_r|].
  rewrite (proj2 (String.eqb_neq acc "")) by done. rewrite IH by by destruct acc.
  by rewrite sconcat_cons, !sapp_assoc.
Qed.
Lemma cmd_str_eq w l : cmd_str (w :: l) = esc_cmd w +:+ sconcat (map (λ w, " " +:+ esc_cmd w) l).
Proof. unfold cmd_str. cbn [fold_left]. apply cmd_str_fold, esc_cmd_nonempty. Qed.

Lemma no_blank_safe w : shell_word w = true → char_in " " w = false → sall safe_char w = true.
Proof.
  unfold shell_word, char_in. induction w as [|c w IH]; [done|]. cbn [sall scount].
  intros [Hc Hw]%andb_prop Hb. rewrite Ascii.eqb_sym in Hb.
  destruct (c =? " ")%char; [done|]. rewrite orb_false_r in Hc. rewrite Hc. by apply IH.
Qed.
Lemma sh_single_plain w : ∀ a rest, shell_word w = true →
  sh_words Single (Some a) (w +:+ "'" +:+ rest) = sh_words Plain (Some (a +:+ w)) rest.
Proof.
  induction w as [|c w IH]; intros a rest Hw; [by rewrite sapp_nil_r|].
  unfold shell_word in *. cbn [sall] in Hw. apply andb_prop in Hw as [Hc Hw].
  change (String c w +:+ ?x) with (String c (w +:+ x)). cbn [sh_words].
  destruct (c =? "'")%char eqn:E; [by apply Ascii.eqb_eq in E as ->|].
  unfold grow. cbn [default]. unfold id. rewrite IH by done. by rewrite sapp_assoc.
Qed.
Lemma sh_esc w rest : shell_word w = true →
  sh_words Plain None (esc_cmd w +:+ rest) = sh_words Plain (Some w) rest.
Proof.
  intros Hw. unfold esc_cmd. destruct (String.eqb_spec w "") as [->|Hne]; [done|]. cbn [orb].
  destruct (char_in " " w) eqn:Hb.
  - rewrite !sapp_assoc. change ("'" +:+ ?x) with (String "'" x).
    cbn [sh_words Ascii.eqb Bool.eqb default]. apply (sh_single_plain w "" rest Hw).
  - pose proof (no_blank_safe w Hw Hb) as Hs. destruct w as [|c w]; [done|].
    cbn [sall] in Hs. apply andb_prop in Hs as [Hc Hs].
    change (String c w +:+ rest) with (String c (w +:+ rest)). rewrite safe_char_plain by done.
    unfold grow. cbn [default]. by rewrite sh_safe.
Qed.
Lemma sh_cmd_str w l : Forall (λ w, shell_word w = true) (w :: l) →
  sh_words Plain None (cmd_str (w :: l)) = Some (w :: l).
Proof.
  rewrite cmd_str_eq. revert w. induction l as [|v l IH]; intros w [Hw Hl]%Forall_cons.
  - rewrite sh_esc by done. done.
  - rewrite sh_esc by done. cbn [map]. rewrite sconcat_cons, sapp_assoc.
    change (" " +:+ ?x) with (String " " x). cbn [sh_words Ascii.eqb Bool.eqb orb].
    by rewrite IH.
Qed.

(** ** The arguments *)

(** What the command line gives. *)
Record reading := Reading {
  r_enable_lineno : bool;
  r_rst : bool;
  r_export : bool;
  r_internal : bool;
  r_symbol : list string;
  r_nosymbol : list string;
  r_no_doc_sections : bool;
  r_export_file : list string;
}.
Definition appended (l : list string) : value := match l with [] => VNone | _ => VList l end.
Definition ns_of (r : reading) (files : value) : dict value := [
  ("verbose", VBool false); ("debug", VBool false); ("modulename", VNone);
  ("enable_lineno", VBool (r_enable_lineno r)); ("wreturn", VBool false); ("wshort_desc", VBool false);
  ("wcontents_before_sections", VBool false); ("wall", VBool false); ("werror", VBool false);
  ("export_file", appended (r_export_file r)); ("man", VBool false); ("rst", VBool (r_rst r));
  ("none", VBool false); ("yaml_file", VNone); ("kdoc_item", VBool false);
  ("export", VBool (r_export r)); ("internal", VBool (r_internal r)); ("symbol", appended (r_symbol r));
  ("nosymbol", appended (r_nosymbol r)); ("no_doc_sections", VBool (r_no_doc_sections r));
  ("files", files)].

(** A state of the parser: what has been read, before the files. *)
Definition at_reading (r : reading) (taken : list string) (s : parsing) : Prop :=
  namespace s = ns_of r VNone ∧ seen_non_default s = taken ∧ left s = [Positional "files" Several] ∧
  extras s = [] ∧ unrecognized s = [].

Abbreviation kd := kernel_doc_parser.
(** An option of the parser by one of its names. *)
Definition kd_option (s : string) : optional :=
  default help_option (option_of kd s).

Definition upd_flag (name : string) (r : reading) : reading :=
  let '(Reading l t e i s n d x) := r in
  if (name =? "-rst")%string then Reading l true e i s n d x
  else if (name =? "-enable-lineno")%string then Reading true t e i s n d x
  else if (name =? "-export")%string then Reading l t true i s n d x
  else if (name =? "-internal")%string then Reading l t e true s n d x
  else Reading l t e i s n true x.
Definition upd_list (name : string) (w : list string) (r : reading) : reading :=
  let '(Reading l t e i s n d x) := r in
  if (name =? "-function")%string then Reading l t e i (s ++ w) n d x
  else if (name =? "-nosymbol")%string then Reading l t e i s (n ++ w) d x
  else Reading l t e i s n d (x ++ w).

(** Membership in a list of names. *)
Ltac listed := rewrite !elem_of_cons; auto 8.

(** Nothing of the group of exclusive options has been taken. *)
Definition unselected (taken : list string) : Prop :=
  ("export" ∉ taken) ∧ ("internal" ∉ taken) ∧ ("symbol" ∉ taken).
Definition selects (name : string) : bool := smem name ["-export"; "-internal"].

Lemma smem_false x l : x ∉ l → smem x l = false.
Proof. intros H. by apply bool_decide_eq_false_2. Qed.
Lemma set_add_not x y l : x ≠ y → x ∉ l → x ∉ set_add l y.
Proof. intros Hxy Hl H. apply set_add_in in H as [->|H]; done. Qed.

(** Opens a state and computes the turn of an option that has no conflict. *)
Ltac take_turn :=
  match goal with
  | H : at_reading ?r _ ?s |- _ =>
      destruct s as [ns seen nd lf ex un]; destruct r as [l t e i sy n d x];
      destruct H as (Ens & End & El & Eex & Eun); cbn in Ens, End, El, Eex, Eun; subst
  end;
  eexists; split; [rewrite take_option_free; [reflexivity|by eexists|]|].

Ltac no_conflict :=
  match goal with |- existsb _ ?c = _ => let c' := eval vm_compute in c in change c with c' end;
  cbn [existsb]; by rewrite !smem_false by (apply set_add_not; [done|assumption]).

Lemma take_flag name r taken s :
  name ∈ ["-rst"; "-enable-lineno"; "-export"; "-internal"; "-no-doc-sections"] →
  at_reading r taken s → (selects name = true → unselected taken) →
  ∃ s', take_option kd (kd_option name, [], name) s = (s', Ok tt) ∧
    at_reading (upd_flag name r) (set_add taken (dest (kd_option name))) s'.
Proof.
  intros Hn Ht Hsel. rewrite !elem_of_cons, elem_of_nil in Hn.
  destruct Hn as [->|[->|[->|[->|[->|[]]]]]]; take_turn; try reflexivity; try by repeat split.
  all: destruct (Hsel eq_refl) as (He & Hi & Hs); cbn [seen_non_default].
  all: no_conflict.
Qed.
Lemma take_list name a r taken s :
  name ∈ ["-function"; "-nosymbol"; "-export-file"] → at_reading r taken s →
  (name = "-function" → ("export" ∉ taken) ∧ ("internal" ∉ taken)) →
  ∃ s', take_option kd (kd_option name, [a], name) s = (s', Ok tt) ∧
    at_reading (upd_list name [a] r) (set_add taken (dest (kd_option name))) s'.
Proof.
  intros Hn Ht Hsel. rewrite !elem_of_cons, elem_of_nil in Hn.
  destruct Hn as [->|[->|[->|[]]]]; take_turn; try reflexivity.
  all: try (destruct sy, n, x; by repeat split).
  destruct (Hsel eq_refl) as [He Hi]. cbn [seen_non_default]. no_conflict.
Qed.

(** ** The loop over the words *)

(** The words of an option given once for each of some values. *)
Definition values_of (name : string) (l : list string) : words :=
  flat_map (λ a, [given_option (kd_option name) name; (a, MarkA)]) l.

Lemma values_len name l : length l ≤ length (values_of name l).
Proof. unfold values_of. induction l as [|a l IH]; cbn [flat_map app length]; lia. Qed.

Lemma loop_flag name fuel r taken s rest :
  name ∈ ["-rst"; "-enable-lineno"; "-export"; "-internal"; "-no-doc-sections"] →
  at_reading r taken s → (selects name = true → unselected taken) →
  ∃ s', parse_loop kd no_subcommand (S fuel) (given_option (kd_option name) name :: rest) s
        = parse_loop kd no_subcommand fuel rest s' ∧
    at_reading (upd_flag name r) (set_add taken (dest (kd_option name))) s'.
Proof.
  intros Hn Ht Hs. destruct (take_flag name r taken s Hn Ht Hs) as (s' & Hr & Hs').
  exists s'. split; [|exact Hs']. rewrite parse_loop_flag.
  - unfold mbind, ST_bind. by rewrite Hr.
  - rewrite !elem_of_cons, elem_of_nil in Hn. by destruct Hn as [->|[->|[->|[->|[->|[]]]]]].
Qed.
Lemma loop_values name l : ∀ fuel r taken s rest,
  name ∈ ["-function"; "-nosymbol"; "-export-file"] → at_reading r taken s →
  (name = "-function" → ("export" ∉ taken) ∧ ("internal" ∉ taken)) →
  ∃ s' taken', parse_loop kd no_subcommand (length l + fuel) (values_of name l ++ rest) s
               = parse_loop kd no_subcommand fuel rest s' ∧ at_reading (upd_list name l r) taken' s'.
Proof.
  induction l as [|a l IH]; intros fuel r taken s rest Hn Ht Hs.
  - exists s, taken. split; [done|]. destruct r. unfold upd_list. by repeat case_match; rewrite app_nil_r.
  - destruct (take_list name a r taken s Hn Ht Hs) as (s1 & Hr & Hs1).
    destruct (IH fuel _ _ s1 rest Hn Hs1) as (s' & taken' & Hl & Hs').
    { intros ->. destruct (Hs eq_refl) as [He Hi]. split; by apply set_add_not. }
    exists s', taken'. split.
    + cbn [length Nat.add values_of flat_map app]. rewrite parse_loop_value.
      * unfold mbind, ST_bind. by rewrite Hr.
      * rewrite !elem_of_cons, elem_of_nil in Hn. by destruct Hn as [->|[->|[->|[]]]].
    + assert (upd_list name (a :: l) r = upd_list name l (upd_list name [a] r)) as ->; [|done].
      destruct r. unfold upd_list. by repeat case_match; rewrite <- app_assoc.
Qed.

Lemma marks_values name l rest m :
  name ∈ ["-function"; "-nosymbol"; "-export-file"] → Forall (λ a, no_dash a = true) l →
  marks kd rest = Ok m → marks kd (flat_map (λ a, [name; a]) l ++ rest) = Ok (values_of name l ++ m).
Proof.
  intros Hn HF Hm. induction HF as [|a l Ha _ IH]; [done|].
  cbn [flat_map app values_of]. eapply marks_word in IH; [|exact Ha].
  rewrite !elem_of_cons, elem_of_nil in Hn.
  destruct Hn as [->|[->|[->|[]]]]; (apply marks_option; [reflexivity|done|done|exact IH]).
Qed.
Lemma marks_flag name rest m :
  name ∈ ["-rst"; "-enable-lineno"; "-export"; "-internal"; "-no-doc-sections"] →
  marks kd rest = Ok m → marks kd (name :: rest) = Ok (given_option (kd_option name) name :: m).
Proof.
  intros Hn Hm. rewrite !elem_of_cons, elem_of_nil in Hn.
  destruct Hn as [->|[->|[->|[->|[->|[]]]]]]; (apply marks_option; [reflexivity|done|done|exact Hm]).
Qed.

(** The words of the selection, and what they select. *)
Definition base : reading := Reading true true false false [] [] false [].
Definition of_selection (sel : selection) : reading :=
  Reading true true (s_export sel) (s_internal sel) (s_symbol sel) [] (s_no_doc_sections sel) [].
Lemma select_shape options : let sel := select options in
  (∃ f, f ∈ ["-export"; "-internal"; "-no-doc-sections"] ∧ s_cmd sel = [f] ∧
        of_selection sel = upd_flag f base) ∨
  (s_cmd sel = flat_map (λ a, ["-function"; a]) (s_symbol sel) ∧
   of_selection sel = upd_list "-function" (s_symbol sel) base).
Proof.
  cbv zeta. unfold select. destruct (dget options "export") as [s|].
  { left. exists "-export". rewrite !elem_of_cons. by auto. }
  destruct (dget options "internal") as [s|].
  { left. exists "-internal". rewrite !elem_of_cons. by auto. }
  destruct (dget options "doc") as [s|]; [by right|].
  destruct (dget options "identifiers") as [s|]; [|by right].
  destruct (split_ws s); [|by right].
  left. exists "-no-doc-sections". rewrite !elem_of_cons. by auto.
Qed.
Lemma loop_select options taken s :
  at_reading base taken s → unselected taken →
  Forall (λ a, no_dash a = true) (s_symbol (select options)) →
  ∃ n m, n ≤ length m ∧
  (∀ rest l, marks kd rest = Ok l → marks kd (s_cmd (select options) ++ rest) = Ok (m ++ l)) ∧
  ∀ fuel rest, ∃ s' taken',
    parse_loop kd no_subcommand (n + fuel) (m ++ rest) s = parse_loop kd no_subcommand fuel rest s' ∧
    at_reading (of_selection (select options)) taken' s'.
Proof.
  intros Hs Hu HF. destruct (select_shape options) as [(f & Hf & -> & ->)|[Hc Hr]].
  - exists 1, [given_option (kd_option f) f]. split; [done|].
    assert (f ∈ ["-rst"; "-enable-lineno"; "-export"; "-internal"; "-no-doc-sections"]) as Hf'.
    { by do 2 right. }
    split; [intros rest l Hl; by apply marks_flag|]. intros fuel rest.
    destruct (loop_flag f fuel _ _ s rest Hf' Hs (λ _, Hu)) as (s' & Hl & Hs'). eauto.
  - rewrite Hr. exists (length (s_symbol (select options))), (values_of "-function" (s_symbol (select options))).
    split; [|split].
    + apply values_len.
    + intros rest l Hl. rewrite Hc. apply marks_values; [by left|done|done].
    + intros fuel rest. apply (loop_values "-function" _ fuel base taken); [by left|done|].
      intros _. destruct Hu as (? & ? & _). done.
Qed.

(** The file, at the end. *)
Lemma file_taken r taken s file : at_reading r taken s → file ≠ "--" →
  ∃ s', consume_positionals no_subcommand [(file, MarkA)] s = (s', Ok []) ∧
    namespace s' = ns_of r (VList [file]) ∧ extras s' = [] ∧ unrecognized s' = [] ∧
    left s' = [] ∧ "files" ∈ seen_actions s'.
Proof.
  intros (Ens & _ & El & Eex & Eun) Hf. unfold consume_positionals, mbind, ST_bind at 1, gets.
  rewrite El. cbv zeta.
  assert (match_partial (length [Positional "files" Several]) [Positional "files" Several]
            (pattern_of [(file, MarkA)]) = [1]) as -> by (vm_compute; reflexivity).
  cbn [zip zip_with for_acc take drop map fst length]. unfold take_positional.
  cbn [pos_dest pos_nargs remove_first Positional]. rewrite (proj2 (String.eqb_neq file "--")) by done.
  eexists. split; [reflexivity|].
  cbn [namespace extras unrecognized left seen_actions set_left set_value note_seen positional_value].
  rewrite Ens, Eex, Eun. repeat split. apply set_add_in. by left.
Qed.
Lemma nothing_converted s :
  for_each (optionals kd) convert_default s = (s, Ok tt).
Proof. reflexivity. Qed.
Lemma files_required s : "files" ∈ seen_actions s → check_required kd s = (s, Ok tt).
Proof.
  intros H%smem_iff. unfold check_required, mbind, ST_bind, gets. cbn [positionals kd existsb pos_dest Positional].
  by rewrite H.
Qed.

(** The marked words are consumed up to the file. *)
Lemma parse_marked options nosymbol export_file file s0 :
  Forall (λ a, no_dash a = true) (s_symbol (select options)) →
  at_reading (Reading false false false false [] [] false []) [] s0 →
  let tail := values_of "-nosymbol" nosymbol ++ values_of "-export-file" export_file ++ [(file, MarkA)] in
  ∃ m, (∀ rest l, marks kd rest = Ok l →
          marks kd (["-rst"; "-enable-lineno"] ++ s_cmd (select options) ++ rest) = Ok (m ++ l)) ∧
  ∃ s' taken', parse_loop kd no_subcommand (length (m ++ tail)) (m ++ tail) s0 = (s', Ok [(file, MarkA)]) ∧
    at_reading (upd_list "-export-file" export_file
                  (upd_list "-nosymbol" nosymbol (of_selection (select options)))) taken' s'.
Proof.
  intros Hs H0 tail.
  destruct (take_flag "-rst" _ _ s0 ltac:(listed) H0 ltac:(done)) as (s1 & Hr1 & H1).
  destruct (take_flag "-enable-lineno" _ _ s1 ltac:(listed) H1 ltac:(done)) as (s2 & Hr2 & H2).
  destruct (loop_select options _ s2 H2) as (n & m & Hnm & Hm & Hgo); [|done|].
  { split; [|split]; intros H%smem_iff; by vm_compute in H. }
  set (flag := λ name, given_option (kd_option name) name).
  exists (flag "-rst" :: flag "-enable-lineno" :: m). split.
  { intros rest l Hl. cbn [app]. apply marks_flag; [listed|]. apply marks_flag; [listed|]. by apply Hm. }
  assert (∃ f, length (m ++ tail) = n + (length nosymbol + (length export_file + f))) as [f Hf].
  { exists (length (m ++ tail) - n - length nosymbol - length export_file).
    unfold tail. rewrite !length_app.
    pose proof (values_len "-nosymbol" nosymbol). pose proof (values_len "-export-file" export_file).
    lia. }
  destruct (Hgo (length nosymbol + (length export_file + f)) tail) as (s3 & t3 & Hl3 & H3).
  destruct (loop_values "-nosymbol" nosymbol (length export_file + f) _ _ s3
    (values_of "-export-file" export_file ++ [(file, MarkA)]) ltac:(listed) H3 ltac:(done))
    as (s4 & t4 & Hl4 & H4).
  destruct (loop_values "-export-file" export_file f _ _ s4 [(file, MarkA)] ltac:(listed) H4 ltac:(done))
    as (s5 & t5 & Hl5 & H5).
  exists s5, t5. split; [|exact H5].
  cbn [app length]. rewrite Hf. unfold flag. rewrite parse_loop_flag by done.
  unfold mbind, ST_bind at 1. rewrite Hr1. rewrite parse_loop_flag by done.
  unfold mbind, ST_bind at 1. rewrite Hr2. rewrite Hl3. unfold tail. rewrite Hl4, Hl5.
  by apply parse_loop_done.
Qed.

Definition initial : parsing := Parsing (initial_namespace kd) [] [] (positionals kd) [] [].
Lemma at_initial : at_reading (Reading false false false false [] [] false []) [] initial.
Proof. by repeat split. Qed.
Lemma marks_tail nosymbol export_file file :
  Forall (λ a, no_dash a = true) nosymbol → Forall (λ a, no_dash a = true) export_file →
  no_dash file = true →
  marks kd (flat_map (λ i, ["-nosymbol"; i]) nosymbol
            ++ flat_map (λ f, ["-export-file"; f]) export_file ++ [file])
  = Ok (values_of "-nosymbol" nosymbol ++ values_of "-export-file" export_file ++ [(file, MarkA)]).
Proof.
  intros Hn Hx Hf. apply marks_values; [listed|done|]. apply marks_values; [listed|done|].
  by apply marks_word.
Qed.

(** The words of a logged command are read as they are meant. *)
Lemma kernel_doc_reads options nosymbol export_file file :
  Forall (λ a, no_dash a = true) (s_symbol (select options)) →
  Forall (λ a, no_dash a = true) nosymbol → Forall (λ a, no_dash a = true) export_file →
  no_dash file = true →
  parse_args kd no_subcommand
    (["-rst"; "-enable-lineno"] ++ s_cmd (select options)
     ++ flat_map (λ i, ["-nosymbol"; i]) nosymbol ++ flat_map (λ f, ["-export-file"; f]) export_file ++ [file])
  = Ok (ns_of (upd_list "-export-file" export_file
                 (upd_list "-nosymbol" nosymbol (of_selection (select options)))) (VList [file])).
Proof.
  intros Hs Hn Hx Hf.
  destruct (parse_marked options nosymbol export_file file initial Hs at_initial)
    as (m & Hm & s' & taken' & Hl & Hr).
  destruct (file_taken _ _ s' file Hr) as (s2 & Hc & <- & Hex & Hun & _ & Hseen); [by intros ->|].
  apply (parse_args_run kd no_subcommand _ _ s' _ s2 (Hm _ _ (marks_tail _ _ _ Hn Hx Hf)) Hl Hc).
  - apply nothing_converted.
  - by apply files_required.
  - done.
  - done.
Qed.

(** ** Any arguments *)

Definition is_flag (o : optional) : bool := match act o with StoreTrue => true | _ => false end.
Definition is_append (o : optional) : bool := match act o with Append => true | _ => false end.
Lemma is_filtered (P : optional → bool) l name : name ∈ map dest (List.filter P l) →
  ∃ o, o ∈ l ∧ P o = true ∧ dest o = name.
Proof.
  intros (o & -> & Ho)%list_elem_of_fmap. apply list_elem_of_In, filter_In in Ho as [Ho HP].
  exists o. split; [by apply list_elem_of_In|done].
Qed.

(** C16 Whatever the words of the command line, [kernel-doc] either has all its
    arguments, each with a value of the type it is used with, or it ends with the
    status of an error or of [--help]; nothing else is raised. *)
Theorem kernel_doc_arguments argv :
  match parse_args kernel_doc_parser no_subcommand argv with
  | Ok args =>
      (∀ name, name ∈ ["verbose"; "debug"; "enable_lineno"; "wreturn"; "wshort_desc";
          "wcontents_before_sections"; "wall"; "werror"; "man"; "rst"; "none"; "kdoc_item"; "export";
          "internal"; "no_doc_sections"] → ∃ b, dget args name = Some (VBool b)) ∧
      (∀ name, name ∈ ["modulename"; "yaml_file"] →
         dget args name = Some VNone ∨ ∃ s, dget args name = Some (VStr s)) ∧
      (∀ name, name ∈ ["export_file"; "symbol"; "nosymbol"] →
         dget args name = Some VNone ∨ ∃ l, l ≠ [] ∧ dget args name = Some (VList l)) ∧
      ∃ files, dget args "files" = Some (VList files)
  | Raise e => e = Exit 2 ∨ e = Exit 0
  end.
Proof.
  assert (NoDup (map dest (optionals kd) ++ map pos_dest (positionals kd))) as Hn.
  { apply (bool_decide_unpack _). vm_compute. exact I. }
  pose proof (parse_args_ok kd no_subcommand Hn ltac:(done) argv) as H.
  destruct (parse_args kd no_subcommand argv) as [args|e]; [|done].
  destruct H as [H1 H2]; [by apply Forall_singleton|]. split; [|split; [|split]].
  - intros name Hname. apply (is_filtered is_flag (optionals kd)) in Hname as (o & Ho & Hf & <-).
    unfold is_flag in Hf. destruct (act o) eqn:Ea; try done.
    destruct (H1 o Ho) as (v & -> & [Hv|[-> _]]); [by rewrite Ea| |].
    + unfold fits in Hv. rewrite Ea in Hv. subst v. by eexists.
    + assert (Forall (λ o, is_flag o = true → ∃ b, dflt o = VBool b) (optionals kd)) as HF
        by (repeat constructor; intros ?; (done || by eexists)).
      destruct (proj1 (Forall_forall _ _) HF o Ho) as [b ->]; [unfold is_flag; by rewrite Ea|eauto].
  - intros name Hname.
    assert (∃ o, o ∈ optionals kd ∧ dest o = name ∧ act o = Store plain_str ∧ dflt o = VNone)
      as (o & Ho & <- & Ea & Ed).
    { rewrite !elem_of_cons, elem_of_nil in Hname. destruct Hname as [->|[->|[]]].
      - exists (store ["-M"; "-modulename"; "--modulename"] "modulename").
        split; [by apply (list_elem_of_lookup_2 _ 3)|done].
      - exists (store ["-y"; "--yaml-file"; "--yaml"] "yaml_file").
        split; [by apply (list_elem_of_lookup_2 _ 14)|done]. }
    destruct (H1 o Ho) as (v & -> & [Hv|[-> _]]); [by rewrite Ea| |left; by rewrite Ed].
    unfold fits in Hv. rewrite Ea in Hv. destruct Hv as [s [= <-]]. eauto.
  - intros name Hname. apply (is_filtered is_append (optionals kd)) in Hname as (o & Ho & Hf & <-).
    unfold is_append in Hf. destruct (act o) eqn:Ea; try done.
    destruct (H1 o Ho) as (v & -> & [Hv|[-> _]]); [by rewrite Ea| |].
    + unfold fits in Hv. rewrite Ea in Hv. destruct Hv as (l & Hl & ->). eauto.
    + left. assert (Forall (λ o, is_append o = true → dflt o = VNone) (optionals kd)) as HF
        by (repeat constructor; done).
      rewrite (proj1 (Forall_forall _ _) HF o Ho); [done|unfold is_append; by rewrite Ea].
  - destruct (H2 (Positional "files" Several)) as (v & Hv & [[l ->]|[_ Hr]]); [by left|by exists l|done].
Qed.

(** ** The run *)

Section Run.
Context (fs : string → option node) (read : string → option string).

(** Without a test file, and nothing output yet. *)
Definition no_output (k : KernelFiles) : Prop := kf_test_file k = None ∧ kf_yielded k = [].
Definition no_output_with (results : dict (list KdocItem)) (k : KernelFiles) : Prop :=
  no_output k ∧ kf_results k = results.

Lemma no_output_exports results export_file srctree :
  keeps (no_output_with results)
    (for_each (parse_files fs c_extensions srctree export_file) (consume process_export_file)).
Proof.
  apply keeps_for_each. intros [f|f]; cbn [consume].
  - unfold process_export_file. apply keeps_bind; [apply keeps_gets|]. intros done_.
    destruct (smem f done_); [apply keeps_ret|apply keeps_raise].
  - by apply keeps_modify.
Qed.
Lemma parse_fresh file export_file k0 k r :
  no_output k0 → kf_files k0 = [] → kf_results k0 = [] →
  files_of fs c_extensions (kf_src_tree k0) file = [Yield file] →
  parse fs read [file] export_file k0 = (k, r) →
  no_output k ∧ (r = Ok tt → dkeys (kf_results k) = [file]).
Proof.
  intros [Ht Hy] Hf Hr Hfile. unfold parse, mbind, ST_bind at 1, gets. cbv zeta.
  assert (parse_files fs c_extensions (kf_src_tree k0) [file] = [Yield file]) as ->.
  { unfold parse_files. cbn [flat_map]. by rewrite Hfile. }
  cbn [for_each consume].
  unfold parse_file. run_ST. rewrite Hf. rewrite smem_false by apply not_elem_of_nil.
  destruct (parse_kdoc _ _) as [doc [exports|e]]; [|by intros [= <- <-]].
  set (k1 := add_results _ _ _ _).
  pose proof (no_output_exports (kf_results k1) export_file (kf_src_tree k0) k1) as Hk.
  intros H. unfold ST in Hk. rewrite H in Hk. cbn [fst] in Hk.
  destruct Hk as [Hno Hres]; [by repeat split|]. split; [done|]. intros _. rewrite Hres.
  unfold k1. cbn [add_results kf_results upd_messages]. by rewrite Hr.
Qed.

Lemma no_output_add_exports export_file : keeps (λ k, kf_test_file k = None) (add_exports fs export_file).
Proof.
  unfold add_exports. apply keeps_bind; [apply keeps_gets|]. intros t.
  apply keeps_for_acc. intros table [f|f].
  - apply keeps_bind; [apply keeps_gets|]. intros e. apply keeps_bind; [apply keeps_lift|]. intros x.
    apply keeps_ret.
  - apply keeps_bind; [by apply keeps_modify|]. intros _. apply keeps_ret.
Qed.
(** Without a test file the date does not matter. *)
Lemma msg_file_date out_symbols date date' a export_file fname k : kf_test_file k = None →
  msg_file fs out_symbols date a export_file fname k = msg_file fs out_symbols date' a export_file fname k.
Proof.
  intros Hk. unfold msg_file. cbv zeta. set (ef := if a_internal a || a_export a then _ else export_file).
  set (m := if a_internal a || a_export a then add_exports fs ef else mret []).
  assert (keeps (λ k, kf_test_file k = None) m) as Hm.
  { unfold m. destruct (_ || _); [apply no_output_add_exports|apply keeps_ret]. }
  specialize (Hm k Hk). unfold mbind, ST_bind. destruct (m k) as [k' [table|e]]; [|done].
  cbn [fst] in Hm. unfold gets. destruct (dget (kf_results k') fname) as [symbols|]; [|done].
  unfold msg_symbols, mbind, ST_bind, gets. by rewrite Hm.
Qed.
Lemma msg_same out_symbols date date' a export_file file k :
  kf_test_file k = None → dkeys (kf_results k) = [file] →
  msg fs out_symbols date a [] export_file k = msg fs out_symbols date' a [file] export_file k.
Proof.
  intros Ht Hk. unfold msg, mbind, ST_bind at 1 3, gets. rewrite Hk.
  change (sort_by id [file]) with [file]. cbn [for_acc]. unfold mbind, ST_bind at 1 2 4 5.
  by rewrite (msg_file_date out_symbols date date' a export_file file k Ht).
Qed.

(** What is output is the text of the file asked for. *)
Definition only_yields (file : string) (k : KernelFiles) : Prop :=
  Forall (λ y, fst y = file) (kf_yielded k).
Lemma on_style_yields {A} file (m : Out A) : keeps (only_yields file) (on_style m).
Proof. intros k Hk. unfold on_style. by destruct (m (kf_out_style k)). Qed.
Lemma add_exports_yields file export_file : keeps (only_yields file) (add_exports fs export_file).
Proof.
  unfold add_exports. apply keeps_bind; [apply keeps_gets|]. intros t.
  apply keeps_for_acc. intros table [f|f].
  - apply keeps_bind; [apply keeps_gets|]. intros e. apply keeps_bind; [apply keeps_lift|]. intros x.
    apply keeps_ret.
  - apply keeps_bind; [by apply keeps_modify|]. intros _. apply keeps_ret.
Qed.
Lemma msg_symbols_yields out_symbols date a file symbols table :
  keeps (only_yields file) (msg_symbols out_symbols date a file symbols table).
Proof.
  unfold msg_symbols. apply keeps_bind; [apply keeps_gets|]. intros [t|].
  - intros k Hk. unfold store_tests. by destruct (yaml_output_symbols _ _ _ _) as [[t' s'] r].
  - apply keeps_bind; [apply on_style_yields|]. intros _. apply keeps_bind; [apply on_style_yields|].
    intros text. apply keeps_when, keeps_modify. intros k Hk. unfold only_yields.
    cbn [upd_yielded kf_yielded]. apply Forall_app. split; [exact Hk|by apply Forall_singleton].
Qed.
Lemma msg_yields out_symbols date a export_file file :
  keeps (only_yields file) (msg fs out_symbols date a [file] export_file).
Proof.
  unfold msg. apply keeps_bind; [apply keeps_gets|]. intros results. cbv zeta. cbn [for_acc].
  apply keeps_bind; [|intros _; apply keeps_bind; [apply keeps_gets|]].
  - apply keeps_bind; [|intros ef; apply keeps_ret]. unfold msg_file. cbv zeta. apply keeps_bind.
    { destruct (_ || _); [apply add_exports_yields|apply keeps_ret]. }
    intros table. apply keeps_bind; [apply keeps_gets|]. intros res.
    apply keeps_bind; [|intros _; apply keeps_ret].
    destruct (dget res file); [apply msg_symbols_yields|by apply keeps_modify].
  - intros [t|]; [by apply keeps_modify|apply keeps_ret].
Qed.

(** An empty list of names and none are the same to [msg]. *)
Lemma msg_no_names out_symbols date l e i s n d files export_file :
  msg fs out_symbols date (MsgArgs l e i (as_list [("", appended s)] "") (as_list [("", appended n)] "") d)
    files export_file
  = msg fs out_symbols date (MsgArgs l e i (Some s) (Some n) d) files export_file.
Proof. by destruct s, n. Qed.

(** The command, for what has been read. *)
Context (zones : list string) (tstamp : option string) (now : datetime) (python_ver : list Z).
Abbreviation date := (ManFormat.man_date zones tstamp now).
Context (kbuild_verbose kcflags kdoc_werror env_srctree : option string).
Context (has_yaml : bool) (home : string → option string) (isdir : string → bool).
Lemma run_main_eq r file : ver_le [3; 6]%Z python_ver = true → r_rst r = true →
  run_main fs read zones tstamp now python_ver kbuild_verbose kcflags kdoc_werror env_srctree has_yaml home isdir
    (options_of (ns_of r (VList [file])))
  = let '(k, res) :=
      (parse fs read [file] (r_export_file r) ;;
       msg fs rest_output date
         (MsgArgs (r_enable_lineno r) (r_export r) (r_internal r) (Some (r_symbol r))
            (Some (r_nosymbol r)) (r_no_doc_sections r)) [] (r_export_file r))
      (setup_kfiles kbuild_verbose kcflags kdoc_werror env_srctree) in
    (map snd (kf_yielded k), match res with Ok _ => Ok (Status 0) | Raise e => Raise e end).
Proof.
  intros Hv Ht. rewrite <- msg_no_names. unfold run_main. rewrite Hv. cbn [negb].
  destruct r as [l t e i s n d x]. cbn in Ht. subst t.
  set (o := options_of _).
  change (choose_style o) with (Some RestStyle).
  change (main_object kbuild_verbose kcflags kdoc_werror env_srctree has_yaml home isdir o)
    with (Ok (setup_kfiles kbuild_verbose kcflags kdoc_werror env_srctree)).
  assert (o_export_file o = x) as -> by by destruct x.
  change (o_files o) with [file]. cbn [r_export_file].
  change (main_msg_args o) with (MsgArgs l e i (as_list [("", appended s)] "") (as_list [("", appended n)] "") d).
  change (style_symbols zones tstamp now RestStyle) with rest_output.
  cbn [r_enable_lineno r_export r_internal r_symbol r_nosymbol r_no_doc_sections].
  match goal with |- context [mbind ?f ?m ?k0] => destruct (mbind f m k0) as [k [[]|err]] end; [|done].
  unfold finish_main. change (o_werror o) with false. change (o_verbose o) with false.
  destruct (total_errors k =? 0); by rewrite app_nil_r.
Qed.

(** ** The directive *)

Context (glob : string → list string) (abspath : string → string).
Context (srctree srcdir docname : string) (lineno : nat).
Context {N : Type} (string2lines : string → list string).
Context (nested_parse : list vline → res (list N)).

(** The nodes of some texts output for a file. *)
Fixpoint nodes_of (file : string) (texts : list string) : res (list N) :=
  match texts with
  | [] => Ok []
  | out :: texts =>
      match parse_msg srcdir docname lineno string2lines nested_parse file out with
      | Raise e => Raise e
      | Ok new => match nodes_of file texts with Ok l => Ok (new ++ l) | Raise e => Raise e end
      end
  end.
Definition collect (nodes : list N) (y : string * string) : ST KernelFiles (list N) :=
  let '(filename, out) := y in
  new ← lift_res (parse_msg srcdir docname lineno string2lines nested_parse filename out);
  mret (nodes ++ new).
Lemma nodes_of_yields file l : ∀ acc k, Forall (λ y, fst y = file) l →
  snd (for_acc l acc collect k)
  = match nodes_of file (map snd l) with Ok nodes => Ok (acc ++ nodes) | Raise e => Raise e end.
Proof.
  induction l as [|[f out] l IH]; intros acc k HF; [by cbn; rewrite app_nil_r|].
  apply Forall_cons in HF as [Hf HF]. cbn in Hf. subst f. cbn [for_acc map snd nodes_of].
  unfold mbind, ST_bind at 1. unfold collect at 1, mbind, ST_bind at 1, lift_res.
  destruct (parse_msg srcdir docname lineno string2lines nested_parse file out) as [new|e]; [|done].
  change (@mret (ST KernelFiles) ST_ret (list N) (acc ++ new) k) with (k, @Ok (list N) (acc ++ new)).
  cbv beta iota. rewrite IH by done. destruct (nodes_of _ _); [|done]. by rewrite <- app_assoc.
Qed.

(** The nodes of the directive are those of what the command prints. *)
Lemma run_kdoc_eq file export_file margs has_export k0 :
  no_output k0 → kf_files k0 = [] → kf_results k0 = [] →
  files_of fs c_extensions (kf_src_tree k0) file = [Yield file] →
  (has_export = false → export_file = []) →
  let a := RunArgs [] [file] export_file margs has_export [] in
  let '(k, r) := (parse fs read [file] export_file ;; msg fs rest_output date margs [] export_file) k0 in
  snd (run_kdoc fs read srcdir docname lineno string2lines nested_parse a k0)
  = match r with Ok _ => nodes_of file (map snd (kf_yielded k)) | Raise e => Raise e end.
Proof.
  intros Hno Hf Hr Hfile Hx a. unfold run_kdoc, a. cbn [d_file_list d_export_file d_msg_export d_msg].
  unfold mbind, ST_bind.
  destruct (parse fs read [file] export_file k0) as [k1 [[]|e]] eqn:Hp; [|done].
  destruct (parse_fresh file export_file k0 k1 _ Hno Hf Hr Hfile Hp) as [[Ht Hy] Hk]. specialize (Hk eq_refl).
  unfold gets. rewrite Hy.
  replace (if has_export then export_file else []) with export_file
    by (destruct has_export; [done|by rewrite Hx]).
  rewrite (msg_same rest_output date "" margs export_file file k1 Ht Hk).
  pose proof (msg_yields rest_output "" margs export_file file k1) as Hys.
  destruct (msg fs rest_output "" margs [file] export_file k1) as [k2 [[]|e]]; [|done].
  cbn [fst length drop] in *. unfold mbind, ST_bind in *.
  etrans; [apply (nodes_of_yields file)|by destruct (nodes_of _ _)].
  apply Hys. unfold only_yields. by rewrite Hy.
Qed.

Lemma no_patterns argument options :
  let a := handle_args glob abspath srctree argument options in
  d_msg_export a = false → d_export_file a = [].
Proof.
  unfold handle_args. cbn [d_msg_export d_export_file].
  by destruct (clean_names (s_patterns (select (alias options)))).
Qed.

(** The values given to options, and the file. *)
Definition values_given (a : run_args) : list string :=
  default [] (a_symbol (d_msg a)) ++ default [] (a_nosymbol (d_msg a)) ++ d_export_file a ++ d_file_list a.

(** The command prints what a new object gives. *)
Lemma command_reproduces argument options :
  let a := handle_args glob abspath srctree argument options in
  let file := srctree +:+ "/" +:+ argument in
  let nodes := snd (run_kdoc fs read srcdir docname lineno string2lines nested_parse a
                      (setup_kfiles kbuild_verbose kcflags kdoc_werror env_srctree)) in
  Forall (λ w, shell_word w = true) (d_cmd a) → Forall (λ w, no_dash w = true) (values_given a) →
  files_of fs c_extensions env_srctree file = [Yield file] → ver_le [3; 6]%Z python_ver = true →
  ∃ argv, sh_words Plain None (cmd_str (d_cmd a)) = Some (kerneldoc_bin :: argv) ∧
  match main fs read zones tstamp now python_ver kbuild_verbose kcflags kdoc_werror env_srctree has_yaml home isdir argv with
  | (printed, Ok status) => status = Status 0 ∧ nodes = nodes_of file printed
  | (_, Raise e) => nodes = Raise e
  end.
Proof.
  cbv zeta. intros Hsh Hv Hfile Hpy. unfold values_given in Hv.
  apply Forall_app in Hv as [Hs [Hn [Hx Hf]%Forall_app]%Forall_app].
  set (a := handle_args glob abspath srctree argument options) in *.
  exists (drop 1 (d_cmd a)). split; [exact (sh_cmd_str _ _ Hsh)|].
  unfold main. change (drop 1 (d_cmd a)) with
    (["-rst"; "-enable-lineno"] ++ s_cmd (select (alias options))
     ++ flat_map (λ i, ["-nosymbol"; i]) (default [] (a_nosymbol (d_msg a)))
     ++ flat_map (λ f, ["-export-file"; f]) (d_export_file a) ++ [srctree +:+ "/" +:+ argument]).
  rewrite kernel_doc_reads by (done || exact (proj1 (Forall_singleton _ _) Hf)).
  rewrite run_main_eq by done.
  set (sel := select (alias options)). set (r := upd_list _ _ _).
  assert (r = Reading true true (s_export sel) (s_internal sel) (s_symbol sel)
                (default [] (a_nosymbol (d_msg a))) (s_no_doc_sections sel) (d_export_file a)) as -> by done.
  pose proof (run_kdoc_eq (srctree +:+ "/" +:+ argument) (d_export_file a) (d_msg a) (d_msg_export a)
    (setup_kfiles kbuild_verbose kcflags kdoc_werror env_srctree)
    ltac:(done) eq_refl eq_refl Hfile (no_patterns argument options)) as H.
  cbv zeta in H.
  match type of H with context [mbind ?f ?m ?k0] => set (run := mbind f m k0) in * end.
  change (let '(k, r) := run in
    snd (run_kdoc fs read srcdir docname lineno string2lines nested_parse a
           (setup_kfiles kbuild_verbose kcflags kdoc_werror env_srctree))
    = match r with Ok _ => nodes_of (srctree +:+ "/" +:+ argument) (map snd (kf_yielded k))
      | Raise e => Raise e end) in H.
  match goal with |- context [mbind ?f ?m ?k0] => change (mbind f m k0) with run end.
  destruct run as [k [[]|e]]; [by split|done].
Qed.

Context (pformat : exn → string).
(** C13 The command line that a directive logs reproduces its output, for any
    directive of the build: [k] is the object that they share, in any state that
    earlier directives, of any documents, have left.  Read by a shell, then by the
    argument parser of [kernel-doc], the line runs the command to print exactly the
    texts from which the directive makes its nodes, or to end with the same
    exception.  This holds unless earlier directives have left a line prefix, names
    to exclude where this directive has none of its own, or the results of a file
    that it asks for exports; for words without characters special to the shell
    other than blanks, values that do not begin with a dash, and a file that is
    there. *)
Theorem logged_command_reproduces argument options k :
  served fs read kbuild_verbose kcflags kdoc_werror env_srctree glob abspath srctree srcdir (N := N)
    string2lines pformat k →
  let a := handle_args glob abspath srctree argument options in
  let file := srctree +:+ "/" +:+ argument in
  let nodes := snd (run_kdoc fs read srcdir docname lineno string2lines nested_parse a k) in
  leak_free a (kf_out_style k) → no_known_export fs env_srctree file a k →
  Forall (λ w, shell_word w = true) (d_cmd a) → Forall (λ w, no_dash w = true) (values_given a) →
  files_of fs c_extensions env_srctree file = [Yield file] → ver_le [3; 6]%Z python_ver = true →
  ∃ argv, sh_words Plain None (cmd_str (d_cmd a)) = Some (kerneldoc_bin :: argv) ∧
  match main fs read zones tstamp now python_ver kbuild_verbose kcflags kdoc_werror env_srctree has_yaml home isdir argv with
  | (printed, Ok status) => status = Status 0 ∧ nodes = nodes_of file printed
  | (_, Raise e) => nodes = Raise e
  end.
Proof.
  cbv zeta. intros Hk%served_ok [Hp Hn] Hx Hsh Hv Hfile Hpy.
  set (a := handle_args glob abspath srctree argument options) in *. set (file := srctree +:+ "/" +:+ argument) in *.
  assert (snd (run_kdoc fs read srcdir docname lineno string2lines nested_parse a k)
    = snd (run_kdoc fs read srcdir docname lineno string2lines nested_parse a
             (setup_kfiles kbuild_verbose kcflags kdoc_werror env_srctree))) as ->.
  { pose proof (run_kdoc_shared fs read kbuild_verbose kcflags kdoc_werror env_srctree srcdir docname lineno
      string2lines nested_parse a file) as H.
    rewrite !H; try done; try apply no_patterns; [|apply made_ok|intros f _; right; apply not_elem_of_nil].
    f_equal. by apply output_of_filters. }
  exact (command_reproduces argument options Hsh Hv Hfile Hpy).
Qed.
End Run.

(** *** A concrete document *)

Definition logged_options : dict string := [("identifiers", "foo"); ("no-identifiers", "bar baz\")].
Definition epoch : datetime := Datetime 1970 0 1 0 0 0 None.
Definition main_here (argv : list string) : list string * res exit_status :=
  main src_files src_texts [] (Some "2024-05-01") epoch [3; 12]%Z None None None None true (λ _, None) (λ _, false) argv.
(** The object after a directive of another document, which has left an excluded
    name. *)
Definition used_object : KernelFiles :=
  fst (run_arguments src_files src_texts (λ f, [f]) no_dir "." "doc" "other" 7 lines_of (λ _, "") Ok None
         ["foo.c"] [("no-identifiers", "qux")] (setup_kfiles None None None None)).
Lemma logged_command_reproduces_witness :
  let a := handle_args (λ f, [f]) no_dir "." "foo.c" logged_options in
  kf_files used_object = ["./foo.c"] ∧ of_nosymbol (kf_out_style used_object) = ["qux"] ∧
  cmd_str (d_cmd a) = "tools/docs/kernel-doc -rst -enable-lineno -function foo -nosymbol bar -nosymbol baz ./foo.c" ∧
  ∃ argv, sh_words Plain None (cmd_str (d_cmd a)) = Some (kerneldoc_bin :: argv) ∧
  match main_here argv with
  | (printed, Ok status) => status = Status 0 ∧
      snd (run_kdoc src_files src_texts "doc" "index" 1 lines_of Ok a used_object)
      = nodes_of "doc" "index" 1 lines_of Ok "./foo.c" printed
  | (_, Raise e) => False
  end.
Proof.
  cbv zeta. split; [vm_compute; reflexivity|]. split; [vm_compute; reflexivity|]. split; [vm_compute; reflexivity|].
  destruct (logged_command_reproduces src_files src_texts [] (Some "2024-05-01") epoch [3; 12]%Z None None None None true
    (λ _, None) (λ _, false) (λ f, [f]) no_dir "." "doc" "index" 1 lines_of Ok (λ _, "") "foo.c" logged_options
    used_object)
    as (argv & Hsh & Hrun).
  - apply served_directive, served_start.
  - split; [vm_compute; reflexivity|]. left. vm_compute. reflexivity.
  - intros f Hf. by apply not_elem_of_nil in Hf.
  - apply (bool_decide_unpack _). vm_compute. exact I.
  - apply (bool_decide_unpack _). vm_compute. exact I.
  - vm_compute. reflexivity.
  - vm_compute. reflexivity.
  - exists argv. split; [exact Hsh|].
    assert (argv = ["-rst"; "-enable-lineno"; "-function"; "foo"; "-nosymbol"; "bar"; "-nosymbol"; "baz"; "./foo.c"])
      as ->.
    { clear Hrun. revert Hsh. vm_compute. by intros [= <-]. }
    unfold main_here. revert Hrun.
    destruct (main _ _ _ _ _ _ _ _ _ _ _ _ _ _) as [printed [status|e]] eqn:E; [done|].
    exfalso. clear Hsh. revert E. vm_compute. discriminate.
Defined.
