(* ===== verification/Tools.v ===== *)
(** * Tools: the smaller tools around the documentation

    [latex_fonts.py] with [check-variable-fonts.py], [enrich_formatter.py] and
    [generate_rst.py].  What [fc-list] prints, the file system and the terminal
    are parameters. *)

From S2P Require Import Prelude PyStr PyNum PyPath PyRe PyReSyntax PyReTheory Argparse KdocFiles.

(** ** Fonts that XeTeX cannot use *)

Module LatexFonts.
Definition re_cjk : pattern := compiled no_flags "([^:]+):\s*Noto\s+(Sans|Sans Mono|Serif) CJK".

(** [__init__]: [XDG_CONFIG_HOME] for the call of [fc-list]. *)
Definition config_home (home : string → option string) (deny_vf fonts_conf_deny_vf : option string)
    : string :=
  expanduser home (if given_str deny_vf then default "" deny_vf
                   else default "~/deny-vf" fonts_conf_deny_vf).

(** The font a line of [fc-list] tells of, when it is one of those. *)
Definition cjk_font (line : string) : option string :=
  if str_in "variable=True" line then (λ m, group_or m 1) <$> re_search re_cjk line else None.
(** [get_noto_cjk_vf_fonts()]; [fc_list] is the output of the command, or what is
    shown of its failure. *)
Definition get_noto_cjk_vf_fonts (fc_list : string + string) : res (list string) :=
  match fc_list with
  | inr exc => Raise (SystemExit ("Error running fc-list: " +:+ exc))
  | inl stdout =>
      Ok (sort_by id (fold_left (λ fonts line,
            match cjk_font line with Some f => set_add fonts f | None => fonts end)
          (splitlines stdout) []))
  end.

(** [check()] *)
Definition advice : string := join nl [
  "";
  "For CJK pages in PDF, they need to be hidden from XeTeX by denylisting.";
  "Or, CJK pages can be skipped by uninstalling texlive-xecjk.";
  "";
  "For more info on denylisting, other options, and variable font, run:";
  "";
  "    tools/docs/check-variable-fonts.py -h";
  ""].
Definition check (fc_list : string + string) : res (option string) :=
  match get_noto_cjk_vf_fonts fc_list with
  | Raise e => Raise e
  | Ok found =>
      let fonts := indent "    " (join nl found) in
      if (fonts =? "")%string then Ok None
      else Ok (Some (str_mul 77 "=" +:+ nl
                     +:+ "XeTeX is confused by " +:+ quote +:+ "variable font" +:+ quote
                     +:+ " files listed below:" +:+ nl +:+ fonts +:+ nl +:+ advice +:+ str_mul 77 "="))
  end.
(** The script: what it prints, its status being always 1; [fc_list] is run with
    the given [XDG_CONFIG_HOME]. *)
Definition check_variable_fonts_parser : parser :=
  Parser [help_option; store ["--deny-vf"] "deny_vf"] [] [] [].
Definition check_variable_fonts (fc_list : string → string + string) (home : string → option string)
    (fonts_conf_deny_vf : option string) (argv : list string) : res (list string * nat) :=
  match parse_args check_variable_fonts_parser no_subcommand argv with
  | Raise e => Raise e
  | Ok args =>
      match check (fc_list (config_home home (as_str args "deny_vf") fonts_conf_deny_vf)) with
      | Raise e => Raise e
      | Ok (Some msg) => Ok ([msg], 1)
      | Ok None => Ok ([], 1)
      end
  end.

(** *** Properties *)

Lemma fonts_in lines : ∀ acc f,
  f ∈ fold_left (λ fonts line,
        match cjk_font line with Some f => set_add fonts f | None => fonts end) lines acc
  ↔ f ∈ acc ∨ ∃ line, line ∈ lines ∧ cjk_font line = Some f.
Proof.
  induction lines as [|l lines IH]; intros acc f; cbn [fold_left].
  - split; [by left|]. intros [H|(x & Hx%elem_of_nil & _)]; done.
  - rewrite IH. setoid_rewrite elem_of_cons. destruct (cjk_font l) as [g|] eqn:E.
    + rewrite set_add_in. split.
      * intros [[->|H]|(x & Hx & Hf)]; [right; exists l; eauto|by left|right; exists x; eauto].
      * intros [H|(x & [->|Hx] & Hf)]; [left; by right|left; left; congruence|right; eauto].
    + split.
      * intros [H|(x & Hx & Hf)]; [by left|right; exists x; eauto].
      * intros [H|(x & [->|Hx] & Hf)]; [by left|congruence|right; eauto].
Qed.
Lemma fonts_nodup lines : ∀ acc, NoDup acc →
  NoDup (fold_left (λ fonts line,
        match cjk_font line with Some f => set_add fonts f | None => fonts end) lines acc).
Proof.
  induction lines as [|l lines IH]; intros acc H; cbn [fold_left]; [done|]. apply IH.
  destruct (cjk_font l); [by apply set_add_nodup|done].
Qed.

Lemma fonts_spec stdout : ∃ fonts, get_noto_cjk_vf_fonts (inl stdout) = Ok fonts ∧
  Sorted (key_le id) fonts ∧ NoDup fonts ∧
  ∀ f, f ∈ fonts ↔ ∃ line, line ∈ splitlines stdout ∧ cjk_font line = Some f.
Proof.
  eexists. split; [reflexivity|]. split; [apply sort_by_sorted|]. split.
  - rewrite sort_by_perm. apply fonts_nodup. constructor.
  - intros f. rewrite sort_by_perm, fonts_in, elem_of_nil. split; [by intros [|]|by right].
Qed.
End LatexFonts.

(** ** Help texts *)

Module EnrichFormatter.
Definition ESC : string := String "027" "[".
Definition re_literal : pattern := compiled no_flags "\`\`(.+?)\`\`".
(** [enrich_text(text)]; [tty] is [self._tty]. *)
Definition enrich_text (tty : bool) (text : string) : string :=
  if tty && negb (text =? "")%string
  then re_sub_with re_literal (λ m, ESC +:+ "1m" +:+ group_or m 1 +:+ ESC +:+ "0m") text 0
  else text.
(** [_fill_text(text, width, indent)] *)
Definition _fill_text (tty : bool) (text indent : string) : string :=
  join nl (map (λ line, indent +:+ line) (splitlines (enrich_text tty text))).

(** An action of [argparse]: its options, whether [nargs] differs from 0, and its
    name. *)
Record action := Action { option_strings : list string; takes_values : bool; dest : string }.
Definition usage_part (tty : bool) (a : action) : string :=
  match option_strings a with
  | opt :: _ =>
      "[" +:+ opt +:+ (if takes_values a then " " +:+ str_upper (dest a) else "") +:+ "]"
  | [] => enrich_text tty ("``" +:+ str_upper (dest a) +:+ "``")
  end.
(** [_format_usage(usage, actions, groups, prefix)] *)
Definition _format_usage (tty : bool) (prog : string) (actions : list action) (prefix : string) : string :=
  (if (prefix =? "")%string then "usage: " else prefix) +:+ " " +:+ prog +:+ " "
  +:+ join " " (map (usage_part tty) actions) +:+ nl.
(** [_format_action_invocation(action)] *)
Definition _format_action_invocation (tty : bool) (a : action) : string :=
  match option_strings a with
  | [] => enrich_text tty ("``" +:+ str_upper (dest a) +:+ "``")
  | options => join ", " options
  end.
End EnrichFormatter.

(** ** The pages of the project *)

Module GenerateRst.
(** The folders, for the file of the script. *)
Section Folders.
Context (cwd file : string).
Definition ROOT : string := dirname (abspath cwd file).
Definition WISP_PATH : string := abspath cwd (path_join (path_join ROOT "..") "wisp").
Definition SPHINX_DIR : string := path_join ROOT "sphinx".
End Folders.
Definition IGNORED_DIRECTORIES : list string := ["build"; "build-tsan"].

(** What [os.walk] counts as a folder; it does not follow the links. *)
Definition is_folder (e : node) : bool := match e with Dir _ | DirLink => true | _ => false end.
(** The loop of [find_sources] over [os.walk]. *)
Fixpoint walk (relative : string → string) (dirpath : string) (d : node) {struct d} : list string :=
  match d with
  | Dir entries =>
      map (λ f, relative (path_join dirpath f))
        (filter (λ f, endswith ".c" f || endswith ".h" f)
          (sort_by id (flat_map (λ e, if is_folder (snd e) then [] else [fst e]) entries)))
      ++ flat_map (λ '(n, e),
           match e with
           | Dir _ => if smem n IGNORED_DIRECTORIES then [] else walk relative (path_join dirpath n) e
           | _ => []
           end) entries
  | _ => []
  end.
(** [find_sources(subdir)]; [os.sep] is the slash already. *)
Definition find_sources (cwd wisp_path subdir : string) (d : node) : list string :=
  sort_by id (walk (λ p, relpath cwd p wisp_path) subdir d).

(** [write_page(path, title, sources)]: the text written. *)
Definition page_text (title : string) (sources : list string) : string :=
  title +:+ nl +:+ str_mul (String.length title) "=" +:+ nl +:+ nl
  +:+ sconcat (map (λ src, ".. kernel-doc:: " +:+ src +:+ nl) sources).
(** [main()]: the pages written; [fs] gives the tree of a folder. *)
Definition main (cwd file : string) (fs : string → node) : list (string * string) :=
  let page (name title sub : string) :=
    let dir := path_join (WISP_PATH cwd file) sub in
    (path_join (SPHINX_DIR cwd file) name, page_text title (find_sources cwd (WISP_PATH cwd file) dir (fs dir))) in
  [page "wisp_protocol.rst" "Wisp Protocol" "protocol";
   page "wisp_server.rst" "Wisp Server" "server";
   page "wisp_client_sdk.rst" "Wisp Client SDK" "client_sdk"].
End GenerateRst.
