(* ===== verification/ToolsSpec.v ===== *)
(** * ToolsSpec: what the smaller tools promise *)

From S2P Require Import Prelude PyStr PyNum PyPath PyRe PyReSyntax PyReTheory KdocFiles KdocFilesSpec.
From S2P Require Import Directive Tools.

(** ** Sources of the project *)

Section Sources.
Context (ignored : list string).
(** The C files below a folder, outside the ignored folders; [comps] is the path
    from the folder. *)
Inductive source_below : node → list string → Prop :=
| source_here entries n e :
    (n, e) ∈ entries → GenerateRst.is_folder e = false → (endswith ".c" n || endswith ".h" n) = true →
    source_below (Dir entries) [n]
| source_deeper entries n sub comps :
    (n, Dir sub) ∈ entries → smem n ignored = false →
    source_below (Dir sub) comps → source_below (Dir entries) (n :: comps).
End Sources.

(** The names of a tree are components. *)
Inductive plain_tree : node → Prop :=
| plain_file : plain_tree File
| plain_link : plain_tree DirLink
| plain_other : plain_tree Other
| plain_dir entries :
    Forall (λ e, plain_comp (fst e) ∧ plain_tree (snd e)) entries → plain_tree (Dir entries).

Lemma walk_spec relative d : plain_tree d → ∀ W p, W ≠ [] → Forall plain_comp W →
  p ∈ GenerateRst.walk relative (abs_path W) d ↔
  ∃ comps, source_below GenerateRst.IGNORED_DIRECTORIES d comps ∧ p = relative (abs_path (W ++ comps)).
Proof.
  induction d as [| | |entries IH] using node_tree_ind; intros Hp W p Hw HF.
  - cbn. rewrite elem_of_nil. split; [done|]. intros (c & H & _). inversion H.
  - cbn. rewrite elem_of_nil. split; [done|]. intros (c & H & _). inversion H.
  - cbn. rewrite elem_of_nil. split; [done|]. intros (c & H & _). inversion H.
  - inversion Hp as [| | |? Hps]; subst. rewrite Forall_forall in IH, Hps. cbn [GenerateRst.walk].
    rewrite elem_of_app. split.
    + intros [H|H].
      * apply list_elem_of_fmap in H as (f & -> & [Hs Hf]%list_elem_of_filter).
        rewrite sort_by_perm in Hf. apply list_elem_of_In, in_flat_map in Hf as ([n e] & Hin & Hn).
        apply list_elem_of_In in Hin. cbn [fst snd] in Hn.
        destruct (GenerateRst.is_folder e) eqn:Ee; [done|]. destruct Hn as [<-|[]].
        exists [n]. split; [eapply source_here; [exact Hin|exact Ee|by apply Is_true_eq_true]|].
        f_equal. apply path_join_plain; [done|done|by apply (Hps _ Hin)].
      * apply list_elem_of_In, in_flat_map in H as ([n e] & Hin & Hn).
        apply list_elem_of_In in Hin. destruct e as [|sub| |]; [done| |done|done].
        destruct (smem n GenerateRst.IGNORED_DIRECTORIES) eqn:Ei; [done|]. apply list_elem_of_In in Hn.
        destruct (Hps _ Hin) as [Hn1 Hn2]. cbn [fst snd] in Hn1, Hn2.
        rewrite path_join_plain in Hn by done. apply (IH _ Hin) in Hn as (comps & Hc & ->); [|done| |].
        -- exists (n :: comps). split; [by eapply source_deeper|]. by rewrite <- app_assoc.
        -- by destruct W.
        -- apply Forall_app. by rewrite Forall_singleton.
    + intros (comps & Hc & ->). inversion Hc as [? n e Hin He Hs|? n sub comps' Hin Hi Hc']; subst.
      * left. apply list_elem_of_fmap. exists n. split.
        { f_equal. symmetry. apply path_join_plain; [done|done|by apply (Hps _ Hin)]. }
        apply list_elem_of_filter. split; [by apply Is_true_eq_left|]. rewrite sort_by_perm.
        apply list_elem_of_In, in_flat_map. exists (n, e). split; [by apply list_elem_of_In|]. cbn [fst snd]. rewrite He. by left.
      * right. apply list_elem_of_In, in_flat_map. exists (n, Dir sub).
        split; [by apply list_elem_of_In|]. rewrite Hi. apply list_elem_of_In.
        destruct (Hps _ Hin) as [Hn1 Hn2]. cbn [fst snd] in Hn1, Hn2.
        rewrite path_join_plain by done. apply (IH _ Hin); [done|by destruct W|apply Forall_app; by rewrite Forall_singleton|].
        exists comps'. split; [done|]. by rewrite <- app_assoc.
Qed.

Lemma source_comps ignored d : plain_tree d → ∀ comps, source_below ignored d comps →
  comps ≠ [] ∧ Forall plain_comp comps.
Proof.
  induction d as [| | |entries IH] using node_tree_ind; intros Hp comps H;
    inversion H as [? n e Hin He Hs|? n sub comps' Hin Hi Hc']; subst.
  - inversion Hp as [| | |? Hps]; subst. rewrite Forall_forall in Hps. split; [done|].
    constructor; [by apply (Hps _ Hin)|constructor].
  - inversion Hp as [| | |? Hps]; subst. rewrite Forall_forall in IH, Hps. split; [done|].
    destruct (Hps _ Hin) as [Hn1 Hn2]. constructor; [done|]. by apply (IH _ Hin).
Qed.

(** ** Properties *)

(** The generated pages and the directive fit together: the sources a page
    lists are, in order, exactly the C files below its folder that are in no
    ignored folder, and the directive on a listed source, with the base folder
    of the configuration, parses that very file. *)
Theorem pages_name_sources cwd W sub d glob abspath_ options :
  W ≠ [] → Forall plain_comp W → plain_comp sub → plain_tree d →
  let wisp := abs_path W in
  let sources := GenerateRst.find_sources cwd wisp (path_join wisp sub) d in
  Sorted (key_le id) sources ∧
  (∀ src, src ∈ sources ↔
     ∃ comps, source_below GenerateRst.IGNORED_DIRECTORIES d comps ∧ src = join "/" (sub :: comps)) ∧
  (∀ comps, source_below GenerateRst.IGNORED_DIRECTORIES d comps →
     d_file_list (handle_args glob abspath_ wisp (join "/" (sub :: comps)) options)
     = [abs_path (W ++ sub :: comps)]).
Proof.
  intros HW HF Hs Hd wisp sources. split; [apply sort_by_sorted|].
  assert (∀ comps, source_below GenerateRst.IGNORED_DIRECTORIES d comps →
            Forall plain_comp (W ++ sub :: comps)) as Hall.
  { intros comps Hc. destruct (source_comps _ d Hd comps Hc) as [_ HFc]. apply Forall_app. by split; [|constructor]. }
  split.
  - intros src. unfold sources, GenerateRst.find_sources. rewrite sort_by_perm.
    unfold wisp. rewrite path_join_plain by done.
    rewrite walk_spec; [|done|by destruct W|apply Forall_app; by rewrite Forall_singleton].
    split; intros (comps & Hc & ->); exists comps; (split; [exact Hc|]);
      rewrite <- app_assoc; cbn [app]; [|symmetry]; by apply relpath_below; [apply Hall|].
  - intros comps Hc. cbn [handle_args d_file_list]. unfold wisp, abs_path. f_equal.
    rewrite join_app by done. done.
Qed.

Definition demo_tree : node := Dir [("b.c", File); ("inc", Dir [("a.h", File); ("notes", File)]);
  ("build", Dir [("gen.c", File)])].
Lemma plain_comp_dec c : smem c [""; "."; ".."] = false → sall (λ x, negb (x =? "/")%char) c = true →
  plain_comp c.
Proof. intros Hc Hs. split; [|done]. intros H%smem_iff. congruence. Qed.
Lemma pages_name_sources_witness :
  GenerateRst.find_sources "/tmp" "/src/wisp" "/src/wisp/server" demo_tree
  = ["server/b.c"; "server/inc/a.h"] ∧
  Sorted (key_le id) (GenerateRst.find_sources "/tmp" "/src/wisp" "/src/wisp/server" demo_tree).
Proof.
  split; [vm_compute; reflexivity|].
  refine (proj1 (pages_name_sources "/tmp" ["src"; "wisp"] "server" demo_tree (λ _, []) id [] _ _ _ _)).
  - done.
  - repeat first [apply plain_comp_dec; reflexivity | constructor].
  - by apply plain_comp_dec.
  - repeat first [apply plain_comp_dec; reflexivity | constructor].
Defined.
