(* ===== verification/PreInstall.v ===== *)
(** * PreInstall: [docs/sphinx-pre-install]

    The script that looks for what a build of the documentation needs and says how
    to install it.  A [system] says what the operating system and other programs
    answer; the attributes of the checker and the lines that are printed are its
    state. *)

From S2P Require Import Prelude PyStr PyNum PyPath PyRe PyReSyntax PyReTheory Argparse PyVersion.

Definition RECOMMENDED_VERSION : list Z := [3; 4; 3]%Z.
Definition MIN_PYTHON_VERSION : list Z := [3; 7]%Z.

(** ** [DepManager] *)

(** [_SYS_TYPE], [_PHY_TYPE] and [_PDF_TYPE], each with whether it is mandatory. *)
Inductive dep_type := SYS_TYPE | PHY_TYPE | PDF_TYPE.
Definition dtype : Type := dep_type * bool.
#[global] Instance dep_type_eq_dec : EqDecision dep_type.
Proof. solve_decision. Defined.
#[global] Instance dtype_eq_dec : EqDecision dtype := _.
Definition SYSTEM_MANDATORY : dtype := (SYS_TYPE, true).
Definition PYTHON_MANDATORY : dtype := (PHY_TYPE, true).
Definition PDF_MANDATORY : dtype := (PDF_TYPE, true).
Definition SYSTEM_OPTIONAL : dtype := (SYS_TYPE, false).
Definition PYTHON_OPTIONAL : dtype := (PHY_TYPE, false).
Definition PDF_OPTIONAL : dtype := (PDF_TYPE, true).

(** [name(dtype)] *)
Definition dtype_name (d : dtype) : string :=
  let msg := match fst d with SYS_TYPE => "build" | PHY_TYPE => "Python" | PDF_TYPE => "PDF" end in
  if snd d then "ERROR: " +:+ msg +:+ " mandatory deps missing"
  else "Warning: " +:+ msg +:+ " optional deps missing".
Definition is_optional (d : dtype) : bool := negb (snd d).
Definition is_pdf (d : dtype) : bool := bool_decide (fst d = PDF_TYPE).
(** The order of the tuples. *)
Definition dtype_rank (d : dtype) : nat :=
  (match fst d with SYS_TYPE => 0 | PHY_TYPE => 2 | PDF_TYPE => 4 end) + if snd d then 1 else 0.

(** [missing_pkg] is keyed by types; [deps_pdf] is [self.pdf] of the manager. *)
Record DepManager := MkDeps {
  missing : dict dtype;
  missing_pkg : list (dtype * list string);
  need : Z;
  optional : Z;
  deps_pdf : bool;
}.
Definition DepManager_init (pdf : bool) : DepManager := MkDeps [] [] 0 0 pdf.
(** [add_package(package, dtype)] *)
Definition add_package (package : string) (d : dtype) (m : DepManager) : DepManager :=
  MkDeps (dset (missing m) package d) (missing_pkg m)
    (if is_optional d then need m else need m + 1)
    (if is_optional d then optional m + 1 else optional m) (deps_pdf m).
(** [del_package(package)] *)
Definition del_package (package : string) (m : DepManager) : DepManager :=
  MkDeps (ddel (missing m) package) (missing_pkg m) (need m) (optional m) (deps_pdf m).
(** [clear_deps()] *)
Definition clear_deps (m : DepManager) : DepManager := MkDeps [] [] (need m) (optional m) (deps_pdf m).
Definition set_counts (n o : Z) (m : DepManager) : DepManager :=
  MkDeps (missing m) (missing_pkg m) n o (deps_pdf m).
(** [self.missing_pkg[dtype].append(name)], the list made when there is none. *)
Fixpoint add_pkg (d : dtype) (name : string) (l : list (dtype * list string)) : list (dtype * list string) :=
  match l with
  | [] => [(d, [name])]
  | (d', names) :: l => if bool_decide (d' = d) then (d, names ++ [name]) :: l else (d', names) :: add_pkg d name l
  end.
(** One turn of the loop of [check_missing]. *)
Definition note_missing (progs : dict string) (m : DepManager) (e : string * dtype) : DepManager :=
  let '(prog, d) := e in
  if is_pdf d && negb (deps_pdf m)
  then MkDeps (missing m) (missing_pkg m) (need m) (optional m - 1) (deps_pdf m)
  else MkDeps (missing m) (add_pkg d (dget_or progs prog prog) (missing_pkg m)) (need m) (optional m) (deps_pdf m).
(** [sorted(set(l))] *)
Definition sorted_set (l : list string) : list string := sort_by id (remove_dups l).
(** [check_missing(progs)]: the manager and the text. *)
Definition check_missing (progs : dict string) (m : DepManager) : DepManager * string :=
  let m := fold_left (note_missing progs) (sort_by fst (missing m))
             (MkDeps (missing m) [] (need m) (optional m) (deps_pdf m)) in
  (m, join " " (sorted_set (flat_map snd (missing_pkg m)))).
(** [warn_install()]: what is printed, if anything. *)
Definition warn_install (m : DepManager) : option string :=
  let output_msg := sconcat (map (λ e, dtype_name (fst e) +:+ ":" +:+ tab +:+ join " " (sorted_set (snd e)) +:+ nl)
                      (isort (λ x y, dtype_rank (fst x) <=? dtype_rank (fst y)) (missing_pkg m))) in
  if (output_msg =? "")%string then None else Some (nl +:+ output_msg).

(** ** The system and the checker *)

(** How a command ends: it is not found, or its status and output. *)
Inductive finished := NotFound | Finished (status : Z) (stdout : string).
Record system := System {
  environ : dict string;
  (** [os.access(path, os.X_OK)] *)
  executable_at : string → bool;
  exists_ : string → bool;
  isfile : string → bool;
  read_text : string → option string;
  run : list string → dict string → finished;
  glob : string → list string;
  cwd : string;
  locale_ok : bool;
  (** [sys.executable] and [sys.version_info[:3]]. *)
  executable : string;
  version_info : list Z;
}.

(** The attributes of the checker that are flags, versions and texts.  The
    empty version is [None], and so is the empty text. *)
Inductive flag_attr :=
| Pdf | NeedSymlink | NeedSphinx | VerboseWarnInstall | NeedPip | RecSphinxUpgrade | PackageSupported
| RecommendPython.
Inductive version_attr := MinVersion | CurVersion | LatestAvailVer | VenvVer.
Inductive text_attr := VirtenvDir | PythonCmd | ActivateCmd | DistroMsg.
#[global] Instance flag_attr_eq_dec : EqDecision flag_attr.
Proof. solve_decision. Defined.
#[global] Instance version_attr_eq_dec : EqDecision version_attr.
Proof. solve_decision. Defined.
#[global] Instance text_attr_eq_dec : EqDecision text_attr.
Proof. solve_decision. Defined.
Definition upd {K} `{EqDecision K} {V} (f : K → V) (k : K) (v : V) : K → V := λ k', if decide (k' = k) then v else f k'.
Record checker := Checker {
  deps : DepManager;
  flag : flag_attr → bool;
  version : version_attr → list Z;
  text : text_attr → string;
  printed : list string;
}.
Abbreviation Check := (ST checker).
Definition on_deps (f : DepManager → DepManager) : Check unit :=
  modify (λ c, Checker (f (deps c)) (flag c) (version c) (text c) (printed c)).
Definition set_flag (k : flag_attr) (b : bool) : Check unit :=
  modify (λ c, Checker (deps c) (upd (flag c) k b) (version c) (text c) (printed c)).
Definition set_version (k : version_attr) (v : list Z) : Check unit :=
  modify (λ c, Checker (deps c) (flag c) (upd (version c) k v) (text c) (printed c)).
Definition set_text (k : text_attr) (s : string) : Check unit :=
  modify (λ c, Checker (deps c) (flag c) (version c) (upd (text c) k s) (printed c)).
Definition say (line : string) : Check unit :=
  modify (λ c, Checker (deps c) (flag c) (version c) (text c) (printed c ++ [line])).
Definition get_flag (k : flag_attr) : Check bool := gets (λ c, flag c k).
Definition get_version (k : version_attr) : Check (list Z) := gets (λ c, version c k).
Definition get_text (k : text_attr) : Check string := gets (λ c, text c k).

Section PreInstall.
Context (sys : system).
(** [args.virtualenv] and [args.version_check]. *)
Context (virtualenv version_check : bool).
(** [self.texlive] *)
Context (texlive : dict string).

(** ** [AncillaryMethods] and [MissingCheckers] *)

(** [which(prog)] *)
Definition which (prog : string) : option string :=
  head (List.filter (executable_at sys) (map (λ path, path_join path prog)
    (split_char ":" (dget_or (environ sys) "PATH" "")))).
(** [self.run(cmd, check=True)]: whether the command succeeds; the exception of a
    program that is not there is not caught. *)
Definition succeeds (cmd : list string) : Check bool :=
  match run sys cmd (environ sys) with
  | NotFound => raise (OSError (hd "" cmd))
  | Finished status _ => mret (status =? 0)%Z
  end.
Definition missing_is (package : string) (d : dtype) : Check unit := on_deps (add_package package d).
Definition check_missing_file (files : list string) (package : string) (d : dtype) : Check unit :=
  when (negb (existsb (exists_ sys) files)) (missing_is package d).
Definition check_program (prog : string) (d : dtype) : Check (option string) :=
  match which prog with
  | Some found => mret (Some found)
  | None => missing_is prog d ;; mret None
  end.
Definition check_perl_module (prog : string) (d : dtype) : Check unit :=
  match which "perl" with
  | None => missing_is "perl" SYSTEM_MANDATORY ;; missing_is prog d
  | Some _ =>
      ok ← succeeds ["perl"; "-M" +:+ prog; "-e"; "1"];
      when (negb ok) (missing_is prog d)
  end.
Definition check_python_module (module : string) : Check unit :=
  python_cmd ← get_text PythonCmd;
  ok ← succeeds [python_cmd; "-c"; "import " +:+ module];
  when (negb ok) (missing_is module PYTHON_MANDATORY).
(** [check_rpm_missing] and [check_pacman_missing]: [query] is the command before the
    name. *)
Definition check_packages (query pkgs : list string) (d : dtype) : Check unit :=
  for_each pkgs (λ prog, ok ← succeeds (query ++ [prog]); when (negb ok) (missing_is prog d)).
Definition check_rpm_missing : list string → dtype → Check unit := check_packages ["rpm"; "-q"].
Definition check_pacman_missing : list string → dtype → Check unit := check_packages ["pacman"; "-Q"].
(** [check_missing_tex(is_optional)] *)
Definition check_missing_tex (is_optional : bool) : Check unit :=
  let d := if is_optional then PDF_OPTIONAL else PDF_MANDATORY in
  let kpsewhich := which "kpsewhich" in
  for_each texlive (λ '(prog, package),
    match kpsewhich with
    | None => missing_is package d
    | Some kpsewhich =>
        match run sys [kpsewhich; prog] (environ sys) with
        | NotFound => raise (OSError kpsewhich)
        | Finished status out =>
            when (negb (status =? 0)%Z || (strip out =? "")%string) (missing_is package d)
        end
    end).

(** *** The version of sphinx *)

Definition get_sphinx_fname : Check string :=
  match dget (environ sys) "SPHINXBUILD" with
  | Some fname => mret fname
  | None =>
      match which "sphinx-build" with
      | Some _ => mret "sphinx-build"
      | None =>
          match which "sphinx-build-3" with
          | Some _ => set_flag NeedSymlink true ;; mret "sphinx-build-3"
          | None => mret ""
          end
      end
  end.
Definition re_sphinx_build : pattern :=
  compiled no_flags "^sphinx-build\s+([\d\.]+)(?:\+(?:/[\da-f]+)|b\d+)?\s*$".
Definition re_sphinx : pattern := compiled no_flags "^Sphinx.*\s+([\d\.]+)\s*$".
(** The loop over the lines of the output. *)
Fixpoint version_in (lines : list string) : res (option (list Z)) :=
  match lines with
  | [] => Ok None
  | line :: lines =>
      match (match re_match re_sphinx_build line with Some m => Some m | None => re_match re_sphinx line end) with
      | Some m => match parse_version (group_or m 1) with Ok v => Ok (Some v) | Raise e => Raise e end
      | None => version_in lines
      end
  end.
Definition get_sphinx_version (cmd : string) : res (option (list Z)) :=
  let env := if locale_ok sys then environ sys else dset (dset (environ sys) "LC_ALL" "C") "LANG" "C" in
  match run sys [cmd; "--version"] env with
  | NotFound => Ok None
  | Finished status out => if (status =? 0)%Z then version_in (split_char NL out) else Ok None
  end.
Definition re_needs_sphinx : pattern :=
  compiled no_flags ("^\s*needs_sphinx\s*=\s*[\'\" +:+ quote +:+ "]([\d\.]+)[\'\" +:+ quote +:+ "]").
(** The first line that says which version is needed. *)
Fixpoint needed_version (lines : list string) : option string :=
  match lines with
  | [] => None
  | line :: lines =>
      match re_match re_needs_sphinx line with Some m => Some (group_or m 1) | None => needed_version lines end
  end.
Definition check_sphinx (conf : string) : Check unit :=
  match read_text sys conf with
  | None => raise (SystemExit ("Can't open " +:+ conf))
  | Some t =>
      (match needed_version (readlines t) with
       | Some s => v ← lift_res (parse_version s); set_version MinVersion v
       | None => mret tt
       end) ;;
      min ← get_version MinVersion;
      when (bool_decide (min = [])) (raise (SystemExit ("Can't get needs_sphinx version from " +:+ conf))) ;;
      set_text VirtenvDir "sphinx_latest" ;;
      sphinx ← get_sphinx_fname;
      if (sphinx =? "")%string then set_flag NeedSphinx true
      else
        cur ← lift_res (get_sphinx_version sphinx);
        set_version CurVersion (default [] cur) ;;
        match cur with
        | None | Some [] => raise (SystemExit (sphinx +:+ " didn't return its version"))
        | Some cur =>
            if ver_lt cur min then
              say ("ERROR: Sphinx version is " +:+ ver_str cur +:+ ". It should be >= " +:+ ver_str min) ;;
              set_flag NeedSphinx true
            else when (version_check && ver_le RECOMMENDED_VERSION cur) (raise (Exit 0))
        end
  end.

(** *** The name of the system *)

Definition catcheck (filename : string) : res string :=
  if exists_ sys filename then
    match read_text sys filename with Some t => Ok (strip t) | None => Raise (OSError filename) end
  else Ok "".
(** The first of some files that says something. *)
Fixpoint first_release (files : list string) : res string :=
  match files with
  | [] => Ok ""
  | f :: files =>
      match catcheck f with
      | Ok "" => first_release files
      | r => r
      end
  end.
Definition re_os_var : pattern :=
  compiled no_flags ("^([\w\d\_]+)=\" +:+ quote +:+ "?([^\" +:+ quote +:+ "]*)\" +:+ quote +:+ "?\n").
(** What [/etc/os-release] says. *)
Definition os_release : string :=
  match read_text sys "/etc/os-release" with
  | None => ""
  | Some t =>
      let os_var := fold_left (λ d line, match re_match re_os_var line with
                                         | Some m => dset d (group_or m 1) (group_or m 2) | None => d end)
                      (readlines t) [] in
      dget_or os_var "NAME" ""
      +:+ match dget os_var "VERSION_ID" with
          | Some v => " " +:+ v
          | None => match dget os_var "VERSION" with Some v => " " +:+ v | None => "" end
          end
  end.
(** [x or y], for texts that may raise. *)
Definition or_else (x : string) (y : res string) : res string := if (x =? "")%string then y else Ok x.
Definition get_system_release : res string :=
  let lsb :=
    match which "lsb_release" with
    | None => Ok ""
    | Some _ =>
        match run sys ["lsb_release"; "-d"] (environ sys) with
        | NotFound => Raise (OSError "lsb_release")
        | Finished _ out => Ok (strip (replace "Description:" "" out))
        end
    end in
  match lsb with
  | Raise e => Raise e
  | Ok s =>
      match or_else s (first_release ["/etc/system-release"; "/etc/redhat-release"; "/etc/lsb-release";
                                      "/etc/gentoo-release"]) with
      | Raise e => Raise e
      | Ok s =>
          match or_else (if (s =? "")%string then os_release else s) (catcheck "/etc/issue") with
          | Raise e => Raise e
          | Ok s => Ok (strip s)
          end
      end
  end.

(** ** Hints *)

Section Hints.
(** [self.system_release] *)
Context (system_release : string).

(** [get_install_progs(progs, cmd, extra)] *)
Definition get_install_progs (progs : dict string) (cmd : option string) (extra : string) : Check (option string) :=
  install ← (λ c, let '(m, install) := check_missing progs (deps c) in
                  (Checker m (flag c) (version c) (text c) (printed c), Ok install));
  verbose ← get_flag VerboseWarnInstall;
  m ← gets deps;
  (match (if (verbose : bool) then warn_install m else None) with Some msg => say msg | None => mret tt end) ;;
  if (install =? "")%string then mret None
  else
    match cmd with
    | None => mret None
    | Some cmd =>
        let msg := (if (verbose : bool) then "You should run:" else "")
                   +:+ (if (extra =? "")%string then "" else nl +:+ tab +:+ replace nl (nl +:+ tab) extra) in
        mret (Some (msg +:+ nl +:+ tab +:+ "sudo " +:+ cmd +:+ " " +:+ install))
    end.
(** [if not self.distro_msg: self.distro_msg = msg] *)
Definition set_distro_msg (msg : string) : Check unit :=
  old ← get_text DistroMsg;
  when (old =? "")%string (set_text DistroMsg msg).
Definition check_missing_files (pkgs : list (string * list string)) (d : dtype) : Check unit :=
  for_each pkgs (λ '(package, files), check_missing_file files package d).

Definition debian_progs : dict string := [
  ("Pod::Usage", "perl-modules"); ("convert", "imagemagick"); ("dot", "graphviz");
  ("ensurepip", "python3-venv"); ("python-sphinx", "python3-sphinx"); ("rsvg-convert", "librsvg2-bin");
  ("virtualenv", "virtualenv"); ("xelatex", "texlive-xetex"); ("yaml", "python3-yaml")].
Definition debian_pdf_pkgs : list (string * list string) := [
  ("fonts-dejavu", ["/usr/share/fonts/truetype/dejavu/DejaVuSans.ttf"]);
  ("fonts-noto-cjk", ["/usr/share/fonts/noto-cjk/NotoSansCJK-Regular.ttc";
                      "/usr/share/fonts/opentype/noto/NotoSansCJK-Regular.ttc";
                      "/usr/share/fonts/opentype/noto/NotoSerifCJK-Regular.ttc"]);
  ("tex-gyre", ["/usr/share/texmf/tex/latex/tex-gyre/tgtermes.sty"]);
  ("texlive-fonts-recommended", ["/usr/share/texlive/texmf-dist/fonts/tfm/adobe/zapfding/pzdr.tfm"]);
  ("texlive-lang-chinese", ["/usr/share/texlive/texmf-dist/tex/latex/ctex/ctexhook.sty"])].
Definition debian_msg : string :=
  "Note: ImageMagick is broken on some distros, affecting PDF output. For more details:" +:+ nl +:+ tab
  +:+ "https://askubuntu.com/questions/1158894/imagemagick-still-broken-using-with-usr-bin-convert".
Definition give_debian_hints : Check (option string) :=
  pdf ← get_flag Pdf;
  when pdf (check_missing_files debian_pdf_pkgs PDF_MANDATORY ;;
            check_program "dvipng" PDF_MANDATORY ;; mret tt) ;;
  set_distro_msg debian_msg ;;
  get_install_progs debian_progs (Some "apt-get install") "".

Definition redhat_progs : dict string := [
  ("Pod::Usage", "perl-Pod-Usage"); ("convert", "ImageMagick"); ("dot", "graphviz");
  ("python-sphinx", "python3-sphinx"); ("rsvg-convert", "librsvg2-tools");
  ("virtualenv", "python3-virtualenv"); ("xelatex", "texlive-xetex-bin"); ("yaml", "python3-pyyaml")].
Definition fedora_tex_pkgs : list string := [
  "dejavu-sans-fonts"; "dejavu-sans-mono-fonts"; "dejavu-serif-fonts"; "texlive-collection-fontsrecommended";
  "texlive-collection-latex"; "texlive-xecjk"].
Definition redhat_pdf_pkgs : list string := [
  "/usr/share/fonts/google-noto-cjk/NotoSansCJK-Regular.ttc";
  "/usr/share/fonts/google-noto-sans-cjk-fonts/NotoSansCJK-Regular.ttc"].
Definition redhat_msg : string := join nl [
  "Note: RHEL-based distros typically require extra repositories.";
  "For most, enabling epel and crb are enough:";
  tab +:+ "sudo dnf install -y epel-release";
  tab +:+ "sudo dnf config-manager --set-enabled crb";
  "Yet, some may have other required repositories. Those commands could be useful:";
  tab +:+ "sudo dnf repolist all";
  tab +:+ "sudo dnf repoquery --available --info <pkgs>";
  tab +:+ "sudo dnf config-manager --set-enabled '*' # enable all - probably not what you want"].
Definition re_release : pattern := compiled no_flags "(release|Linux)\s+(\d+)".
(** [rel], 0 when there is none. *)
Definition redhat_release : Z :=
  match re_search re_release system_release with
  | Some m => default 0%Z (py_int (group_or m 2))
  | None => 0%Z
  end.
Definition is_fedora : bool := bool_decide (is_Some (re_search (compiled no_flags "Fedora") system_release)).
(** The end of [give_redhat_hints]: what PDF files need. *)
Definition redhat_pdf (fedora : bool) (rel : Z) (noto_sans_redhat : string) : Check unit :=
  pdf ← get_flag Pdf;
  when pdf (check_missing_file redhat_pdf_pkgs noto_sans_redhat PDF_MANDATORY ;;
            check_rpm_missing fedora_tex_pkgs PDF_MANDATORY ;;
            check_missing_tex true ;;
            when (negb fedora && (rel =? 8)%Z) (on_deps (del_package "texlive-ctex"))).
Definition give_redhat_hints : Check (option string) :=
  let rel := redhat_release in
  if (rel =? 0)%Z then
    say "Couldn't identify release number" ;;
    set_flag Pdf false ;;
    redhat_pdf false rel "" ;;
    get_install_progs redhat_progs (Some "dnf install") ""
  else if is_fedora then
    redhat_pdf true rel "google-noto-sans-cjk-fonts" ;;
    get_install_progs redhat_progs (Some "dnf install") ""
  else
    let progs := dset redhat_progs "virtualenv" "python-virtualenv" in
    if (rel <? 8)%Z then say "ERROR: Distro not supported. Too old?" ;; mret None
    else
      when (rel =? 8)%Z (check_program "python3.9" SYSTEM_MANDATORY ;;
                         set_flag RecommendPython true ;; set_flag PackageSupported false) ;;
      let progs := if (rel =? 8)%Z then dset (dset progs "python3.9" "python39") "yaml" "python39-pyyaml" else progs in
      set_distro_msg redhat_msg ;;
      redhat_pdf false rel "google-noto-sans-cjk-ttc-fonts" ;;
      get_install_progs progs (Some "dnf install") "".

Definition opensuse_progs : dict string := [
  ("Pod::Usage", "perl-Pod-Usage"); ("convert", "ImageMagick"); ("dot", "graphviz");
  ("python-sphinx", "python3-sphinx"); ("virtualenv", "python3-virtualenv");
  ("xelatex", "texlive-xetex-bin texlive-dejavu"); ("yaml", "python3-pyyaml"); ("latexmk", "texlive-latexmk-bin")].
Definition suse_tex_pkgs : list string := [
  "texlive-babel-english"; "texlive-caption"; "texlive-colortbl"; "texlive-courier"; "texlive-dvips";
  "texlive-helvetic"; "texlive-makeindex"; "texlive-metafont"; "texlive-metapost"; "texlive-palatino";
  "texlive-preview"; "texlive-times"; "texlive-zapfchan"; "texlive-zapfding"].
Definition re_leap : pattern := compiled no_flags "(Leap)\s+(\d+).(\d)".
(** The three names of a version of python. *)
Definition suse_python (progs : dict string) (v : string) : dict string :=
  dset (dset (dset progs "python-sphinx" (v +:+ "-Sphinx " +:+ v +:+ "-Sphinx-latex"))
    "virtualenv" (v +:+ "-virtualenv")) "yaml" (v +:+ "-PyYAML").
Definition give_opensuse_hints : Check (option string) :=
  progs ← (match re_search re_leap system_release with
           | Some m =>
               if bool_decide (py_int (group_or m 2) = Some 15%Z) then
                 python_cmd ← get_text PythonCmd;
                 let old := negb (bool_decide (is_Some (which python_cmd))) in
                 when old (check_program "python3.11" SYSTEM_MANDATORY ;; set_flag RecommendPython true) ;;
                 mret (suse_python (if (old : bool) then dset opensuse_progs "python3.11" "python311" else opensuse_progs)
                         "python311")
               else mret opensuse_progs
           | None => mret (suse_python opensuse_progs "python313")
           end);
  pdf ← get_flag Pdf;
  when pdf (check_rpm_missing suse_tex_pkgs PDF_MANDATORY) ;;
  when pdf (check_missing_tex false) ;;
  get_install_progs progs (Some "zypper install --no-recommends") "".

Definition mageia_progs : dict string := [
  ("Pod::Usage", "perl-Pod-Usage"); ("convert", "ImageMagick"); ("dot", "graphviz");
  ("python-sphinx", "python3-sphinx"); ("rsvg-convert", "librsvg2"); ("virtualenv", "python3-virtualenv");
  ("xelatex", "texlive"); ("yaml", "python3-yaml")].
Definition mandriva_progs : dict string :=
  dset (dset (dset (dset (dset mageia_progs "convert" "imagemagick") "yaml" "python-pyyaml")
    "python-virtualenv" "python-virtualenv") "python-sphinx" "python-sphinx") "xelatex" "texlive".
Definition mandriva_msg : string := join nl [
  "Notes:"; "1. for venv, ensurepip could be broken, preventing its install method.";
  "2. at least on OpenMandriva LX 4.3, texlive packages seem broken"].
Definition mageia_fonts : list string := [
  "/usr/share/fonts/google-noto-cjk/NotoSansCJK-Regular.ttc"; "/usr/share/fonts/TTF/NotoSans-Regular.ttf"].
Definition give_mageia_hints : Check (option string) :=
  let mandriva := bool_decide (is_Some (re_search (compiled no_flags "OpenMandriva") system_release)) in
  when mandriva (check_program "python-virtualenv" PYTHON_MANDATORY ;; set_distro_msg mandriva_msg) ;;
  let progs := dset (if mandriva then mandriva_progs else mageia_progs) "latexmk" "texlive-collection-basic" in
  pdf ← get_flag Pdf;
  when pdf (
    check_missing_file mageia_fonts (if mandriva then "noto-sans-cjk-fonts" else "google-noto-sans-cjk-ttc-fonts")
      PDF_MANDATORY ;;
    check_rpm_missing (if mandriva
      then ["texlive-collection-basic"; "texlive-collection-langcjk"; "texlive-collection-fontsextra";
            "texlive-collection-fontsrecommended"]
      else ["texlive-fontsextra"; "texlive-fonts-asian"; "fonts-ttf-dejavu"]) PDF_MANDATORY) ;;
  get_install_progs progs (Some (if mandriva then "dnf install" else "urpmi")) "".

Definition arch_progs : dict string := [
  ("convert", "imagemagick"); ("dot", "graphviz"); ("latexmk", "texlive-core"); ("rsvg-convert", "extra/librsvg");
  ("virtualenv", "python-virtualenv"); ("xelatex", "texlive-xetex"); ("yaml", "python-yaml")].
Definition archlinux_tex_pkgs : list string := [
  "texlive-basic"; "texlive-binextra"; "texlive-core"; "texlive-fontsrecommended"; "texlive-langchinese";
  "texlive-langcjk"; "texlive-latexextra"; "ttf-dejavu"].
Definition give_arch_linux_hints : Check (option string) :=
  pdf ← get_flag Pdf;
  when pdf (
    check_pacman_missing archlinux_tex_pkgs PDF_MANDATORY ;;
    check_missing_file ["/usr/share/fonts/noto-cjk/NotoSansCJK-Regular.ttc"] "noto-fonts-cjk" PDF_MANDATORY) ;;
  get_install_progs arch_progs (Some "pacman -S") "".

Definition gentoo_progs : dict string := [
  ("convert", "media-gfx/imagemagick"); ("dot", "media-gfx/graphviz"); ("rsvg-convert", "gnome-base/librsvg");
  ("virtualenv", "dev-python/virtualenv");
  ("xelatex", join " " ["dev-texlive/texlive-fontsrecommended"; "dev-texlive/texlive-latexextra";
                        "dev-texlive/texlive-xetex"; "media-fonts/dejavu"]);
  ("yaml", "dev-python/pyyaml"); ("python-sphinx", "dev-python/sphinx")].
Definition gentoo_pdf_pkgs : list (string * list string) := [
  ("media-fonts/dejavu", ["/usr/share/fonts/dejavu/DejaVuSans.ttf"]);
  ("media-fonts/noto-cjk", ["/usr/share/fonts/noto-cjk/NotoSansCJKsc-Regular.otf";
                            "/usr/share/fonts/noto-cjk/NotoSerifCJK-Regular.ttc"])].
Definition portages : dict string := [
  ("graphviz", "media-gfx/graphviz"); ("imagemagick", "media-gfx/imagemagick");
  ("media-libs", "media-libs/harfbuzz icu"); ("media-fonts", "media-fonts/noto-cjk");
  ("texlive", "app-text/texlive-core xetex"); ("zziblib", "dev-libs/zziplib sdl")].
Definition use_base : string := "/etc/portage/package.use".
(** The one turn of the [while] loop: whether a file for [portage] has to be
    written.  After the inner loop [arg] is the last of the flags. *)
Definition needs_use (files : list string) (portage : string) : res bool :=
  if (length files =? 0) then Ok true
  else
    let args := split_char " " portage in
    let name := hd "" args in
    let args := tl args in
    match run sys (["grep"; "-l"; "-E"; "^" +:+ name +:+ "\b"] ++ files) (environ sys) with
    | NotFound => Raise (OSError "grep")
    | Finished status out =>
        if negb (status =? 0)%Z || (strip out =? "")%string then Ok true
        else
          match last args with
          | None => Ok false
          | Some arg =>
              match read_text sys (strip out) with
              | None => Raise (OSError (strip out))
              | Some t =>
                  let re := compiled no_flags ("\s*" +:+ arg +:+ "\b") in
                  Ok (existsb (λ line, negb (bool_decide (is_Some (re_search re line)))) (readlines t))
              end
          end
    end.
Definition use_cmd (portage fname : string) : string :=
  "sudo su -c 'echo " +:+ quote +:+ portage +:+ quote +:+ " > " +:+ use_base +:+ "/" +:+ fname +:+ "'" +:+ nl.
Definition give_gentoo_hints : Check (option string) :=
  pdf ← get_flag Pdf;
  when pdf (check_missing_files gentoo_pdf_pkgs PDF_MANDATORY) ;;
  old ← get_text DistroMsg;
  extra_cmds ← (if (old =? "")%string then
                  set_text DistroMsg
                    "Note: Gentoo requires package.use to be adjusted before emerging packages" ;;
                  for_acc portages "" (λ extra_cmds '(fname, portage),
                    install ← lift_res (needs_use (glob sys (use_base +:+ "/*")) portage);
                    mret (if (install : bool) then extra_cmds +:+ use_cmd portage fname else extra_cmds))
                else mret "");
  get_install_progs gentoo_progs (Some "emerge --ask --changed-use --binpkg-respect-use=y") extra_cmds.

(** ** [SphinxDependencyChecker] *)

(** [os_hints] *)
Definition os_hints : list (string * Check (option string)) := [
  ("Red Hat Enterprise Linux", give_redhat_hints); ("Fedora", give_redhat_hints);
  ("AlmaLinux", give_redhat_hints); ("Amazon Linux", give_redhat_hints); ("CentOS", give_redhat_hints);
  ("openEuler", give_redhat_hints); ("Oracle Linux Server", give_redhat_hints);
  ("Rocky Linux", give_redhat_hints); ("Springdale Open Enterprise", give_redhat_hints);
  ("Ubuntu", give_debian_hints); ("Debian", give_debian_hints); ("Devuan", give_debian_hints);
  ("Kali", give_debian_hints); ("Mint", give_debian_hints);
  ("openSUSE", give_opensuse_hints);
  ("Mageia", give_mageia_hints); ("OpenMandriva", give_mageia_hints);
  ("Arch Linux", give_arch_linux_hints); ("Gentoo", give_gentoo_hints)].
Definition unknown_msg : string :=
  "I don't know distro " +:+ system_release +:+ "." +:+ nl
  +:+ "So, I can't provide you a hint with the install procedure." +:+ nl
  +:+ "There are likely missing dependencies.".
Definition give_no_hints : Check (option string) :=
  pdf ← get_flag Pdf;
  when pdf (check_missing_tex false) ;;
  set_text DistroMsg unknown_msg ;;
  get_install_progs [("sphinx-build", "sphinx")] None "".
(** [get_install()] *)
Definition get_install : Check (option string) :=
  match List.find (λ h, bool_decide (is_Some (re_search (compiled no_flags (fst h)) system_release))) os_hints with
  | Some (_, os_hint) => os_hint
  | None => give_no_hints
  end.

(** *** Virtual environments *)

(** [self.virtenv_prefix], and how it reads as a text. *)
Definition virtenv_prefix : list string := ["sphinx_"; "Sphinx_"].
Definition virtenv_prefix_str : string := "['sphinx_', 'Sphinx_']".
Definition NO_VERSION : list Z := [0; 0; 0]%Z.
(** [conf] and [requirement_file] *)
Definition prefix : string := dget_or (environ sys) "srctree" "." +:+ "/".
Definition conf : string := prefix +:+ "Documentation/conf.py".
Definition requirement_file : string := prefix +:+ "Documentation/sphinx/requirements.txt".
Definition deactivate_help : Check unit :=
  say (nl +:+ "    If you want to exit the virtualenv, you can use:") ;;
  say (tab +:+ "deactivate").
(** The files [activate], those of the latest versions first. *)
Definition activates : list string :=
  let numbered := flat_map (λ p, glob sys (cwd sys +:+ "/" +:+ p +:+ "[0-9]*/bin/activate")) virtenv_prefix in
  fold_left (λ l p, glob sys (cwd sys +:+ "/" +:+ p +:+ "*latest/bin/activate") ++ l) virtenv_prefix
    (isort (λ x y, (str_lower y <=? str_lower x)%string) numbered).
Definition re_venv_version : pattern := compiled no_flags "(\d+)\.(\d+)\.(\d+)".
Definition not_working (f : string) : string :=
  "Warning: virtual environment " +:+ replace "/bin/activate" "" f +:+ " is not working." +:+ nl
  +:+ "Python version upgrade? Remove it with:" +:+ nl +:+ nl
  +:+ tab +:+ "rm -rf {venv_dir}" +:+ nl +:+ nl.
(** The version that the name of [f] tells. *)
Definition venv_version (f : string) : option (list Z) :=
  match re_search re_venv_version f with
  | Some m => Some (map (λ i, default 0%Z (py_int (group_or m i))) [1; 2; 3])
  | None => None
  end.
(** The loop of [get_virtenv]: [ver] is the variable, empty for [None].  A version that is
    not newer enough is given to [parse_version], which wants a text. *)
Fixpoint first_venv (fs : list string) (ver : list Z) : Check (string * list Z) :=
  match fs with
  | [] => mret ("", ver)
  | f :: fs =>
      min ← get_version MinVersion;
      let named := venv_version f in
      let ver := default ver named in
      if bool_decide (is_Some named) && ver_lt ver min then first_venv fs ver
      else
        let sphinx_cmd := replace "activate" "sphinx-build" f in
        if negb (isfile sys sphinx_cmd) then first_venv fs ver
        else
          found ← lift_res (get_sphinx_version sphinx_cmd);
          match found with
          | None | Some [] => say (not_working f) ;; first_venv fs []
          | Some ver =>
              need ← get_flag NeedSphinx;
              if (need : bool) && ver_le min ver then mret (f, ver)
              else raise (AttributeError "split")
          end
  end.
(** [get_virtenv()] *)
Definition get_virtenv : Check (string * list Z) := first_venv activates NO_VERSION.

(** [x and y < z], where [None] is the empty version. *)
Definition given_lt (v w : list Z) : bool := negb (bool_decide (v = [])) && ver_lt v w.
Definition given_ge (v w : list Z) : bool := negb (bool_decide (v = [])) && ver_le w v.
Definition given_gt (v w : list Z) : bool := negb (bool_decide (v = [])) && ver_lt w v.
(** [recommend_sphinx_upgrade()] *)
Definition recommend_sphinx_upgrade : Check (list Z) :=
  cur ← get_version CurVersion;
  if given_ge cur RECOMMENDED_VERSION then set_version LatestAvailVer cur ;; mret []
  else
    '(cmd, ver) ← get_virtenv;
    set_text ActivateCmd cmd ;;
    set_version VenvVer ver ;;
    let latest := if negb (cmd =? "")%string && ver_lt cur ver then ver
                  else if bool_decide (cur = []) then NO_VERSION else cur in
    set_version LatestAvailVer latest ;;
    if negb virtualenv then mret latest
    else
      set_flag NeedPip true ;;
      when (negb (bool_decide (latest = NO_VERSION)) && given_lt latest RECOMMENDED_VERSION)
        (set_flag RecSphinxUpgrade true) ;;
      mret latest.
(** [recommend_package()] *)
Definition recommend_package : Check unit :=
  say (nl +:+ "2) As a package with:") ;;
  m ← gets deps;
  verbose ← get_flag VerboseWarnInstall;
  set_flag Pdf false ;;
  on_deps (set_counts (need m) 0) ;;
  set_flag VerboseWarnInstall false ;;
  on_deps clear_deps ;;
  missing_is "python-sphinx" PYTHON_MANDATORY ;;
  cmd ← get_install;
  (match cmd with Some cmd => say cmd | None => mret tt end) ;;
  on_deps (set_counts (need m) (optional m)) ;;
  set_flag VerboseWarnInstall verbose.

(** [str(v)] of a tuple. *)
Definition tuple_str (v : list Z) : string := "(" +:+ join ", " (map zint_str v) +:+ ")".
(** How to use the environment that was found. *)
Definition say_activate (msg : string) (in_venv : bool) : Check unit :=
  say msg ;;
  when (in_venv && str_in virtenv_prefix_str (cwd sys)) (say (tab +:+ "deactivate")) ;;
  cmd ← get_text ActivateCmd;
  say (tab +:+ ". " +:+ cmd) ;;
  deactivate_help.
Definition false_positives : string := nl
  +:+ "   Please note that Sphinx currentlys produce false-positive" +:+ nl
  +:+ "   warnings when the same name is used for more than one type (functions," +:+ nl
  +:+ "   structs, enums,...). This is known Sphinx bug. For more details, see:" +:+ nl
  +:+ tab +:+ "https://github.com/sphinx-doc/sphinx/pull/8313".
(** The end of [recommend_sphinx_version]: how to install or upgrade. *)
Definition say_install (virtualenv_cmd : option string) : Check unit :=
  upgrade ← get_flag RecSphinxUpgrade;
  (if (upgrade : bool) then
     say (if virtualenv then "To upgrade Sphinx, use:" +:+ nl +:+ nl
          else "Instead of install/upgrade Python Sphinx pkg, you could use pip/pypi with:" +:+ nl +:+ nl)
   else say (nl +:+ "Sphinx needs to be installed either:" +:+ nl +:+ "1) via pip/pypi with:" +:+ nl)) ;;
  dir ← get_text VirtenvDir;
  (match virtualenv_cmd with
   | None =>
       say ("   Currently not possible." +:+ nl) ;;
       say "   Please upgrade Python to a newer version and run this script again"
   | Some cmd =>
       say (tab +:+ cmd +:+ " " +:+ dir) ;;
       say (tab +:+ ". " +:+ dir +:+ "/bin/activate") ;;
       say (tab +:+ "pip install -r " +:+ requirement_file) ;;
       deactivate_help
   end) ;;
  supported ← get_flag PackageSupported;
  when supported recommend_package ;;
  say false_positives.
(** The part of [recommend_sphinx_version] after the tests for a version that can be
    used as it is. *)
Definition suggest_versions (virtualenv_cmd : option string) (latest : list Z) : Check unit :=
  min ← get_version MinVersion;
  if given_ge latest min && ver_le RECOMMENDED_VERSION latest then
    say_activate (nl +:+ "Need to activate Sphinx (version " +:+ ver_str latest +:+ ") on virtualenv with:") false
  else
    when (given_ge latest min)
      (say ("Warning: It is recommended at least Sphinx version " +:+ tuple_str RECOMMENDED_VERSION +:+ ".")) ;;
    say_install virtualenv_cmd.
(** [recommend_sphinx_version(virtualenv_cmd)] *)
Definition recommend_sphinx_version (virtualenv_cmd : option string) : Check unit :=
  recommend_python ← get_flag RecommendPython;
  cur ← get_version CurVersion;
  latest ← get_version LatestAvailVer;
  need_sphinx ← get_flag NeedSphinx;
  if (recommend_python : bool) && ver_lt (version_info sys) MIN_PYTHON_VERSION then
    say (nl +:+ "Python version " +:+ tuple_str (version_info sys) +:+ " is incompatible with doc build." +:+ nl
         +:+ "Please upgrade it and re-run." +:+ nl)
  else if negb (bool_decide (cur = NO_VERSION)) && ver_le RECOMMENDED_VERSION cur then mret tt
  else if negb need_sphinx && given_gt latest cur then
    say_activate (nl +:+ "You may also use the newer Sphinx version " +:+ ver_str latest +:+ " with:") true
  else if negb need_sphinx && given_ge latest RECOMMENDED_VERSION then mret tt
  else if negb virtualenv && (bool_decide (latest = []) || bool_decide (latest = NO_VERSION)) then mret tt
  else if negb virtualenv && ver_lt cur latest then
    say_activate (nl +:+ "You may also use the Sphinx virtualenv version " +:+ ver_str latest +:+ " with:") true
  else
    (if virtualenv
     then when need_sphinx (on_deps (λ m, set_counts (need m + 1) (optional m) m))
     else say nl) ;;
    suggest_versions virtualenv_cmd latest.

(** *** [check_needs] *)

(** What ends a run when something mandatory is missing. *)
Definition missing_exit (n : Z) : Check unit :=
  if (n =? 1)%Z then raise (SystemExit "Can't build as 1 mandatory dependency is missing")
  else when (negb (n =? 0)%Z)
         (raise (SystemExit ("Can't build as " +:+ zint_str n +:+ " mandatory dependencies are missing"))).
Definition check_programs (progs : list string) (d : dtype) : Check unit :=
  for_each progs (λ prog, check_program prog d ;; mret tt).
(** The programs and modules that every system needs. *)
Definition check_common : Check unit :=
  check_perl_module "Pod::Usage" SYSTEM_MANDATORY ;;
  check_programs ["make"; "which"] SYSTEM_MANDATORY ;;
  check_programs ["dot"; "convert"] SYSTEM_OPTIONAL ;;
  check_python_module "yaml" ;;
  pdf ← get_flag Pdf;
  when pdf (check_programs ["xelatex"; "rsvg-convert"; "latexmk"] PDF_MANDATORY).
(** The version of python: the command that makes a virtual environment, if any. *)
Definition check_venv : Check (option string) :=
  let old := ver_lt (version_info sys) MIN_PYTHON_VERSION in
  when old (raise (NameError "ver_str")) ;;
  ver ← recommend_sphinx_upgrade;
  set_version VenvVer ver ;;
  need_pip ← get_flag NeedPip;
  if negb need_pip then mret None
  else if old then
    set_flag NeedPip false ;; say "Warning: python version is not supported." ;; mret None
  else
    python_cmd ← get_text PythonCmd;
    check_python_module "ensurepip" ;;
    mret (Some (python_cmd +:+ " -m venv")).
Definition say_system : Check unit :=
  say (if (system_release =? "")%string then "Unknown OS" else "Detected OS: " +:+ system_release +:+ ".") ;;
  cur ← get_version CurVersion;
  when (negb (bool_decide (cur = NO_VERSION))) (say ("Sphinx version: " +:+ ver_str cur +:+ nl)).
(** The lines about the packages to install. *)
Definition say_install_cmd : Check unit :=
  cmd ← get_install;
  (match cmd with Some cmd => say cmd | None => mret tt end) ;;
  msg ← get_text DistroMsg;
  when (negb (msg =? "")%string) (say (nl +:+ msg)).
Definition say_symlink : Check unit :=
  need_symlink ← get_flag NeedSymlink;
  match (if (need_symlink : bool) then which "sphinx-build-3" else None) with
  | Some sphinx_path => say (tab +:+ "sudo ln -sf " +:+ sphinx_path +:+ " /usr/bin/sphinx-build" +:+ nl)
  | None => mret tt
  end.
Definition say_result : Check unit :=
  say "" ;;
  m ← gets deps;
  when (optional m =? 0)%Z (say "All optional dependencies are met.") ;;
  missing_exit (need m) ;;
  say "Needed package dependencies are met.".
(** [check_needs()]; there is no attribute [need]. *)
Definition check_needs : Check unit :=
  set_text PythonCmd (executable sys) ;;
  check_sphinx conf ;;
  say_system ;;
  virtualenv_cmd ← check_venv;
  check_common ;;
  say_install_cmd ;;
  python_cmd ← get_text PythonCmd;
  when (python_cmd =? "")%string (raise (AttributeError "need")) ;;
  say_symlink ;;
  recommend_sphinx_version virtualenv_cmd ;;
  say_result.
End Hints.
End PreInstall.

(** ** Command line *)

Definition texlive_progs : dict string := [
  ("amsfonts.sty", "texlive-amsfonts"); ("amsmath.sty", "texlive-amsmath"); ("amssymb.sty", "texlive-amsfonts");
  ("amsthm.sty", "texlive-amscls"); ("anyfontsize.sty", "texlive-anyfontsize"); ("atbegshi.sty", "texlive-oberdiek");
  ("bm.sty", "texlive-tools"); ("capt-of.sty", "texlive-capt-of"); ("cmap.sty", "texlive-cmap");
  ("ctexhook.sty", "texlive-ctex"); ("ecrm1000.tfm", "texlive-ec"); ("eqparbox.sty", "texlive-eqparbox");
  ("eu1enc.def", "texlive-euenc"); ("fancybox.sty", "texlive-fancybox"); ("fancyvrb.sty", "texlive-fancyvrb");
  ("float.sty", "texlive-float"); ("fncychap.sty", "texlive-fncychap"); ("footnote.sty", "texlive-mdwtools");
  ("framed.sty", "texlive-framed"); ("luatex85.sty", "texlive-luatex85"); ("multirow.sty", "texlive-multirow");
  ("needspace.sty", "texlive-needspace"); ("palatino.sty", "texlive-psnfss"); ("parskip.sty", "texlive-parskip");
  ("polyglossia.sty", "texlive-polyglossia"); ("tabulary.sty", "texlive-tabulary");
  ("threeparttable.sty", "texlive-threeparttable"); ("titlesec.sty", "texlive-titlesec"); ("ucs.sty", "texlive-ucs");
  ("upquote.sty", "texlive-upquote"); ("wrapfig.sty", "texlive-wrapfig")].
(** [SphinxDependencyChecker(args)] *)
Definition SphinxDependencyChecker_init (pdf : bool) : checker :=
  Checker (DepManager_init pdf)
    (λ k, match k with Pdf => pdf | VerboseWarnInstall | PackageSupported => true | _ => false end)
    (λ _, NO_VERSION) (λ _, "") [].
Definition pre_install_parser : parser := Parser [
    help_option;
    store_false ["--no-virtualenv"] "virtualenv";
    store_false ["--no-pdf"] "pdf";
    store_true ["--version-check"] "version_check"] [] [] [].
(** [main()]; [check] is the call of [PythonVersion.check_python], of which only how
    it ends matters here.  The lines that are printed, and how the run ends. *)
Definition main (sys : system) (check : list Z → bool → bool → outcome) (argv : list string)
    : list string * res unit :=
  match parse_args pre_install_parser no_subcommand argv with
  | Raise e => ([], Raise e)
  | Ok args =>
      match get_system_release sys with
      | Raise e => ([], Raise e)
      | Ok system_release =>
          match check MIN_PYTHON_VERSION true true with
          | Returns =>
              let '(c, r) := check_needs sys (as_bool args "virtualenv") (as_bool args "version_check")
                               texlive_progs system_release (SphinxDependencyChecker_init (as_bool args "pdf")) in
              (printed c, r)
          | Exits None => ([], Raise (Exit 0))
          | Exits (Some msg) => ([], Raise (SystemExit msg))
          | Replaced _ _ => ([], Raise (Exit 0))
          end
      end
  end.
