(* ===== verification/PreInstallSpec.v ===== *)
(** * PreInstallSpec: what [sphinx-pre-install] promises

    The packages of a command, the virtual environment that is chosen, and what holds
    of the system when the script says that nothing is missing. *)

From S2P Require Import Prelude PyStr PyNum PyPath PyRe PyReSyntax PyReTheory Argparse PyVersion PyVersionSpec PreInstall.

(** ** Predicates that the checks keep *)

(** Any way to end, for a statement about the normal ends only. *)
Abbreviation any_exn := (λ _ : exn, True).
Lemma keeps_hoare {A} (P : checker → Prop) (m : Check A) : keeps P m → hoare P m (λ _, P) any_exn.
Proof. intros H c Hc. specialize (H c Hc). by destruct (m c) as [c' [a|e]]. Qed.

(** [P] is kept by what the checks do: a line printed, a package noted or forgotten, an
    attribute set that is not one of those the result depends on. *)
Class Steady (P : checker → Prop) := {
  steady_say : ∀ line, keeps P (say line);
  steady_deps : ∀ f, (∀ m, (need m <= need (f m))%Z) → keeps P (on_deps f);
  steady_flag : ∀ k b, k ≠ NeedSphinx → k ≠ Pdf → keeps P (set_flag k b);
  steady_version : ∀ k v, k ≠ CurVersion → keeps P (set_version k v);
  steady_text : ∀ k s, k ≠ PythonCmd → keeps P (set_text k s);
}.
(** ... and the hints may turn PDF files off. *)
Class SteadyPdf (P : checker → Prop) := {
  #[global] steady_pdf_steady :: Steady P;
  steady_pdf : ∀ b, keeps P (set_flag Pdf b);
}.

Lemma add_package_need p d m : (need m <= need (add_package p d m))%Z.
Proof. unfold add_package. destruct (is_optional d); simpl; lia. Qed.
Lemma del_package_need p m : (need m <= need (del_package p m))%Z.
Proof. simpl. lia. Qed.
Lemma note_missing_need progs m e : need (note_missing progs m e) = need m.
Proof. destruct e as [prog d]. unfold note_missing. by destruct (is_pdf d), (deps_pdf m). Qed.
Lemma check_missing_need progs m : need (fst (check_missing progs m)) = need m.
Proof.
  unfold check_missing. cbn [fst]. generalize (sort_by fst (missing m)). intros l.
  assert (∀ m, need (fold_left (note_missing progs) l m) = need m) as ->; [|done].
  induction l as [|e l IH]; intros m'; [done|]. cbn [fold_left]. by rewrite IH, note_missing_need.
Qed.
#[export] Hint Resolve add_package_need del_package_need : py.

(** One step of a proof that [P] is kept. *)
Ltac kept1 :=
  match goal with
  | |- keeps _ (mret _) => apply keeps_ret
  | |- keeps _ (raise _) => apply keeps_raise
  | |- keeps _ (gets _) => apply keeps_gets
  | |- keeps _ (get_flag _) => apply keeps_gets
  | |- keeps _ (get_version _) => apply keeps_gets
  | |- keeps _ (get_text _) => apply keeps_gets
  | |- keeps _ (lift_res _) => apply keeps_lift
  | |- keeps _ (say _) => apply steady_say
  | |- keeps _ (missing_is _ _) => apply steady_deps; intros; apply add_package_need
  | |- keeps _ (on_deps _) => apply steady_deps; intros; simpl; lia
  | |- keeps _ (set_flag Pdf _) => apply steady_pdf
  | |- keeps _ (set_flag _ _) => apply steady_flag; discriminate
  | |- keeps _ (set_version _ _) => apply steady_version; discriminate
  | |- keeps _ (set_text _ _) => apply steady_text; discriminate
  | |- keeps _ (when _ _) => apply keeps_when
  | |- keeps _ (_ ≫= _) => apply keeps_bind; [|intros]
  | |- keeps _ (for_each _ _) => apply keeps_for_each; intros
  | |- keeps _ (for_acc _ _ _) => apply keeps_for_acc; intros
  | |- keeps _ (match ?x with _ => _ end) => destruct x
  | |- keeps _ ((match ?x with _ => _ end) ≫= _) => destruct x
  | |- keeps _ (let _ := _ in _) => cbv zeta
  | |- _ => solve [auto with py typeclass_instances]
  end.
Ltac kept := repeat kept1.

Section Steady.
Context (sys : system) (virtualenv version_check : bool) (texlive : dict string) (release : string).
Context (P : checker → Prop) `{!Steady P}.

Lemma steady_install progs cmd extra : keeps P (get_install_progs progs cmd extra).
Proof.
  unfold get_install_progs. apply keeps_bind; [|intros; kept].
  intros c Hc. cbv beta zeta.
  destruct (check_missing progs (deps c)) as [m t] eqn:E. cbn [fst].
  pose proof (steady_deps (P := P) (λ m, fst (check_missing progs m))) as H.
  specialize (H (λ m, eq_ind_r (λ z, need m <= z)%Z (Z.le_refl _) (check_missing_need progs m)) c Hc).
  unfold on_deps, modify in H. cbn [fst] in H. by rewrite E in H.
Qed.
Lemma steady_missing_file files p d : keeps P (check_missing_file sys files p d).
Proof. unfold check_missing_file. kept. Qed.
Lemma steady_succeeds cmd : keeps P (succeeds sys cmd).
Proof. unfold succeeds. kept. Qed.
Lemma steady_program prog d : keeps P (check_program sys prog d).
Proof. unfold check_program. kept. Qed.
#[local] Hint Resolve steady_install steady_missing_file steady_succeeds steady_program : py.
Lemma steady_missing_files pkgs d : keeps P (check_missing_files sys pkgs d).
Proof. unfold check_missing_files. kept. Qed.
Lemma steady_programs progs d : keeps P (check_programs sys progs d).
Proof. unfold check_programs. kept. Qed.
Lemma steady_perl_module prog d : keeps P (check_perl_module sys prog d).
Proof. unfold check_perl_module. kept. Qed.
Lemma steady_python_module m : keeps P (check_python_module sys m).
Proof. unfold check_python_module. kept. Qed.
Lemma steady_packages query pkgs d : keeps P (check_packages sys query pkgs d).
Proof. unfold check_packages. kept. Qed.
Lemma steady_tex opt : keeps P (check_missing_tex sys texlive opt).
Proof. unfold check_missing_tex. kept. Qed.
Lemma steady_distro_msg msg : keeps P (set_distro_msg msg).
Proof. unfold set_distro_msg. kept. Qed.
Lemma steady_first_venv fs : ∀ ver, keeps P (first_venv sys fs ver).
Proof. induction fs as [|f fs IH]; intros ver; cbn [first_venv]; kept. Qed.
Lemma steady_upgrade : keeps P (recommend_sphinx_upgrade sys virtualenv).
Proof. pose proof steady_first_venv. unfold recommend_sphinx_upgrade, get_virtenv. kept. Qed.
Lemma steady_system : keeps P (say_system release).
Proof. unfold say_system. kept. Qed.
#[local] Hint Resolve steady_upgrade steady_python_module : py.
Lemma steady_venv : keeps P (check_venv sys virtualenv).
Proof. unfold check_venv. kept. Qed.
Lemma steady_symlink : keeps P (say_symlink sys).
Proof. unfold say_symlink. kept. Qed.
Lemma steady_activate msg b : keeps P (say_activate sys msg b).
Proof. unfold say_activate, deactivate_help. kept. Qed.
End Steady.
#[export] Hint Resolve steady_install steady_missing_file steady_missing_files steady_succeeds steady_program
  steady_programs steady_perl_module steady_python_module steady_packages steady_tex steady_distro_msg
  steady_upgrade steady_system steady_venv steady_symlink steady_activate : py.

Section SteadyPdf.
Context (sys : system) (virtualenv version_check : bool) (texlive : dict string) (release : string).
Context (P : checker → Prop) `{!SteadyPdf P}.

Lemma steady_debian : keeps P (give_debian_hints sys).
Proof. unfold give_debian_hints. kept. Qed.
Lemma steady_redhat_pdf fedora rel noto : keeps P (redhat_pdf sys texlive fedora rel noto).
Proof. unfold redhat_pdf, check_rpm_missing. kept. Qed.
#[local] Hint Resolve steady_redhat_pdf : py.
Lemma steady_redhat : keeps P (give_redhat_hints sys texlive release).
Proof.
  unfold give_redhat_hints. generalize (redhat_release release), (is_fedora release), redhat_progs.
  intros rel fedora progs. kept.
Qed.
Lemma steady_opensuse : keeps P (give_opensuse_hints sys texlive release).
Proof.
  unfold give_opensuse_hints. generalize (re_search re_leap release), opensuse_progs.
  intros m progs. unfold check_rpm_missing. kept.
Qed.
Lemma steady_mageia : keeps P (give_mageia_hints sys release).
Proof.
  unfold give_mageia_hints, check_rpm_missing.
  generalize (bool_decide (is_Some (re_search (compiled no_flags "OpenMandriva") release))).
  intros m. generalize mageia_progs, mandriva_progs. intros p1 p2. kept.
Qed.
Lemma steady_arch : keeps P (give_arch_linux_hints sys).
Proof. unfold give_arch_linux_hints, check_pacman_missing. kept. Qed.
Lemma steady_gentoo : keeps P (give_gentoo_hints sys).
Proof. unfold give_gentoo_hints. kept. Qed.
#[local] Hint Resolve steady_debian steady_redhat steady_opensuse steady_mageia steady_arch steady_gentoo : py.
Lemma steady_get_install : keeps P (get_install sys texlive release).
Proof.
  assert (Forall (λ h, keeps P (snd h)) (os_hints sys texlive release)) as H
    by (unfold os_hints; repeat constructor; cbn [snd]; auto with py typeclass_instances).
  unfold get_install. destruct (List.find _ _) as [[name hint]|] eqn:E.
  - apply List.find_some in E as [E _]. apply list_elem_of_In in E.
    rewrite Forall_forall in H. apply (H _ E).
  - unfold give_no_hints. kept.
Qed.
Lemma steady_install_cmd : keeps P (say_install_cmd sys texlive release).
Proof. pose proof steady_get_install. unfold say_install_cmd. kept. Qed.
End SteadyPdf.
#[export] Hint Resolve steady_get_install steady_install_cmd : py.

(** ** What a normal end tells *)

(** [φ] holds, or something mandatory was missing. *)
Definition owed (φ : Prop) (n : Z) : Prop := (0 <= n)%Z ∧ (φ ∨ (0 < n)%Z).
Lemma owed_mono φ n n' : owed φ n → (n <= n')%Z → owed φ n'.
Proof. unfold owed. intros [H0 [H1|H1]] Hn; (split; [lia|]); [by left | right; lia]. Qed.
Lemma owed_weaken (φ ψ : Prop) n : (φ → ψ) → owed φ n → owed ψ n.
Proof. unfold owed. tauto. Qed.
(** [φ] is owed, and the attributes that the result depends on have their values. *)
Definition owes (φ : Prop) (c : checker) : Prop := owed φ (need (deps c)).
Definition held (φ : Prop) (python : string) (need_sphinx : bool) (cur : list Z) (c : checker) : Prop :=
  owes φ c ∧ text c PythonCmd = python ∧ flag c NeedSphinx = need_sphinx ∧ version c CurVersion = cur.
Definition held_pdf (φ : Prop) python need_sphinx cur (pdf : bool) (c : checker) : Prop :=
  held φ python need_sphinx cur c ∧ flag c Pdf = pdf.
Lemma upd_other {K} `{EqDecision K} {V} (f : K → V) k v k' : k ≠ k' → upd f k v k' = f k'.
Proof. intros H. unfold upd. by rewrite decide_False. Qed.
Lemma upd_same {K} `{EqDecision K} {V} (f : K → V) k v : upd f k v k = v.
Proof. unfold upd. by rewrite decide_True. Qed.
(** Reads the attributes that were set. *)
Ltac attributes :=
  cbn [deps text flag version]; rewrite ?upd_same; rewrite ?upd_other by discriminate; rewrite ?upd_same.
Ltac keep_attribute := intros; apply keeps_modify; intros ? ?; cbn [deps text flag version];
  rewrite ?upd_other by done; done.

#[export] Instance owes_steady φ : Steady (owes φ).
Proof.
  split; unfold owes; try keep_attribute.
  intros f Hf. apply keeps_modify. intros c Hc. by apply (owed_mono _ _ _ Hc).
Qed.
#[export] Instance held_steady φ python n cur : Steady (held φ python n cur).
Proof.
  split; unfold held, owes; try keep_attribute.
  intros f Hf. apply keeps_modify. intros c [Hc ?]. split; [|done]. by apply (owed_mono _ _ _ Hc).
Qed.
#[export] Instance held_pdf_steady φ python n cur pdf : Steady (held_pdf φ python n cur pdf).
Proof.
  split; unfold held_pdf, held, owes; try keep_attribute.
  intros f Hf. apply keeps_modify. intros c [[Hc ?] ?]. split; [|done]. split; [|done].
  by apply (owed_mono _ _ _ Hc).
Qed.
#[export] Instance held_steady_pdf φ python n cur : SteadyPdf (held φ python n cur).
Proof. split; [apply _ | unfold held, owes; keep_attribute]. Qed.
#[export] Instance owes_steady_pdf φ : SteadyPdf (owes φ).
Proof. split; [apply _ | unfold owes; keep_attribute]. Qed.

Section Sound.
Context (sys : system) (virtualenv version_check : bool) (texlive : dict string) (release : string).

(** The command ends with status 0. *)
Definition ran (cmd : list string) : Prop := ∃ out, run sys cmd (environ sys) = Finished 0 out.
Definition found (prog : string) : Prop := is_Some (which sys prog).
Abbreviation ends pre m post := (hoare pre m post any_exn).

(** A check that notes a mandatory package unless [ψ]. *)
Definition demands {A} (ψ : string → Prop) (m : Check A) : Prop :=
  ∀ φ python n cur pdf,
    ends (held_pdf φ python n cur pdf) m (λ _, held_pdf (φ ∧ ψ python) python n cur pdf).

Lemma missing_demands p d ψ : is_optional d = false → demands ψ (missing_is p d).
Proof.
  intros Hd φ python n cur pdf. apply hoare_modify. intros c [[[H0 H1] H2] H3].
  split; [split|]; [|done|done]. unfold owes, owed, add_package. rewrite Hd. cbn. split; [lia | right; lia].
Qed.
Lemma ret_demands {A} (a : A) (ψ : string → Prop) : (∀ python, ψ python) → demands ψ (mret a).
Proof.
  intros Hψ φ python n cur pdf. apply hoare_ret_post. intros c [[H1 H2] H3]. split; [split|]; [|done|done].
  eapply owed_weaken; [|exact H1]. auto.
Qed.
Lemma raise_demands {A} e ψ : demands (A := A) ψ (raise e).
Proof. intros φ python n cur pdf. by apply hoare_raise. Qed.
Lemma demands_keeps {A} (m : Check A) : (∀ P, Steady P → keeps P m) → demands (λ _, True) m.
Proof.
  intros Hm φ python n cur pdf. eapply hoare_post; [apply keeps_hoare, Hm, _|].
  intros _ c [[H1 H2] H3]. split; [split|]; [|done|done]. eapply owed_weaken; [|exact H1]. auto.
Qed.
Lemma demands_seq {A B} (m : Check A) (k : Check B) (ψ χ θ : string → Prop) :
  demands ψ m → demands χ k → (∀ p, ψ p → χ p → θ p) → demands θ (m ;; k).
Proof.
  intros Hm Hk Hθ φ python n cur pdf. eapply hoare_seq; [apply Hm|].
  eapply hoare_post; [apply Hk|]. intros _ c [[H1 H2] H3]. split; [split|]; [|done|done].
  eapply owed_weaken; [|exact H1]. intros [[??]?]. auto.
Qed.
Lemma demands_program prog d : is_optional d = false → demands (λ _, found prog) (check_program sys prog d).
Proof.
  intros Hd. unfold check_program. destruct (which sys prog) as [p|] eqn:E.
  - apply ret_demands. intros _. unfold found. by rewrite E.
  - eapply demands_seq; [by apply (missing_demands _ _ (λ _, found prog)) | apply (ret_demands _ (λ _, True)); done|].
    auto.
Qed.
Lemma demands_programs progs d :
  is_optional d = false → demands (λ _, Forall found progs) (check_programs sys progs d).
Proof.
  intros Hd. unfold check_programs. induction progs as [|prog progs IH]; cbn [for_each].
  - apply ret_demands. auto.
  - eapply demands_seq; [|exact IH|intros p H1 H2; constructor; [exact H1 | exact H2]].
    eapply demands_seq; [by apply demands_program | apply (ret_demands _ (λ _, True)); done | auto].
Qed.
(** A command whose failure notes a package. *)
Lemma demands_succeeds cmd p d : is_optional d = false →
  demands (λ _, ran cmd) (ok ← succeeds sys cmd; when (negb ok) (missing_is p d)).
Proof.
  intros Hd. unfold succeeds. destruct (run sys cmd (environ sys)) as [|status out] eqn:E.
  - intros φ python n cur pdf c _. exact I.
  - destruct (Z.eqb_spec status 0) as [->|Hs].
    + apply (ret_demands tt (λ _, ran cmd)). intros _. by exists out.
    + exact (missing_demands p d (λ _, ran cmd) Hd).
Qed.
Lemma demands_python_module m :
  demands (λ python, ran [python; "-c"; "import " +:+ m]) (check_python_module sys m).
Proof.
  intros φ python n cur pdf. unfold check_python_module.
  eapply hoare_bind; [apply hoare_gets|]. intros python_cmd. cbv beta.
  intros c [-> Hc]. pose proof Hc as [[_ [H2 _]] _]. rewrite H2.
  exact (demands_succeeds [python; "-c"; "import " +:+ m] m PYTHON_MANDATORY eq_refl φ python n cur pdf c Hc).
Qed.
Lemma demands_perl_module prog d : is_optional d = false →
  demands (λ _, found "perl" ∧ ran ["perl"; "-M" +:+ prog; "-e"; "1"]) (check_perl_module sys prog d).
Proof.
  intros Hd. unfold check_perl_module. destruct (which sys "perl") as [perl|] eqn:E.
  - assert (found "perl") as Hp by (unfold found; rewrite E; eauto).
    intros φ python n cur pdf. eapply hoare_post; [by apply demands_succeeds|].
    intros _ c [[H1 H2] H3]. split; [split|]; [|done|done]. eapply owed_weaken; [|exact H1]. tauto.
  - eapply demands_seq; [by apply (missing_demands _ _ (λ _, True)) | |intros python _ H; exact H].
    by apply missing_demands.
Qed.

(** What every build needs. *)
Definition common (python : string) : Prop :=
  (found "perl" ∧ ran ["perl"; "-MPod::Usage"; "-e"; "1"]) ∧ Forall found ["make"; "which"]
  ∧ ran [python; "-c"; "import yaml"].
Definition pdf_programs : list string := ["xelatex"; "rsvg-convert"; "latexmk"].
Lemma common_demands φ python n cur pdf :
  ends (held_pdf φ python n cur pdf) (check_common sys)
    (λ _, held (φ ∧ common python ∧ (pdf = true → Forall found pdf_programs)) python n cur).
Proof.
  unfold check_common.
  eapply hoare_seq; [by apply demands_perl_module|].
  eapply hoare_seq; [by apply demands_programs|].
  eapply hoare_seq; [apply keeps_hoare, steady_programs, _|].
  eapply hoare_seq; [apply demands_python_module|].
  eapply hoare_bind; [apply hoare_gets|]. intros p c [-> Hc]. pose proof Hc as [_ Hp]. rewrite Hp.
  destruct pdf.
  - pose proof (demands_programs pdf_programs PDF_MANDATORY eq_refl _ _ _ _ _ c Hc) as Hf.
    cbn [when]. unfold pdf_programs in Hf.
    destruct (check_programs sys _ _ c) as [c' [a|e]]; [|done].
    destruct Hf as [[H1 H2] _]. split; [|done]. eapply owed_weaken; [|exact H1]. unfold common. tauto.
  - cbn. destruct Hc as [[H1 H2] _]. split; [|done]. eapply owed_weaken; [|exact H1].
    unfold common. intuition discriminate.
Qed.

(** *** The version of sphinx *)

(** The command that the environment gives. *)
Definition sphinx_name : string :=
  match dget (environ sys) "SPHINXBUILD" with
  | Some fname => fname
  | None => if bool_decide (found "sphinx-build") then "sphinx-build"
            else if bool_decide (found "sphinx-build-3") then "sphinx-build-3" else ""
  end.
Definition installed (v : list Z) : Prop := get_sphinx_version sys sphinx_name = Ok (Some v).
(** The version that [conf.py] asks for. *)
Definition required (t : string) (min : list Z) : Prop :=
  match needed_version (readlines t) with Some s => parse_version s = Ok min | None => min = NO_VERSION end.
(** A version of sphinx that is required or recommended is installed. *)
Definition sphinx_ready : Prop :=
  ∃ t min v, read_text sys (conf sys) = Some t ∧ required t min ∧ installed v
    ∧ (ver_le min v = true ∨ ver_le RECOMMENDED_VERSION v = true).

Lemma fname_spec (P : checker → Prop) `{!Steady P} :
  ends P (get_sphinx_fname sys) (λ fname c, fname = sphinx_name ∧ P c).
Proof.
  unfold get_sphinx_fname, sphinx_name, found. destruct (dget _ _) as [fname|]; [apply hoare_ret|].
  destruct (which sys "sphinx-build"); [rewrite bool_decide_true by eauto; apply hoare_ret|].
  rewrite bool_decide_false by (intros [? ?]; discriminate).
  destruct (which sys "sphinx-build-3").
  - rewrite bool_decide_true by eauto.
    eapply hoare_seq; [apply keeps_hoare, steady_flag; discriminate | apply hoare_ret].
  - rewrite bool_decide_false by (intros [? ?]; discriminate). apply hoare_ret.
Qed.
(** What [check_sphinx] leaves. *)
Definition sphinx_checked (python : string) (pdf : bool) (c : checker) : Prop :=
  ∃ n cur, held_pdf True python n cur pdf c ∧ (n = false → sphinx_ready)
    ∧ (cur ≠ NO_VERSION → ver_le RECOMMENDED_VERSION cur = true → sphinx_ready).
Lemma min_spec t python pdf :
  ends (λ c, held_pdf True python false NO_VERSION pdf c ∧ version c MinVersion = NO_VERSION)
    (match needed_version (readlines t) with
     | Some s => v ← lift_res (parse_version s); set_version MinVersion v
     | None => mret tt
     end)
    (λ _ c, held_pdf True python false NO_VERSION pdf c ∧ required t (version c MinVersion)).
Proof.
  unfold required. destruct (needed_version (readlines t)) as [s|]; [|by apply hoare_ret_post].
  destruct (parse_version s) as [v|e]; [|by intros c _].
  intros c [Hc _]. split; [|done].
  exact (steady_version (P := held_pdf True python false NO_VERSION pdf) MinVersion v ltac:(discriminate) c Hc).
Qed.
Lemma check_sphinx_spec python pdf :
  ends (λ c, held_pdf True python false NO_VERSION pdf c ∧ version c MinVersion = NO_VERSION)
    (check_sphinx sys version_check (conf sys)) (λ _, sphinx_checked python pdf).
Proof.
  unfold check_sphinx. destruct (read_text sys (conf sys)) as [t|] eqn:Et; [|by apply hoare_raise].
  eapply hoare_seq; [apply min_spec|].
  eapply hoare_bind; [apply hoare_gets|]. intros min.
  apply (hoare_pre _ _ (λ c, required t min ∧ held_pdf True python false NO_VERSION pdf c));
    [|by intros c [-> [? ?]]].
  apply hoare_pure. intros Hmin.
  eapply hoare_seq; [apply hoare_when, hoare_raise, I|].
  eapply hoare_seq; [apply keeps_hoare, steady_text; discriminate|].
  eapply hoare_bind; [apply fname_spec, _|]. intros fname. apply hoare_pure. intros ->.
  destruct (String.eqb_spec sphinx_name "") as [Ename|Ename].
  - apply hoare_modify. intros c [[H1 [H2 [_ H3]]] H4]. exists true, NO_VERSION.
    unfold held_pdf, held, owes. attributes. done.
  - destruct (get_sphinx_version sys sphinx_name) as [cur|e] eqn:Ecur; [|by intros c _].
    intros c [[H1 [H2 [H3 H4]]] H5]. destruct cur as [[|x v]|]; [exact I| |exact I].
    assert (∀ le, le → (le → ver_le min (x :: v) = true ∨ ver_le RECOMMENDED_VERSION (x :: v) = true) → sphinx_ready)
      as Hready by (intros le Hle Hor; exists t, min, (x :: v); eauto).
    run_ST. cbn [default]. destruct (ver_lt (x :: v) min) eqn:El.
    + cbn. exists true, (x :: v). unfold held_pdf, held, owes. attributes.
      split; [done|]. split; [discriminate|].
      intros _ Hr. by eapply Hready; [exact Hr | right].
    + destruct (version_check && ver_le RECOMMENDED_VERSION (x :: v)); [exact I|].
      cbn. exists false, (x :: v). unfold held_pdf, held, owes. attributes.
      split; [done|].
      assert (ver_le min (x :: v) = true) as Hle
        by (rewrite ver_lt_le in El; by apply negb_false_iff in El).
      split; intros; eapply Hready; eauto.
Qed.

(** *** The whole run *)

Lemma venv_spec (P : checker → Prop) `{!Steady P} :
  ends P (check_venv sys virtualenv)
    (λ _ c, ver_lt (version_info sys) MIN_PYTHON_VERSION = false ∧ P c).
Proof.
  pose proof (steady_venv sys virtualenv P) as Hk. unfold check_venv in *.
  destruct (ver_lt (version_info sys) MIN_PYTHON_VERSION); [by intros c _|].
  eapply hoare_post; [apply keeps_hoare, Hk|]. done.
Qed.
(** The counts are what they were. *)
Lemma owes_recommend_package φ :
  ends (owes φ) (recommend_package sys texlive release) (λ _, owes φ).
Proof.
  assert (∀ {A} (m : Check A), ends (λ _, True) m (λ _ _, True)) as any
    by (intros A m c _; by destruct (m c) as [? [?|?]]).
  unfold recommend_package. eapply hoare_seq; [apply keeps_hoare, steady_say|].
  eapply hoare_bind; [apply hoare_gets|]. intros m.
  apply (hoare_pre _ _ (λ c, owed φ (need m) ∧ True)); [|by intros c [-> H]]. apply hoare_pure. intros Hm.
  eapply hoare_bind; [apply any|]. intros verbose.
  do 5 (eapply hoare_seq; [apply any|]).
  eapply hoare_bind; [apply any|]. intros cmd.
  eapply hoare_seq; [apply any|].
  eapply (hoare_seq _ _ (owes φ)); [by apply hoare_modify | apply keeps_hoare, steady_flag; discriminate].
Qed.
Lemma owes_suggest_versions b cmd latest φ :
  ends (owes φ) (suggest_versions sys b texlive release cmd latest) (λ _, owes φ).
Proof.
  unfold suggest_versions. eapply hoare_bind; [apply keeps_hoare, keeps_gets|]. intros min.
  apply hoare_if; intros _; [apply keeps_hoare, steady_activate, _|].
  eapply hoare_seq; [apply keeps_hoare; kept|].
  unfold say_install. eapply hoare_bind; [apply keeps_hoare, keeps_gets|]. intros upgrade.
  eapply hoare_seq; [apply keeps_hoare; kept|].
  eapply hoare_bind; [apply keeps_hoare, keeps_gets|]. intros dir.
  eapply hoare_seq; [apply keeps_hoare; unfold deactivate_help; kept|].
  eapply hoare_bind; [apply keeps_hoare, keeps_gets|]. intros supported.
  eapply hoare_seq; [apply hoare_when, owes_recommend_package | apply keeps_hoare; kept].
Qed.
Lemma suggest_after (m : Check unit) b cmd latest φ ψ : ends (owes φ) m (λ _, owes ψ) →
  ends (owes φ) (m ;; suggest_versions sys b texlive release cmd latest) (λ _, owes ψ).
Proof. intros Hm. eapply hoare_seq; [exact Hm | apply owes_suggest_versions]. Qed.
(** With a virtual environment asked for, a missing sphinx is counted. *)
Lemma recommend_spec cmd φ python n cur :
  ver_lt (version_info sys) MIN_PYTHON_VERSION = false →
  ends (held φ python n cur) (recommend_sphinx_version sys virtualenv texlive release cmd)
    (λ _, owes (φ ∧ (virtualenv = true → n = false ∨ (cur ≠ NO_VERSION ∧ ver_le RECOMMENDED_VERSION cur = true)))).
Proof.
  intros Hold. unfold recommend_sphinx_version. rewrite Hold.
  intros c Hc. pose proof Hc as [H1 [_ [H2 H3]]].
  run_ST. unfold get_flag, get_version, gets. rewrite andb_false_r, H2, H3.
  set (ψ := virtualenv = true → _). generalize (version c LatestAvailVer). intros latest.
  assert (ψ → owes (φ ∧ ψ) c) as Hok by (intros Hψ; eapply owed_weaken; [|exact H1]; auto).
  pose proof (λ b msg, keeps_hoare _ _ (steady_activate sys (owes (φ ∧ ψ)) msg b) c) as Hactivate.
  destruct (negb (bool_decide (cur = NO_VERSION)) && ver_le RECOMMENDED_VERSION cur) eqn:E1.
  { apply andb_true_iff in E1 as [E1 E2]. apply negb_true_iff, bool_decide_eq_false in E1.
    apply Hok. by right. }
  destruct n; cbn [negb andb].
  - destruct (sumbool_of_bool virtualenv) as [Hv|Hv]; rewrite !Hv; cbn [negb andb].
    + refine (suggest_after (on_deps _) true cmd latest φ _ _ c H1). apply hoare_modify. intros c' [H ?]. unfold owes, owed. cbn [deps set_counts need]. split; [|right]; lia.
    + assert (owes (φ ∧ ψ) c) as Hc' by (apply Hok; intros ?; congruence). clear Hok.
      destruct (bool_decide _ || bool_decide _); [exact Hc'|].
      destruct (ver_lt cur latest); [exact (Hactivate _ _ Hc')|].
      exact (suggest_after (say nl) false cmd latest _ _ (keeps_hoare _ _ (steady_say nl)) c Hc').
  - assert (owes (φ ∧ ψ) c) as Hc' by (apply Hok; by left). clear Hok.
    destruct (given_gt latest cur); [exact (Hactivate _ _ Hc')|].
    destruct (given_ge latest RECOMMENDED_VERSION); [exact Hc'|].
    destruct (negb virtualenv && (bool_decide _ || bool_decide _)); [exact Hc'|].
    destruct (negb virtualenv && ver_lt cur latest); [exact (Hactivate _ _ Hc')|].
    refine (suggest_after (if virtualenv then mret tt else say nl) virtualenv cmd latest _ _ _ c Hc').
    apply keeps_hoare. kept.
Qed.
Lemma say_result_spec φ : ends (owes φ) say_result (λ _ c, φ ∧ last (printed c) = Some "Needed package dependencies are met.").
Proof.
  intros c [H0 Hφ]. unfold say_result, missing_exit, say. run_ST. cbn [deps].
  destruct (optional (deps c) =? 0)%Z; run_ST; cbn [printed];
  (destruct (Z.eqb_spec (need (deps c)) 1); [exact I|]);
  (destruct (Z.eqb_spec (need (deps c)) 0); [|exact I]);
  cbn [negb printed]; (split; [destruct Hφ; [done|lia] | apply last_snoc]).
Qed.
(** What is there when nothing is missing. *)
Definition complete (pdf : bool) : Prop :=
  common (executable sys) ∧ (pdf = true → Forall found pdf_programs) ∧ (virtualenv = true → sphinx_ready).
Lemma check_needs_spec pdf :
  ends (λ c, c = SphinxDependencyChecker_init pdf)
    (check_needs sys virtualenv version_check texlive release)
    (λ _ c, complete pdf ∧ last (printed c) = Some "Needed package dependencies are met.").
Proof.
  unfold check_needs.
  eapply hoare_seq with (R := λ c, held_pdf True (executable sys) false NO_VERSION pdf c ∧ version c MinVersion = NO_VERSION).
  { apply hoare_modify. intros c ->. unfold held_pdf, held, owes, owed. attributes. cbn. intuition lia. }
  eapply hoare_seq; [apply check_sphinx_spec|].
  intros c (n & cur & Hc & Hn & Hcur). revert c Hc.
  change (ends (held_pdf True (executable sys) n cur pdf)
    (say_system release ;; virtualenv_cmd ← check_venv sys virtualenv; check_common sys ;;
     say_install_cmd sys texlive release ;; python_cmd ← get_text PythonCmd;
     when (python_cmd =? "")%string (raise (AttributeError "need")) ;; say_symlink sys ;;
     recommend_sphinx_version sys virtualenv texlive release virtualenv_cmd ;; say_result)
    (λ _ c, complete pdf ∧ last (printed c) = Some "Needed package dependencies are met.")).
  eapply hoare_seq; [apply keeps_hoare, steady_system, _|].
  eapply hoare_bind; [apply venv_spec, _|]. intros cmd. apply hoare_pure. intros Hold.
  eapply hoare_seq; [apply common_demands|].
  eapply hoare_seq; [apply keeps_hoare, steady_install_cmd, _|].
  eapply hoare_bind; [apply keeps_hoare, keeps_gets|]. intros python_cmd.
  eapply hoare_seq; [apply hoare_when, hoare_raise, I|].
  eapply hoare_seq; [apply keeps_hoare, steady_symlink, _|].
  eapply hoare_seq; [by apply recommend_spec|].
  eapply hoare_post; [apply say_result_spec|].
  intros _ c [[[_ [H1 H2]] H3] H4]. split; [|exact H4]. split; [exact H1|]. split; [exact H2|].
  intros Hv. destruct (H3 Hv) as [?|[? ?]]; auto.
Qed.
End Sound.

(** C31 When the script ends normally it says that the needed dependencies are
    met, and they are: [perl] with [Pod::Usage], [make], [which] and the module
    [yaml] of the interpreter that runs it are there; unless [--no-pdf] is given,
    so are the programs that make PDF files; and unless [--no-virtualenv] is given,
    a version of sphinx is installed that is the one [conf.py] asks for, or the
    recommended one, or newer.  No hint for a system takes back what was counted. *)
Theorem deps_met_sound sys check argv out :
  main sys check argv = (out, Ok tt) →
  ∃ args, parse_args pre_install_parser no_subcommand argv = Ok args
    ∧ complete sys (as_bool args "virtualenv") (as_bool args "pdf")
    ∧ last out = Some "Needed package dependencies are met.".
Proof.
  unfold main. destruct (parse_args _ _ argv) as [args|e]; [|done].
  destruct (get_system_release sys) as [release|e]; [|done].
  destruct (check MIN_PYTHON_VERSION true true) as [|[msg|]|? ?]; [|done..].
  pose proof (check_needs_spec sys (as_bool args "virtualenv") (as_bool args "version_check") texlive_progs release
    (as_bool args "pdf") _ eq_refl) as H.
  destruct (check_needs _ _ _ _ _ _) as [c [[]|e]]; intros [=<-].
  exists args. by destruct H.
Qed.

(** ** The packages of a command *)

(** [x] is the name of a missing package of the type [d] that is shown. *)
Definition shown (m : DepManager) (d : dtype) : Prop := is_pdf d = false ∨ deps_pdf m = true.
Definition missing_name (progs : dict string) (m : DepManager) (d : dtype) (x : string) : Prop :=
  shown m d ∧ ∃ prog, (prog, d) ∈ missing m ∧ x = dget_or progs prog prog.
(** [x] is listed under the heading of [d]. *)
Definition listed (l : list (dtype * list string)) (d : dtype) (x : string) : Prop :=
  ∃ names, (d, names) ∈ l ∧ x ∈ names.

Lemma add_pkg_listed d name l d' x :
  listed (add_pkg d name l) d' x ↔ listed l d' x ∨ (d' = d ∧ x = name).
Proof.
  unfold listed. induction l as [|[d1 names] l IH]; cbn [add_pkg].
  - setoid_rewrite list_elem_of_singleton. split.
    + intros (ns & [=-> ->] & H). apply list_elem_of_singleton in H. auto.
    + intros [(ns & H & _)|[-> ->]]; [by apply not_elem_of_nil in H|]. exists [name]. by rewrite list_elem_of_singleton.
  - case_bool_decide as E.
    + subst d1. setoid_rewrite elem_of_cons. split.
      * intros (ns & [[=-> ->]|H] & Hx); [|eauto]. apply elem_of_app in Hx as [Hx|Hx]; [eauto|].
        apply list_elem_of_singleton in Hx. auto.
      * intros [(ns & [[=-> ->]|H] & Hx)|[-> ->]]; [|eauto|].
        -- exists (names ++ [name]). split; [by left | apply elem_of_app; by left].
        -- exists (names ++ [name]). split; [by left | apply elem_of_app; right; by left].
    + setoid_rewrite elem_of_cons. split.
      * intros (ns & [[=-> ->]|H] & Hx); [eauto|].
        destruct (proj1 IH (ex_intro _ ns (conj H Hx))) as [(ns' & ? & ?)|?]; [left; eauto | by right].
      * intros [(ns & [[=-> ->]|H] & Hx)|Hd]; [eauto|..].
        -- destruct (proj2 IH (or_introl (ex_intro _ ns (conj H Hx)))) as (ns' & ? & ?). eauto.
        -- destruct (proj2 IH (or_intror Hd)) as (ns' & ? & ?). eauto.
Qed.
Lemma note_missing_listed progs m prog d d' x :
  listed (missing_pkg (note_missing progs m (prog, d))) d' x
  ↔ listed (missing_pkg m) d' x ∨ (shown m d ∧ d' = d ∧ x = dget_or progs prog prog).
Proof.
  unfold note_missing, shown. destruct (is_pdf d), (deps_pdf m); cbn [andb negb missing_pkg]; try rewrite add_pkg_listed;
    intuition discriminate.
Qed.
Lemma note_missing_same progs m e :
  missing (note_missing progs m e) = missing m ∧ deps_pdf (note_missing progs m e) = deps_pdf m.
Proof. destruct e. unfold note_missing. by destruct (is_pdf _), (deps_pdf m). Qed.
Lemma note_all progs l : ∀ m d x,
  let m' := fold_left (note_missing progs) l m in
  missing m' = missing m ∧ (listed (missing_pkg m') d x
  ↔ listed (missing_pkg m) d x ∨ (shown m d ∧ ∃ prog, (prog, d) ∈ l ∧ x = dget_or progs prog prog)).
Proof.
  induction l as [|[prog d0] l IH]; intros m d x; cbn [fold_left].
  - split; [done|]. split; [by left|]. intros [?|(_ & prog & H & _)]; [done|]. by apply not_elem_of_nil in H.
  - specialize (IH (note_missing progs m (prog, d0)) d x) as [IH1 IH2].
    pose proof (note_missing_same progs m (prog, d0)) as [E1 E2].
    split; [by rewrite IH1|]. rewrite IH2, note_missing_listed. unfold shown. rewrite E2. setoid_rewrite elem_of_cons.
    split.
    + intros [[?|(? & -> & ->)]|(? & p & ? & ->)]; [by left | right; eauto | right; eauto].
    + intros [?|(? & p & [[=-> ->]|?] & ->)]; [by left; left | left; right; eauto | right; eauto].
Qed.
Lemma sorted_set_elem x l : x ∈ sorted_set l ↔ x ∈ l.
Proof. unfold sorted_set. by rewrite sort_by_perm, elem_of_remove_dups. Qed.
Lemma sorted_set_nodup l : NoDup (sorted_set l).
Proof. unfold sorted_set. rewrite sort_by_perm. apply NoDup_remove_dups. Qed.
Lemma listed_flat l x : x ∈ flat_map snd l ↔ ∃ d, listed l d x.
Proof.
  unfold listed. rewrite list_elem_of_In, in_flat_map. setoid_rewrite <-list_elem_of_In. split.
  - intros ([d names] & ? & ?). eauto.
  - intros (d & names & ? & ?). by exists (d, names).
Qed.
Lemma check_missing_listed progs m d x :
  listed (missing_pkg (fst (check_missing progs m))) d x ↔ missing_name progs m d x.
Proof.
  unfold check_missing. cbn [fst].
  destruct (note_all progs (sort_by fst (missing m)) (MkDeps (missing m) [] (need m) (optional m) (deps_pdf m)) d x)
    as [_ ->]. unfold missing_name, listed, shown. cbn [missing_pkg deps_pdf].
  setoid_rewrite (sort_by_perm fst (missing m)). split; [|by right].
  intros [(names & H & _)|H]; [by apply not_elem_of_nil in H | exact H].
Qed.

(** C35 The command that is proposed: it installs exactly what is missing.  The
    list of packages is sorted, without duplicates, and has the name that the system
    gives to each program or module that was noted, except for those of PDF files when
    these are not asked for; there is no command exactly when that list says nothing.
    With the types shown, the warning lists each name under the heading of the types
    it is missing for.  Looking does not change what is missing, nor what is counted as
    mandatory. *)
Theorem install_lists_missing progs cmd extra c :
  ∃ c' packages,
    let intro := (if flag c VerboseWarnInstall then "You should run:" else "")
                 +:+ (if (extra =? "")%string then "" else nl +:+ tab +:+ replace nl (nl +:+ tab) extra) in
    get_install_progs progs (Some cmd) extra c
    = (c', Ok (if (join " " packages =? "")%string then None
               else Some (intro +:+ nl +:+ tab +:+ "sudo " +:+ cmd +:+ " " +:+ join " " packages)))
    ∧ Sorted (key_le id) packages ∧ NoDup packages
    ∧ (∀ x, x ∈ packages ↔ ∃ d, missing_name progs (deps c) d x)
    ∧ (∀ d x, listed (missing_pkg (deps c')) d x ↔ missing_name progs (deps c) d x)
    ∧ printed c' = printed c ++ (if flag c VerboseWarnInstall then option_list (warn_install (deps c')) else [])
    ∧ missing (deps c') = missing (deps c) ∧ need (deps c') = need (deps c).
Proof.
  set (m := fst (check_missing progs (deps c))).
  set (packages := sorted_set (flat_map snd (missing_pkg m))).
  set (out := printed c ++ (if flag c VerboseWarnInstall then option_list (warn_install m) else [])).
  exists (Checker m (flag c) (version c) (text c) out), packages. cbv zeta. cbn [deps printed]. split.
  { unfold get_install_progs. run_ST. change (check_missing progs (deps c)) with (m, join " " packages).
    unfold get_flag, gets. cbn [flag deps]. subst out.
    destruct (flag c VerboseWarnInstall); [destruct (warn_install m)|]; cbn [say modify printed option_list];
      rewrite ?app_nil_r; by destruct (join " " packages =? "")%string. }
  split; [apply sort_by_sorted|]. split; [apply sorted_set_nodup|].
  split; [|split; [apply check_missing_listed|split; [done|split]]].
  - intros x. subst packages m. rewrite sorted_set_elem, listed_flat. by setoid_rewrite check_missing_listed.
  - exact (proj1 (note_all progs (sort_by fst (missing (deps c)))
      (MkDeps (missing (deps c)) [] (need (deps c)) (optional (deps c)) (deps_pdf (deps c))) SYSTEM_MANDATORY "")).
  - apply check_missing_need.
Qed.

(** ** The virtual environment *)

Section Venv.
Context (sys : system).
Definition sphinx_of (f : string) : string := replace "activate" "sphinx-build" f.
(** The name tells a version that is too old. *)
Definition too_old (min : list Z) (f : string) : bool :=
  match venv_version f with Some v => ver_lt v min | None => false end.
(** There is a [sphinx-build], and it does not tell its version. *)
Definition silent (f : string) : bool :=
  match get_sphinx_version sys (sphinx_of f) with Ok (None | Some []) => true | _ => false end.
Definition broken (min : list Z) (f : string) : bool := negb (too_old min f) && isfile sys (sphinx_of f) && silent f.
Definition passed_over (min : list Z) (f : string) : bool :=
  too_old min f || negb (isfile sys (sphinx_of f)) || broken min f.
(** The files before the first that is not passed over. *)
Fixpoint before (min : list Z) (fs : list string) : list string :=
  match fs with f :: fs => if passed_over min f then f :: before min fs else [] | [] => [] end.
(** Lines printed. *)
Definition printing (lines : list string) (c : checker) : checker :=
  Checker (deps c) (flag c) (version c) (text c) (printed c ++ lines).
Definition first_of (min : list Z) (fs : list string) : option string :=
  List.find (λ f, negb (passed_over min f)) fs.
(** How the search ends at a file. *)
Definition choose (need : bool) (min : list Z) (f : string) : res (string * list Z) :=
  match get_sphinx_version sys (sphinx_of f) with
  | Ok v => if need && ver_le min (default [] v) then Ok (f, default [] v) else Raise (AttributeError "split")
  | Raise e => Raise e
  end.

Lemma first_venv_spec fs : ∀ c ver, ∃ ver',
  first_venv sys fs ver c
  = (printing (map not_working (List.filter (broken (version c MinVersion)) (before (version c MinVersion) fs))) c,
     match first_of (version c MinVersion) fs with
     | Some f => choose (flag c NeedSphinx) (version c MinVersion) f
     | None => Ok ("", ver')
     end).
Proof.
  induction fs as [|f fs IH]; intros c ver; cbn [first_venv before first_of List.find].
  { exists ver. unfold printing. destruct c. cbn. by rewrite app_nil_r. }
  run_ST. unfold get_version at 1, gets. set (min := version c MinVersion) in *.
  assert (bool_decide (is_Some (venv_version f)) && ver_lt (default ver (venv_version f)) min = too_old min f) as ->
    by (unfold too_old; by destruct (venv_version f)).
  fold (sphinx_of f). unfold passed_over at 1 2.
  assert (broken min f = negb (too_old min f) && isfile sys (sphinx_of f) && silent f) as Eb by done.
  destruct (too_old min f) eqn:Eo; cbn [orb negb andb].
  { destruct (IH c (default ver (venv_version f))) as [ver' ->]. exists ver'. cbn [List.filter]. by rewrite Eb. }
  destruct (isfile sys (sphinx_of f)) eqn:Ef; cbn [orb negb andb].
  2: { destruct (IH c (default ver (venv_version f))) as [ver' ->]. exists ver'. cbn [List.filter]. by rewrite Eb. }
  rewrite Eb. cbn [negb andb]. unfold silent, choose.
  assert (∀ ver', ∃ ver'', first_venv sys fs ver' (printing [not_working f] c)
    = (printing (not_working f :: map not_working (List.filter (broken min) (before min fs))) c,
       match first_of min fs with Some f => choose (flag c NeedSphinx) min f | None => Ok ("", ver'') end)) as Hon.
  { intros ver'. destruct (IH (printing [not_working f] c) ver') as [ver'' ->]. exists ver''.
    unfold printing. cbn [deps flag version text printed]. by rewrite <-app_assoc. }
  destruct (get_sphinx_version sys (sphinx_of f)) as [[[|x v]|]|e] eqn:Ev; cbn [negb].
  - destruct (Hon []) as [ver' Hv]. exists ver'. cbn [List.filter]. rewrite Eb. cbn [negb andb]. unfold silent.
    rewrite Ev. exact Hv.
  - exists []. unfold get_flag, gets, printing. cbn [List.filter map]. rewrite app_nil_r, ?Ev. clearbody min.
    destruct c as [cd cf cv ct cp]. cbn [flag]. change (default [] (Some (x :: v))) with (x :: v).
    by destruct (cf NeedSphinx && ver_le min (x :: v)).
  - destruct (Hon []) as [ver' Hv]. exists ver'. cbn [List.filter]. rewrite Eb. cbn [negb andb]. unfold silent.
    rewrite Ev. exact Hv.
  - exists []. unfold printing. cbn [List.filter map]. rewrite app_nil_r, ?Ev. by destruct c.
Qed.
Lemma before_spec min fs : Forall (λ f, passed_over min f = true) (before min fs)
  ∧ match first_of min fs with
    | Some f => passed_over min f = false ∧ ∃ after, fs = before min fs ++ f :: after
    | None => fs = before min fs
    end.
Proof.
  induction fs as [|f fs [IH1 IH2]]; cbn [before first_of List.find]; [done|].
  destruct (passed_over min f) eqn:E; cbn [negb].
  - split; [by constructor|]. fold (first_of min fs). destruct (first_of min fs) as [f'|].
    + destruct IH2 as [H [after Hfs]]. split; [exact H|]. exists after. cbn [app]. by f_equal.
    + by f_equal.
  - split; [done|]. split; [done|]. by exists fs.
Qed.
Lemma not_passed_over min f : passed_over min f = false →
  too_old min f = false ∧ isfile sys (sphinx_of f) = true ∧ silent f = false.
Proof.
  unfold passed_over, broken. destruct (too_old min f), (isfile sys (sphinx_of f)), (silent f); done.
Qed.
Lemma activates_spec : ∃ latest numbered, activates sys = latest ++ numbered
  ∧ (∀ f, f ∈ latest ↔ ∃ p, p ∈ virtenv_prefix ∧ f ∈ glob sys (cwd sys +:+ "/" +:+ p +:+ "*latest/bin/activate"))
  ∧ (∀ f, f ∈ numbered ↔ ∃ p, p ∈ virtenv_prefix ∧ f ∈ glob sys (cwd sys +:+ "/" +:+ p +:+ "[0-9]*/bin/activate"))
  ∧ Sorted (λ f g, (str_lower g <=? str_lower f)%string = true) numbered.
Proof.
  unfold activates. cbv zeta. cbn [virtenv_prefix fold_left].
  eexists _, _. split; [by rewrite app_assoc|]. split; [|split].
  - intros f. rewrite elem_of_app. split.
    + intros [H|H]; eexists; (split; [|exact H]); [right; left | left].
    + intros (p & Hp & H). repeat (apply elem_of_cons in Hp as [->|Hp]; [by auto|]). by apply not_elem_of_nil in Hp.
  - intros f. rewrite isort_perm, list_elem_of_In, in_flat_map. setoid_rewrite list_elem_of_In. done.
  - eapply Sorted_weaken; [|apply isort_sorted; intros x y; apply string_leb_total]. done.
Qed.
End Venv.

(** C36 The virtual environment that is proposed.  The environments of the latest
    version come first, then the others by descending names.  Those whose name tells
    a version below the minimum, that have no [sphinx-build] or whose [sphinx-build]
    does not work are passed over, with one warning for each of the last kind and
    nothing else changed.  The first that is left decides: it is the answer, with the
    version that it reports, when sphinx is needed and that version is not below the
    minimum; otherwise the search raises [AttributeError], as the version is then
    taken for a text.  When none is left the answer is the empty name. *)
Theorem get_virtenv_first sys c :
  let min := version c MinVersion in
  ∃ latest numbered passed rest ver,
    latest ++ numbered = passed ++ rest
    ∧ (∀ f, f ∈ latest ↔ ∃ p, p ∈ virtenv_prefix ∧ f ∈ glob sys (cwd sys +:+ "/" +:+ p +:+ "*latest/bin/activate"))
    ∧ (∀ f, f ∈ numbered ↔ ∃ p, p ∈ virtenv_prefix ∧ f ∈ glob sys (cwd sys +:+ "/" +:+ p +:+ "[0-9]*/bin/activate"))
    ∧ Sorted (λ f g, (str_lower g <=? str_lower f)%string = true) numbered
    ∧ Forall (λ f, too_old min f = true ∨ isfile sys (sphinx_of f) = false ∨ silent sys f = true) passed
    ∧ get_virtenv sys c
      = (printing (map not_working (List.filter (broken sys min) passed)) c,
         match rest with
         | [] => Ok ("", ver)
         | f :: _ =>
             match get_sphinx_version sys (sphinx_of f) with
             | Ok v => if flag c NeedSphinx && ver_le min (default [] v) then Ok (f, default [] v)
                       else Raise (AttributeError "split")
             | Raise e => Raise e
             end
         end)
    ∧ match rest with
      | [] => True
      | f :: _ => too_old min f = false ∧ isfile sys (sphinx_of f) = true ∧ silent sys f = false
      end.
Proof.
  intros min. destruct (activates_spec sys) as (latest & numbered & E & Hl & Hn & Hs).
  destruct (first_venv_spec sys (activates sys) c NO_VERSION) as [ver Hv].
  destruct (before_spec sys min (activates sys)) as [Hp Hf]. fold min in Hv.
  assert (Forall (λ f, too_old min f = true ∨ isfile sys (sphinx_of f) = false ∨ silent sys f = true)
            (before sys min (activates sys))) as Hpassed.
  { eapply Forall_impl; [exact Hp|]. intros f. unfold passed_over, broken.
    destruct (too_old min f), (isfile sys (sphinx_of f)), (silent sys f); auto. }
  rewrite E in *. unfold get_virtenv. rewrite E, Hv.
  destruct (first_of sys min (latest ++ numbered)) as [f|].
  - destruct Hf as [Hf [after Ha]]. exists latest, numbered, (before sys min (latest ++ numbered)), (f :: after), ver.
    split; [exact Ha|]. do 4 (split; [done|]). split; [done|]. by apply not_passed_over.
  - exists latest, numbered, (before sys min (latest ++ numbered)), [], ver. split; [by rewrite app_nil_r|]. done.
Qed.

(** ** A run *)

(** A system with some programs: [conf.py] asks for a version, and [sphinx-build] tells [v]. *)
Definition run_in_system (v : string) (cmd : list string) (_ : dict string) : finished :=
  match cmd with
  | "perl" :: _ | "/usr/bin/python3" :: _ => Finished 0 ""
  | [_; "--version"] => Finished 0 ("sphinx-build " +:+ v +:+ nl)
  | _ => NotFound
  end.
Definition one_system (progs : list string) (needs v : string) : system :=
  System [("PATH", "/bin:/usr/bin")] (λ p, smem p (map (λ prog, "/usr/bin/" +:+ prog) progs)) (λ _, false) (λ _, true)
    (λ p, if (p =? "./Documentation/conf.py")%string then Some ("needs_sphinx = '" +:+ needs +:+ "'" +:+ nl) else None)
    (run_in_system v) (λ _, []) "/work" true "/usr/bin/python3" [3; 11; 2]%Z.
Definition good_python (_ : list Z) (_ _ : bool) : outcome := Returns.
Definition some_progs : list string := ["perl"; "make"; "which"; "dot"; "convert"].
(** Without a virtual environment asked for, the script does not look for sphinx. *)
Example no_virtualenv_unchecked :
  snd (main (one_system some_progs "3.4.3" "") good_python ["--no-pdf"; "--no-virtualenv"]) = Ok tt
  ∧ snd (main (one_system some_progs "3.4.3" "") good_python ["--no-pdf"])
    = Raise (SystemExit "Can't build as 1 mandatory dependency is missing").
Proof. vm_compute. auto. Qed.
(** A minimum above the recommended version is not enforced. *)
Example minimum_not_enforced :
  main (one_system ("sphinx-build" :: some_progs) "7.0" "4.2.0") good_python ["--no-pdf"]
  = (["ERROR: Sphinx version is 4.2.0. It should be >= 7.0"; "Unknown OS"; "Sphinx version: 4.2.0" +:+ nl;
      nl +:+ unknown_msg ""; ""; "All optional dependencies are met."; "Needed package dependencies are met."], Ok tt).
Proof. vm_compute. reflexivity. Qed.
Lemma deps_met_sound_witness :
  ∃ out, main (one_system ("sphinx-build" :: some_progs) "3.4.3" "7.2.6") good_python ["--no-pdf"] = (out, Ok tt)
    ∧ ∃ args, parse_args pre_install_parser no_subcommand ["--no-pdf"] = Ok args
      ∧ complete (one_system ("sphinx-build" :: some_progs) "3.4.3" "7.2.6") (as_bool args "virtualenv") (as_bool args "pdf")
      ∧ last out = Some "Needed package dependencies are met.".
Proof.
  eexists. assert (main (one_system ("sphinx-build" :: some_progs) "3.4.3" "7.2.6") good_python ["--no-pdf"] = (_, Ok tt)) as H
    by (vm_compute; reflexivity).
  split; [exact H|]. exact (deps_met_sound _ _ _ _ H).
Defined.
