(* ===== verification/Conf.v ===== *)
(** * Conf: [sphinx/conf.py], and what the extensions do when they are loaded

    The settings of a build, and the calls that [kerneldoc.py] and
    [automarkup.py] make of sphinx in [setup].  Sphinx itself is not modelled:
    the settings are a dictionary, the calls a list. *)

From S2P Require Import Prelude PyStr PyNum PyPath PyRe PyReSyntax PyReTheory Argparse.

(** ** The interpreter *)

(** [os.environ] and [sys.path]. *)
Record python := Python { environ : dict string; sys_path : list string }.
Definition insert_path (path : string) : ST python unit :=
  modify (λ p, Python (environ p) (path :: sys_path p)).
Definition setdefault (key value : string) : ST python unit :=
  modify (λ p, Python (if dmem (environ p) key then environ p else dset (environ p) key value) (sys_path p)).

(** ** [conf.py] *)

Section Conf.
(** The current folder, and the path of the file. *)
Context (cwd file : string).
Definition DOCS_SPHINX_DIR : string := dirname (abspath cwd file).
Definition PROJECT_ROOT : string := abspath cwd (path_join (path_join DOCS_SPHINX_DIR "..") "..").
Definition WISP_DIR : string := path_join PROJECT_ROOT "wisp".
Definition KDOC_VENDOR_DIR : string := path_join (path_join PROJECT_ROOT "docs") "kerneldoc-src".
Definition settings : dict value := [
  ("project", VStr "PiGhost"); ("author", VStr "Simon Gibson"); ("copyright", VStr "2026, Simon Gibson");
  ("release", VStr "0.0.1");
  ("extensions", VList ["kerneldoc"; "automarkup"]);
  ("kerneldoc_srctree", VStr WISP_DIR);
  ("kerneldoc_verbosity", VNat 0);
  ("c_id_attributes", VList ["__packed"; "WISPC_API"; "WISP_ATOMIC"]);
  ("c_id_paren_attributes", VList ["WISP_ALIGNAS"]);
  ("primary_domain", VStr "c"); ("highlight_language", VStr "c");
  ("exclude_patterns", VList ["_build"]); ("html_theme", VStr "alabaster")].
Definition conf : ST python (dict value) :=
  insert_path DOCS_SPHINX_DIR ;;
  setdefault "srctree" KDOC_VENDOR_DIR ;;
  mret settings.
End Conf.

(** ** Loading the extensions *)

(** The statements of [kerneldoc.py] before its imports of [kdoc]. *)
Definition import_kerneldoc (cwd : string) : ST python unit :=
  e ← gets environ;
  match dget e "srctree" with
  | None => raise (KeyError "srctree")
  | Some tree => insert_path (path_join (abspath cwd tree) "tools/lib/python")
  end.
(** What an extension asks of sphinx. *)
Inductive call :=
| AddConfigValue (name : string) (default : value) (rebuild : string)
| AddDirective (name cls : string)
| Connect (event callback : string).
(** [setup(app)] of [kerneldoc.py] and of [automarkup.py]. *)
Definition kerneldoc_setup : list call :=
  [AddConfigValue "kerneldoc_srctree" VNone "env"; AddConfigValue "kerneldoc_verbosity" (VNat 1) "env";
   AddDirective "kernel-doc" "KernelDocDirective"; Connect "builder-inited" "setup_kfiles"].
Definition automarkup_setup : list call := [Connect "doctree-resolved" "auto_markup"].
(** The build begins: [conf.py] is read, then the extensions are loaded. *)
Definition start (cwd file : string) : ST python (dict value * list call) :=
  s ← conf cwd file;
  import_kerneldoc cwd ;;
  mret (s, kerneldoc_setup ++ automarkup_setup).
