(* ===== verification/ConfSpec.v ===== *)
(** * ConfSpec: from the settings and the generated pages to the documentation *)

From S2P Require Import Prelude PyStr PyNum PyPath PyRe PyReSyntax PyReTheory KdocRe CLex Xforms.
From S2P Require Import KdocItem KdocEntry KdocParams KdocDump KdocProcess KdocOutput KdocOutputSpec KdocText KdocYaml.
From S2P Require Import Argparse KdocFiles KdocFilesSpec Directive DirectiveSpec KdocShared Tools ToolsSpec Conf.

(** ** Folders *)

Lemma norm_abs comps : comps ≠ [] → Forall (λ c, sall (λ x, negb (x =? "/")%char) c = true) comps →
  norm_comps (abs_path comps) = fold_left (norm_comp true) comps [].
Proof.
  intros Hc HF. unfold norm_comps, abs_path.
  change (split_char "/" (String "/" (join "/" comps))) with ("" :: split_char "/" (join "/" comps)).
  rewrite (split_char_join "/") by done. done.
Qed.
Lemma abspath_norm cwd comps W : comps ≠ [] → hd "" comps ≠ "" →
  Forall (λ c, sall (λ x, negb (x =? "/")%char) c = true) comps →
  fold_left (norm_comp true) comps [] = W → abspath cwd (abs_path comps) = abs_path W.
Proof.
  intros Hc Hh HF HW. unfold abspath. change (startswith "/" (abs_path comps)) with true. cbn iota.
  unfold normpath. rewrite norm_abs, HW by done.
  assert (startswith "//" (abs_path comps) = false) as ->.
  { unfold abs_path. destruct comps as [|c comps]; [done|]. cbn [hd] in Hh. destruct c as [|x c]; [done|].
    apply Forall_cons in HF as [Hx _]. cbn [sall] in Hx. apply andb_prop in Hx as [Hx _].
    assert (join "/" (String x c :: comps) = String x (join "/" (c :: comps))) as -> by by destruct comps.
    apply negb_true_iff, Ascii.eqb_neq in Hx. cbn [startswith].
    rewrite (proj2 (Ascii.eqb_neq "/" x)) by congruence. done. }
  done.
Qed.
Lemma plain_slash_free W : Forall plain_comp W → Forall (λ c, sall (λ x, negb (x =? "/")%char) c = true) W.
Proof. intros HF. eapply Forall_impl; [exact HF|]. by intros c []. Qed.
Lemma plain_hd W l : W ≠ [] → Forall plain_comp W → hd "" (W ++ l) ≠ "".
Proof. intros HW HF. destruct W as [|c W]; [done|]. apply Forall_cons in HF as [[Hc _] _]. intros E. apply Hc. cbn in E. subst. by left. Qed.
Lemma abspath_plain cwd W : W ≠ [] → Forall plain_comp W → abspath cwd (abs_path W) = abs_path W.
Proof.
  intros HW HF. apply abspath_norm; [done| |by apply plain_slash_free|by rewrite norm_comps_fold].
  rewrite <- (app_nil_r W). by apply plain_hd.
Qed.
Lemma dirname_abs W x : W ≠ [] → Forall plain_comp W → plain_comp x → dirname (abs_path (W ++ [x])) = abs_path W.
Proof.
  intros HW HF [_ Hx]. unfold dirname, abs_path. rewrite join_snoc by done.
  change (String "/" (join "/" W +:+ "/" +:+ x)) with (String "/" (join "/" W) +:+ String "/" x).
  rewrite upto_last_slash_app by done. destruct (join_last W HW HF) as (s & c & -> & Hc).
  assert (sall (Ascii.eqb "/") (String "/" (s +:+ String c "") +:+ "/") = false) as ->.
  { change (String "/" (s +:+ String c "") +:+ "/") with (String "/" ((s +:+ String c "") +:+ "/")).
    cbn [sall]. rewrite !sall_app. cbn [sall]. rewrite (proj2 (Ascii.eqb_neq "/" c)) by congruence.
    by rewrite !andb_false_r. }
  change (String "/" (s +:+ String c "") +:+ "/") with (String "/" ((s +:+ String c "") +:+ "/")).
  rewrite sapp_assoc. exact (rstrip_slash (String "/" s) c Hc).
Qed.
Lemma up_from W x : plain_comp x → fold_left (norm_comp true) [".."] (W ++ [x]) = W.
Proof.
  intros [Hx _]. cbn [fold_left]. unfold norm_comp. change (smem ".." [""; "."]) with false.
  change (negb (".." =? "..")%string) with false. change (negb true) with false. cbn [andb orb].
  rewrite last_snoc. rewrite bool_decide_eq_false_2; [by rewrite removelast_last|].
  intros [= ->]. apply Hx. set_solver.
Qed.

(** ** The folders of the repository *)

Section Repository.
(** The repository is at [R]; its files are called by any path that leads there. *)
Context (R : list string) (R_some : R ≠ []) (R_plain : Forall plain_comp R).
Context (cwd conf_file gen_file : string).
Context (conf_at : abspath cwd conf_file = abs_path (R ++ ["docs"; "sphinx"; "conf.py"])).
Context (gen_at : abspath cwd gen_file = abs_path (R ++ ["docs"; "generate_rst.py"])).

Ltac plain_names := repeat first [apply Forall_cons; split | apply Forall_nil; exact I | by apply plain_comp_dec].
Lemma below_plain l : Forall plain_comp l → Forall plain_comp (R ++ l).
Proof using R_plain. intros H. by apply Forall_app. Qed.
Lemma below_some l : R ++ l ≠ [].
Proof using R_some. by intros [H _]%app_eq_nil. Qed.

Lemma sphinx_dir : DOCS_SPHINX_DIR cwd conf_file = abs_path (R ++ ["docs"; "sphinx"]).
Proof using R_some R_plain conf_at.
  unfold DOCS_SPHINX_DIR. rewrite conf_at. change ["docs"; "sphinx"; "conf.py"] with (["docs"; "sphinx"] ++ ["conf.py"]).
  rewrite app_assoc. apply dirname_abs; [apply below_some|apply below_plain; plain_names|by apply plain_comp_dec].
Qed.
Lemma below_named l : Forall named l → Forall named (R ++ l).
Proof using R_plain. intros H. apply Forall_app. split; [|done]. eapply Forall_impl; [exact R_plain|apply plain_named]. Qed.
Ltac names := repeat first [apply Forall_cons; split | apply Forall_nil; exact I | by split].

Lemma join_below l n : Forall named l → named n → path_join (abs_path (R ++ l)) n = abs_path (R ++ l ++ [n]).
Proof using R_some R_plain.
  intros Hl Hn. rewrite path_join_named; [by rewrite <- app_assoc|apply below_some|by apply below_named|done].
Qed.

Lemma project_root : PROJECT_ROOT cwd conf_file = abs_path R.
Proof using R_some R_plain conf_at.
  unfold PROJECT_ROOT. rewrite sphinx_dir.
  rewrite join_below by (names; done). rewrite join_below by (names; done).
  apply abspath_norm; [apply below_some|by apply plain_hd|apply Forall_app; split; [by apply plain_slash_free|repeat constructor]|].
  rewrite fold_left_app, (norm_comps_fold true R []) by done. cbn [app].
  change ["docs"; "sphinx"; ".."; ".."] with (["docs"; "sphinx"] ++ [".."] ++ [".."]).
  rewrite !fold_left_app.
  rewrite (norm_comps_fold true ["docs"; "sphinx"]) by plain_names. change (R ++ ["docs"; "sphinx"]) with (R ++ ["docs"] ++ ["sphinx"]).
  rewrite app_assoc, !up_from by (by apply plain_comp_dec). done.
Qed.
Lemma wisp_dir : WISP_DIR cwd conf_file = abs_path (R ++ ["wisp"]).
Proof using R_some R_plain conf_at.
  unfold WISP_DIR. rewrite project_root. rewrite <- (app_nil_r R) at 1. by rewrite join_below by (names; done).
Qed.
Lemma vendor_dir : KDOC_VENDOR_DIR cwd conf_file = abs_path (R ++ ["docs"; "kerneldoc-src"]).
Proof using R_some R_plain conf_at.
  unfold KDOC_VENDOR_DIR. rewrite project_root. rewrite <- (app_nil_r R) at 1. by rewrite !join_below by (names; done).
Qed.
Lemma root_dir : GenerateRst.ROOT cwd gen_file = abs_path (R ++ ["docs"]).
Proof using R_some R_plain gen_at.
  unfold GenerateRst.ROOT. rewrite gen_at. change ["docs"; "generate_rst.py"] with (["docs"] ++ ["generate_rst.py"]).
  rewrite app_assoc. apply dirname_abs; [apply below_some|apply below_plain; plain_names|by apply plain_comp_dec].
Qed.
Lemma wisp_path : GenerateRst.WISP_PATH cwd gen_file = abs_path (R ++ ["wisp"]).
Proof using R_some R_plain gen_at.
  unfold GenerateRst.WISP_PATH. rewrite root_dir. rewrite !join_below by (names; done).
  apply abspath_norm; [apply below_some|by apply plain_hd|apply Forall_app; split; [by apply plain_slash_free|repeat constructor]|].
  rewrite fold_left_app, (norm_comps_fold true R []) by done. cbn [app].
  change ["docs"; ".."; "wisp"] with (["docs"] ++ [".."] ++ ["wisp"]). rewrite !fold_left_app.
  rewrite (norm_comps_fold true ["docs"]), up_from by (plain_names || by apply plain_comp_dec).
  apply norm_comps_fold. plain_names.
Qed.
Lemma pages_dir : GenerateRst.SPHINX_DIR cwd gen_file = DOCS_SPHINX_DIR cwd conf_file.
Proof using R_some R_plain conf_at gen_at.
  unfold GenerateRst.SPHINX_DIR. by rewrite root_dir, sphinx_dir, join_below by (names; done).
Qed.
(** The folder the library is loaded from. *)
Definition library : string := abs_path (R ++ ["docs"; "kerneldoc-src"; "tools"; "lib"; "python"]).
Lemma library_path : path_join (abspath cwd (KDOC_VENDOR_DIR cwd conf_file)) "tools/lib/python" = library.
Proof using R_some R_plain conf_at.
  rewrite vendor_dir, abspath_plain by (apply below_some || apply below_plain; plain_names).
  rewrite path_join_abs by first [apply below_some | apply below_named; names | done].
  unfold library, abs_path. change ["docs"; "kerneldoc-src"; "tools"; "lib"; "python"]
    with (["docs"; "kerneldoc-src"] ++ ["tools"; "lib"; "python"]).
  rewrite app_assoc, (join_app (R ++ _)) by (apply below_some || done). done.
Qed.
End Repository.

(** ** What a directive shows *)

Section Shown.
Context (fs : string → option node) (read : string → option string).
Context (glob : string → list string) (dependency : string → string).
Context (srctree srcdir : string).
Context {N : Type} (string2lines : string → list string) (pformat : exn → string).
Context (kbuild_verbose kcflags kdoc_werror src_tree : option string).
Abbreviation made := (setup_kfiles kbuild_verbose kcflags kdoc_werror src_tree).

(** What the parser makes of a file, and the text of its items from an output
    class in the state [o]. *)
Definition parsed (file : string) : KernelDoc * res (list string) :=
  fresh_parse read (kf_config made) xforms false file.
Definition unfiltered (o : OutputFormat) : OutputFormat :=
  set_filter false false (Some []) (Some []) [] true false o.
Definition rest_text (o : OutputFormat) (file : string) (items : list KdocItem) : res string :=
  snd (rest_output file items (unfiltered o)).

Definition caught (e : exn) : res (@directive_result N) := if is_exception e then Ok KernelDocMissing else Raise e.
(** The nodes of a directive without options on a file, or the error node. *)
Definition shown_file (docname : string) (lineno : nat) (nested_parse : list vline → res (list N))
    (o : OutputFormat) (file : string) : res (@directive_result N) :=
  match parsed file with
  | (_, Raise e) => caught e
  | (doc, Ok _) =>
      match rest_text o file (kd_entries doc) with
      | Raise e => caught e
      | Ok "" => Ok (Children [])
      | Ok out =>
          match parse_msg srcdir docname lineno string2lines nested_parse file out with
          | Ok nodes => Ok (Children nodes)
          | Raise e => caught e
          end
      end
  end.

Lemma shown_in_full o name table : shown (unfiltered o) table name = negb (smem (it_name name) (of_nosymbol o)).
Proof. unfold shown, unfiltered, set_filter. cbn. by destruct (smem _ _), (it_type name =? "doc")%string. Qed.
(** The text has every item that is not excluded. *)
Lemma rest_text_items o file doc exports text :
  parsed file = (doc, Ok exports) → rest_text o file (kd_entries doc) = Ok text →
  items_text (unfiltered o) (filter (λ it, smem (it_name it) (of_nosymbol o) = false) (kd_entries doc)) text.
Proof.
  intros Hp. pose proof (fresh_items read _ _ _ file doc exports Hp) as HF. unfold rest_text, rest_output.
  destruct (output_symbols _ _ _ _) as [o' r] eqn:E. cbn [snd]. intros ->.
  destruct (output_prints file (unfiltered o) [] (kd_entries doc) eq_refl HF "" (unfiltered o) o' text eq_refl E)
    as (texts & -> & H). exists texts. split; [done|].
  rewrite (list_filter_iff _ (λ it, shown (unfiltered o) [] it = true)); [done|].
  intros it. rewrite shown_in_full. by destruct (smem _ _).
Qed.

Lemma run_shown docname lineno nested_parse v argument k : shared_ok read kbuild_verbose kcflags kdoc_werror src_tree k →
  files_of fs c_extensions src_tree (srctree +:+ "/" +:+ argument) = [Yield (srctree +:+ "/" +:+ argument)] →
  snd (run fs read glob dependency srctree srcdir docname lineno string2lines pformat nested_parse v argument [] k)
  = shown_file docname lineno nested_parse (kf_out_style k) (srctree +:+ "/" +:+ argument).
Proof.
  intros Hk Hf. unfold run. set (a := handle_args _ _ _ _ _). unfold mbind, ST_bind at 1.
  assert (∃ k', when (1 <=? verbose v)%Z (modify (upd_messages [LogInfo (cmd_str (d_cmd a))] 0)) k = (k', Ok tt) ∧
    shared_ok read kbuild_verbose kcflags kdoc_werror src_tree k' ∧ kf_out_style k' = kf_out_style k)
    as (k' & -> & Hk' & <-).
  { destruct (1 <=? verbose v)%Z; eexists; (split; [reflexivity|]); [|done].
    split; [by apply (shared_core _ _ _ _ _ k)|done]. }
  unfold guarded. set (file := srctree +:+ "/" +:+ argument) in *.
  pose proof (run_kdoc_shared fs read kbuild_verbose kcflags kdoc_werror src_tree srcdir docname lineno string2lines
    nested_parse a file k' Hk' eq_refl ltac:(done) Hf) as H.
  assert (output_of fs read kbuild_verbose kcflags kdoc_werror src_tree (kf_out_style k') a file
    = match parsed file with
      | (_, Raise e) => Raise e
      | (doc, Ok _) => rest_text (kf_out_style k') file (kd_entries doc) end) as Ho by done.
  rewrite Ho in H. clear Ho. unfold shown_file.
  destruct (run_kdoc _ _ _ _ _ _ _ a k') as [k2 r]. cbn [snd] in H.
  rewrite H by (by intros f Hin%not_elem_of_nil). clear H.
  destruct (parsed file) as [doc [table|e]]; [|unfold caught; cbn; by destruct (is_exception e)].
  destruct (rest_text _ file (kd_entries doc)) as [[|c out]|e]; [done| |unfold caught; cbn; by destruct (is_exception e)].
  cbn [nodes_from]. destruct (parse_msg _ _ _ _ _ file _) as [nodes|e]; [done|].
  unfold caught. by destruct (is_exception e).
Qed.
End Shown.

(** ** The documentation of the repository *)

(** The pages: the file, the title and the folder of each. *)
Definition parts : list (string * string * string) := [
  ("wisp_protocol.rst", "Wisp Protocol", "protocol"); ("wisp_server.rst", "Wisp Server", "server");
  ("wisp_client_sdk.rst", "Wisp Client SDK", "client_sdk")].

Section Documentation.
Context (R : list string) (R_some : R ≠ []) (R_plain : Forall plain_comp R).
Context (cwd conf_file gen_file : string).
Context (conf_at : abspath cwd conf_file = abs_path (R ++ ["docs"; "sphinx"; "conf.py"])).
Context (gen_at : abspath cwd gen_file = abs_path (R ++ ["docs"; "generate_rst.py"])).
(** The value that sphinx has for a name: that of [conf.py] if there is one. *)
Context (config : dict value → list call → string → value).
Context (config_set : ∀ settings calls name v, dget settings name = Some v → config settings calls name = v).
(** The folders as [os.walk] sees them, the same files as [os.path.isfile] says, and
    their texts. *)
Context (tree_at : string → node) (fs : string → option node) (read : string → option string).
Abbreviation folder sub := (tree_at (abs_path (R ++ ["wisp"; sub]))).
Abbreviation below := (source_below GenerateRst.IGNORED_DIRECTORIES).
Context (plain_folders : ∀ sub, sub ∈ map snd parts → plain_tree (folder sub)).
Context (same_files : ∀ sub comps, below (folder sub) comps → fs (abs_path (R ++ "wisp" :: sub :: comps)) = Some File).
(** The rest of the build. *)
Context (glob : string → list string) (dependency : string → string) (srcdir : string).
Context {N : Type} (string2lines : string → list string) (pformat : exn → string).

(** The directive on the source [src] shows the file at [comps] below the folder [sub]:
    for the variables [e] of the environment, whatever document it is in, and whatever
    other directives the shared object has served. *)
Definition shows (e : dict string) (srctree sub : string) (comps : list string) (src : string) : Prop :=
  ∀ docname lineno (nested_parse : list vline → res (list N)) k,
  let kbuild_verbose := dget e "KBUILD_VERBOSE" in let kcflags := dget e "KCFLAGS" in
  let kdoc_werror := dget e "KDOC_WERROR" in let src_tree := dget e "SRCTREE" in
  let file := abs_path (R ++ "wisp" :: sub :: comps) in
  served fs read kbuild_verbose kcflags kdoc_werror src_tree glob dependency srctree srcdir (N := N) string2lines
    pformat k →
  snd (run fs read glob dependency srctree srcdir docname lineno string2lines pformat nested_parse
         (dget e "V") src [] k)
  = shown_file read srcdir string2lines kbuild_verbose kcflags kdoc_werror src_tree docname lineno nested_parse
      (kf_out_style k) file ∧
  ∀ doc exports text,
    parsed read kbuild_verbose kcflags kdoc_werror src_tree file = (doc, Ok exports) →
    rest_text (kf_out_style k) file (kd_entries doc) = Ok text →
    items_text (unfiltered (kf_out_style k))
      (filter (λ it, smem (it_name it) (of_nosymbol (kf_out_style k)) = false) (kd_entries doc)) text.
(** The sources of a page are the C files of its folder. *)
Definition page_of (e : dict string) (srctree : string) (part : string * string * string) (page : string * string)
    : Prop :=
  let '(name, title, sub) := part in
  ∃ sources, page = (path_join (DOCS_SPHINX_DIR cwd conf_file) name, GenerateRst.page_text title sources) ∧
    Sorted (key_le id) sources ∧
    (∀ comps, below (folder sub) comps → join "/" (sub :: comps) ∈ sources) ∧
    ∀ src, src ∈ sources → ∃ comps, below (folder sub) comps ∧ src = join "/" (sub :: comps) ∧
      shows e srctree sub comps src.

Lemma page_shown e part : part ∈ parts →
  let '(name, title, sub) := part in
  let wisp := GenerateRst.WISP_PATH cwd gen_file in
  page_of e (WISP_DIR cwd conf_file) part
    (path_join (GenerateRst.SPHINX_DIR cwd gen_file) name,
     GenerateRst.page_text title
       (GenerateRst.find_sources cwd wisp (path_join wisp sub) (tree_at (path_join wisp sub)))).
Proof using conf_at gen_at plain_folders same_files R_plain R_some.
  destruct part as [[name title] sub]. intros Hpart. cbv zeta.
  assert (sub ∈ map snd parts) as Hsub by (apply list_elem_of_fmap; by exists (name, title, sub)).
  assert (plain_comp sub) as Hp.
  { revert sub Hpart Hsub. intros sub _. revert sub. apply Forall_forall. repeat constructor; by apply plain_comp_dec. }
  rewrite (wisp_path R), (wisp_dir R), (pages_dir R R_some R_plain cwd conf_file gen_file) by done.
  assert (R ++ ["wisp"] ≠ []) as HW by by apply below_some.
  assert (Forall plain_comp (R ++ ["wisp"])) as HF.
  { apply Forall_app. split; [done|]. apply Forall_singleton. by apply plain_comp_dec. }
  rewrite (path_join_plain (R ++ ["wisp"]) sub), <- app_assoc by done. cbn [app].
  destruct (pages_name_sources cwd (R ++ ["wisp"]) sub (folder sub) glob dependency [] HW HF Hp (plain_folders sub Hsub))
    as (Hs & Hin & Hfile). rewrite (path_join_plain (R ++ ["wisp"]) sub), <- app_assoc in Hs, Hin by done. cbn [app] in Hs, Hin.
  eexists. split; [reflexivity|].
  split; [exact Hs|]. split; [intros comps Hc; apply Hin; eauto|].
  intros src (comps & Hc & ->)%Hin. exists comps. split; [exact Hc|]. split; [done|].
  specialize (Hfile comps Hc). cbn [handle_args d_file_list] in Hfile. rewrite <- app_assoc in Hfile. cbn [app] in Hfile.
  apply (f_equal (hd "")) in Hfile. cbn [hd] in Hfile.
  intros docname lineno nested_parse k. cbv zeta. intros Hk%served_ok. split.
  - rewrite <- Hfile. apply run_shown; [done|]. rewrite Hfile. unfold files_of.
    assert (match dget e "SRCTREE" with Some (String _ _ as t) => path_join t (abs_path (R ++ "wisp" :: sub :: comps))
            | _ => abs_path (R ++ "wisp" :: sub :: comps) end = abs_path (R ++ "wisp" :: sub :: comps)) as ->.
    { by destruct (dget e "SRCTREE") as [[|c t]|]. }
    by rewrite (same_files sub comps Hc).
  - intros doc exports text. by apply rest_text_items.
Qed.

(** C3 The documentation of the repository: [conf.py] makes sphinx load the library
    of the repository, unless the variable [srctree] names another kernel tree, and
    resolve paths in the folder that [generate_rst.py] walks.  That script writes
    three pages next to [conf.py]; each has one directive for each C source of its
    part, in order.  The directive on a source shows what the parser finds in that
    very file, output as reStructuredText, or the error node.  This holds in every
    state of the object that all directives share: what earlier directives have left
    there, names to exclude and a line prefix, is part of what is shown, and every
    item that is not so excluded is in the text. *)
Theorem documentation_built environ path :
  (∀ t, dget environ "srctree" = Some t → abspath cwd t = KDOC_VENDOR_DIR cwd conf_file) →
  let '(p, r) := start cwd conf_file (Python environ path) in
  sys_path p = library R :: DOCS_SPHINX_DIR cwd conf_file :: path ∧
  ∃ settings calls srctree, r = Ok (settings, calls) ∧ config settings calls "kerneldoc_srctree" = VStr srctree ∧
  Forall2 (page_of (Conf.environ p) srctree) parts (GenerateRst.main cwd gen_file tree_at).
Proof.
  intros He. unfold start, conf, import_kerneldoc, insert_path, setdefault. run_ST. cbn [Conf.environ Conf.sys_path].
  assert (∃ t, dget (if dmem environ "srctree" then environ else dset environ "srctree" (KDOC_VENDOR_DIR cwd conf_file))
    "srctree" = Some t ∧ abspath cwd t = abspath cwd (KDOC_VENDOR_DIR cwd conf_file)) as (t & -> & Ht).
  { assert (abspath cwd (KDOC_VENDOR_DIR cwd conf_file) = KDOC_VENDOR_DIR cwd conf_file) as Hv.
    { rewrite (vendor_dir R) by done. apply abspath_plain; [by apply below_some|].
      apply below_plain; [done|]. repeat constructor; by apply plain_comp_dec. }
    unfold dmem. destruct (dget environ "srctree") as [t|] eqn:E.
    - exists t. split; [done|]. rewrite Hv. by apply He.
    - eexists. split; [apply dget_dset_eq|done]. }
  cbn [Conf.sys_path]. split; [by rewrite Ht, (library_path R)|].
  do 3 eexists. split; [reflexivity|]. split.
  { apply config_set. cbn [settings dget]. reflexivity. }
  match goal with |- Forall2 (page_of ?e _) _ _ => generalize e end. intros e.
  exact (List.Forall2_cons _ _ (page_shown e ("wisp_protocol.rst", "Wisp Protocol", "protocol") ltac:(left))
    (List.Forall2_cons _ _ (page_shown e ("wisp_server.rst", "Wisp Server", "server") ltac:(right; left))
      (List.Forall2_cons _ _ (page_shown e ("wisp_client_sdk.rst", "Wisp Client SDK", "client_sdk") ltac:(right; right; left))
        (List.Forall2_nil _)))).
Qed.
End Documentation.

(** *** A small repository *)

Definition demo_folder (path : string) : node := if (path =? "/src/wisp/server")%string then demo_tree else Dir [].
Definition demo_files (path : string) : option node :=
  if smem path ["/src/wisp/server/b.c"; "/src/wisp/server/inc/a.h"] then Some File else None.
Definition demo_texts (path : string) : option string :=
  if (path =? "/src/wisp/server/b.c")%string then a_file else Some "".
Definition demo_config (settings : dict value) (calls : list call) (name : string) : value :=
  default VNone (dget settings name).
Definition demo_environ : dict string := [("SRCTREE", "/linux"); ("srctree", "/src/docs/../docs/kerneldoc-src")].
Definition demo_start : python * res (dict value * list call) :=
  start "/" "/src/docs/sphinx/conf.py" (Python demo_environ []).
Definition demo_pages : list (string * string) := GenerateRst.main "/" "/src/docs/generate_rst.py" demo_folder.
(** A directive, on the source [argument], of a document. *)
Definition demo_run (document argument : string) (options : dict string) : ST KernelFiles directive_result :=
  run_arguments demo_files demo_texts (λ _, []) id "/src/wisp" "doc" document 1 lines_of (λ _, "") Ok
    None [argument] options.
(** The shared object, after a directive that has left an excluded name. *)
Definition demo_object : KernelFiles :=
  fst (demo_run "other" "server/inc/a.h" [("no-identifiers", "qux")]
         (setup_kfiles None None None (Some "/linux"))).
Definition has_line (line : string) (lines : list vline) : bool :=
  existsb (λ l, (v_text l =? line +:+ nl)%string) lines.

Lemma documentation_built_witness :
  sys_path (fst demo_start) = ["/src/docs/kerneldoc-src/tools/lib/python"; "/src/docs/sphinx"] ∧
  ∃ sources, ("/src/docs/sphinx/wisp_server.rst", GenerateRst.page_text "Wisp Server" sources) ∈ demo_pages ∧
    "server/b.c" ∈ sources ∧ of_nosymbol (kf_out_style demo_object) = ["qux"] ∧
    match snd (demo_run "wisp_server" "server/b.c" [] demo_object) with
    | Ok (Children lines) => has_line ".. c:function:: int foo (int a)" lines = true ∧
                             has_line "    the a" lines = true
    | _ => False
    end.
Proof.
  assert (Forall plain_comp ["src"]) as HR by (repeat constructor; by apply plain_comp_dec).
  assert (plain_tree demo_tree) as Hp by (repeat first [apply plain_comp_dec; reflexivity | constructor]).
  assert (∀ sub, sub ∈ map snd parts →
    plain_tree (demo_folder (abs_path (["src"] ++ ["wisp"; sub])))) as Hf.
  { intros sub Hs. cbn [map snd parts] in Hs. rewrite !elem_of_cons, elem_of_nil in Hs.
    destruct Hs as [->|[->|[->|[]]]]; [| exact Hp |]; apply plain_dir; constructor. }
  assert (∀ sub comps, source_below GenerateRst.IGNORED_DIRECTORIES (demo_folder (abs_path (["src"] ++ ["wisp"; sub]))) comps →
    demo_files (abs_path (["src"] ++ "wisp" :: sub :: comps)) = Some File) as Hs.
  { intros sub comps. unfold demo_folder. destruct (String.eqb_spec (abs_path (["src"] ++ ["wisp"; sub])) "/src/wisp/server") as [E|_].
    - assert (sub = "server") as -> by (by injection E). clear E. unfold demo_tree.
      intros H. inversion H as [? n e Hin _ He|? n d' comps' Hin Hi Hc]; subst; rewrite !elem_of_cons, elem_of_nil in Hin.
      + destruct Hin as [[= -> ->]|[[= -> ->]|[[= -> ->]|[]]]]; [reflexivity|by vm_compute in He..].
      + destruct Hin as [[=]|[[= -> ->]|[[= -> ->]|[]]]]; [|done].
        inversion Hc as [? n e Hin _ He|? n d' comps Hin _ _]; subst; rewrite !elem_of_cons, elem_of_nil in Hin.
        * destruct Hin as [[= -> ->]|[[= -> ->]|[]]]; [reflexivity|]. by vm_compute in He.
        * by destruct Hin as [[=]|[[=]|[]]].
    - intros H. inversion H as [? n e Hin _ _|? n d' comps' Hin _ _]; by apply not_elem_of_nil in Hin. }
  pose proof (documentation_built ["src"] ltac:(done) HR "/" "/src/docs/sphinx/conf.py" "/src/docs/generate_rst.py"
    eq_refl eq_refl demo_config ltac:(intros settings calls name v H; unfold demo_config; by rewrite H)
    demo_folder demo_files demo_texts Hf Hs (λ _, []) id "doc" lines_of (λ _, "") (N := vline) demo_environ []
    ltac:(intros t [= <-]; vm_compute; reflexivity)) as H.
  clear Hp Hf Hs.
  change (start "/" "/src/docs/sphinx/conf.py" (Python demo_environ [])) with (fst demo_start, snd demo_start) in H.
  cbv iota zeta beta in H. destruct H as (Hp' & settings & calls & srctree & Hr & Hc & H).
  split; [exact Hp'|].
  assert (srctree = "/src/wisp") as ->.
  { revert Hr Hc. clear H. generalize settings, calls. intros s c [= <- <-] [= <-]. reflexivity. }
  clear Hr Hc settings calls. unfold parts in H.
  apply Forall2_cons_inv_l in H as (? & ? & _ & H & Hpages).
  apply Forall2_cons_inv_l in H as (page & ? & (sources & -> & _ & Hin & H) & _ & ->).
  exists sources. unfold demo_pages. rewrite Hpages. split; [right; by left|].
  assert ("server/b.c" ∈ sources) as Hb.
  { apply (Hin ["b.c"]). unfold demo_folder. eapply source_here; [by left|done..]. }
  split; [exact Hb|]. split; [vm_compute; reflexivity|]. destruct (H _ Hb) as (comps & _ & E & Hshow). clear H Hin Hb.
  assert (comps = ["b.c"]) as ->.
  { destruct comps as [|c [|d comps]]; [discriminate E|by injection E as ->|].
    exfalso. apply (f_equal (scount (Ascii.eqb "/"))) in E. cbn in E. revert E. rewrite !scount_app. cbn. lia. }
  specialize (Hshow "wisp_server" 1 Ok demo_object). cbv zeta in Hshow.
  destruct Hshow as [Hrun _]; [apply served_directive, served_start|].
  unfold demo_run, run_arguments.
  match goal with |- match ?t with _ => _ end => match type of Hrun with ?u = _ => change t with u end end.
  rewrite Hrun. clear. vm_compute. repeat split.
Defined.
