(* ===== verification/PyShlex.v ===== *)
(** * PyShlex: [shlex.split(s)], the POSIX reading of a command line

    Blanks separate words, quotes and the backslash are read as by a POSIX shell,
    except that a backslash before the end of a line stands for the end of the line; there are
    no comments. *)

From S2P Require Import Prelude PyStr.

(** Outside quotes, in quotes, or behind a backslash, there or in double
    quotes. *)
Inductive shlex_state := Plain | Quoted (q : ascii) | Escaped | EscapedIn (q : ascii).
Definition shlex_blank (c : ascii) : bool := char_in c (" " +:+ tab +:+ String CR nl).
Definition grow (cur : option string) (c : ascii) : option string :=
  Some (default "" cur +:+ String c "").
Definition with_word (cur : option string) (r : res (list string)) : res (list string) :=
  match cur, r with Some w, Ok l => Ok (w :: l) | _, _ => r end.
(** [cur] is the word that has begun. *)
Fixpoint shlex_from (m : shlex_state) (cur : option string) (s : string) : res (list string) :=
  match s with
  | "" =>
      match m with
      | Plain => with_word cur (Ok [])
      | Quoted _ => Raise (ValueError "No closing quotation")
      | Escaped | EscapedIn _ => Raise (ValueError "No escaped character")
      end
  | String c t =>
      match m with
      | Plain =>
          if shlex_blank c then with_word cur (shlex_from Plain None t)
          else if (c =? BACKSLASH)%char then shlex_from Escaped cur t
          else if (c =? "'")%char || (c =? QUOTE)%char then shlex_from (Quoted c) (Some (default "" cur)) t
          else shlex_from Plain (grow cur c) t
      | Quoted q =>
          if (c =? q)%char then shlex_from Plain cur t
          else if (c =? BACKSLASH)%char && (q =? QUOTE)%char then shlex_from (EscapedIn q) cur t
          else shlex_from m (grow cur c) t
      | Escaped => shlex_from Plain (grow cur c) t
      | EscapedIn q =>
          if (c =? BACKSLASH)%char || (c =? q)%char then shlex_from (Quoted q) (grow cur c) t
          else shlex_from (Quoted q) (grow (grow cur BACKSLASH) c) t
      end
  end.
Definition shlex_split (s : string) : res (list string) := shlex_from Plain None s.

(** ** Simple words *)

(** A character that stands for itself outside quotes, and one that does in double
    quotes. *)
Definition bare (c : ascii) : bool :=
  negb (shlex_blank c || (c =? BACKSLASH)%char || (c =? "'")%char || (c =? QUOTE)%char).
Definition quotable (c : ascii) : bool := negb ((c =? BACKSLASH)%char || (c =? QUOTE)%char).

Ltac not_special H :=
  apply negb_true_iff in H; repeat apply orb_false_elim in H as [H ?].
Lemma shlex_bare w : ∀ a rest, sall bare w = true →
  shlex_from Plain (Some a) (w +:+ rest) = shlex_from Plain (Some (a +:+ w)) rest.
Proof.
  induction w as [|c w IH]; intros a rest; [by rewrite sapp_nil_r|].
  cbn [sall]. intros [Hc Hw]%andb_prop. unfold bare in Hc. not_special Hc.
  change (String c w +:+ rest) with (String c (w +:+ rest)). cbn [shlex_from].
  repeat match goal with H : _ = false |- _ => rewrite H; clear H end. cbn [orb].
  unfold grow. cbn [default]. rewrite IH by done. by rewrite sapp_assoc.
Qed.
(** A bare word at the start of a line or behind a blank. *)
Lemma shlex_word w rest : w ≠ "" → sall bare w = true →
  shlex_from Plain None (w +:+ rest) = shlex_from Plain (Some w) rest.
Proof.
  destruct w as [|c w]; [done|]. intros _ [Hc Hw]%andb_prop. unfold bare in Hc. not_special Hc.
  change (String c w +:+ rest) with (String c (w +:+ rest)). cbn [shlex_from].
  repeat match goal with H : _ = false |- _ => rewrite H; clear H end. cbn [orb].
  unfold grow. cbn [default]. by rewrite shlex_bare.
Qed.
Lemma shlex_in_quotes w : ∀ a rest, sall quotable w = true →
  shlex_from (Quoted QUOTE) (Some a) (w +:+ quote +:+ rest) = shlex_from Plain (Some (a +:+ w)) rest.
Proof.
  induction w as [|c w IH]; intros a rest; [by rewrite sapp_nil_r|].
  cbn [sall]. intros [Hc Hw]%andb_prop. unfold quotable in Hc. not_special Hc.
  change (String c w +:+ quote +:+ rest) with (String c (w +:+ quote +:+ rest)). cbn [shlex_from].
  repeat match goal with H : _ = false |- _ => rewrite H; clear H end. cbn [andb].
  unfold grow. cbn [default]. rewrite IH by done. by rewrite sapp_assoc.
Qed.
(** A text in double quotes, behind a blank. *)
Lemma shlex_quoted w rest : sall quotable w = true →
  shlex_from Plain None (quote +:+ w +:+ quote +:+ rest) = shlex_from Plain (Some w) rest.
Proof. intros Hw. exact (shlex_in_quotes w "" rest Hw). Qed.
Lemma shlex_space w rest :
  shlex_from Plain (Some w) (" " +:+ rest) = with_word (Some w) (shlex_from Plain None rest).
Proof. reflexivity. Qed.
