(* ===== verification/BuildWrapper.v ===== *)
(** * BuildWrapper: [docs/sphinx-build-wrapper]

    The script behind [make htmldocs] and the other targets: it prepares the
    environment and the arguments of [sphinx-build], calls it for each folder, and
    does what a target needs besides.  A [system] says what the operating system
    and other programs answer; what the script does is a list of effects.  A
    message that ends with the text of an exception is given without that
    text, and files and folders can be created and renamed. *)

From S2P Require Import Prelude PyStr PyNum PyPath PyRe PyReSyntax PyReTheory Argparse PyVersion PyShlex Tools.

(** ** Tables *)

Definition VENV_DEFAULT : string := "sphinx_latest".
Definition MIN_PYTHON_VERSION : list Z := [3; 7]%Z.
Definition PAPER : list string := [""; "a4"; "letter"].
(** The builder of each target, and its [out_dir]. *)
Definition TARGETS : dict (string * string) := [
  ("cleandocs", ("clean", "")); ("linkcheckdocs", ("linkcheck", "")); ("htmldocs", ("html", ""));
  ("epubdocs", ("epub", "epub")); ("texinfodocs", ("texinfo", "texinfo"));
  ("infodocs", ("texinfo", "texinfo")); ("mandocs", ("man", "man")); ("latexdocs", ("latex", "latex"));
  ("pdfdocs", ("latex", "latex")); ("xmldocs", ("xml", "xml"))].

(** ** The system and the state *)

(** A PDF file to make: the folder of its source, its own folder, and the name
    of the source. *)
Abbreviation tex_file := (string * string * string)%type.
Record system := System {
  cwd : string;
  home : string → option string;
  isfile : string → bool;
  isdir : string → bool;
  exists_ : string → bool;
  read_text : string → option string;
  (** [shutil.which] with a search path. *)
  which : string → string → option string;
  (** The status of a command in an environment and a folder, or the message of
      the [OSError]. *)
  call : list string → dict string → option string → string + Z;
  (** The output of [kernel-doc], as text, and its status. *)
  call_output : list string → string + (string * Z);
  (** The paths below a folder, and the names in one. *)
  glob_below : string → list string;
  scandir : string → list string;
  (** [jobserver.claim] *)
  claim : option Z;
  (** Whether [locale.setlocale] works. *)
  locale_ok : bool;
  (** The message of the [OSError] of [shutil.copy2], if any. *)
  copy_error : string → string → option string;
  (** The order in which the workers end. *)
  as_completed : list tex_file → list tex_file;
  (** What [fc-list] prints. *)
  fc_list : string + string;
}.

Inductive effect :=
| Print (s : string)
| PrintErr (s : string)
| MakeDirs (path : string)
| RemoveTree (path : string)
| Copy (from to : string)
| Rename (from to : string)
| Called (cmd : list string) (env : dict string) (dir : option string)
| Wrote (file text : string).
(** [os.environ], [self.env], and what has been done. *)
Record world := World { environ : dict string; env : dict string; effects : list effect }.
Abbreviation Build := (ST world).
Definition does (e : effect) : Build unit := modify (λ w, World (environ w) (env w) (effects w ++ [e])).
Definition setenv (key value : string) : Build unit :=
  modify (λ w, World (environ w) (dset (env w) key value) (effects w)).
Definition set_environ (key value : string) : Build unit :=
  modify (λ w, World (dset (environ w) key value) (env w) (effects w)).
(** [os.environ.get(key, value)] *)
Definition getenv (key value : string) : Build string := gets (λ w, dget_or (environ w) key value).

(** A [SphinxBuilder], without [env]. *)
Record builder := Builder {
  venv : option string;
  verbose : bool;
  kernelversion : string;
  kernelrelease : string;
  pdflatex : string;
  python : option string;
  latexopts : string;
  srctree : string;
  sphinxbuild : string;
  kerneldoc : string;
  builddir : string;
  pdflatex_cmd : option string;
  latexmk_cmd : option string;
  n_jobs : option string;
  sphinxopts : list string;
}.

(** A text that is given and not empty. *)
Definition given (o : option string) : bool := match o with Some (String _ _) => true | _ => false end.
(** [os.path.join(a, b, c)] *)
Definition path_join3 (a b c : string) : string := path_join (path_join a b) c.

Section Wrapper.
Context (sys : system).

(** ** [__init__] *)

(** [get_path(path, use_cwd, abs_path)] *)
Definition get_path (srctree path : string) (use_cwd abs_path : bool) : string :=
  let path := expanduser (home sys) path in
  let path := if startswith "/" path then path else path_join (if use_cwd then cwd sys else srctree) path in
  if abs_path then abspath (cwd sys) path else path.

Definition sphinx_opts_parser : parser := Parser [
    help_option;
    Optional ["-j"; "--jobs"] "jobs" (Store an_int) VNone;
    store_true ["-q"; "--quiet"] "quiet";
    Optional ["-v"; "--verbose"] "verbose" CountUp (VNat 0)]
  [] [] [].
(** [get_sphinx_extra_opts(n_jobs)]: [self.n_jobs] and [self.sphinxopts]. *)
Definition get_sphinx_extra_opts (verbose : bool) (n_jobs : option string)
    : Build (option string * list string) :=
  opts ← getenv "SPHINXOPTS" "";
  sphinxopts ← lift_res (shlex_split opts);
  r ← lift_res (parse_known_args sphinx_opts_parser no_subcommand sphinxopts);
  let '(sphinx_args, sphinxopts) := r in
  let v := as_nat sphinx_args "verbose" + (if verbose then 1 else 0) in
  let v := if as_bool sphinx_args "quiet" then 0 else v in
  let jobs :=
    if given n_jobs then n_jobs
    else match dget sphinx_args "jobs" with
         | Some (VInt j) => if (j =? 0)%Z then None else Some (zint_str j)
         | _ => None
         end in
  mret (jobs, sphinxopts ++ if v <? 1 then ["-q"] else repeat "-v" (as_nat sphinx_args "verbose" - 1)).

(** [bool(int(os.environ.get("KBUILD_VERBOSE", 0)))] *)
Definition kbuild_verbose (o : option string) : bool :=
  match o with
  | Some s => match py_int s with Some n => negb (n =? 0)%Z | None => false end
  | None => false
  end.
Definition activate_venv (venv : option string) : Build unit :=
  match venv with
  | Some (String _ _ as venv) =>
      let bin_dir := path_join venv "bin" in
      if negb (isfile sys (path_join bin_dir "activate")) then raise (SystemExit ("Venv " +:+ venv +:+ " not found."))
      else
        e ← gets env;
        match dget e "PATH" with
        | None => raise (KeyError "PATH")
        | Some path =>
            setenv "PATH" (bin_dir +:+ ":" +:+ path) ;;
            setenv "VIRTUAL_ENV" venv ;;
            modify (λ w, World (environ w) (ddel (env w) "PYTHONHOME") (effects w)) ;;
            does (Print ("Setting venv to " +:+ venv))
        end
  | _ => mret tt
  end.
Definition SphinxBuilder_init (builddir : string) (venv : option string) (verbose : bool)
    (n_jobs : option string) (interactive : bool) : Build builder :=
  kernelversion ← getenv "KERNELVERSION" "unknown";
  kernelrelease ← getenv "KERNELRELEASE" "unknown";
  pdflatex ← getenv "PDFLATEX" "xelatex";
  python3 ← gets (λ w, dget (environ w) "PYTHON3");
  let python := if bool_decide (python3 = Some "python3") then None else python3 in
  latexopts ← getenv "LATEXOPTS"
                (if interactive then "" else "-interaction=batchmode -no-shell-escape");
  kbuild ← gets (λ w, dget (environ w) "KBUILD_VERBOSE");
  let verbose := verbose || kbuild_verbose kbuild in
  tree ← gets (λ w, dget (environ w) "srctree");
  let srctree := if given tree then default "" tree else "." in
  when (negb (given tree)) (set_environ "srctree" srctree) ;;
  sphinxbuild ← getenv "SPHINXBUILD" "sphinx-build";
  kerneldoc ← getenv "KERNELDOC" "tools/docs/kernel-doc";
  path ← getenv "PATH" "/bin:/usr/bin";
  modify (λ w, World (environ w) (environ w) (effects w)) ;;
  opts ← get_sphinx_extra_opts verbose n_jobs;
  activate_venv venv ;;
  mret (Builder venv verbose kernelversion kernelrelease pdflatex python latexopts srctree sphinxbuild
    (get_path srctree kerneldoc false false) (get_path srctree builddir true true)
    (which sys pdflatex path) (which sys "latexmk" path) (fst opts) (snd opts)).

(** ** Steps of a build *)

Section Steps.
Context (b : builder).

(** [check_rust(sphinxdirs)] *)
Definition re_rust : pattern := compiled no_flags "CONFIG_RUST=(m|y)".
Definition check_rust (sphinxdirs : list string) : Build bool :=
  let config := path_join (srctree b) ".config" in
  if negb (smem "." sphinxdirs || smem "rust" sphinxdirs) then mret false
  else if negb (isfile sys config) then mret false
  else
    match read_text sys config with
    | Some text => mret (existsb (λ line, bool_decide (is_Some (re_match re_rust line))) (readlines text))
    | None => does (PrintErr ("Failed to open " +:+ config)) ;; mret false
    end.

(** A command run by [subprocess.call]. *)
Definition subprocess_call (cmd : list string) (e : dict string) (dir : option string) : Build Z :=
  match call sys cmd e dir with
  | inl msg => raise (OSError msg)
  | inr status => does (Called cmd e dir) ;; mret status
  end.
(** The command of [run_sphinx(sphinx_build, build_args)]. *)
Definition sphinx_command (sphinx_build : string) (build_args : list string) : list string :=
  let jobs := match claim sys with
              | Some n => if (n =? 0)%Z then "auto" else zint_str n
              | None => "auto"
              end in
  let jobs := if given (n_jobs b) then default "" (n_jobs b) else jobs in
  (if given (python b) then [default "" (python b)] else [])
  ++ [sphinx_build] ++ ["-j" +:+ jobs] ++ build_args ++ sphinxopts b.
Definition run_sphinx (sphinx_build : string) (build_args : list string) : Build Z :=
  let cmd := sphinx_command sphinx_build build_args in
  when (verbose b) (does (Print (join " " cmd))) ;;
  e ← gets env;
  subprocess_call cmd e None.

(** [handle_html(css, output_dir)] *)
Definition handle_html (css : option string) (output_dir : string) : Build unit :=
  match css with
  | Some (String _ _ as css) =>
      let css := expanduser (home sys) css in
      let css := if startswith "/" css then css else path_join (srctree b) css in
      let static_dir := path_join output_dir "_static" in
      does (MakeDirs static_dir) ;;
      match copy_error sys css static_dir with
      | None => does (Copy css static_dir)
      | Some msg => does (PrintErr ("Warning: Failed to copy CSS: " +:+ msg))
      end
  | _ => mret tt
  end.

(** *** PDF files *)

(** [build_pdf_file(latex_cmd, from_dir, path)] *)
Definition build_pdf_file (latex_cmd : list string) (from_dir path : string) : Build bool :=
  e ← gets env;
  status ← subprocess_call (latex_cmd ++ [path]) e (Some from_dir);
  mret (status =? 0)%Z.
Definition tex_suffix : string := ".tex".
(** The name of a PDF file, relative to the build folder. *)
Definition pdf_name (t : tex_file) : string :=
  str_take (String.length (snd t) - String.length tex_suffix) (snd t) +:+ ".pdf".
Definition out_name (t : tex_file) : string :=
  relpath (cwd sys) (path_join (snd (fst t)) (pdf_name t)) (builddir b).
(** What is known while the workers end: [builds], [build_failed] and
    [max_len]. *)
Abbreviation built := (dict string * bool * nat)%type.
(** One of them has ended.  The worker ran before; its command is noted here. *)
Definition job_done (latex_cmd : list string) (acc : built) (t : tex_file) : Build built :=
  let '(builds, build_failed, max_len) := acc in
  let pdf_from := path_join (fst (fst t)) (pdf_name t) in
  let pdf_to := path_join (snd (fst t)) (pdf_name t) in
  let max_len := Nat.max max_len (String.length (out_name t)) in
  success ← build_pdf_file latex_cmd (fst (fst t)) (path_join (fst (fst t)) (snd t));
  if success && exists_ sys pdf_from then
    does (Rename pdf_from pdf_to) ;;
    mret (if verbose b then dset builds (out_name t) "SUCCESS" else builds, build_failed, max_len)
  else mret (dset builds (out_name t) "FAILED", true, max_len).
(** [pdf_parallel_build(tex_suffix, latex_cmd, tex_files, n_jobs)] *)
Definition pdf_parallel_build (latex_cmd : list string) (tex_files : list tex_file) (n_jobs : Z)
    : Build built :=
  if (n_jobs <=? 0)%Z then raise (ValueError "max_workers must be greater than 0")
  else
    let jobs := List.filter (λ t, endswith tex_suffix (snd t)) tex_files in
    acc ← for_acc (as_completed sys jobs) ([], false, 0) (job_done latex_cmd);
    let '(builds, build_failed, max_len) := acc in
    match jobs with
    | [] =>
        mret (dset builds "LaTeX files" "FAILED: no .tex files were generated", true,
              Nat.max max_len (String.length "LaTeX files"))
    | _ => mret (builds, build_failed, max_len)
    end.

(** [handle_pdf(output_dirs, deny_vf)] *)
Definition latex_command : res (list string) :=
  match shlex_split (latexopts b) with
  | Ok opts =>
      Ok ((match latexmk_cmd b with
           | Some (String _ _ as mk) => [mk; "-" +:+ pdflatex b]
           | _ => [pdflatex b]
           end) ++ opts)
  | Raise e => Raise e
  end.
Definition pdf_jobs : Z :=
  let n := match n_jobs b with Some (String _ _ as n) => default 1%Z (py_int n) | _ => 1%Z end in
  match claim sys with Some c => if (c =? 0)%Z then n else c | None => n end.
(** The loop over the folders: the last [latex_cmd] and the sources. *)
Definition tex_sources (output_dirs : list string) : Build (option (list string) * list tex_file) :=
  for_acc output_dirs (None, []) (λ '(_, tex_files) from_dir,
    let pdf_dir := path_join from_dir "../pdf" in
    does (MakeDirs pdf_dir) ;;
    latex_cmd ← lift_res latex_command;
    mret (Some latex_cmd, tex_files ++
      map (λ name, (from_dir, pdf_dir, name)) (List.filter (endswith tex_suffix) (scandir sys from_dir)))).
Definition font_advice : Build unit :=
  msg ← lift_res (LatexFonts.check (fc_list sys));
  match msg with Some msg => does (Print msg) | None => mret tt end.
Definition handle_pdf (output_dirs : list string) (deny_vf : option string) : Build unit :=
  (match deny_vf with
   | Some (String _ _ as d) =>
       let d := expanduser (home sys) d in
       when (isdir sys d) (setenv "XDG_CONFIG_HOME" d)
   | _ => mret tt
   end) ;;
  sources ← tex_sources output_dirs;
  match fst sources with
  | None => raise (UnboundLocalError "latex_cmd")
  | Some latex_cmd =>
      r ← pdf_parallel_build latex_cmd (snd sources) pdf_jobs;
      let '(builds, build_failed, max_len) := r in
      if verbose b then
        does (Print "") ;;
        does (Print ("Summary" +:+ nl +:+ str_mul 7 "=")) ;;
        for_each builds (λ '(name, file), does (Print (ljust max_len name +:+ ": " +:+ file))) ;;
        does (Print "") ;;
        when build_failed (font_advice ;; raise (SystemExit "Error: not all PDF files were created."))
      else
        when build_failed
          (font_advice ;;
           raise (SystemExit ("Error: Can't build " +:+ int_str (length builds) +:+ " PDF file(s): "
                              +:+ join ", " (dkeys builds))))
  end.

(** [handle_info(output_dirs)] *)
Definition handle_info (output_dirs : list string) : Build unit :=
  for_each output_dirs (λ output_dir,
    e ← gets environ;
    status ← subprocess_call ["make"; "info"] e (Some output_dir);
    when (negb (status =? 0)%Z) (raise (SystemExit "Error generating info docs: "))).

(** *** Manual pages *)

Definition re_kernel_doc : pattern := compiled no_flags "^\.\.\s+kernel-doc::\s*(\S+)".
(** The sources that a page names, and those of all pages below a folder. *)
Definition page_sources (fname : string) : res (list string) :=
  if isfile sys fname && endswith ".rst" fname then
    match read_text sys fname with
    | None => Raise (OSError fname)
    | Some data =>
        Ok (flat_map (λ line,
              match re_match re_kernel_doc line with
              | Some m => if isfile sys (group_or m 1) then [group_or m 1] else []
              | None => []
              end) (split_char NL (universal_newlines data)))
    end
  else Ok [].
Fixpoint kdoc_sources (fnames : list string) : res (list string) :=
  match fnames with
  | [] => Ok []
  | fname :: fnames =>
      match page_sources fname, kdoc_sources fnames with
      | Raise e, _ => Raise e
      | _, Raise e => Raise e
      | Ok l, Ok l' => Ok (l ++ l')
      end
  end.
(** The file for a line that begins a page. *)
Definition page_file (output_dir line : string) : res string :=
  match shlex_split line with
  | Raise e => Raise e
  | Ok args =>
      match args !! 1, args !! 2 with
      | Some name, Some section =>
          Ok (output_dir +:+ "/" +:+ replace "/" " " (name +:+ "." +:+ section))
      | _, _ => Raise IndexError
      end
  end.
(** The loop over the lines: the file that is open, and what has been written to
    it.  A file is written when it is closed. *)
Fixpoint page_loop (output_dir : string) (lines : list string) (fp : option (string * string)) : Build unit :=
  let close := match fp with Some (f, text) => does (Wrote f text) | None => mret tt end in
  match lines with
  | [] => close
  | line :: lines =>
      if negb (startswith ".TH" line) then
        page_loop output_dir lines ((λ '(f, text), (f, text +:+ line +:+ nl)) <$> fp)
      else
        close ;;
        fname ← lift_res (page_file output_dir line);
        when (verbose b) (does (Print ("Creating " +:+ fname))) ;;
        page_loop output_dir lines (Some (fname, line +:+ nl))
  end.
(** [handle_man(kerneldoc, docs_dir, src_dir, output_dir)] *)
Definition handle_man (kerneldoc docs_dir src_dir output_dir : string) : Build unit :=
  files ← lift_res (if (docs_dir =? src_dir)%string then Ok [srctree b] else kdoc_sources (glob_below sys src_dir));
  match sort_by id (remove_dups files) with
  | [] => raise (SystemExit ("Directory " +:+ src_dir +:+ " doesn't contain kernel-doc tags"))
  | kdoc_files =>
      let cmd := [kerneldoc; "-m"] ++ kdoc_files in
      when (verbose b) (does (Print (join " " cmd))) ;;
      match call_output sys cmd with
      | inl _ => raise (SystemExit ("Failed to create man pages for " +:+ src_dir +:+ ": "))
      | inr (stdout, status) =>
          e ← gets environ;
          does (Called cmd e None) ;;
          when (negb (status =? 0)%Z)
            (does (Print ("Warning: kernel-doc returned " +:+ zint_str status +:+ " warnings"))) ;;
          page_loop output_dir (split_char NL stdout) None
      end
  end.

(** ** [build] *)

Definition cleandocs : Build unit := does (RemoveTree (builddir b)).

(** [sphinxdirs]: the list of the command line, or the text of [$SPHINXDIRS], which the
    loop of [build] takes character by character. *)
Definition sphinxdirs_list (sphinxdirs : option (list string)) : Build (list string) :=
  match sphinxdirs with
  | Some ((_ :: _) as l) => mret (flat_map split_ws l)
  | _ =>
      text ← getenv "SPHINXDIRS" ".";
      mret (flat_map (λ c, split_ws (String c "")) (list_ascii_of_string text))
  end.
(** The [except] of the call of [run_sphinx]. *)
Definition build_failed_on (m : Build Z) : Build Z := λ w,
  match m w with
  | (w, Raise (OSError _ | ValueError _)) => (w, Raise (SystemExit "Build failed: "))
  | r => r
  end.
Definition build_args (args : list string) (doctree_dir src_dir output_dir : string) : list string :=
  args ++ ["-d"; doctree_dir; "-D"; "version=" +:+ kernelversion b; "-D"; "release=" +:+ kernelrelease b;
           "-D"; "kerneldoc_srctree=" +:+ srctree b; src_dir; output_dir].
(** One turn of the loop over the folders: the folder of the output. *)
Definition build_dir (target kerneldoc docs_dir : string) (out_dir : string) (args : list string)
    (sphinx_build : option string) (css : option string) (skip_sphinx : bool) (sphinxdir : string)
    : Build string :=
  let src_dir := normpath (path_join docs_dir sphinxdir) in
  let doctree_dir := normpath (path_join (builddir b) ".doctrees") in
  let output_dir := normpath (path_join3 (builddir b) sphinxdir out_dir) in
  does (MakeDirs doctree_dir) ;;
  does (MakeDirs output_dir) ;;
  (if (target =? "mandocs")%string then handle_man kerneldoc docs_dir src_dir output_dir
   else when (negb skip_sphinx)
     (result ← build_failed_on (run_sphinx (default "" sphinx_build) (build_args args doctree_dir src_dir output_dir));
      when (negb (result =? 0)%Z)
        (raise (SystemExit ("Build failed: return code: " +:+ zint_str result))))) ;;
  when (smem target ["htmldocs"; "epubdocs"]) (handle_html css output_dir) ;;
  mret output_dir.
Definition build_rustdoc : Build unit :=
  does (Print "Building rust docs") ;;
  e ← gets env;
  let cmd := (match dget e "MAKE" with Some make => [make] | None => ["make"; "LLVM=1"] end) ++ ["rustdoc"] in
  when (verbose b) (does (Print (join " " cmd))) ;;
  e ← gets environ;
  status ← subprocess_call cmd e None;
  when (negb (status =? 0)%Z)
    (does (PrintErr "Ignored errors when building rustdoc: ")).
(** The checks before anything is built: the path of [sphinx-build]. *)
Definition find_sphinx (target : string) (skip_sphinx : bool) : Build (option string) :=
  found ← (if skip_sphinx then mret None
           else
             e ← gets env;
             match dget e "PATH" with
             | None => raise (KeyError "PATH")
             | Some path =>
                 let found := which sys (sphinxbuild b) path in
                 if negb (given found) && negb (target =? "mandocs")%string then
                   raise (SystemExit ("Error: " +:+ sphinxbuild b +:+ " not found in PATH." +:+ nl))
                 else mret found
             end);
  when ((target =? "pdfdocs")%string && negb (given (pdflatex_cmd b)) && negb (given (latexmk_cmd b)))
    (raise (SystemExit "Error: pdflatex or latexmk required for PDF generation")) ;;
  mret found.
(** [build(target, sphinxdirs, theme, css, paper, deny_vf, skip_sphinx)] *)
Definition build (target : string) (sphinxdirs : option (list string))
    (theme css paper deny_vf : option string) (skip_sphinx : bool) : Build unit :=
  match dget TARGETS target with
  | None => raise (KeyError target)
  | Some (builder, out_dir) =>
      if (target =? "cleandocs")%string then cleandocs
      else
        when (given theme) (set_environ "DOCS_THEME" (default "" theme)) ;;
        sphinx_build ← find_sphinx target skip_sphinx;
        let docs_dir := abspath (cwd sys) (path_join (srctree b) "Documentation") in
        let kerneldoc := if startswith (srctree b) (kerneldoc b)
                         then relpath (cwd sys) (kerneldoc b) (srctree b) else kerneldoc b in
        dirs ← sphinxdirs_list sphinxdirs;
        let args := ["-b"; builder; "-c"; docs_dir]
                    ++ (if (builder =? "latex")%string
                        then ["-D"; "latex_elements.papersize="
                                    +:+ (if given paper then default "" paper else "a4") +:+ "paper"] else []) in
        rustdoc ← check_rust dirs;
        let args := args ++ (if (rustdoc : bool) then ["-t"; "rustdoc"] else []) in
        when (negb (locale_ok sys)) (setenv "LC_ALL" "C") ;;
        output_dirs ← for_acc dirs [] (λ output_dirs sphinxdir,
          output_dir ← build_dir target kerneldoc docs_dir out_dir args sphinx_build css skip_sphinx sphinxdir;
          mret (output_dirs ++ [output_dir]));
        (if (target =? "pdfdocs")%string then handle_pdf output_dirs deny_vf
         else when (target =? "infodocs")%string (handle_info output_dirs)) ;;
        when (rustdoc && smem target ["htmldocs"; "epubdocs"]) build_rustdoc
  end.
End Steps.

(** ** Command line *)

(** [jobs_type(value)] *)
Definition jobs_type (value : string) : option Argparse.value :=
  if (str_lower value =? "auto")%string then Some (VStr "auto")
  else match py_int value with
       | Some n => if (1 <=? n)%Z then Some (VStr value) else None
       | None => None
       end.
Definition wrapper_parser : parser := Parser [
    help_option;
    Optional ["--sphinxdirs"] "sphinxdirs" (StoreN Several VNone plain_list) VNone;
    Optional ["--builddir"] "builddir" (Store plain_str) (VStr "output");
    store ["--theme"] "theme";
    store ["--css"] "css";
    Optional ["--paper"] "paper" (Store (one_of PAPER)) (VStr "");
    store ["--deny-vf"] "deny_vf";
    store_true ["-v"; "--verbose"] "verbose";
    Optional ["-j"; "--jobs"] "jobs" (Store jobs_type) VNone;
    store_true ["-i"; "--interactive"] "interactive";
    store_true ["-s"; "--skip-sphinx-build"] "skip_sphinx_build";
    Optional ["-V"; "--venv"] "venv"
      (StoreN Maybe (VStr VENV_DEFAULT) (λ l, Some (VStr (sconcat l)))) VNone]
  [PositionalOf "target" One (one_of (dkeys TARGETS))] [] [].
(** [main()]; [check] is the call of [PythonVersion.check_python], of which only
    how it ends matters here. *)
Definition main (check : list Z → bool → bool → outcome) (argv : list string) : Build unit :=
  args ← lift_res (parse_args wrapper_parser no_subcommand argv);
  match check MIN_PYTHON_VERSION true true with
  | Returns =>
      b ← SphinxBuilder_init (default "" (as_str args "builddir")) (as_str args "venv")
            (as_bool args "verbose") (as_str args "jobs") (as_bool args "interactive");
      build b (default "" (as_str args "target")) (as_list args "sphinxdirs") (as_str args "theme")
        (as_str args "css") (as_str args "paper") (as_str args "deny_vf") (as_bool args "skip_sphinx_build")
  | Exits None => raise (Exit 0)
  | Exits (Some msg) => raise (SystemExit msg)
  | Replaced _ _ => raise (Exit 0)
  end.
End Wrapper.
