(* ===== verification/BuildWrapperSpec.v ===== *)
(** * BuildWrapperSpec: the manual pages, the PDF files and the folders of a build *)

From S2P Require Import Prelude PyStr PyNum PyPath PyRe PyReSyntax PyReTheory Argparse PyVersion PyShlex Tools.
From S2P Require Import KdocItem KdocOutput KdocMan BuildWrapper.

(** ** Manual pages *)

(** The lines before the first page, and the pages: a line that begins one, and
    those behind it. *)
Fixpoint cut (lines : list string) : list string * list (string * list string) :=
  match lines with
  | [] => ([], [])
  | line :: lines =>
      let '(pre, pages) := cut lines in
      if startswith ".TH" line then ([], (line, pre) :: pages) else (line :: pre, pages)
  end.
Definition text_of (lines : list string) : string := sconcat (map (λ l, l +:+ nl) lines).

Lemma cut_lines lines : let '(pre, pages) := cut lines in
  lines = pre ++ flat_map (λ '(th, body), th :: body) pages ∧
  Forall (λ l, startswith ".TH" l = false) pre ∧
  Forall (λ '(th, body), startswith ".TH" th = true ∧ Forall (λ l, startswith ".TH" l = false) body) pages.
Proof.
  induction lines as [|line lines IH]; [done|]. cbn [cut]. destruct (cut lines) as [pre pages].
  destruct IH as (-> & Hpre & Hp). destruct (startswith ".TH" line) eqn:E; cbn [app flat_map].
  - split; [done|]. split; [done|]. by constructor.
  - split; [done|]. split; [|done]. by constructor.
Qed.
Lemma cut_app pre th body pages : Forall (λ l, startswith ".TH" l = false) pre →
  Forall (λ l, startswith ".TH" l = false) body → startswith ".TH" th = true →
  cut (pre ++ th :: body ++ flat_map (λ '(th, body), th :: body) pages)
  = (pre, (th, body ++ fst (cut (flat_map (λ '(th, body), th :: body) pages)))
          :: snd (cut (flat_map (λ '(th, body), th :: body) pages))).
Proof.
  intros Hpre Hbody Hth.
  assert (∀ l rest, Forall (λ l, startswith ".TH" l = false) l →
    cut (l ++ rest) = (l ++ fst (cut rest), snd (cut rest))) as H.
  { induction 1 as [|x l Hx _ IH]; cbn [app cut]; [by destruct (cut rest)|]. by rewrite IH, Hx. }
  rewrite H by done. cbn [cut]. rewrite H by done. rewrite Hth. cbn [fst snd]. by rewrite app_nil_r.
Qed.

Section Pages.
Context (sys : system) (b : builder) (output_dir : string).

(** The pages up to the first whose file cannot be named, and why. *)
Fixpoint files_of (pages : list (string * list string)) : list (string * string) * option exn :=
  match pages with
  | [] => ([], None)
  | (th, body) :: pages =>
      match page_file output_dir th with
      | Raise e => ([], Some e)
      | Ok f => let '(l, e) := files_of pages in ((f, text_of (th :: body)) :: l, e)
      end
  end.
Definition wrote (l : list (string * string)) : list effect :=
  flat_map (λ '(f, text), (if verbose b then [Print ("Creating " +:+ f)] else []) ++ [Wrote f text]) l.
Definition add_effects (l : list effect) (w : world) : world :=
  World (environ w) (env w) (effects w ++ l).

Lemma add_effects_nil w : add_effects [] w = w.
Proof. destruct w. unfold add_effects. f_equal. apply app_nil_r. Qed.
Lemma add_effects_app l k w : add_effects k (add_effects l w) = add_effects (l ++ k) w.
Proof. destruct w. unfold add_effects. cbn. by rewrite app_assoc. Qed.

Lemma page_loop_body lines : ∀ fp w, Forall (λ l, startswith ".TH" l = false) lines →
  ∀ rest, page_loop b output_dir (lines ++ rest) fp w
  = page_loop b output_dir rest ((λ '(f, text), (f, text +:+ text_of lines)) <$> fp) w.
Proof.
  induction lines as [|l lines IH]; intros fp w HF rest.
  - cbn [app]. f_equal. destruct fp as [[f text]|]; [|done]. cbn. by rewrite sapp_nil_r.
  - apply Forall_cons in HF as [Hl HF]. cbn [app page_loop]. rewrite Hl. cbn [negb]. rewrite IH by done.
    f_equal. destruct fp as [[f text]|]; [|done]. cbn. unfold text_of. cbn [map].
    by rewrite sconcat_cons, !sapp_assoc.
Qed.
Definition closed (fp : option (string * string)) : list effect :=
  match fp with Some (f, text) => [Wrote f text] | None => [] end.
Lemma page_loop_pages pages : ∀ fp w,
  Forall (λ '(th, body), startswith ".TH" th = true ∧ Forall (λ l, startswith ".TH" l = false) body) pages →
  page_loop b output_dir (flat_map (λ '(th, body), th :: body) pages) fp w
  = (add_effects (closed fp ++ wrote (fst (files_of pages))) w,
     match snd (files_of pages) with Some e => Raise e | None => Ok tt end).
Proof.
  induction pages as [|[th body] pages IH]; intros fp w HF.
  - cbn [flat_map files_of fst snd wrote]. rewrite app_nil_r. cbn [page_loop].
    destruct fp as [[f text]|]; [done|]. cbn [closed]. by rewrite add_effects_nil.
  - apply Forall_cons in HF as [[Hth Hbody] HF]. cbn [flat_map app page_loop]. rewrite Hth. cbn [negb].
    assert (∀ (k : Build unit), ((match fp with Some (f, text) => does (Wrote f text) | None => mret tt end) ;; k) w
      = k (add_effects (closed fp) w)) as Hclose.
    { intros k. destruct fp as [[f text]|]; [done|]. cbn [closed]. by rewrite add_effects_nil. }
    rewrite Hclose. clear Hclose. cbn [files_of]. unfold mbind at 1, ST_bind at 1, lift_res.
    destruct (page_file output_dir th) as [f|e]; [|cbn [fst snd wrote flat_map]; by rewrite app_nil_r].
    unfold mbind at 1, ST_bind at 1.
    assert (when (verbose b) (does (Print ("Creating " +:+ f))) (add_effects (closed fp) w)
      = (add_effects (closed fp ++ if verbose b then [Print ("Creating " +:+ f)] else []) w, Ok tt)) as ->.
    { destruct (verbose b); cbn [when]; [|by rewrite app_nil_r].
      unfold does, modify, add_effects. cbn. by rewrite <- app_assoc. }
    rewrite page_loop_body by done. cbn [fmap option_fmap option_map]. rewrite IH by done.
    destruct (files_of pages) as [l e]. cbn [fst snd closed wrote flat_map]. fold (wrote l).
    rewrite add_effects_app. f_equal. f_equal. unfold text_of. cbn [map].
    rewrite sconcat_cons, <- !app_assoc. cbn [closed Datatypes.option_map]. by rewrite !sapp_assoc.
Qed.
Lemma page_loop_spec lines w : page_loop b output_dir lines None w
  = (add_effects (wrote (fst (files_of (snd (cut lines))))) w,
     match snd (files_of (snd (cut lines))) with Some e => Raise e | None => Ok tt end).
Proof.
  pose proof (cut_lines lines) as H. destruct (cut lines) as [pre pages]. destruct H as (-> & Hpre & Hp).
  rewrite page_loop_body by done. cbn [fmap option_fmap option_map snd]. by rewrite page_loop_pages.
Qed.
End Pages.

(** *** The pages of [ManFormat] *)

Section Titles.
Context (_modulename : option string) (section date manual : string).

(** The line with which [ManFormat] begins a page. *)
Definition th_line (name : string) (it : KdocItem) : string :=
  ".TH" +:+ " " +:+ quote +:+ strip name +:+ quote +:+ " " +:+ section +:+ " " +:+ quote +:+ date +:+ quote
  +:+ " " +:+ quote +:+ ManFormat.modulename _modulename it +:+ quote +:+ " " +:+ quote +:+ manual +:+ quote.
Lemma emit_th_line name it o : ManFormat.emit_th _modulename section date manual name it o
  = (upd_data (λ d, d +:+ th_line name it +:+ nl) o, Ok tt).
Proof.
  assert (∀ f g, f (of_data o) = g (of_data o) → upd_data f o = upd_data g o) as Hext.
  { intros f g H. unfold upd_data. by rewrite H. }
  unfold ManFormat.emit_th, emit, mbind, ST_bind, modify. f_equal.
  match goal with |- upd_data ?f (upd_data ?g o) = _ => change (upd_data f (upd_data g o)) with (upd_data (λ d, f (g d)) o) end.
  apply Hext. unfold th_line. change ".TH " with (".TH" +:+ " "). by rewrite !sapp_assoc.
Qed.

(** A text of one line that may stand between double quotes. *)
Definition quotable_line (s : string) : bool := sall (λ c, quotable c && negb (c =? NL)%char) s.
Definition title_ok (name : string) (it : KdocItem) : bool :=
  quotable_line (strip name) && quotable_line (ManFormat.modulename _modulename it).
Definition section_ok : bool :=
  negb (section =? "")%string && sall bare section && quotable_line date && quotable_line manual.
Lemma quotable_line_quotable s : quotable_line s = true → sall quotable s = true.
Proof. apply sall_impl. by intros c [? _]%andb_prop. Qed.

Lemma th_line_words name it : title_ok name it = true → section_ok = true →
  shlex_split (th_line name it)
  = Ok [".TH"; strip name; section; date; ManFormat.modulename _modulename it; manual].
Proof.
  unfold title_ok, section_ok. intros [Ht Hm]%andb_prop [[[Hs0 Hs]%andb_prop Hd]%andb_prop Hma]%andb_prop.
  apply negb_true_iff, String.eqb_neq in Hs0.
  apply quotable_line_quotable in Ht, Hm, Hd, Hma. unfold shlex_split, th_line.
  rewrite shlex_word, shlex_space by done. rewrite shlex_quoted, shlex_space by done.
  rewrite shlex_word, shlex_space by done. rewrite shlex_quoted, shlex_space by done.
  rewrite shlex_quoted, shlex_space by done.
  pose proof (shlex_quoted manual "" Hma) as H. rewrite sapp_nil_r in H. rewrite H. reflexivity.
Qed.
(** The file of a page. *)
Definition man_file (output_dir name : string) : string :=
  output_dir +:+ "/" +:+ replace "/" " " (strip name +:+ "." +:+ section).
Lemma page_file_title output_dir name it : title_ok name it = true → section_ok = true →
  page_file output_dir (th_line name it) = Ok (man_file output_dir name).
Proof. intros Ht Hs. unfold page_file. by rewrite th_line_words. Qed.

Lemma th_line_one_line name it : title_ok name it = true → section_ok = true →
  sall (λ c, negb (c =? NL)%char) (th_line name it) = true.
Proof.
  unfold title_ok, section_ok. intros [Ht Hm]%andb_prop [[[_ Hs]%andb_prop Hd]%andb_prop Hma]%andb_prop.
  assert (∀ s, quotable_line s = true → sall (λ c, negb (c =? NL)%char) s = true) as Hq.
  { intros s. apply sall_impl. by intros c [_ ?]%andb_prop. }
  assert (sall (λ c, negb (c =? NL)%char) section = true) as Hsec.
  { eapply sall_impl; [|exact Hs]. intros c Hc. unfold bare, shlex_blank in Hc.
    destruct (c =? NL)%char eqn:E; [|done]. by apply Ascii.eqb_eq in E as ->. }
  unfold th_line. rewrite !sall_app.
  by rewrite (Hq _ Ht), (Hq _ Hm), (Hq _ Hd), (Hq _ Hma), Hsec.
Qed.

(** A page: the name and the item of its first line, and the lines behind it. *)
Abbreviation page := (string * KdocItem * list string)%type.
Definition page_lines (p : page) : string * list string := (th_line (fst (fst p)) (snd (fst p)), snd p).
Definition page_text (p : page) : string :=
  let '(th, body) := page_lines p in text_of (th :: body).
Definition page_ok (p : page) : Prop :=
  title_ok (fst (fst p)) (snd (fst p)) = true ∧
  Forall (λ l, startswith ".TH" l = false ∧ sall (λ c, negb (c =? NL)%char) l = true) (snd p).
(** What is written for the pages: the last one ends with an empty line more. *)
Fixpoint page_files (output_dir : string) (pages : list page) : list (string * string) :=
  match pages with
  | [] => []
  | [p] => [(man_file output_dir (fst (fst p)), page_text p +:+ nl)]
  | p :: pages => (man_file output_dir (fst (fst p)), page_text p) :: page_files output_dir pages
  end.

Lemma split_lines_text lines : Forall (λ l, sall (λ c, negb (c =? NL)%char) l = true) lines →
  split_char NL (text_of lines) = lines ++ [""].
Proof.
  induction 1 as [|l lines Hl _ IH]; [done|].
  change (text_of (l :: lines)) with (sconcat ((l +:+ nl) :: map (λ l, l +:+ nl) lines)).
  rewrite sconcat_cons. fold (text_of lines). rewrite sapp_assoc.
  assert (∀ l rest, sall (λ c, negb (c =? NL)%char) l = true →
    split_char NL (l +:+ nl +:+ rest) = l :: split_char NL rest) as H.
  { clear. induction l as [|c l IH]; intros rest Hl; [done|]. cbn [sall] in Hl. apply andb_prop in Hl as [Hc Hl].
    change (String c l +:+ nl +:+ rest) with (String c (l +:+ nl +:+ rest)). cbn [split_char].
    apply negb_true_iff in Hc. rewrite Hc. by rewrite IH. }
  by rewrite H, IH.
Qed.

(** The lines of some pages as they are cut, with the empty text that [split]
    gives behind the last newline. *)
Fixpoint with_end (pages : list page) : list (string * list string) :=
  match pages with
  | [] => []
  | [p] => [(fst (page_lines p), snd p ++ [""])]
  | p :: pages => page_lines p :: with_end pages
  end.
Lemma with_end_lines pages : pages ≠ [] →
  flat_map (λ '(th, body), th :: body) (with_end pages)
  = flat_map (λ p, fst (page_lines p) :: snd p) pages ++ [""].
Proof.
  induction pages as [|p [|q pages] IH]; intros H; [done|by cbn [with_end flat_map]; rewrite !app_nil_r|].
  change (with_end (p :: q :: pages)) with (page_lines p :: with_end (q :: pages)).
  cbn [flat_map]. rewrite <- app_assoc. rewrite IH by done. reflexivity.
Qed.
Lemma text_of_app l k : text_of (l ++ k) = text_of l +:+ text_of k.
Proof. unfold text_of. by rewrite map_app, sconcat_app. Qed.
Lemma pages_text pages : sconcat (map page_text pages)
  = text_of (flat_map (λ p, fst (page_lines p) :: snd p) pages).
Proof.
  induction pages as [|p pages IH]; [done|]. cbn [map flat_map]. rewrite sconcat_cons, text_of_app, IH.
  by destruct p as [[name it] body].
Qed.
Lemma with_end_files output_dir pages : section_ok = true → Forall page_ok pages →
  files_of output_dir (with_end pages) = (page_files output_dir pages, None).
Proof.
  intros Hs. induction 1 as [|p pages [Ht _] HF IH]; [done|]. destruct pages as [|q pages].
  - cbn [with_end files_of page_lines fst snd]. rewrite page_file_title by done.
    cbn [page_files]. unfold page_text, page_lines. by rewrite app_comm_cons, text_of_app.
  - change (with_end (p :: q :: pages)) with (page_lines p :: with_end (q :: pages)).
    change (page_files output_dir (p :: q :: pages)) with
      ((man_file output_dir (fst (fst p)), page_text p) :: page_files output_dir (q :: pages)).
    cbn [files_of page_lines]. rewrite page_file_title by done. rewrite IH. reflexivity.
Qed.
Lemma with_end_ok pages : Forall page_ok pages →
  Forall (λ '(th, body), startswith ".TH" th = true ∧ Forall (λ l, startswith ".TH" l = false) body) (with_end pages).
Proof.
  assert (∀ p, page_ok p → Forall (λ l, startswith ".TH" l = false) (snd p)) as Hb.
  { intros p [_ H]. eapply Forall_impl; [exact H|]. by intros l []. }
  induction 1 as [|p pages Hp HF IH]; [done|]. destruct pages as [|q pages]; constructor; try done.
  - split; [done|]. apply Forall_app. split; [by apply Hb|by repeat constructor].
  - split; [done|]. by apply Hb.
Qed.
Lemma pages_lines_split pages : section_ok = true → Forall page_ok pages → pages ≠ [] →
  split_char NL (sconcat (map page_text pages)) = flat_map (λ '(th, body), th :: body) (with_end pages).
Proof.
  intros Hs HF Hp. rewrite pages_text, with_end_lines by done. apply split_lines_text.
  clear Hp. induction HF as [|p pages [Ht Hb] HF IH]; [done|]. cbn [flat_map].
  apply Forall_app. split; [|done]. constructor; [by apply th_line_one_line|].
  eapply Forall_impl; [exact Hb|]. by intros l [].
Qed.

(** C27 Composition with [ManFormat]: when [kernel-doc -m] prints pages that begin as
    [ManFormat] begins them and have no line of theirs that starts like one,
    [handle_man] writes each page, and nothing else, to a file named after
    its title and section, with a blank for a slash; the last page has an empty line
    more. *)
Theorem man_pages_written sys b kerneldoc docs_dir output_dir pages w :
  section_ok = true → Forall page_ok pages → pages ≠ [] → verbose b = false →
  call_output sys [kerneldoc; "-m"; srctree b] = inr (sconcat (map page_text pages), 0%Z) →
  handle_man sys b kerneldoc docs_dir docs_dir output_dir w
  = (add_effects (Called [kerneldoc; "-m"; srctree b] (environ w) None
       :: map (λ '(f, text), Wrote f text) (page_files output_dir pages)) w, Ok tt) ∧
  map fst (page_files output_dir pages) = map (λ p, man_file output_dir (fst (fst p))) pages ∧
  sconcat (map snd (page_files output_dir pages)) = sconcat (map page_text pages) +:+ nl ∧
  ∀ name it o, ManFormat.emit_th _modulename section date manual name it o
               = (upd_data (λ d, d +:+ th_line name it +:+ nl) o, Ok tt).
Proof.
  intros Hs HF Hp Hv Hcall. split; [|split; [|split]].
  - unfold handle_man. rewrite String.eqb_refl. unfold mbind at 1, ST_bind at 1, lift_res.
    change (sort_by id (remove_dups [srctree b])) with [srctree b]. cbv iota.
    cbn [app]. rewrite Hv. cbn [when]. unfold mbind at 1, ST_bind at 1, mret at 1, ST_ret at 1. rewrite Hcall.
    unfold mbind, ST_bind, gets, does, modify. cbn [Z.eqb negb when]. unfold mret, ST_ret.
    rewrite pages_lines_split by done.
    rewrite (page_loop_pages b output_dir (with_end pages) None) by by apply with_end_ok.
    rewrite with_end_files by done. cbn [fst snd closed app]. f_equal. unfold add_effects. cbn [environ env effects].
    rewrite <- app_assoc. do 2 f_equal. cbn [app]. f_equal. unfold wrote. rewrite Hv.
    induction (page_files output_dir pages) as [|[f t] l IH]; [done|]. cbn [flat_map map app]. f_equal. exact IH.
  - clear. induction pages as [|p [|q pages] IH]; [done|done|].
    change (page_files output_dir (p :: q :: pages)) with
      ((man_file output_dir (fst (fst p)), page_text p) :: page_files output_dir (q :: pages)).
    rewrite map_cons, IH. reflexivity.
  - clear -Hp. induction pages as [|p [|q pages] IH]; [done|by cbn; rewrite !sconcat_cons, !sapp_nil_r|].
    change (page_files output_dir (p :: q :: pages)) with
      ((man_file output_dir (fst (fst p)), page_text p) :: page_files output_dir (q :: pages)).
    cbn [map snd]. rewrite sconcat_cons. cbn [map] in IH. rewrite IH by done.
    by rewrite !sconcat_cons, !sapp_assoc.
  - intros name it o. apply emit_th_line.
Qed.
End Titles.

(** Two pages: one whose title has a slash, and a structure. *)
Definition sample_pages : list (string * KdocItem * list string) :=
  [(" a/b ", KdocItem_init "a/b" "lib/a.c" "doc" 1 [], [".SH NAME"; "text"]);
   ("struct s", KdocItem_init "s" "lib/a.c" "struct" 9 [], [])].
(** A system where all is found and every command works. *)
Definition sample_system (output : string) : system :=
  System "/k" (λ _, None) (λ _, true) (λ _, true) (λ _, true) (λ _, None)
    (λ cmd _, Some ("/bin/" +:+ cmd)) (λ _ _ _, inr 0%Z) (λ _, inr (output, 0%Z)) (λ _, [])
    (λ _, ["a.tex"; "b.tex"; "b.log"]) None true (λ _ _, None) (λ l, reverse l) (inl "").
Definition sample_builder (verbose : bool) : builder :=
  Builder None verbose "6" "6.1" "xelatex" None "-x" "." "sphinx-build" "./kdoc" "/k/out" (Some "/bin/xelatex")
    None (Some "4") [].
Lemma man_pages_written_witness :
  let output := sconcat (map (page_text None "9" "May 2026" "API") sample_pages) in
  snd (handle_man (sample_system output) (sample_builder false) "kdoc" "/k" "/k" "/o" (World [] [] [])) = Ok tt ∧
  map fst (page_files None "9" "May 2026" "API" "/o" sample_pages) = ["/o/a b.9"; "/o/struct s.9"].
Proof.
  cbv zeta. destruct (man_pages_written None "9" "May 2026" "API"
    (sample_system (sconcat (map (page_text None "9" "May 2026" "API") sample_pages)))
    (sample_builder false) "kdoc" "/k" "/o" sample_pages (World [] [] [])) as (H1 & H2 & _);
    [reflexivity|by apply (bool_decide_unpack _)|done|done|done|]. rewrite H1, H2. split; reflexivity.
Defined.

(** ** PDF files *)

Section Pdf.
Context (sys : system) (b : builder) (latex_cmd : list string).
(** Commands start, and workers end in some order. *)
Context (starts : ∀ cmd e dir, is_Some (match call sys cmd e dir with inr st => Some st | inl _ => None end)).
Context (completes : ∀ jobs, as_completed sys jobs ≡ₚ jobs).

(** Whether a file is made, its command and what is noted about it. *)
Definition tex_path (t : tex_file) : string := path_join (fst (fst t)) (snd t).
Definition made (e : dict string) (t : tex_file) : bool :=
  match call sys (latex_cmd ++ [tex_path t]) e (Some (fst (fst t))) with
  | inr status => (status =? 0)%Z && exists_ sys (path_join (fst (fst t)) (pdf_name t))
  | inl _ => false
  end.
Definition job_effects (e : dict string) (t : tex_file) : list effect :=
  Called (latex_cmd ++ [tex_path t]) e (Some (fst (fst t)))
  :: (if made e t
      then [Rename (path_join (fst (fst t)) (pdf_name t)) (path_join (snd (fst t)) (pdf_name t))] else []).
Definition entry (e : dict string) (t : tex_file) : option (string * string) :=
  if made e t then if verbose b then Some (out_name sys b t, "SUCCESS") else None
  else Some (out_name sys b t, "FAILED").
Definition widest (jobs : list tex_file) : nat :=
  foldr (λ t n, Nat.max (String.length (out_name sys b t)) n) 0 jobs.

Lemma job_done_step acc t w :
  job_done sys b latex_cmd acc t w
  = (add_effects (job_effects (env w) t) w,
     Ok (match entry (env w) t with Some (n, x) => dset (fst (fst acc)) n x | None => fst (fst acc) end,
         snd (fst acc) || negb (made (env w) t),
         Nat.max (snd acc) (String.length (out_name sys b t)))).
Proof.
  destruct acc as [[builds failed] len]. unfold job_done, build_pdf_file, subprocess_call, job_effects, entry, made, tex_path.
  unfold mbind at 1 2 3, ST_bind at 1 2 3, gets.
  destruct (starts (latex_cmd ++ [path_join (fst (fst t)) (snd t)]) (env w) (Some (fst (fst t)))) as [st Hst].
  destruct (call sys _ (env w) _) as [msg|status]; [done|]. unfold mbind, ST_bind, does, modify, mret, ST_ret.
  destruct ((status =? 0)%Z && exists_ sys _); cbn [fst snd environ env effects negb].
  - rewrite orb_false_r. unfold add_effects. rewrite <- app_assoc. by destruct (verbose b).
  - by rewrite orb_true_r.
Qed.
Lemma jobs_done jobs : ∀ acc w, NoDup (map (out_name sys b) jobs) →
  (∀ t, t ∈ jobs → dmem (fst (fst acc)) (out_name sys b t) = false) →
  for_acc jobs acc (job_done sys b latex_cmd) w
  = (add_effects (flat_map (job_effects (env w)) jobs) w,
     Ok (fst (fst acc) ++ omap (entry (env w)) jobs,
         snd (fst acc) || existsb (λ t, negb (made (env w) t)) jobs,
         Nat.max (snd acc) (widest jobs))).
Proof.
  induction jobs as [|t jobs IH]; intros acc w Hn Hd.
  - cbn [for_acc flat_map omap list_omap existsb widest foldr]. rewrite add_effects_nil.
    rewrite app_nil_r, orb_false_r, Nat.max_0_r. by destruct acc as [[? ?] ?].
  - cbn [map] in Hn. apply NoDup_cons in Hn as [Ht Hn].
    cbn [for_acc]. unfold mbind, ST_bind. rewrite job_done_step. rewrite IH; [|done|].
    + cbn [fst snd flat_map existsb widest foldr]. rewrite add_effects_app. f_equal. f_equal.
      rewrite Nat.max_assoc, orb_assoc. f_equal. f_equal. change (env (add_effects (job_effects (env w) t) w)) with (env w).
      cbn [omap list_omap]. destruct (entry (env w) t) as [[n x]|] eqn:E; [|done].
      assert (n = out_name sys b t) as ->.
      { unfold entry in E. destruct (made _ _), (verbose b); by inversion E. }
      rewrite dset_new by (apply Hd; by left). by rewrite <- app_assoc.
    + cbn [fst snd]. intros t' Ht'. assert (out_name sys b t' ≠ out_name sys b t) as Hne.
      { intros Heq. apply Ht. rewrite <- Heq. by apply list_elem_of_fmap_2. }
      specialize (Hd t' ltac:(by right)). destruct (entry (env w) t) as [[n x]|] eqn:E; [|done].
      assert (n = out_name sys b t) as ->.
      { unfold entry in E. destruct (made _ _), (verbose b); by inversion E. }
      unfold dmem in *. by rewrite dget_dset_ne.
Qed.

(** The order in which the workers end shows only in the order of what is noted. *)
#[local] Instance widest_perm : Proper ((≡ₚ) ==> (=)) widest.
Proof. induction 1 as [|t l k _ IH|t u l|]; cbn [widest foldr] in *; unfold widest in *; lia. Qed.
#[local] Instance existsb_perm {A} (f : A → bool) : Proper ((≡ₚ) ==> (=)) (existsb f).
Proof. induction 1 as [|t l k _ IH|t u l|]; cbn [existsb]; [done|by rewrite IH|by destruct (f t), (f u)|congruence]. Qed.
Lemma pdf_build tex_files n w :
  let jobs := List.filter (λ t, endswith tex_suffix (snd t)) tex_files in
  jobs ≠ [] → NoDup (map (out_name sys b) jobs) → (0 < n)%Z →
  ∃ builds done, pdf_parallel_build sys b latex_cmd tex_files n w
    = (add_effects done w, Ok (builds, existsb (λ t, negb (made (env w) t)) jobs, widest jobs)) ∧
    done ≡ₚ flat_map (job_effects (env w)) jobs ∧ builds ≡ₚ omap (entry (env w)) jobs.
Proof.
  intros jobs Hj Hn H0. unfold pdf_parallel_build. rewrite (proj2 (Z.leb_gt n 0)) by done. fold jobs.
  pose proof (completes jobs) as Hp. unfold mbind, ST_bind. rewrite jobs_done; [| |done].
  2: by rewrite Hp.
  cbn [fst snd app orb Nat.max]. rewrite (existsb_perm _ _ _ Hp), (widest_perm _ _ Hp).
  destruct jobs as [|t jobs']; [done|].
  do 2 eexists. split; [reflexivity|]. split; [|by rewrite Hp].
  by apply Permutation_flat_map.
Qed.
End Pdf.

Section HandlePdf.
Context (sys : system) (b : builder).

Definition pdf_env (deny_vf : option string) (w : world) : dict string :=
  match deny_vf with
  | Some (String _ _ as d) =>
      if isdir sys (expanduser (home sys) d) then dset (env w) "XDG_CONFIG_HOME" (expanduser (home sys) d) else env w
  | _ => env w
  end.
(** The sources in some folders. *)
Definition sources (output_dirs : list string) : list tex_file :=
  flat_map (λ d, map (λ name, (d, path_join d "../pdf", name)) (List.filter (endswith tex_suffix) (scandir sys d)))
    output_dirs.
Definition is_print (e : effect) : Prop := ∃ s, e = Print s.

Lemma sources_tex dirs : List.filter (λ t, endswith tex_suffix (snd t)) (sources dirs) = sources dirs.
Proof.
  induction dirs as [|d dirs IH]; [done|]. unfold sources in *. cbn [flat_map]. rewrite List.filter_app, IH. f_equal.
  induction (scandir sys d) as [|n l IHl]; [done|]. cbn [List.filter].
  destruct (endswith tex_suffix n) eqn:E; [|done]. cbn [map List.filter snd]. by rewrite E, IHl.
Qed.
Lemma tex_sources_ok latex_cmd dirs : latex_command b = Ok latex_cmd → ∀ acc w,
  for_acc dirs acc (λ '(_, tex_files) from_dir,
    let pdf_dir := path_join from_dir "../pdf" in
    does (MakeDirs pdf_dir) ;;
    latex_cmd ← lift_res (latex_command b);
    mret (Some latex_cmd, tex_files ++
      map (λ name, (from_dir, pdf_dir, name)) (List.filter (endswith tex_suffix) (scandir sys from_dir)))) w
  = (add_effects (map (λ d, MakeDirs (path_join d "../pdf")) dirs) w,
     Ok (match dirs with [] => fst acc | _ => Some latex_cmd end, snd acc ++ sources dirs)).
Proof.
  intros Hl. set (body := λ '(_, tex_files) from_dir, _).
  assert (∀ acc d w, body acc d w = (add_effects [MakeDirs (path_join d "../pdf")] w,
    Ok (Some latex_cmd, snd acc ++ map (λ name, (d, path_join d "../pdf", name))
          (List.filter (endswith tex_suffix) (scandir sys d))))) as Hb.
  { intros [cmd files] d w. unfold body, mbind, ST_bind, does, modify, lift_res. by rewrite Hl. }
  clearbody body. induction dirs as [|d dirs IH]; intros acc w; cbn [for_acc].
  - cbn [map]. rewrite add_effects_nil. unfold sources. cbn [flat_map]. rewrite app_nil_r. by destruct acc.
  - unfold mbind, ST_bind. rewrite Hb, IH, add_effects_app. cbn [fst snd]. f_equal.
    f_equal. unfold sources. cbn [flat_map]. rewrite app_assoc. by destruct dirs.
Qed.

(** A computation that prints and then ends with [r]. *)
Definition says {A} (m : Build A) (P : res A → Prop) : Prop := ∀ w, ∃ l,
  Forall is_print l ∧ fst (m w) = add_effects l w ∧ P (snd (m w)).
Lemma says_ret {A} (a : A) : says (mret a) (λ r, r = Ok a).
Proof. intros w. exists []. by rewrite add_effects_nil. Qed.
Lemma says_raise {A} e : says (raise (A := A) e) (λ r, r = Raise e).
Proof. intros w. exists []. by rewrite add_effects_nil. Qed.
Lemma says_print s : says (does (Print s)) (λ r, r = Ok tt).
Proof. intros w. exists [Print s]. split; [by repeat econstructor|done]. Qed.
Lemma says_seq {A B} (m : Build A) (k : Build B) P a :
  says m (λ r, r = Ok a) → says k P → says (m ;; k) P.
Proof.
  intros Hm Hk w. destruct (Hm w) as (l & Hl & Hw & Hr). unfold mbind, ST_bind.
  destruct (m w) as [w1 r]. cbn [fst snd] in Hw, Hr. subst w1 r.
  destruct (Hk (add_effects l w)) as (l' & Hl' & Hw & Hr). exists (l ++ l').
  split; [by apply Forall_app|]. split; [by rewrite Hw, add_effects_app|exact Hr].
Qed.
Lemma says_each {A} (f : A → Build unit) xs : (∀ x, says (f x) (λ r, r = Ok tt)) → says (for_each xs f) (λ r, r = Ok tt).
Proof.
  intros H. induction xs as [|x xs IH]; [apply says_ret|]. cbn [for_each].
  eapply says_seq; [apply H|exact IH].
Qed.
Definition exits (r : res unit) : Prop := ∃ msg, r = Raise (SystemExit msg).
Lemma says_advice msg : says (font_advice sys ;; raise (SystemExit msg)) exits.
Proof.
  intros w. unfold font_advice, LatexFonts.check, LatexFonts.get_noto_cjk_vf_fonts.
  unfold mbind, ST_bind, lift_res. destruct (fc_list sys) as [out|exc].
  - destruct (_ =? "")%string.
    + exists []. rewrite add_effects_nil. cbn. by repeat eexists.
    + eexists [_]. cbn. split; [by repeat econstructor|]. split; [reflexivity|]. by eexists.
  - exists []. rewrite add_effects_nil. cbn. split; [done|]. split; [done|]. by eexists.
Qed.
Definition report (builds : dict string) (build_failed : bool) (max_len : nat) : Build unit :=
  if verbose b then
    does (Print "") ;;
    does (Print ("Summary" +:+ nl +:+ str_mul 7 "=")) ;;
    for_each builds (λ '(name, file), does (Print (ljust max_len name +:+ ": " +:+ file))) ;;
    does (Print "") ;;
    when build_failed (font_advice sys ;; raise (SystemExit "Error: not all PDF files were created."))
  else
    when build_failed
      (font_advice sys ;;
       raise (SystemExit ("Error: Can't build " +:+ int_str (length builds) +:+ " PDF file(s): "
                          +:+ join ", " (dkeys builds)))).
Lemma says_report builds failed len :
  says (report builds failed len) (λ r, if failed then exits r else r = Ok tt).
Proof.
  assert (∀ msg, says (when failed (font_advice sys ;; raise (SystemExit msg)))
    (λ r, if failed then exits r else r = Ok tt)) as Hw.
  { intros msg. destruct failed; [apply says_advice|apply says_ret]. }
  unfold report. destruct (verbose b); [|apply Hw].
  eapply says_seq; [apply says_print|]. eapply says_seq; [apply says_print|].
  eapply says_seq; [apply says_each; intros [name file]; apply says_print|].
  eapply says_seq; [apply says_print|apply Hw].
Qed.

(** C25 When the commands start, [handle_pdf] runs the command for every source
    once and moves the PDF files that are there.  It returns if there is a source
    and each command has ended with status 0 and left its file; otherwise the process
    exits with a message.  So a file whose command ends with another status counts as
    failed, and is not moved, though it was built: the comment in
    [pdf_parallel_build] says that this status is ignored.  None of this depends on
    the order in which the workers end. *)
Theorem pdf_files_made latex_cmd output_dirs deny_vf w :
  (∀ cmd e dir, is_Some (match call sys cmd e dir with inr st => Some st | inl _ => None end)) →
  (∀ jobs, as_completed sys jobs ≡ₚ jobs) →
  latex_command b = Ok latex_cmd → output_dirs ≠ [] → (0 < pdf_jobs sys b)%Z →
  NoDup (map (out_name sys b) (sources output_dirs)) →
  let e := pdf_env deny_vf w in
  let '(w', r) := handle_pdf sys b output_dirs deny_vf w in
  (∃ done printed, effects w' = effects w ++ map (λ d, MakeDirs (path_join d "../pdf")) output_dirs ++ done ++ printed ∧
     done ≡ₚ flat_map (job_effects sys latex_cmd e) (sources output_dirs) ∧ Forall is_print printed) ∧
  if bool_decide (sources output_dirs ≠ []) && forallb (made sys latex_cmd e) (sources output_dirs)
  then r = Ok tt else exits r.
Proof.
  intros Hstart Hord Hl Hd Hn Hnd. cbv zeta. unfold handle_pdf.
  set (w1 := World (environ w) (pdf_env deny_vf w) (effects w)).
  assert (∀ k : Build unit, ((match deny_vf with
     | Some (String _ _ as d) =>
         let d := expanduser (home sys) d in when (isdir sys d) (setenv "XDG_CONFIG_HOME" d)
     | _ => mret tt end) ;; k) w = k w1) as ->.
  { intros k. unfold mbind, ST_bind, w1, pdf_env. destruct w as [wv we wf].
    destruct deny_vf as [[|c d]|]; [done| |done]. cbv zeta. by destruct (isdir sys _). }
  unfold mbind at 1, ST_bind at 1, tex_sources. rewrite (tex_sources_ok latex_cmd) by done. cbn [fst snd app].
  destruct output_dirs as [|d0 dirs]; [done|]. set (output_dirs := d0 :: dirs) in *.
  set (w2 := add_effects _ w1). cbv iota.
  unfold mbind at 1, ST_bind at 1.
  assert (∃ builds done, pdf_parallel_build sys b latex_cmd (sources output_dirs) (pdf_jobs sys b) w2
    = (add_effects done w2, Ok (builds, negb (bool_decide (sources output_dirs ≠ [])
         && forallb (made sys latex_cmd (pdf_env deny_vf w)) (sources output_dirs)),
         match sources output_dirs with [] => 11 | _ => widest sys b (sources output_dirs) end)) ∧
    done ≡ₚ flat_map (job_effects sys latex_cmd (pdf_env deny_vf w)) (sources output_dirs)) as (builds & done_ & -> & Hp).
  { destruct (decide (sources output_dirs = [])) as [E|E].
    - rewrite E. unfold pdf_parallel_build. rewrite (proj2 (Z.leb_gt _ 0)) by done. cbn [List.filter].
      pose proof (Hord []) as H0. symmetry in H0. apply Permutation_nil in H0. rewrite H0.
      do 2 eexists. split; [|done]. unfold mbind, ST_bind. cbn [for_acc]. by rewrite add_effects_nil.
    - destruct (pdf_build sys b latex_cmd Hstart Hord (sources output_dirs) (pdf_jobs sys b) w2) as (bs & dn & H & Hdn & _);
        rewrite ?sources_tex; [done|done|done|]. rewrite sources_tex in *. exists bs, dn. split; [|done].
      rewrite H. rewrite bool_decide_eq_true_2 by done. cbn [andb]. do 3 f_equal.
      + f_equal. change (env w2) with (pdf_env deny_vf w). clear. induction (sources output_dirs) as [|t l IH]; [done|].
        cbn [existsb forallb]. by rewrite IH, negb_andb.
      + by destruct (sources output_dirs). }
  cbv beta iota.
  match goal with |- context [if verbose b then ?x else ?y] =>
    change (if verbose b then x else y) with (report builds (negb (bool_decide (sources output_dirs ≠ [])
      && forallb (made sys latex_cmd (pdf_env deny_vf w)) (sources output_dirs)))
      (match sources output_dirs with [] => 11 | _ => widest sys b (sources output_dirs) end)) end.
  destruct (says_report builds (negb (bool_decide (sources output_dirs ≠ [])
    && forallb (made sys latex_cmd (pdf_env deny_vf w)) (sources output_dirs)))
    (match sources output_dirs with [] => 11 | _ => widest sys b (sources output_dirs) end) (add_effects done_ w2))
    as (l & Hl' & Hw & Hr).
  destruct (report _ _ _ _) as [w' r]. cbn [fst snd] in Hw, Hr. subst w'. split.
  - exists done_, l. split; [|done]. unfold w2, w1, add_effects. cbn [effects]. by rewrite <- !app_assoc.
  - by destruct (_ && _).
Qed.
End HandlePdf.

Lemma pdf_files_made_witness :
  snd (handle_pdf (sample_system "") (sample_builder true) ["/k/out/latex"] None (World [] [] [])) = Ok tt.
Proof.
  pose proof (pdf_files_made (sample_system "") (sample_builder true) ["xelatex"; "-x"] ["/k/out/latex"] None
    (World [] [] []) ltac:(intros; by eexists) ltac:(intros; apply reverse_Permutation) eq_refl ltac:(done) eq_refl) as H.
  cbv zeta in H. destruct (handle_pdf _ _ _ _ _) as [w' r].
  destruct H as [_ H]; [apply (bool_decide_unpack _); vm_compute; exact I|exact H].
Defined.

(** ** The folders of a build *)

Section Folders.
Context (sys : system) (b : builder) (target builder_name out_dir : string).

(** The arguments that all folders share. *)
Definition shared_args (paper : option string) : list string :=
  ["-b"; builder_name; "-c"; abspath (cwd sys) (path_join (srctree b) "Documentation")]
  ++ if (builder_name =? "latex")%string
     then ["-D"; "latex_elements.papersize=" +:+ (if given paper then default "" paper else "a4") +:+ "paper"] else [].
Definition doctrees : string := normpath (path_join (builddir b) ".doctrees").
Definition output_of (dir : string) : string := normpath (path_join3 (builddir b) dir out_dir).
Definition source_of (dir : string) : string :=
  normpath (path_join (abspath (cwd sys) (path_join (srctree b) "Documentation")) dir).
Definition folder_command (sphinx_build : string) (args : list string) (dir : string) : list string :=
  sphinx_command sys b sphinx_build (build_args b args doctrees (source_of dir) (output_of dir)).
(** Folder after folder, up to the first for which [sphinx-build] fails. *)
Fixpoint folders_until (sphinx_build : string) (args : list string) (e : dict string) (dirs : list string)
    : list effect * res unit :=
  match dirs with
  | [] => ([], Ok tt)
  | dir :: dirs =>
      let cmd := folder_command sphinx_build args dir in
      let before := [MakeDirs doctrees; MakeDirs (output_of dir)] in
      match call sys cmd e None with
      | inl _ => (before, Raise (SystemExit "Build failed: "))
      | inr status =>
          if (status =? 0)%Z then
            let '(l, r) := folders_until sphinx_build args e dirs in (before ++ Called cmd e None :: l, r)
          else (before ++ [Called cmd e None],
                Raise (SystemExit ("Build failed: return code: " +:+ zint_str status)))
      end
  end.
(** The folders: the words of the command line, or the characters of [$SPHINXDIRS]
    that are no blanks. *)
Definition folders (sphinxdirs : option (list string)) (w : world) : list string :=
  match sphinxdirs with
  | Some ((_ :: _) as l) => flat_map split_ws l
  | _ => map (λ c, String c "")
           (List.filter (λ c, negb (is_space c)) (list_ascii_of_string (dget_or (environ w) "SPHINXDIRS" ".")))
  end.

Lemma split_one c : split_ws (String c "") = if is_space c then [] else [String c ""].
Proof. unfold split_ws. cbn. by destruct (is_space c). Qed.
Lemma folders_list sphinxdirs w : sphinxdirs_list sphinxdirs w = (w, Ok (folders sphinxdirs w)).
Proof.
  assert (∀ w, (text ← getenv "SPHINXDIRS" ".";
    mret (flat_map (λ c, split_ws (String c "")) (list_ascii_of_string text))) w
    = (w, Ok (map (λ c, String c "") (List.filter (λ c, negb (is_space c))
        (list_ascii_of_string (dget_or (environ w) "SPHINXDIRS" ".")))))) as H.
  { clear w. intros w. unfold mbind, ST_bind, getenv, gets, mret, ST_ret. do 2 f_equal.
    induction (list_ascii_of_string _) as [|c l IH]; [done|]. cbn [flat_map List.filter]. rewrite split_one.
    destruct (is_space c); cbn [negb app map]; by rewrite IH. }
  unfold sphinxdirs_list, folders. destruct sphinxdirs as [[|x l]|]; [apply H|done|apply H].
Qed.

Context (known : dget TARGETS target = Some (builder_name, out_dir)).
Context (plain_target : target ∉ ["cleandocs"; "mandocs"; "pdfdocs"; "infodocs"]).
Context (quiet : verbose b = false).

Lemma loop_folders sphinx_build kerneldoc args dirs : ∀ done w,
  match for_acc dirs done (λ output_dirs sphinxdir,
    output_dir ← build_dir sys b target kerneldoc (abspath (cwd sys) (path_join (srctree b) "Documentation"))
      out_dir args (Some sphinx_build) None false sphinxdir;
    mret (output_dirs ++ [output_dir])) w with
  | (w', r) => w' = add_effects (fst (folders_until sphinx_build args (env w) dirs)) w ∧
      match snd (folders_until sphinx_build args (env w) dirs) with
      | Ok _ => r = Ok (done ++ map output_of dirs)
      | Raise e => r = Raise e
      end
  end.
Proof.
  assert (target ≠ "mandocs") as Hman by (intros ->; apply plain_target; set_solver).
  induction dirs as [|dir dirs IH]; intros done_ w.
  { cbn [for_acc folders_until fst snd map]. by rewrite add_effects_nil, app_nil_r. }
  set (w1 := add_effects [MakeDirs doctrees; MakeDirs (output_of dir)] w).
  set (cmd := folder_command sphinx_build args dir).
  assert (build_dir sys b target kerneldoc (abspath (cwd sys) (path_join (srctree b) "Documentation"))
      out_dir args (Some sphinx_build) None false dir w
    = match call sys cmd (env w) None with
      | inl _ => (w1, Raise (SystemExit "Build failed: "))
      | inr status =>
          (add_effects [Called cmd (env w) None] w1,
           if (status =? 0)%Z then Ok (output_of dir)
           else Raise (SystemExit ("Build failed: return code: " +:+ zint_str status)))
      end) as Hdir.
  { unfold build_dir. cbv zeta. fold doctrees (output_of dir) (source_of dir).
    rewrite (proj2 (String.eqb_neq target "mandocs")) by done. cbn [negb when].
    unfold build_failed_on, run_sphinx. cbv zeta. 
    change (sphinx_command sys b (default "" (Some sphinx_build)) (build_args b args doctrees (source_of dir) (output_of dir))) with cmd.
    rewrite quiet. cbn [when]. unfold subprocess_call, mbind, ST_bind, does, modify, gets, mret, ST_ret.
    assert (World (environ w) (env w) ((effects w ++ [MakeDirs doctrees]) ++ [MakeDirs (output_of dir)]) = w1) as E.
    { unfold w1, add_effects. by rewrite <- app_assoc. }
    cbn [environ env effects]. rewrite E. destruct (call sys cmd (env w) None) as [msg|status]; [reflexivity|].
    unfold when, raise, mret, ST_ret. destruct (status =? 0)%Z; cbn [negb]; unfold w1, add_effects; cbn [environ env effects];
      rewrite <- !app_assoc; [|done]. unfold handle_html. by destruct (smem target _). }
  cbn [for_acc folders_until]. fold cmd. unfold mbind at 1, ST_bind at 1. unfold mbind at 1, ST_bind at 1. rewrite Hdir.
  destruct (call sys cmd (env w) None) as [msg|status]; [done|].
  destruct (status =? 0)%Z.
  - unfold mret at 1, ST_ret at 1.
    specialize (IH (done_ ++ [output_of dir]) (add_effects [Called cmd (env w) None] w1)).
    match type of IH with match ?x with _ => _ end => destruct x as [w' r] end.
    change (env (add_effects [Called cmd (env w) None] w1)) with (env w) in IH.
    destruct (folders_until sphinx_build args (env w) dirs) as [l x]. cbn [fst snd] in *. destruct IH as [-> IH].
    split; [unfold w1; by rewrite !add_effects_app|]. destruct x; [|done]. by rewrite IH, <- app_assoc.
  - split; [|done]. unfold w1. by rewrite add_effects_app.
Qed.

(** C30 Every target that [sphinx-build] alone makes, without verbosity, style sheet or Rust: it is
    called once for each folder, in order, with the folders of the
    sources and of the output that belong together, up to the first call
    that fails, which ends the process.  All calls have the environment of the
    object, to which the theme is not added; and when no folder is given on the command
    line, each character of [$SPHINXDIRS] counts as one. *)
Theorem folders_built sphinxdirs theme paper deny_vf w path found :
  dget (env w) "PATH" = Some path → which sys (sphinxbuild b) path = Some found → found ≠ "" →
  isfile sys (path_join (srctree b) ".config") = false →
  let e := if locale_ok sys then env w else dset (env w) "LC_ALL" "C" in
  let '(w', r) := build sys b target sphinxdirs theme None paper deny_vf false w in
  (effects w', r) = (effects w ++ fst (folders_until found (shared_args paper) e (folders sphinxdirs w)),
                     snd (folders_until found (shared_args paper) e (folders sphinxdirs w))).
Proof.
  intros Hpath Hwhich Hfound Hrust. cbv zeta. unfold build. rewrite known.
  assert (target ≠ "cleandocs" ∧ target ≠ "mandocs" ∧ target ≠ "pdfdocs" ∧ target ≠ "infodocs") as (Hc & _ & Hp & Hi).
  { repeat split; intros ->; apply plain_target; set_solver. }
  rewrite (proj2 (String.eqb_neq target "cleandocs")) by done. cbv zeta.
  set (w1 := if given theme then World (dset (environ w) "DOCS_THEME" (default "" theme)) (env w) (effects w) else w).
  unfold mbind at 1, ST_bind at 1.
  assert (when (given theme) (set_environ "DOCS_THEME" (default "" theme)) w = (w1, Ok tt)) as ->.
  { unfold w1. by destruct (given theme). }
  assert (find_sphinx sys b target false w1 = (w1, Ok (Some found))) as Hfind.
  { unfold find_sphinx, mbind, ST_bind, gets. assert (env w1 = env w) as -> by (unfold w1; by destruct (given theme)).
    rewrite Hpath, Hwhich. destruct found as [|c found']; [done|]. cbn [given negb andb].
    unfold mret, ST_ret. by rewrite (proj2 (String.eqb_neq target "pdfdocs")) by done. }
  unfold mbind at 1, ST_bind at 1. rewrite Hfind.
  unfold mbind at 1, ST_bind at 1. rewrite folders_list.
  assert (folders sphinxdirs w1 = folders sphinxdirs w) as ->.
  { unfold folders. destruct sphinxdirs as [[|x l]|]; [|done|]; unfold w1, dget_or;
      (destruct (given theme); [|done]); cbn [environ]; by rewrite dget_dset_ne. }
  set (dirs := folders sphinxdirs w).
  assert (check_rust sys b dirs w1 = (w1, Ok false)) as Hr.
  { unfold check_rust. cbv zeta. rewrite Hrust. by destruct (negb (smem "." dirs || smem "rust" dirs)). }
  unfold mbind at 1, ST_bind at 1. rewrite Hr. cbv iota.
  set (w2 := World (environ w1) (if locale_ok sys then env w else dset (env w) "LC_ALL" "C") (effects w)).
  assert (when (negb (locale_ok sys)) (setenv "LC_ALL" "C") w1 = (w2, Ok tt)) as Hloc.
  { unfold w2, w1. destruct w as [we wv wf]. destruct (locale_ok sys), (given theme); reflexivity. }
  unfold mbind at 1, ST_bind at 1. rewrite Hloc.
  pose proof (loop_folders found (if startswith (srctree b) (kerneldoc b) then relpath (cwd sys) (kerneldoc b) (srctree b)
    else kerneldoc b) (shared_args paper) dirs [] w2) as H.
  rewrite app_nil_r. fold (shared_args paper). change (env w2) with (if locale_ok sys then env w else dset (env w) "LC_ALL" "C") in H.
  unfold mbind at 1, ST_bind at 1.
  match type of H with match ?x with _ => _ end => destruct x as [w' r] end. destruct H as [-> H].
  destruct (folders_until found (shared_args paper) _ dirs) as [l x]. cbn [fst snd] in *.
  destruct x as [[]|ex]; subst r; [|done].
  rewrite (proj2 (String.eqb_neq target "pdfdocs")) by done.
  rewrite (proj2 (String.eqb_neq target "infodocs")) by done. reflexivity.
Qed.
End Folders.

(** [make SPHINXDIRS="ab" htmldocs] builds the folders [a] and [b]; the theme is
    not passed on. *)
Definition bare_system : system :=
  System "/k" (λ _, None) (λ _, false) (λ _, false) (λ _, false) (λ _, None)
    (λ cmd _, Some ("/bin/" +:+ cmd)) (λ cmd _ _, inr (if smem "/k/out/b" cmd then 2 else 0)%Z)
    (λ _, inl "") (λ _, []) (λ _, []) None true (λ _ _, None) (λ l, l) (inl "").
Lemma folders_built_witness :
  let w := World [("PATH", "/bin"); ("SPHINXDIRS", "ab")] [("PATH", "/bin")] [] in
  let '(w', r) := build bare_system (sample_builder false) "htmldocs" None (Some "dark") None None None false w in
  r = Raise (SystemExit "Build failed: return code: 2") ∧
  flat_map (λ e, match e with Called cmd e None => [(last cmd, dget e "DOCS_THEME")] | _ => [] end) (effects w')
  = [(Some "/k/out/a", None); (Some "/k/out/b", None)].
Proof.
  cbv zeta.
  pose proof (folders_built bare_system (sample_builder false) "htmldocs" "html" "" eq_refl
    ltac:(by apply (bool_decide_unpack _)) eq_refl None (Some "dark") None None
    (World [("PATH", "/bin"); ("SPHINXDIRS", "ab")] [("PATH", "/bin")] []) "/bin" "/bin/sphinx-build"
    eq_refl eq_refl ltac:(done) eq_refl) as H.
  cbv zeta in H. destruct (build _ _ _ _ _ _ _ _ _ _) as [w' r].
  injection H as He ->. rewrite He. split; vm_compute; reflexivity.
Defined.
