(* ===== verification/KdocDiff.v ===== *)
(** * KdocDiff: [docs/kdoc_diff]

    The script that compares what [kernel-doc] prints at two commits.  Git with the
    tree it has checked out, [kernel-doc], the unit test and [diff] are
    parameters; the folders of the caches, the commands given to git, the output
    and the handler of signals are the state.  A signal is looked for when a
    program is run; a second one while the first is handled is left out; so are
    folders inside those of the caches, and the text of an exception at the end of a
    message. *)

From S2P Require Import Prelude PyStr PyNum PyPath PyRe PyReSyntax PyReTheory Argparse.

Definition CACHE_DIR : string := ".doc_diff_cache".
Definition YAML_NAME : string := "out.yaml".
Definition DIR_NAME : dict string := [
  ("full", path_join CACHE_DIR "full"); ("partial", path_join CACHE_DIR "partial");
  ("no-cache", path_join CACHE_DIR "no_cache"); ("tmp", path_join CACHE_DIR "__tmp__")].

(** [value.partition(sep)], without the separator. *)
Fixpoint partition (sep value : string) : string * string :=
  if startswith sep value then ("", str_drop (String.length sep) value)
  else match value with
       | "" => ("", "")
       | String c t => let '(a, b) := partition sep t in (String c a, b)
       end.
(** [parse_commit_range(value)]; the line it prints is printed by [main]. *)
Definition parse_commit_range (value : string) : option (string * string) :=
  let '(begin, end_) :=
    if str_in ".." value then
      let '(begin, end_) := partition ".." value in
      (begin, if (end_ =? "")%string then "HEAD" else end_)
    else (value, "HEAD") in
  if (begin =? "")%string then None else Some (begin, end_).

(** The paths of a folder and those above it. *)
Definition ancestors (p : string) : list string :=
  let comps := norm_comps p in
  map (λ n, "/" +:+ join "/" (take n comps)) (seq 1 (length comps)).

Section Diff.
(** [tree] is what is checked out and what else git knows; [git] runs a command. *)
Context {tree : Type} (git : list string → tree → tree * (Z * string)).
(** The status and the two outputs of [kernel-doc], the test file that it writes, the
    status of the unit test, and the output of [diff], [None] when it is not
    installed.  A man page carries a month, that of [KBUILD_BUILD_TIMESTAMP] or the
    current one: [kernel_doc] is what the command gives in the month of the run, so
    an output kept from an earlier month need not be one of [kernel_doc]. *)
Context (kernel_doc : list string → tree → Z * string * string).
Context (yaml_written : list string → tree → option string) (unittest : list string → tree → Z).
Context (diff : string → string → option string).
(** The pages of the documentation, and their texts; the order of a set. *)
Context (rst_files : tree → list string) (read_text : string → tree → option string).
Context (set_order : list string → list string).
(** The folder in which the script was started, and its constants. *)
Context (cwd WORK_DIR KDOC_BINARY KDOC_PARSER_TEST : string).

(** ** State *)

(** [dirs] has the files of each folder, by its absolute path; [handler] is
    the original branch while the handler of signals is in place; [signals]
    says which signal comes when a program is run next. *)
Record state := State {
  checked_out : tree;
  git_log : list (list string);
  dirs : dict (dict string);
  printed : list string;
  handler : option string;
  signals : list (option nat);
}.
Abbreviation Script := (ST state).
Definition say (line : string) : Script unit := modify (λ s,
  State (checked_out s) (git_log s) (dirs s) (printed s ++ [line]) (handler s) (signals s)).
Definition set_dirs (f : dict (dict string) → dict (dict string)) : Script unit := modify (λ s,
  State (checked_out s) (git_log s) (f (dirs s)) (printed s) (handler s) (signals s)).
Definition set_handler (h : option string) : Script unit := modify (λ s,
  State (checked_out s) (git_log s) (dirs s) (printed s) h (signals s)).

(** Folders; paths are relative to [cwd]. *)
Definition resolve (path : string) : string := abspath cwd path.
Definition exists_dir (path : string) : Script bool := gets (λ s, dmem (dirs s) (resolve path)).
Definition makedirs (path : string) : Script unit :=
  set_dirs (λ ds, fold_left (λ ds p, if dmem ds p then ds else dset ds p []) (ancestors (resolve path)) ds).
Definition rmtree (path : string) : Script unit :=
  set_dirs (λ ds, List.filter (λ e, negb ((fst e =? resolve path)%string
                                          || startswith (resolve path +:+ "/") (fst e))) ds).
Definition write_file (dir name text : string) : Script unit :=
  ds ← gets dirs;
  match dget ds (resolve dir) with
  | Some files => set_dirs (λ ds, dset ds (resolve dir) (dset files name text))
  | None => raise (OSError "No such file or directory")
  end.
(** [os.replace(from, to)] for folders: [to] may be an empty folder. *)
Definition replace_dir (from to : string) : Script unit :=
  ds ← gets dirs;
  match dget ds (resolve from), dget ds (resolve to) with
  | None, _ => raise (OSError "No such file or directory")
  | Some _, Some (_ :: _) => raise (OSError "Directory not empty")
  | Some files, _ =>
      if dmem ds (dirname (resolve to))
      then set_dirs (λ ds, dset (ddel ds (resolve from)) (resolve to) files)
      else raise (OSError "No such file or directory")
  end.

(** ** [SignalHandler] *)

(** A command of git, without a look at the signals. *)
Definition raw_git (cmd : list string) : Script (Z * string) := λ s,
  let '(t, r) := git cmd (checked_out s) in
  (State t (git_log s ++ [cmd]) (dirs s) (printed s) (handler s) (signals s), Ok r).
(** [restore()]; [self.restored] is that the handler is not in place. *)
Definition restore : Script unit :=
  h ← gets handler;
  match h with
  | None => mret tt
  | Some original_head =>
      say ("Restoring original branch: " +:+ original_head) ;;
      r ← raw_git ["git"; "checkout"; "-f"; original_head];
      when (negb (fst r =? 0)%Z) (say "Failed to restore: ") ;;
      set_handler None
  end.
(** [signal_handler(sig, frame)] *)
Definition signal_handler (sig : nat) : Script unit :=
  say (nl +:+ "Signal " +:+ int_str sig +:+ " received. Restoring original state...") ;;
  restore ;;
  raise (Exit 1).
(** A signal that has come, if the handler is in place. *)
Definition poll : Script unit := λ s,
  match handler s, signals s with
  | Some _, sig :: rest =>
      let s := State (checked_out s) (git_log s) (dirs s) (printed s) (handler s) rest in
      match sig with Some sig => signal_handler sig s | None => (s, Ok tt) end
  | _, _ => (s, Ok tt)
  end.
(** [with SignalHandler(git_helper, original_head): body] *)
Definition with_handler {A} (original_head : string) (body : Script A) : Script A := λ s,
  match (set_handler (Some original_head) ;; body) s with
  | (s, r) =>
      match restore s with
      | (s, Ok _) => (s, r)
      | (s, Raise e) => (s, Raise e)
      end
  end.

(** ** [GitHelper] *)

Definition run_git (cmd : list string) : Script (Z * string) := poll ;; raw_git cmd.
Definition succeeds (r : Z * string) : bool := (fst r =? 0)%Z.
Definition is_inside_repository : Script bool :=
  r ← run_git ["git"; "rev-parse"; "--is-inside-work-tree"];
  mret (succeeds r && (strip (snd r) =? "true")%string).
Definition is_valid_commit (commit_hash : string) : Script bool :=
  r ← run_git ["git"; "rev-parse"; commit_hash]; mret (succeeds r).
Definition get_short_hash (commit_hash : string) : Script string :=
  r ← run_git ["git"; "rev-parse"; "--short"; commit_hash];
  mret (if succeeds r then strip (snd r) else "").
Definition has_uncommitted_changes : Script bool :=
  r ← run_git ["git"; "diff-index"; "--quiet"; "HEAD"; "--"]; mret (negb (succeeds r)).
Definition get_current_branch : Script string :=
  r ← run_git ["git"; "branch"; "--show-current"];
  if succeeds r then mret (strip (snd r))
  else raise (CalledProcessError (fst r) "git branch --show-current").
Definition checkout_commit (commit_hash : string) (quiet : bool) : Script bool :=
  r ← run_git (["git"; "checkout"; "-f"] ++ (if quiet then ["-q"] else []) ++ [commit_hash]);
  if succeeds r then
    branch ← get_short_hash "HEAD";
    if (commit_hash =? branch)%string then mret true
    else raise (RuntimeError ("Branch changed to '" +:+ branch +:+ "' instead of '" +:+ commit_hash +:+ "'"))
  else say ("ERROR: Failed to checkout " +:+ commit_hash +:+ ": ") ;; mret false.

(** ** [CacheManager] *)

Definition initialize (work_dir : string) : Script unit :=
  for_each DIR_NAME (λ '(_, dir_path),
    let abs_path := path_join work_dir dir_path in
    found ← exists_dir abs_path;
    when (negb found) (makedirs abs_path)).
Definition get_commit_cache (commit_hash path : string) : Script string :=
  hash_short ← get_short_hash commit_hash;
  mret (path_join path (if (hash_short =? "")%string then commit_hash else hash_short)).

(** ** [KernelDocRunner] *)

Definition re_reference : pattern := compiled no_flags "^\.\.\s+kernel-doc::\s*(\S+)".
(** The sources that the text of a page names. *)
Definition references (text : string) : list string :=
  flat_map (λ line, match re_match re_reference (strip line) with Some m => [group_or m 1] | None => [] end)
    (readlines text).
(** [find_kdoc_references()], called once. *)
Definition find_kdoc_references : Script (list string) :=
  say "Finding kernel-doc entries in Documentation..." ;;
  t ← gets checked_out;
  mret (set_order (remove_dups (flat_map (λ f, match read_text f t with Some text => references text | None => [] end)
                                  (rst_files t)))).
(** A run of [kernel-doc] on the tree that is checked out. *)
Definition run_kernel_doc (cmd : list string) : Script (Z * string * string) :=
  poll ;; gets (λ s, kernel_doc cmd (checked_out s)).
Definition gen_yaml (work_dir yaml_file : string) (kdoc_files : list string) : Script bool :=
  say ("YAML regression test file will be stored at: " +:+ yaml_file) ;;
  let cmd := [KDOC_BINARY; "--man"; "--rst"; "--yaml"; yaml_file] ++ kdoc_files in
  r ← run_kernel_doc cmd;
  text ← gets (λ s, yaml_written cmd (checked_out s));
  match text with
  | Some text => write_file (path_join work_dir (dirname yaml_file)) (basename yaml_file) text
  | None => mret tt
  end ;;
  mret (fst (fst r) =? 0)%Z.
Definition run_unittest (yaml_file : string) : Script bool :=
  let cmd := [KDOC_PARSER_TEST; "-q"; "--yaml"; yaml_file] in
  poll ;;
  status ← gets (λ s, unittest cmd (checked_out s));
  when (negb (status =? 0)%Z)
    (say ("To check for problems, try to run it again with -v" +:+ nl) ;;
     say ("Use -k <regex> to filter results" +:+ nl +:+ nl +:+ tab +:+ "$" +:+ join " " cmd +:+ nl)) ;;
  mret true.
Definition normal_run (tmp_dir output_dir : string) (kdoc_files : list string) : Script bool :=
  makedirs tmp_dir ;;
  write_file tmp_dir "man.log" "" ;;
  m ← run_kernel_doc ([KDOC_BINARY; "--man"] ++ kdoc_files);
  write_file tmp_dir "man.log" (snd (fst m)) ;;
  if negb (fst (fst m) =? 0)%Z then mret false
  else
    write_file tmp_dir "rst.log" "" ;;
    write_file tmp_dir "err.log" "" ;;
    r ← run_kernel_doc ([KDOC_BINARY; "--rst"] ++ kdoc_files);
    write_file tmp_dir "rst.log" (snd (fst r)) ;;
    write_file tmp_dir "err.log" (snd r) ;;
    if negb (fst (fst r) =? 0)%Z then mret false
    else
      when (negb (output_dir =? "")%string) (replace_dir tmp_dir output_dir) ;;
      mret true.
Definition run (work_dir commit_hash tmp_dir output_dir : string) (kdoc_files : list string)
    (is_regression is_end : bool) : Script bool :=
  match kdoc_files with
  | [] => raise (RuntimeError "No kernel-doc references found")
  | _ =>
      ok ← checkout_commit commit_hash true;
      if negb ok then raise (RuntimeError ("ERROR: can't checkout commit " +:+ commit_hash))
      else
        say ("Processing " +:+ commit_hash +:+ "...") ;;
        let yaml_file := path_join tmp_dir YAML_NAME in
        if negb is_regression then normal_run tmp_dir output_dir kdoc_files
        else if negb is_end then gen_yaml work_dir yaml_file kdoc_files
        else run_unittest yaml_file
  end.

(** ** [DiffManager] *)

Definition files_in (dir : string) : Script (dict string) :=
  gets (λ s, default [] (dget (dirs s) (resolve dir))).
(** One turn of the loop over the files of both folders; what [print(..., end="")]
    prints is one entry. *)
Definition diff_file (files1 files2 : dict string) (has_diff : bool) (file : string) : Script bool :=
  match diff (dget_or files1 file "") (dget_or files2 file "") with
  | None => say "ERROR: diff not found" ;; raise (Exit 1)
  | Some "" => mret has_diff
  | Some out => say (nl +:+ file) ;; say out ;; mret true
  end.
Definition diff_directories (dir1 dir2 : string) : Script unit :=
  say (nl +:+ "Diffing " +:+ dir1 +:+ " and " +:+ dir2 +:+ ":") ;;
  files1 ← files_in dir1;
  files2 ← files_in dir2;
  let common_files := sort_by id (List.filter (λ f, smem f (dkeys files2)) (dkeys files1)) in
  has_diff ← for_acc common_files false (diff_file files1 files2);
  let only_in_dir1 := List.filter (λ f, negb (smem f (dkeys files2))) (dkeys files1) in
  let only_in_dir2 := List.filter (λ f, negb (smem f (dkeys files1))) (dkeys files2) in
  match only_in_dir1, only_in_dir2 with
  | [], [] => when (negb has_diff) (say (nl +:+ "No differences between those two commits"))
  | _, _ =>
      say (nl +:+ "Differential files:") ;;
      for_each (sort_by id only_in_dir1) (λ f, say ("  - " +:+ f +:+ " (only in " +:+ dir1 +:+ ")")) ;;
      for_each (sort_by id only_in_dir2) (λ f, say ("  + " +:+ f +:+ " (only in " +:+ dir2 +:+ ")"))
  end.

(** ** [main] *)

(** The arguments. *)
Record args := Args {
  commits : string * string;
  files : list string;
  full : bool;
  regression : bool;
  work_dir : string;
  clean : bool;
}.
(** A commit of the range: its short hash. *)
Definition validated (commit : string) : Script unit :=
  ok ← is_valid_commit commit;
  when (negb ok) (raise (RuntimeError ("Commit '" +:+ commit +:+ "' does not exist"))).
(** The kind of the comparison, what is said of the cache, and the sources. *)
Definition choose_files (a : args) (dir : string) : Script (string * string * list string) :=
  when (full a) (say ("Parsing all files at " +:+ dir)) ;;
  match files a with
  | [] =>
      l ← find_kdoc_references;
      say ("Parsing files with kernel-doc markups at " +:+ dir +:+ "/Documentation") ;;
      mret ("partial", " (results will be cached)", l)
  | l => mret ("no-cache", "", l)
  end.
(** What is done with the handler of signals in place. *)
Definition generate (a : args) (work_dir diff_type old_commit new_commit tmp_dir old_cache new_cache : string)
    (kdoc_files : list string) : Script (bool * bool) :=
  when (clean a || (diff_type =? "no-cache")%string)
    (for_each [old_cache; new_cache] (λ cache_dir,
      found ← exists_dir cache_dir;
      when (negb (cache_dir =? "")%string && found) (rmtree cache_dir))) ;;
  found ← exists_dir old_cache;
  old_success ← (if regression a || negb found
                 then run work_dir old_commit tmp_dir old_cache kdoc_files (regression a) false else mret true);
  found ← exists_dir new_cache;
  new_success ← (if regression a || negb found
                 then run work_dir new_commit tmp_dir new_cache kdoc_files (regression a) true else mret true);
  mret (old_success, new_success).
Definition run_main (a : args) : Script unit :=
  say ("Range: " +:+ fst (commits a) +:+ " to " +:+ snd (commits a)) ;;
  match files a, full a with
  | _ :: _, true => raise (AttributeError "option_strings")
  | _, _ =>
      let dir := abspath cwd (work_dir a) in
      initialize dir ;;
      inside ← is_inside_repository;
      if negb inside then raise (RuntimeError "Must run inside Git repository")
      else
        old_commit ← get_short_hash (fst (commits a));
        new_commit ← get_short_hash (snd (commits a));
        for_each [old_commit; new_commit] validated ;;
        dirty ← has_uncommitted_changes;
        if (dirty : bool) then raise (RuntimeError "Uncommitted changes present. Commit or stash first.")
        else
          chosen ← choose_files a dir;
          let '(diff_type, cache_msg, kdoc_files) := chosen in
          let tmp_dir := dget_or DIR_NAME "tmp" "" in
          let out_path := dget_or DIR_NAME diff_type "" in
          when (negb (regression a)) (say ("Output will be stored at: " +:+ out_path +:+ cache_msg)) ;;
          match kdoc_files with
          | [] => raise (AttributeError "option_strings")
          | _ =>
              original_head ← get_current_branch;
              old_cache ← get_commit_cache old_commit out_path;
              new_cache ← get_commit_cache new_commit out_path;
              success ← with_handler original_head
                (generate a dir diff_type old_commit new_commit tmp_dir old_cache new_cache kdoc_files);
              if negb (fst success && snd success) then raise (RuntimeError "Failed to generate documentation")
              else when (negb (regression a)) (diff_directories old_cache new_cache)
          end
  end.

Definition kdoc_diff_parser : parser := Parser [
    help_option;
    store_true ["--full"; "-f"] "full";
    store_true ["--regression"; "-r"] "regression";
    Optional ["--work-dir"; "-w"] "work_dir" (Store plain_str) (VStr WORK_DIR);
    store_true ["--clean"; "-c"] "clean"]
  [PositionalOf "commits" One (λ s, (λ '(begin, end_), VList [begin; end_]) <$> parse_commit_range s);
   Positional "files" Any] [] [].
Definition main (argv : list string) : Script unit :=
  ns ← lift_res (parse_args kdoc_diff_parser no_subcommand argv);
  run_main (Args (match as_list ns "commits" with Some [begin; end_] => (begin, end_) | _ => ("", "") end)
    (default [] (as_list ns "files")) (as_bool ns "full") (as_bool ns "regression")
    (default "" (as_str ns "work_dir")) (as_bool ns "clean")).
End Diff.
