(* ===== verification/KdocDiffSpec.v ===== *)
(** * KdocDiffSpec: the branch is restored, and the caches hold what they should *)

From S2P Require Import Prelude PyStr PyNum PyPath PyRe PyReSyntax PyReTheory Argparse KdocDiff.

(** ** The branch *)

Section Restored.
Context {tree : Type} (git : list string → tree → tree * (Z * string)).
Context (kernel_doc : list string → tree → Z * string * string).
Context (yaml_written : list string → tree → option string) (unittest : list string → tree → Z).
Context (diff : string → string → option string).
Context (rst_files : tree → list string) (read_text : string → tree → option string).
Context (set_order : list string → list string).
Context (cwd KDOC_BINARY KDOC_PARSER_TEST : string).
Abbreviation state := (@state tree).
Abbreviation Script := (ST state).

Definition restoring (original : string) : list string := ["git"; "checkout"; "-f"; original].
(** The last command was the one that checks out the branch [o], and nothing has
    happened to the tree since. *)
Definition restored (o : string) (s : state) : Prop :=
  last (git_log s) = Some (restoring o) ∧ ∃ t, checked_out s = fst (git (restoring o) t).
(** Either the handler stays in place, or it has restored the branch and the
    computation ends with an exception. *)
Definition guarded {A} (m : Script A) : Prop := ∀ s o, handler s = Some o →
  let '(s', r) := m s in
  handler s' = Some o ∨ (handler s' = None ∧ restored o s' ∧ ∃ e, r = Raise e).

Lemma guarded_ret {A} (a : A) : guarded (mret a).
Proof. intros s o H. by left. Qed.
Lemma guarded_raise {A} e : guarded (raise (A := A) e).
Proof. intros s o H. by left. Qed.
Lemma guarded_lift {A} (r : res A) : guarded (lift_res r).
Proof. intros s o H. by left. Qed.
Lemma guarded_gets {A} (f : state → A) : guarded (gets f).
Proof. intros s o H. by left. Qed.
Lemma guarded_modify f : (∀ s, handler (f s) = handler s) → guarded (modify f).
Proof. intros Hf s o H. left. cbn. by rewrite Hf. Qed.
Lemma guarded_bind {A B} (m : Script A) (f : A → Script B) :
  guarded m → (∀ a, guarded (f a)) → guarded (m ≫= f).
Proof.
  intros Hm Hf s o H. specialize (Hm s o H). unfold mbind, ST_bind. destruct (m s) as [s1 [a|e]].
  - destruct Hm as [Hm|(_ & _ & e & [=])]. by apply Hf.
  - destruct Hm as [Hm|(Hn & Hl & _)]; [by left|]. right. eauto.
Qed.
Lemma guarded_when b m : guarded m → guarded (when b m).
Proof. intros H. destruct b; [done|apply guarded_ret]. Qed.
Lemma guarded_for_each {A} (l : list A) body : (∀ x, guarded (body x)) → guarded (for_each l body).
Proof. intros H. induction l; cbn [for_each]; [apply guarded_ret|by apply guarded_bind]. Qed.
Lemma guarded_say line : guarded (say line).
Proof. by apply guarded_modify. Qed.
Lemma guarded_dirs f : guarded (set_dirs f).
Proof. by apply guarded_modify. Qed.
Lemma guarded_raw cmd : guarded (raw_git git cmd).
Proof. intros s o H. unfold raw_git. destruct (git cmd (checked_out s)) as [t r]. by left. Qed.
Lemma restore_at s o : handler s = Some o → let '(s', r) := restore git s in
  handler s' = None ∧ restored o s' ∧ r = Ok tt ∧ dirs s' = dirs s.
Proof.
  intros H. unfold restore, mbind, ST_bind, gets. rewrite H. unfold say, raw_git, modify, set_handler.
  cbn [checked_out git_log dirs printed handler signals].
  unfold restored. destruct (git _ (checked_out s)) as [t [st out]] eqn:E. cbn [fst].
  destruct (negb (st =? 0)%Z); cbn; rewrite last_snoc; split_and!; try done; exists (checked_out s); unfold restoring; by rewrite E.
Qed.
Lemma guarded_poll : guarded (poll git).
Proof.
  intros s o H. unfold poll. rewrite H. destruct (signals s) as [|[sig|] rest]; [by left| |by left].
  unfold signal_handler, mbind, ST_bind, say, modify.
  match goal with |- context [restore git ?s0] =>
    pose proof (restore_at s0 o eq_refl) as Hr; destruct (restore git s0) as [s1 r] end.
  destruct Hr as (Hn & Hl & -> & _). right. cbn. eauto.
Qed.
End Restored.
#[export] Hint Resolve guarded_ret guarded_raise guarded_lift guarded_gets guarded_when guarded_for_each
  guarded_say guarded_dirs guarded_raw guarded_poll : py.

(** Goes through a computation step by step. *)
Ltac all_guarded :=
  repeat first
    [ solve [auto with py]
    | match goal with
      | |- guarded _ (mbind _ _) => apply guarded_bind
      | |- guarded _ (when _ _) => apply guarded_when
      | |- guarded _ (for_each _ _) => apply guarded_for_each
      | |- guarded _ (let '(_, _) := ?x in _) => destruct x
      | |- guarded _ (match ?x with _ => _ end) => destruct x
      | |- ∀ _, _ => intros
      end ].

(** The commands that only ask git something. *)
Definition asks (cmd : list string) : bool :=
  bool_decide (take 2 cmd ∈ [["git"; "rev-parse"]; ["git"; "diff-index"]])
  || bool_decide (cmd = ["git"; "branch"; "--show-current"]).
(** What git promises of the current branch. *)
Class BranchLaws {tree} (git : list string → tree → tree * (Z * string)) (branch : tree → string) : Prop := {
  shows_branch t t' out :
    git ["git"; "branch"; "--show-current"] t = (t', (0%Z, out)) → strip out = branch t;
  asking_keeps cmd t : asks cmd = true → branch (fst (git cmd t)) = branch t;
}.

Section Main.
Context {tree : Type} (git : list string → tree → tree * (Z * string)).
Context (branch : tree → string) {laws : BranchLaws git branch}.
Context (kernel_doc : list string → tree → Z * string * string).
Context (yaml_written : list string → tree → option string) (unittest : list string → tree → Z).
Context (diff : string → string → option string).
Context (rst_files : tree → list string) (read_text : string → tree → option string).
Context (set_order : list string → list string).
Context (cwd KDOC_BINARY KDOC_PARSER_TEST : string).

Lemma guarded_git cmd : guarded git (run_git git cmd).
Proof. unfold run_git. all_guarded. Qed.
#[local] Hint Resolve guarded_git : py.
Lemma guarded_checkout h q : guarded git (checkout_commit git h q).
Proof. unfold checkout_commit, get_short_hash. all_guarded. Qed.
Lemma guarded_write dir name text : guarded git (write_file cwd dir name text).
Proof. unfold write_file. all_guarded. Qed.
Lemma guarded_kernel_doc cmd : guarded git (run_kernel_doc git kernel_doc cmd).
Proof. unfold run_kernel_doc. all_guarded. Qed.
#[local] Hint Resolve guarded_checkout guarded_write guarded_kernel_doc : py.
Lemma guarded_normal tmp out files : guarded git (normal_run git kernel_doc cwd KDOC_BINARY tmp out files).
Proof. unfold normal_run, makedirs, replace_dir. all_guarded. Qed.
Lemma guarded_yaml dir f files : guarded git (gen_yaml git kernel_doc yaml_written cwd KDOC_BINARY dir f files).
Proof. unfold gen_yaml. all_guarded. Qed.
Lemma guarded_unittest f : guarded git (run_unittest git unittest KDOC_PARSER_TEST f).
Proof. unfold run_unittest. all_guarded. Qed.
#[local] Hint Resolve guarded_normal guarded_yaml guarded_unittest : py.
Lemma guarded_run dir h tmp out files reg is_end :
  guarded git (run git kernel_doc yaml_written unittest cwd KDOC_BINARY KDOC_PARSER_TEST dir h tmp out files reg is_end).
Proof. unfold run. all_guarded. Qed.
#[local] Hint Resolve guarded_run : py.
Lemma guarded_generate a dir dt h1 h2 tmp c1 c2 files :
  guarded git (generate git kernel_doc yaml_written unittest cwd KDOC_BINARY KDOC_PARSER_TEST a dir dt h1 h2 tmp c1 c2 files).
Proof. unfold generate, exists_dir, rmtree. all_guarded. Qed.

(** Outside of the handler, nothing is checked out. *)
Definition no_checkout (cmd : list string) : bool := negb (bool_decide (take 2 cmd = ["git"; "checkout"])).
Lemma asks_no_checkout cmd : asks cmd = true → no_checkout cmd = true.
Proof.
  unfold asks, no_checkout. intros H. apply negb_true_iff, bool_decide_eq_false. intros Hc.
  apply orb_prop in H as [H%bool_decide_eq_true|H%bool_decide_eq_true].
  - rewrite Hc, !elem_of_cons, elem_of_nil in H. by destruct H as [?|[?|[]]].
  - by subst cmd.
Qed.
Definition calm {A} (m : ST (@state tree) A) : Prop := ∀ s,
  handler s = None → Forall (λ c, no_checkout c = true) (git_log s) →
  handler (fst (m s)) = None ∧ Forall (λ c, no_checkout c = true) (git_log (fst (m s))) ∧
  branch (checked_out (fst (m s))) = branch (checked_out s).
(** Neither the handler nor git has a part in it. *)
Definition still {A} (m : ST (@state tree) A) : Prop := ∀ s,
  handler (fst (m s)) = handler s ∧ git_log (fst (m s)) = git_log s ∧ checked_out (fst (m s)) = checked_out s.

Lemma still_calm {A} (m : ST (@state tree) A) : still m → calm m.
Proof. intros H s Hh Hl. destruct (H s) as (-> & -> & ->). done. Qed.
Lemma still_ret {A} (a : A) : still (mret a).
Proof. done. Qed.
Lemma still_raise {A} e : still (raise (A := A) e).
Proof. done. Qed.
Lemma still_gets {A} (f : @state tree → A) : still (gets f).
Proof. done. Qed.
Lemma still_say line : still (say (tree := tree) line).
Proof. done. Qed.
Lemma still_dirs f : still (set_dirs (tree := tree) f).
Proof. done. Qed.
Lemma still_bind {A B} (m : ST (@state tree) A) (f : A → ST (@state tree) B) :
  still m → (∀ a, still (f a)) → still (m ≫= f).
Proof.
  intros Hm Hf s. specialize (Hm s). unfold mbind, ST_bind. destruct (m s) as [s1 [a|e]]; [|done].
  cbn [fst] in Hm. destruct (Hf a s1) as (-> & -> & ->). done.
Qed.
Lemma still_when b m : still m → still (when b m).
Proof. intros H. destruct b; [done|apply still_ret]. Qed.
Lemma still_for_each {A} (l : list A) body : (∀ x, still (body x)) → still (for_each l body).
Proof. intros H. induction l; cbn [for_each]; [apply still_ret|by apply still_bind]. Qed.
Lemma still_for_acc {A B} (l : list B) body : ∀ a : A, (∀ a x, still (body a x)) → still (for_acc l a body).
Proof. induction l as [|x l IH]; intros a H; cbn [for_acc]; [apply still_ret|apply still_bind; auto]. Qed.
Ltac all_still :=
  repeat first
    [ apply still_ret | apply still_raise | apply still_gets | apply still_say | apply still_dirs
    | apply still_bind | apply still_when | apply still_for_each | apply still_for_acc
    | match goal with
      | |- still (let '(_, _) := ?x in _) => destruct x
      | |- still (match ?x with _ => _ end) => destruct x
      | |- ∀ _, _ => intros
      end ].
Lemma still_diff d1 d2 : still (diff_directories (tree := tree) diff cwd d1 d2).
Proof. unfold diff_directories, files_in, diff_file. all_still. Qed.
Lemma still_initialize dir : still (initialize (tree := tree) cwd dir).
Proof. unfold initialize, exists_dir, makedirs. all_still. Qed.
Lemma still_choose a dir : still (choose_files rst_files read_text set_order a dir).
Proof. unfold choose_files, find_kdoc_references. all_still. Qed.

Lemma calm_git cmd : asks cmd = true → calm (run_git git cmd).
Proof using laws.
  intros Hc s Hh Hl. unfold run_git, mbind, ST_bind, poll. rewrite Hh. unfold raw_git.
  pose proof (asking_keeps (git := git) (branch := branch) cmd (checked_out s) Hc) as Hb.
  destruct (git cmd (checked_out s)) as [t r]. cbn. split; [done|]. split; [|exact Hb].
  apply Forall_app. split; [done|]. apply Forall_singleton. by apply asks_no_checkout.
Qed.
Lemma calm_bind {A B} (m : ST (@state tree) A) (f : A → ST (@state tree) B) :
  calm m → (∀ a, calm (f a)) → calm (m ≫= f).
Proof.
  intros Hm Hf s Hh Hl. destruct (Hm s Hh Hl) as (Hh' & Hl' & Hb'). unfold mbind, ST_bind.
  destruct (m s) as [s1 [a|e]]; [|done]. cbn [fst] in *. rewrite <- Hb'. by apply Hf.
Qed.
Lemma calm_short h : calm (get_short_hash git h).
Proof. apply calm_bind; [by apply calm_git|]. intros r. apply still_calm, still_ret. Qed.
Lemma calm_cache h p : calm (get_commit_cache git h p).
Proof. apply calm_bind; [apply calm_short|]. intros r. apply still_calm, still_ret. Qed.
Lemma calm_validated h : calm (validated git h).
Proof.
  unfold validated, is_valid_commit. apply calm_bind; [apply calm_bind; [by apply calm_git|]|].
  - intros r. apply still_calm, still_ret.
  - intros ok. apply still_calm, still_when, still_raise.
Qed.

(** How a run that starts on the branch [b] leaves the tree: it has checked out
    nothing and is still there, or it has checked out [b] at last. *)
Definition settled (b : string) {A} (m : ST (@state tree) A) : Prop := ∀ s,
  handler s = None → Forall (λ c, no_checkout c = true) (git_log s) → branch (checked_out s) = b →
  let s' := fst (m s) in
  handler s' = None ∧
  (Forall (λ c, no_checkout c = true) (git_log s') ∧ branch (checked_out s') = b ∨ restored git b s').
Lemma settled_calm b {A} (m : ST (@state tree) A) : calm m → settled b m.
Proof. intros H s Hh Hl Hb. destruct (H s Hh Hl) as (? & ? & ?). split; [done|]. left. split; [done|congruence]. Qed.
Lemma settled_bind_if b {A B} (P : A → Prop) (m : ST (@state tree) A) (f : A → ST (@state tree) B) :
  calm m → (∀ s s' a, handler s = None → branch (checked_out s) = b → m s = (s', Ok a) → P a) →
  (∀ a, P a → settled b (f a)) → settled b (m ≫= f).
Proof.
  intros Hm HP Hf s Hh Hl Hb. destruct (Hm s Hh Hl) as (Hh' & Hl' & Hb'). cbv zeta. unfold mbind, ST_bind.
  destruct (m s) as [s1 [a|e]] eqn:E; cbn [fst] in *; [|split; [done|left; split; [done|congruence]]].
  apply Hf; [by eapply (HP s)|done|done|congruence].
Qed.
Lemma settled_bind b {A B} (m : ST (@state tree) A) (f : A → ST (@state tree) B) :
  calm m → (∀ a, settled b (f a)) → settled b (m ≫= f).
Proof. intros Hm Hf. by apply (settled_bind_if b (λ _, True)). Qed.
Lemma settled_with b {A B} (body : ST (@state tree) A) (k : A → ST (@state tree) B) :
  guarded git body → (∀ a, still (k a)) → settled b (with_handler git b body ≫= k).
Proof.
  intros Hg Hk s Hh Hl _. cbv zeta. unfold mbind at 1, ST_bind at 1. unfold with_handler, mbind, ST_bind, set_handler, modify.
  match goal with |- context [body ?s0] => pose proof (Hg s0 b eq_refl) as H; destruct (body s0) as [s1 r1] end.
  assert (∃ s2, restore git s1 = (s2, Ok tt) ∧ handler s2 = None ∧ restored git b s2) as (s2 & -> & Hn2 & Hl2).
  { destruct H as [H|(Hn & Hla & _)].
    - pose proof (restore_at git s1 b H) as Hr. destruct (restore git s1) as [s2 r2].
      destruct Hr as (? & ? & -> & _). eauto.
    - exists s1. split; [|done]. unfold restore, mbind, ST_bind, gets. by rewrite Hn. }
  unfold restored in *. destruct r1 as [x|e]; cbn [fst]; [|eauto 6].
  destruct (Hk x s2) as (-> & -> & ->). eauto 6.
Qed.

(** C22 Whenever a signal comes, [kdoc_diff] ends with the handler of signals removed
    and leaves the tree on the branch that was the current one when it started: it
    has checked out nothing, or its last command checks out that branch and the tree
    is what that command has made.  (For a detached head the branch is the empty
    name.)  Of git it is used that [git branch --show-current] prints the current
    branch, which the commands that only ask leave as it is. *)
Theorem branch_restored a s :
  handler s = None → git_log s = [] →
  let original := branch (checked_out s) in
  let s' := fst (run_main git kernel_doc yaml_written unittest diff rst_files read_text set_order cwd
                   KDOC_BINARY KDOC_PARSER_TEST a s) in
  handler s' = None ∧
  (Forall (λ c, no_checkout c = true) (git_log s') ∧ branch (checked_out s') = original ∨
   last (git_log s') = Some ["git"; "checkout"; "-f"; original] ∧
   ∃ t, checked_out s' = fst (git ["git"; "checkout"; "-f"; original] t)).
Proof.
  intros Hh Hl. cbv zeta. set (b := branch (checked_out s)).
  enough (settled b (run_main git kernel_doc yaml_written unittest diff rst_files read_text set_order cwd
                   KDOC_BINARY KDOC_PARSER_TEST a)) as H.
  { apply H; [done| |done]. rewrite Hl. constructor. }
  clearbody b. clear s Hh Hl.
  unfold run_main. apply settled_bind; [apply still_calm, still_say|]. intros _.
  assert (∀ (A B : Type) e, settled b (raise (A := B) e)) as Hraise
    by (intros; apply settled_calm, still_calm, still_raise).
  set (rest := _ ;; _).
  enough (settled b rest) as Hrest by (destruct (files a), (full a); (exact Hrest || apply Hraise; exact unit)).
  unfold rest. apply settled_bind; [apply still_calm, still_initialize|]. intros _.
  apply settled_bind; [apply calm_bind; [by apply calm_git|]; intros; apply still_calm, still_ret|].
  intros inside. destruct (negb inside); [by apply Hraise|].
  apply settled_bind; [apply calm_short|]. intros old_commit.
  apply settled_bind; [apply calm_short|]. intros new_commit.
  apply settled_bind.
  { cbn [for_each]. repeat (apply calm_bind; [apply calm_validated|intros _]). apply still_calm, still_ret. }
  intros _. apply settled_bind; [apply calm_bind; [by apply calm_git|]; intros; apply still_calm, still_ret|].
  intros dirty. destruct dirty; [by apply Hraise|].
  apply settled_bind; [apply still_calm, still_choose|]. intros [[diff_type cache_msg] kdoc_files].
  cbv zeta. apply settled_bind; [apply still_calm, still_when, still_say|]. intros _.
  destruct kdoc_files as [|f fs]; [by apply Hraise|].
  apply (settled_bind_if b (λ o, o = b)).
  { unfold get_current_branch. apply calm_bind; [by apply calm_git|]. intros r. apply still_calm.
    destruct (succeeds r); [apply still_ret|apply still_raise]. }
  { intros s s' o Hh Hb. unfold get_current_branch, run_git, mbind, ST_bind, poll, raw_git. rewrite Hh.
    destruct (git _ (checked_out s)) as [t [st out]] eqn:E. unfold succeeds. cbn [fst snd].
    destruct (Z.eqb_spec st 0) as [->|]; [|done]. intros [= _ <-]. rewrite <- Hb. by eapply shows_branch. }
  intros original ->. apply settled_bind; [apply calm_cache|]. intros c1.
  apply settled_bind; [apply calm_cache|]. intros c2.
  apply settled_with; [apply guarded_generate|]. intros [x y]. cbn [fst snd].
  destruct (negb (x && y)); [apply still_raise|apply still_when, still_diff].
Qed.
End Main.

(** ** The caches *)

Lemma dget_filter_keys {V} (p : string → bool) (d : dict V) k :
  dget (List.filter (λ e, p (fst e)) d) k = if p k then dget d k else None.
Proof.
  induction d as [|[k1 v] d IH]; cbn; [by destruct (p k)|].
  destruct (String.eqb_spec k1 k) as [->|Hne].
  - destruct (p k) eqn:E; cbn; [by rewrite String.eqb_refl|done].
  - destruct (p k1); cbn; [by rewrite (proj2 (String.eqb_neq _ _) Hne)|done].
Qed.
Lemma dkeys_filter_nodup {V} (p : string → bool) (d : dict V) :
  NoDup (dkeys d) → NoDup (dkeys (List.filter (λ e, p (fst e)) d)).
Proof.
  unfold dkeys. induction d as [|[k v] d IH]; cbn; [done|]. intros [Hn Hd]%NoDup_cons.
  destruct (p k); cbn; [|by apply IH]. constructor; [|by apply IH].
  contradict Hn. apply list_elem_of_In, in_map_iff in Hn as ([k' v'] & <- & [Hin _]%filter_In).
  apply list_elem_of_In, in_map_iff. by eexists (_, _).
Qed.

(** What git promises: after a checkout the sources are those of the commit,
    [rev-parse] changes nothing, and [kernel-doc] depends on the sources
    only. *)
Class CommitLaws {tree} (git : list string → tree → tree * (Z * string))
    (kernel_doc : list string → tree → Z * string * string) (at_commit : string → tree)
    (same_sources : relation tree) : Prop := {
  same_sources_equiv :: Equivalence same_sources;
  checkout_sources : ∀ h t t' out,
    git ["git"; "checkout"; "-f"; "-q"; h] t = (t', (0%Z, out)) → same_sources t' (at_commit h);
  rev_parse_sources : ∀ w t, same_sources (fst (git (["git"; "rev-parse"] ++ w) t)) t;
  kernel_doc_proper :: ∀ cmd, Proper (same_sources ==> eq) (kernel_doc cmd);
}.

Section Caches.
Context {tree : Type} (git : list string → tree → tree * (Z * string)).
Context (kernel_doc : list string → tree → Z * string * string).
Context (yaml_written : list string → tree → option string) (unittest : list string → tree → Z).
Context (cwd KDOC_BINARY KDOC_PARSER_TEST : string).
Context (at_commit : string → tree) (same_sources : relation tree).
Context {laws : CommitLaws git kernel_doc at_commit same_sources}.
Context (kdoc_files : list string) (tmp : string).

(** The files of the folder of a commit. *)
Definition outputs (h name : string) : option string :=
  let man := kernel_doc ([KDOC_BINARY; "--man"] ++ kdoc_files) (at_commit h) in
  let rst := kernel_doc ([KDOC_BINARY; "--rst"] ++ kdoc_files) (at_commit h) in
  if (name =? "man.log")%string then Some (snd (fst man))
  else if (name =? "rst.log")%string then Some (snd (fst rst))
  else if (name =? "err.log")%string then Some (snd rst)
  else None.
Definition holds (h : string) (v : option (dict string)) : Prop :=
  ∃ fs, v = Some fs ∧ ∀ name, dget fs name = outputs h name.
Definition fresh (h : string) (v : option (dict string)) : Prop := v = None ∨ holds h v.
Definition T : string := resolve cwd tmp.
(** The temporary folder has nothing but what a run writes. *)
Definition tidy (ds : dict (dict string)) : Prop :=
  NoDup (dkeys ds) ∧ ∀ fs, dget ds T = Some fs → ∀ name, is_Some (dget fs name) → name ∈ ["man.log"; "rst.log"; "err.log"].
(** A folder that making the temporary one leaves alone. *)
Definition aside (p : string) : Prop := p ≠ T ∧ p ∉ ancestors T.
(** The folders other than [p] are as in [ds0]. *)
Definition else_as (p : string) (ds0 ds : dict (dict string)) : Prop := ∀ q, q ≠ p → aside q → dget ds q = dget ds0 q.

Definition anyway (e : exn) : Prop := True.
Abbreviation triple P m Q := (hoare (S := @state tree) P m Q anyway).

(** A program is run on what is checked out, with the folders as they are. *)
Lemma triple_poll (P : tree → dict (dict string) → Prop) :
  triple (λ s, P (checked_out s) (dirs s)) (poll git) (λ _ s, P (checked_out s) (dirs s)).
Proof.
  intros s Hs. unfold poll. destruct (handler s) eqn:E; [|done].
  destruct (signals s) as [|[sig|] rest]; [done| |done].
  unfold signal_handler, mbind, ST_bind, say, modify.
  match goal with |- context [restore git ?s0] =>
    pose proof (restore_at git s0 _ eq_refl) as Hr; destruct (restore git s0) as [s1 r] end.
  by destruct Hr as (_ & _ & -> & _).
Qed.

(** The sources that are checked out are those of [h], and the folders satisfy [D]. *)
Definition at_ (h : string) (D : dict (dict string) → Prop) (s : @state tree) : Prop :=
  same_sources (checked_out s) (at_commit h) ∧ D (dirs s).
Lemma triple_kernel_doc h D cmd :
  triple (at_ h D) (run_kernel_doc git kernel_doc cmd) (λ r s, r = kernel_doc cmd (at_commit h) ∧ at_ h D s).
Proof.
  eapply hoare_seq; [apply (triple_poll (λ t ds, same_sources t (at_commit h) ∧ D ds))|].
  intros s [Hs HD]. split; [by rewrite Hs|done].
Qed.
Lemma triple_raw (D : dict (dict string) → Prop) (P : tree → Prop) cmd :
  triple (λ s, P (checked_out s) ∧ D (dirs s)) (raw_git git cmd)
    (λ r s, D (dirs s) ∧ ∃ t, P t ∧ git cmd t = (checked_out s, r)).
Proof. intros s [HP HD]. unfold raw_git. destruct (git cmd (checked_out s)) as [t r] eqn:E. cbn. eauto. Qed.
Lemma triple_git (D : dict (dict string) → Prop) (P : tree → Prop) cmd :
  triple (λ s, P (checked_out s) ∧ D (dirs s)) (run_git git cmd)
    (λ r s, D (dirs s) ∧ ∃ t, P t ∧ git cmd t = (checked_out s, r)).
Proof. eapply hoare_seq; [apply (triple_poll (λ t ds, P t ∧ D ds))|apply triple_raw]. Qed.
Lemma triple_say (P : tree → dict (dict string) → Prop) line :
  triple (λ s, P (checked_out s) (dirs s)) (say line) (λ _ s, P (checked_out s) (dirs s)).
Proof. by apply hoare_modify. Qed.
Lemma triple_checkout h D :
  triple (λ s, D (dirs s)) (checkout_commit git h true) (λ ok s, ok = true → at_ h D s).
Proof.
  unfold checkout_commit. eapply hoare_bind.
  { eapply hoare_pre; [apply (triple_git D (λ _, True))|done]. }
  intros [st out]. unfold succeeds. cbn [fst]. destruct (Z.eqb_spec st 0) as [->|].
  - eapply hoare_bind with (R := λ _, at_ h D).
    { unfold get_short_hash. eapply hoare_bind.
      { eapply hoare_pre; [apply (triple_git D (λ t, same_sources t (at_commit h)))|].
        intros s (HD & t & _ & E). split; [by eapply checkout_sources|done]. }
      intros r s (HD & t & Ht & E). split; [|done]. etrans; [|exact Ht].
      pose proof (rev_parse_sources ["--short"; "HEAD"] t) as H. cbn [app] in H. by rewrite E in H. }
    intros branch. destruct (h =? branch)%string; [by apply hoare_ret_post|by apply hoare_raise].
  - intros s (HD & _). done.
Qed.

(** ** The folders *)
Lemma made (ps : list string) : ∀ (ds : dict (dict string)) k,
  let ds' := fold_left (λ ds p, if dmem ds p then ds else dset ds p []) ps ds in
  (NoDup (dkeys ds) → NoDup (dkeys ds')) ∧
  (dget ds' k = dget ds k ∨ (k ∈ ps ∧ dget ds k = None ∧ dget ds' k = Some [])).
Proof.
  induction ps as [|p ps IH]; intros ds k; cbn [fold_left]; cbv zeta; [by split; [|left]|].
  destruct (dmem ds p) eqn:E.
  - destruct (IH ds k) as [Hn [H|(H1 & H2)]]; (split; [done|]); [by left|right; split; [by right|done]].
  - destruct (IH (dset ds p []) k) as [Hn H]. split; [intros; by apply Hn, dkeys_nodup_dset|].
    destruct (decide (p = k)) as [<-|Hne].
    + unfold dmem in E. destruct (dget ds p) eqn:Ep; [done|]. rewrite dget_dset_eq in H.
      destruct H as [H|(_ & ? & _)]; [|done]. right. split; [by left|]. by split.
    + rewrite dget_dset_ne in H by done. destruct H as [H|(H1 & H2)]; [by left|]. right. split; [by right|done].
Qed.

(** While [p] is filled: it is not there yet, the temporary folder has only logs,
    with the texts [g], and the other folders are as in [ds0]. *)
Definition filling (p : string) (ds0 : dict (dict string)) (g : string → option string) (ds : dict (dict string)) : Prop :=
  tidy ds ∧ dget ds p = None ∧ else_as p ds0 ds ∧
  ∀ fs, dget ds T = Some fs → ∀ name text, g name = Some text → dget fs name = Some text.
Definition filled (h p : string) (ds0 ds : dict (dict string)) : Prop :=
  tidy ds ∧ holds h (dget ds p) ∧ else_as p ds0 ds.

Section Filling.
Context (h p : string) (ds0 : dict (dict string)) (p_aside : aside p).

Lemma triple_makedirs : triple (at_ h (filling p ds0 (λ _, None))) (makedirs cwd tmp)
  (λ _, at_ h (filling p ds0 (λ _, None))).
Proof.
  apply hoare_modify. intros s [Hs ([Hn Ht] & Hp & He & _)]. split; [done|]. cbn [dirs].
  pose proof (made (ancestors T) (dirs s)) as Hm. cbv zeta in Hm. fold T.
  set (ds' := fold_left _ _ _) in *. split_and!; [split| | |done].
  - by apply (Hm T).
  - intros fs Hf. destruct (Hm T) as [_ [H|(_ & _ & H)]]; [rewrite H in Hf; by apply Ht|].
    rewrite H in Hf. injection Hf as <-. by intros name [? ?].
  - destruct (Hm p) as [_ [H|(Hin & _)]]; [by rewrite H|]. by destruct p_aside.
  - intros q Hq Ha. destruct (Hm q) as [_ [H|(Hin & _)]]; [rewrite H; by apply He|]. by destruct Ha.
Qed.
Lemma triple_write g name text : name ∈ ["man.log"; "rst.log"; "err.log"] →
  triple (at_ h (filling p ds0 g)) (write_file cwd tmp name text)
    (λ _, at_ h (filling p ds0 (λ n, if (n =? name)%string then Some text else g n))).
Proof.
  intros Hname s [Hs ([Hn Ht] & Hp & He & Hg)]. unfold write_file, mbind, ST_bind, gets. fold T.
  destruct (dget (dirs s) T) as [fs|] eqn:E; [|done]. unfold set_dirs, modify. split; [done|]. cbn [dirs].
  split_and!; [split| | |].
  - by apply dkeys_nodup_dset.
  - rewrite dget_dset_eq. intros fs' [= <-] n. destruct (decide (name = n)) as [<-|Hne]; [done|].
    rewrite dget_dset_ne by done. by apply Ht.
  - rewrite dget_dset_ne; [done|]. intros <-. by destruct p_aside.
  - intros q Hq Ha. rewrite dget_dset_ne; [by apply He|]. intros <-. by destruct Ha.
  - rewrite dget_dset_eq. intros fs' [= <-] n t. destruct (String.eqb_spec n name) as [->|Hne].
    + intros [= <-]. apply dget_dset_eq.
    + rewrite dget_dset_ne by congruence. by apply Hg.
Qed.
Lemma triple_replace c : p = resolve cwd c →
  triple (at_ h (filling p ds0 (outputs h))) (replace_dir cwd tmp c) (λ _ s, filled h p ds0 (dirs s)).
Proof.
  intros Hc s [Hs ([Hn Ht] & Hp & He & Hg)]. unfold replace_dir, mbind, ST_bind, gets. fold T. rewrite <- Hc, Hp.
  destruct (dget (dirs s) T) as [fs|] eqn:E; [|done]. destruct (dmem (dirs s) (dirname p)); [|done].
  destruct p_aside as [HT _].
  unfold set_dirs, modify. cbn [dirs]. split_and!; [split| |].
  - by apply dkeys_nodup_dset, dkeys_nodup_ddel.
  - rewrite dget_dset_ne, dget_ddel_eq by done. done.
  - rewrite dget_dset_eq. exists fs. split; [done|]. intros name.
    destruct (outputs h name) as [t|] eqn:Eo; [by apply (Hg fs)|]. destruct (dget fs name) as [t|] eqn:Ef; [|done].
    specialize (Ht fs eq_refl name (ex_intro _ _ Ef)). revert Eo. unfold outputs.
    apply list_elem_of_In in Ht. cbn in Ht. by destruct Ht as [<-|[<-|[<-|[]]]].
  - intros q Hq Ha. pose proof (proj1 Ha) as HqT. rewrite dget_dset_ne, dget_ddel_ne by congruence. by apply He.
Qed.

Lemma filling_weak g g' ds : (∀ n, g n = g' n) → filling p ds0 g ds → filling p ds0 g' ds.
Proof. intros Hg (? & ? & ? & H). split_and!; [done..|]. intros fs Hf n t. rewrite <- Hg. by apply H. Qed.

Lemma triple_normal c : p = resolve cwd c → (c =? "")%string = false →
  triple (at_ h (filling p ds0 (λ _, None))) (normal_run git kernel_doc cwd KDOC_BINARY tmp c kdoc_files)
    (λ b s, b = true → filled h p ds0 (dirs s)).
Proof.
  intros Hc Hne. unfold normal_run. rewrite Hne.
  eapply hoare_seq; [apply triple_makedirs|].
  eapply hoare_seq; [apply triple_write; set_solver|].
  eapply hoare_bind; [apply triple_kernel_doc|]. intros m. apply hoare_pure. intros ->.
  eapply hoare_seq; [apply triple_write; set_solver|].
  destruct (negb _); [by apply hoare_ret_post|].
  eapply hoare_seq; [apply triple_write; set_solver|].
  eapply hoare_seq; [apply triple_write; set_solver|].
  eapply hoare_bind; [apply triple_kernel_doc|]. intros r. apply hoare_pure. intros ->.
  eapply hoare_seq; [apply triple_write; set_solver|].
  eapply hoare_seq; [apply triple_write; set_solver|].
  destruct (negb _); [by apply hoare_ret_post|].
  eapply (hoare_seq _ _ (λ s, filled h p ds0 (dirs s))); [|by apply hoare_ret_post].
  eapply hoare_pre; [by apply triple_replace|]. intros s [Hs Hf]. split; [done|].
  eapply filling_weak; [|exact Hf]. intros n. cbv beta. unfold outputs.
  destruct (String.eqb_spec n "err.log") as [->|]; [done|].
  destruct (String.eqb_spec n "rst.log") as [->|]; [done|]. by destruct (n =? "man.log")%string.
Qed.
End Filling.

Abbreviation run_at := (run git kernel_doc yaml_written unittest cwd KDOC_BINARY KDOC_PARSER_TEST).
Lemma triple_run dir h c ds0 is_end : aside (resolve cwd c) → (c =? "")%string = false →
  triple (λ s, tidy (dirs s) ∧ dget (dirs s) (resolve cwd c) = None ∧ else_as (resolve cwd c) ds0 (dirs s))
    (run_at dir h tmp c kdoc_files false is_end)
    (λ b s, b = true → filled h (resolve cwd c) ds0 (dirs s)).
Proof.
  intros Ha Hc. unfold run. generalize kdoc_files at 1. intros [|f l]; [by apply hoare_raise|].
  eapply hoare_bind.
  { eapply hoare_pre; [apply (triple_checkout h (filling (resolve cwd c) ds0 (λ _, None)))|].
    intros s (Ht & Hp & He). by split_and!. }
  intros [|]; cbn [negb]; [|by apply hoare_raise].
  eapply hoare_seq; [apply (triple_say (λ t ds, true = true → at_ h _ (State t [] ds [] None [])))|].
  eapply hoare_pre; [by apply triple_normal|]. intros s H. by apply (H eq_refl).
Qed.

(** One of the two folders: it is filled when it is not there; what [Y] says of
    the folder [q] stays true. *)
Lemma triple_side dir h c q (Y : option (dict string) → Prop) found is_end :
  aside (resolve cwd c) → (c =? "")%string = false → aside q → (resolve cwd c = q → ∀ v, holds h v → Y v) →
  triple (λ s, found = dmem (dirs s) (resolve cwd c) ∧ tidy (dirs s) ∧
               fresh h (dget (dirs s) (resolve cwd c)) ∧ Y (dget (dirs s) q))
    (if negb found then run_at dir h tmp c kdoc_files false is_end else mret true)
    (λ b s, b = true → tidy (dirs s) ∧ holds h (dget (dirs s) (resolve cwd c)) ∧ Y (dget (dirs s) q)).
Proof.
  intros Ha Hc Hq HY s (-> & Ht & Hf & Hy). unfold dmem. destruct (dget (dirs s) (resolve cwd c)) as [fs|] eqn:E; cbn [negb].
  - intros _. rewrite E. destruct Hf as [?|?]; done.
  - pose proof (triple_run dir h c (dirs s) is_end Ha Hc s) as H.
    destruct (run_at dir h tmp c kdoc_files false is_end s) as [s' [b|e]]; [|exact I].
    specialize (H (conj Ht (conj E (λ q _ _, eq_refl)))). intros Hb. destruct (H Hb) as (Ht' & Hh & He). split_and!; [done..|].
    destruct (decide (resolve cwd c = q)) as [<-|Hne]; [by apply HY|]. by rewrite He.
Qed.
Lemma triple_remove h1 h2 c1 c2 a dt :
  triple (λ s, tidy (dirs s) ∧ ((clean a || (dt =? "no-cache")%string) = true ∨
      fresh h1 (dget (dirs s) (resolve cwd c1)) ∧ fresh h2 (dget (dirs s) (resolve cwd c2))))
    (when (clean a || (dt =? "no-cache")%string)
      (for_each [c1; c2] (λ c, found ← exists_dir cwd c; when (negb (c =? "")%string && found) (rmtree cwd c))))
    (λ _ s, c1 ≠ "" → c2 ≠ "" → tidy (dirs s) ∧ fresh h1 (dget (dirs s) (resolve cwd c1)) ∧ fresh h2 (dget (dirs s) (resolve cwd c2))).
Proof.
  destruct (_ || _); cbn [when]; [|by intros s [Ht [?|?]] _ _].
  assert (∀ c (X : string → Prop),
    triple (λ s, tidy (dirs s) ∧ ∀ p, X p → dget (dirs s) p = None)
      (found ← exists_dir cwd c; when (negb (c =? "")%string && found) (rmtree cwd c))
      (λ _ s, tidy (dirs s) ∧ ∀ p, (X p ∨ c ≠ "" ∧ p = resolve cwd c) → dget (dirs s) p = None)) as Hrm.
  { intros c X s [[Hn Ht] Hd]. unfold exists_dir, gets, mbind, ST_bind, rmtree, set_dirs, modify.
    set (out := λ k, negb ((k =? resolve cwd c)%string || startswith (resolve cwd c +:+ "/") k)).
    destruct (String.eqb_spec c "") as [->|Hc]; cbn [negb andb when].
    { split; [done|]. intros p [?|[? _]]; [by apply Hd|done]. }
    unfold dmem. destruct (dget (dirs s) (resolve cwd c)) as [fs|] eqn:E; cbn.
    2: { split; [done|]. intros p [?|[_ ->]]; [by apply Hd|done]. }
    pose proof (dget_filter_keys out (dirs s)) as Hg. pose proof (dkeys_filter_nodup out _ Hn) as Hn'.
    change (List.filter _ (dirs s)) with (List.filter (λ e, out (fst e)) (dirs s)).
    split; [split; [done|]|].
    - intros fs'. rewrite Hg. destruct (out T); [apply Ht|done].
    - intros p [Hp|[_ ->]]; rewrite Hg; [destruct (out p); [by apply Hd|done]|].
      unfold out. by rewrite String.eqb_refl. }
  cbn [for_each]. eapply hoare_seq; [eapply hoare_pre; [apply (Hrm c1 (λ _, False))|by intros s [? _]]|].
  eapply hoare_seq; [apply (Hrm c2 (λ p, False ∨ c1 ≠ "" ∧ p = resolve cwd c1))|].
  apply hoare_ret_post. intros s [Ht Hd] H1 H2. split; [done|]. split; left; apply Hd; auto.
Qed.

(** C20 When [kdoc_diff] has generated what it compares, each folder of the cache
    has the output of [kernel-doc] at its commit and nothing else: with
    [--clean] or a list of files whatever was there before, otherwise when what
    was there was right.  The temporary folder must have had nothing but
    logs. *)
Theorem caches_hold_outputs a dir diff_type h1 h2 c1 c2 s s' :
  regression a = false → c1 ≠ "" → c2 ≠ "" → aside (resolve cwd c1) → aside (resolve cwd c2) →
  (resolve cwd c1 = resolve cwd c2 → h1 = h2) →
  tidy (dirs s) →
  (clean a || (diff_type =? "no-cache")%string) = true ∨
    fresh h1 (dget (dirs s) (resolve cwd c1)) ∧ fresh h2 (dget (dirs s) (resolve cwd c2)) →
  generate git kernel_doc yaml_written unittest cwd KDOC_BINARY KDOC_PARSER_TEST
    a dir diff_type h1 h2 tmp c1 c2 kdoc_files s = (s', Ok (true, true)) →
  holds h1 (dget (dirs s') (resolve cwd c1)) ∧ holds h2 (dget (dirs s') (resolve cwd c2)).
Proof.
  intros Hr H1 H2 A1 A2 Heq Ht Hf Hgen.
  enough (triple (λ s, tidy (dirs s) ∧ ((clean a || (diff_type =? "no-cache")%string) = true ∨
      fresh h1 (dget (dirs s) (resolve cwd c1)) ∧ fresh h2 (dget (dirs s) (resolve cwd c2))))
    (generate git kernel_doc yaml_written unittest cwd KDOC_BINARY KDOC_PARSER_TEST
      a dir diff_type h1 h2 tmp c1 c2 kdoc_files)
    (λ r s, r = (true, true) →
       holds h1 (dget (dirs s) (resolve cwd c1)) ∧ holds h2 (dget (dirs s) (resolve cwd c2)))) as H.
  { specialize (H s (conj Ht Hf)). rewrite Hgen in H. by apply H. }
  clear s s' Ht Hf Hgen. apply String.eqb_neq in H1 as E1. apply String.eqb_neq in H2 as E2.
  assert (∀ found, _) as S1 by exact (λ found, triple_side dir h1 c1 (resolve cwd c2) (fresh h2) found false A1 E1 A2
    (λ E v Hv, or_intror (eq_rect h1 (λ h, holds h v) Hv h2 (Heq E)))).
  assert (∀ found, _) as S2 by exact (λ found, triple_side dir h2 c2 (resolve cwd c1) (holds h1) found true A2 E2 A1
    (λ E v Hv, eq_rect_r (λ h, holds h v) Hv (Heq (eq_sym E)))).
  unfold generate. rewrite Hr. cbn [orb].
  eapply hoare_seq; [apply triple_remove|]. eapply hoare_bind; [apply hoare_gets|]. intros found.
  eapply hoare_bind; [eapply hoare_pre; [apply S1|]; intros s [-> Hs]; by destruct (Hs H1 H2)|].
  intros b1. eapply hoare_bind; [apply hoare_gets|]. clear found. intros found.
  destruct b1.
  - eapply hoare_bind; [eapply hoare_pre; [apply S2|]; intros s [-> Hs]; by destruct (Hs eq_refl) as (? & ? & ?)|].
    intros b2. apply hoare_ret_post. intros s Hs [= ->]. by destruct (Hs eq_refl) as (_ & ? & ?).
  - eapply (hoare_bind _ _ (λ _ _, True)); [|by intros b2; apply hoare_ret_post].
    intros s _. by destruct (_ s) as [s' [b|e]].
Qed.
End Caches.

(** ** A repository *)

(** The tree is the commit that is checked out, or the branch. *)
Definition toy_git (cmd : list string) (t : string) : string * (Z * string) :=
  match cmd with
  | ["git"; "checkout"; "-f"; h] | ["git"; "checkout"; "-f"; "-q"; h] => (h, (0%Z, ""))
  | ["git"; "rev-parse"; "--short"; h] => (t, (0%Z, (if (h =? "HEAD")%string then t else h) +:+ nl))
  | ["git"; "rev-parse"; _] => (t, (0%Z, "true" +:+ nl))
  | ["git"; "branch"; _] => (t, (0%Z, t +:+ nl))
  | _ => (t, (0%Z, ""))
  end.
Definition toy_kernel_doc (cmd : list string) (t : string) : Z * string * string := (0%Z, join " " cmd +:+ " at " +:+ t, "").
Definition toy_args (files : list string) : args := Args ("v1", "v2") files false false "/linux" false.
Definition toy_state (signals : list (option nat)) : @state string :=
  State "main" [] [("/linux", [])] [] None signals.
Definition toy_main (a : args) : ST (@state string) unit :=
  run_main toy_git toy_kernel_doc (λ _ _, None) (λ _ _, 0%Z) (λ x y, Some (if (x =? y)%string then "" else "-" +:+ x))
    (λ _, ["/linux/Documentation/a.rst"]) (λ _ _, Some (".. kernel-doc:: lib/a.c" +:+ nl)) id
    "/linux" "/linux/tools/docs/kernel-doc" "/linux/test" a.

#[export] Instance toy_laws : CommitLaws toy_git toy_kernel_doc id eq.
Proof.
  split; [apply _| | |by intros cmd t t' ->].
  - by intros h t t' out [= <- _].
  - intros w t. by destruct w as [|w1 [|w2 [|? ?]]]; cbn; repeat case_match; simplify_eq.
Qed.

Example differences_shown : default "" (last (printed (fst (toy_main (toy_args []) (toy_state []))))) =
  "-/linux/tools/docs/kernel-doc --rst lib/a.c at v1".
Proof. vm_compute. reflexivity. Qed.

#[export] Instance toy_branch : BranchLaws toy_git (λ t, strip (t +:+ nl)).
Proof.
  split.
  - by intros t t' out [= _ <-].
  - intros cmd t H. unfold asks in H. apply orb_prop in H as [H%bool_decide_eq_true|H%bool_decide_eq_true];
      [|by subst cmd].
    rewrite !elem_of_cons, elem_of_nil in H.
    destruct cmd as [|w1 [|w2 rest]]; cbn [take] in H; destruct H as [[= -> ->]|[[= -> ->]|[]]]; [|done].
    cbn. repeat case_match; simplify_eq; done.
Qed.

(** Terminated on the branch [main], while the second run of [kernel-doc] is about to
    start. *)
Lemma branch_restored_witness :
  let s := toy_state [None; None; None; Some 15] in
  let s' := fst (toy_main (toy_args ["lib/a.c"]) s) in
  snd (toy_main (toy_args ["lib/a.c"]) s) = Raise (Exit 1) ∧ handler s' = None ∧
  last (git_log s') = Some ["git"; "checkout"; "-f"; "main"] ∧ checked_out s' = "main".
Proof.
  cbv zeta. split; [vm_compute; reflexivity|].
  destruct (branch_restored toy_git (λ t, strip (t +:+ nl)) toy_kernel_doc (λ _ _, None) (λ _ _, 0%Z)
    (λ x y, Some (if (x =? y)%string then "" else "-" +:+ x))
    (λ _, ["/linux/Documentation/a.rst"]) (λ _ _, Some (".. kernel-doc:: lib/a.c" +:+ nl)) id
    "/linux" "/linux/tools/docs/kernel-doc" "/linux/test" (toy_args ["lib/a.c"])
    (toy_state [None; None; None; Some 15]) eq_refl eq_refl) as [Hh [[Hn _]|[Hl [t Ht]]]].
  - exfalso. revert Hn. apply (bool_decide_unpack _). vm_compute. exact I.
  - split; [exact Hh|]. split; [exact Hl|exact Ht].
Defined.

Abbreviation toy_generate :=
  (generate toy_git toy_kernel_doc (λ _ _, None) (λ _ _, 0%Z) "/linux" "/linux/tools/docs/kernel-doc" "/linux/test"
    (toy_args []) "/linux" "partial" "v1" "v2" ".doc_diff_cache/__tmp__" ".doc_diff_cache/partial/v1"
    ".doc_diff_cache/partial/v2" ["lib/a.c"]).
Definition toy_caches : @state string := fst (initialize "/linux" "/linux" (toy_state [])).
Lemma caches_hold_outputs_witness :
  let s' := fst (toy_generate toy_caches) in
  let holds := holds toy_kernel_doc "/linux/tools/docs/kernel-doc" id ["lib/a.c"] in
  toy_generate toy_caches = (s', Ok (true, true)) ∧
  holds "v1" (dget (dirs s') (resolve "/linux" ".doc_diff_cache/partial/v1")) ∧
  holds "v2" (dget (dirs s') (resolve "/linux" ".doc_diff_cache/partial/v2")).
Proof.
  assert (toy_generate toy_caches = (fst (toy_generate toy_caches), Ok (true, true))) as Hg
    by (vm_compute; reflexivity).
  split; [exact Hg|].
  apply (caches_hold_outputs toy_git toy_kernel_doc (λ _ _, None) (λ _ _, 0%Z) "/linux" "/linux/tools/docs/kernel-doc"
    "/linux/test" id eq ["lib/a.c"] ".doc_diff_cache/__tmp__" (toy_args []) "/linux" "partial" "v1" "v2"
    ".doc_diff_cache/partial/v1" ".doc_diff_cache/partial/v2" toy_caches).
  - reflexivity.
  - discriminate.
  - discriminate.
  - split; [discriminate|]. apply (bool_decide_unpack _). vm_compute. exact I.
  - split; [discriminate|]. apply (bool_decide_unpack _). vm_compute. exact I.
  - discriminate.
  - split; [apply (bool_decide_unpack _); vm_compute; exact I|]. intros fs Hf. vm_compute in Hf. injection Hf as <-.
    intros name [? H]. discriminate.
  - right. split; left; vm_compute; reflexivity.
  - exact Hg.
Defined.

(** [--full] changes nothing but a line that is printed. *)
Example full_ignored :
  let run full := fst (toy_main (Args ("v1", "v2") [] full false "/linux" false) (toy_state [])) in
  git_log (run true) = git_log (run false) ∧ dirs (run true) = dirs (run false) ∧
  smem "Output will be stored at: .doc_diff_cache/partial (results will be cached)" (printed (run true)) = true.
Proof. vm_compute. done. Qed.
(** What a run for regressions leaves in the temporary folder ends up in the folder
    of a commit, where it is reported as a difference. *)
Example leftover_reported :
  let s := toy_state [] in
  let '(s, _) := gen_yaml toy_git toy_kernel_doc (λ _ _, Some "") "/linux" "kernel-doc" "/linux"
                   ".doc_diff_cache/__tmp__/out.yaml" ["lib/a.c"] (fst (initialize "/linux" "/linux" s)) in
  smem "  - out.yaml (only in .doc_diff_cache/partial/v1)" (printed (fst (toy_main (toy_args []) s))) = true.
Proof. vm_compute. reflexivity. Qed.
